(* ===== verification/_CoqProject ===== *)
-Q . S2P
Prelude.v
GoLib.v
GoStrings.v
Api.v
Cel.v
CloudEvents.v
Samples.v
Filters.v
Keepers.v
KeeperFacts.v
Ranking.v
Vacuum.v
WatchManager.v
Rbac.v
Operator.v
Webhooks.v
WebhookFacts.v
Writer.v
LogUrls.v
SinkRouter.v
Pipeline.v
LabelSql.v
Pagination.v
Auth.v
ApiRouter.v
Owned.v
RouteType.v
Database.v
SqlText.v
SqlFacts.v
Migrations.v
Installer.v
LogBackend.v
Observability.v
Logging.v
LogRetrieval.v
LogFacts.v
LogQuery.v
ReadBack.v
FakeDatabase.v
ApiServer.v
Startup.v
Managers.v
CliHttp.v
CliConfig.v
CliConfigFacts.v
CliSetup.v
Retriever.v
CliGet.v
CliLogs.v
CliMerge.v
CliPrint.v
ApiServerFacts.v
CliGetFacts.v
RetrieverFacts.v
CliSetupFacts.v
CommandLine.v
CommandFacts.v
NextCommand.v
GetArchived.v
NextVersion.v
Performance.v
