(* ===== verification/Prelude.v ===== *)
(** * KubeArchive: a verification development

    KubeArchive archives Kubernetes resources in a database, deletes them from
    the cluster when a configuration says so, and serves the archive.  This
    library models its core in Rocq and proves what makes it correct.

    ** The program

    - The operator ([cmd/operator]) turns KubeArchiveConfigs into one SinkFilter,
      roles and bindings, watches the kinds the SinkFilter selects, and sends a
      CloudEvent for each object an expression selects.
    - The vacuum ([cmd/vacuum]) is a job that lists resources and sends the events
      of the keep-last rules.
    - The sink ([cmd/sink]) receives the events, writes the objects and their log
      URLs to the database, and deletes from the cluster.
    - The API server ([cmd/api]) authenticates and authorizes requests, reads the
      database and fetches logs from log backends; a command line ([pkg/cmd]) merges
      what it gives with the cluster.
    - The installer ([cmd/installer]) applies the manifests of a release, and a job
      ([integrations/database/postgresql]) migrates the schema of the database.

    ** The files

    - [Prelude] (this file): outcomes of Go calls, iteration over Go maps.
      [GoLib] and [GoStrings]: the fragments of the Go standard library the code
      uses.
    - [Api]: the custom resources of [cmd/operator/api/v1] as records, and what the
      code calls on an unstructured object.  [Cel]: [pkg/cel].  [CloudEvents]:
      [pkg/cloudevents].  [Samples]: concrete instances, for the witnesses.
    - [Filters]: [pkg/filters], the compiled expressions of a SinkFilter.
    - [Keepers]: the buckets of [cmd/vacuum/publisher.go].  [KeeperFacts] and
      [Ranking]: their theory.  [Vacuum]: the jobs of [cmd/vacuum].
    - [WatchManager]: the watches of [sinkfilter_controller.go] and
      [configuration.go].  [Rbac]: [common.go].  [Operator]: the reconcilers.
      [Webhooks], [WebhookFacts]: the five admission webhooks of [cmd/operator/api/v1].
    - [Writer]: [WriteResource] of [pkg/database/sql], for both drivers, and the
      interface [DBWriter] they implement.  [LogUrls]: [pkg/logurls],
      [cmd/sink/logs] and [pkg/files].  [SinkRouter]: [cmd/sink/routers], against
      [DBWriter].  [Pipeline]: the one request [pkg/cloudevents] makes of an event, and what
      becomes of it ([Transport]), and the vacuum and the controller with the sink and the
      database behind them.
    - [LabelSql]: label selectors as SQL, [pkg/models/labels.go] and
      [postgresql.go].  [Pagination]: [cmd/api/pagination] and the list query of
      [reader.go].  [Auth]: the middlewares of [cmd/api/auth] and
      [cmd/api/discovery] over [pkg/cache].  [ApiRouter]: [GetResources].
      [Owned]: the search of Pods in [reader.go].  [RouteType]: the classification of
      requests of [pkg/k8sclient/transport.go], which depends neither on the namespace
      nor on the object.
    - [SqlText], [SqlFacts]: [pkg/database/sql/facade] and the queries of the reader as
      texts with placeholders, for both databases.  [ReadBack]: the sink, the database and
      the API server together.  [FakeDatabase]: [pkg/database/fake].
    - [Database]: [pkg/database/database.go], [env] and [connection.go].
      [Migrations]: [integrations/database/postgresql/main.go].  [Installer]: the
      controller of [cmd/installer] and its webhook.
    - [LogBackend], [LogRetrieval], [LogFacts]: [cmd/api/logging], the configuration
      and the requests of the backends, and the reading of a log.  [LogQuery]: the
      log of a resource and a resource by its uid, [reader.go] and [routers.go].
    - [ApiServer], [ApiServerFacts]: the routes of [cmd/api/main.go] and a request
      from end to end.
    - [Observability]: [pkg/observability] and [workqueue_metrics.go].  [Logging]:
      [pkg/logging] and [pkg/middleware].  [Startup]: the processes of [cmd/sink],
      [cmd/api] and [cmd/vacuum] from start to end.  [Managers]: the start of the
      operator and of the installer.  [NextVersion]: [hack/get-next-version.go].
    - [CliHttp], [CliConfig], [CliSetup], [Retriever], [CliGet], [CliLogs], [CliPrint] and
      the facts about them ([CliConfigFacts], [CliSetupFacts], [RetrieverFacts],
      [CliMerge], [CliGetFacts]): the command line, its calls, its configuration
      file, the interactive setup, the choice of the server and of the resource, the
      commands [get] and [logs], and what [get] prints.  [CommandLine]: the commands of
      [cmd/kubectl-ka] with their flags and arguments, and the exit status; [CommandFacts]
      and [NextCommand], what can panic and the command of the next page.
    - [GetArchived]: the sink, the API server and [get] together.
    - [Performance]: the tools of [test/performance].

    ** How the code is rendered

    A Go function is a function of the same name.  One that fails or panics is
    into [outcome]; a nil dereference, a failed type assertion, an index out of
    range and a negative [make] are [Panic].  A nil pointer is [None].  State is
    explicit: a record of what the code keeps, passed through each operation (the
    reconciler's watches, the cluster, the tables, the cache, the sink's effects);
    the connection loop of a watch is a step relation.  The order in which Go
    visits a map is the class [MapRange]: some permutation, and theorems hold for
    every one.  Integers are [Z]; where overflow could matter the wrap-around is
    [GoLib.wrap64].  Calls that log and spans are left out of the components, and so is
    the text of most errors; what is logged of a request is in [Logging].

    What is not in the repository is a class: the CEL engine ([CelEnv]), objects
    ([Unstructured]), the REST mapper, the Kubernetes API ([KubeClient],
    [KubeAPI], and the faults of [Operator]), PostgreSQL and MariaDB ([Postgres],
    [MariaDB], [LabelEngine], [ResourceEngine], [OwnerEngine], [LogEngine]), base64 and
    time layouts ([GoText]), hashes, URLs ([URLLib]), JSONPath ([LogJSON]), HTTP
    ([Backend], [HTTPLib]), gin ([GinLib]), golang-migrate ([MigrateLib]), go-sqlbuilder
    ([SqlBuilder]), the data of events ([EventJSON]), floating-point numbers ([FloatLib]),
    certificates ([CertLib]), the printers of [get] ([PrintLib]), cobra and pflag with the
    flags of [cli-runtime] ([CobraLib], [LibraryFlags]), the numbers and the CSV files of the
    measures ([Float64], [CsvLib]), semantic versions ([SemVer]), the objects of the tests ([FakeLib]).  Their laws are documented behaviour
    of that code, and each class with laws has a concrete instance.  The clock a CEL
    expression may read with [now()] stands still during one run.

    ** What is shown

    - The whole path (C1 to C3, C5 to C7, C37): what the vacuum and the controller select is
      archived before it is deleted, whatever fails; an object the sink has answered with a
      success is read back, by its uid and in the pages of a list, as a document that decodes
      to it (the text is the one PostgreSQL makes of it in a [jsonb] column), the log of its
      Pod is found, and [kubectl ka get] prints it among the objects of the archive; every
      event is answered when its request meets no fault.  An event whose request fails is
      not sent again.
    - Vacuum (C4, C12, C13): a run sends one deletion for each matched resource that no
      bucket kept and one archival for each selected other one; buckets hold the best
      [Count] resources; a namespace can only tighten the cluster's rules.  Lemmas
      beside them tell which keys are visited, and the panic without a SinkFilter.
    - Watches (C14): after a reconciliation that ends the watches are the wanted ones, and
      those that were stopped are stopped whole.  It ends but for two things that the loop of
      a watch and its workers decide ([StopView]): the loop may clear the interface between
      the check and the call of [Stop], a panic, and a worker may not return.  Lemmas tell what is queued and resumed, and the backoff.
    - Operator (C15, C16, C18) and policy rules (C17): what a reconciliation installs,
      that faults never release a configuration whose entry remains, and the filters end
      to end; rules are compared up to order, and without their resource names.
    - Database writes (C19, C20): writes are atomic, keep the newest row, never go back.
    - Log URLs (C21): interpolation ends when no name refers to itself.
    - Sink (C22, C23): the statuses; nothing is deleted that is not stored.
    - Queries (C8, C24, C25, C38, C39): nothing of a request is in the text of a query; the
      SQL of label filters means what the selector says, and two conditions more; pages
      cover the list; MariaDB does not search patterns; the search of the Pods below a
      resource ends and finds them.  Lemma [listQuery_refines]: the texts of a list are what
      [Pagination] selects.
    - Access (C9): a request that reaches a handler was allowed what its route needs.
    - Command line (C10, C11, C26 to C29, C34): the command a page proposes is read back as
      the next page of the list its specification resolves to; no command panics, but on a configuration file with
      a null entry or without clients; what [config set] does to the file; a printed
      specification names a resource that answers to it; what a page of [get] shows, and no index out of
      range; where the paths of [get] are routed.
    - Webhooks (C30, C31): the accepted keep-last rules take effect in a cluster that
      configures their kind once, and what is accepted.
    - Logs (C32, C33, C40): requests go to the host whose headers they carry; pages deliver
      the whole log; a tail is the last lines.
    - Schema and installation (C35, C36): an upgrade ends, and interleaves migrations
      and scripts in order when the version can be read; a deletion asks for all that the
      status knows before it lets the installation go, and does not wait for it.
    - Processes: theorems without a number tell when the sink and the API server serve and
      how they end, the certificates of the installer, and what is logged of a request.

    Theorems without a claim number are the lemmas of these, and what else the modelling
    showed of the code.

    ** Fuel

    [interpolateString], [getOwnedPodsUuids], [walk], [streamPages] and [stepLoop] take
    a number of calls.  C21, C25, C33, C35 and C39 give a number
    that is enough (the longest chain of names, one page more than there are resources, one
    request more than there are entries, one step more than there are versions, the longest
    chain of owners); [interpolateString_cyclic], [getOwnedPodsUuids_cyclic] and
    [repeated_page_never_ends] the configurations for which none is.
    [BinarySearchFunc] takes the length of its slice, which [BinarySearchFunc_spec]
    shows to be enough, and [freshName] the number of the names that are taken.

    ** What is not modelled

    MariaDB's conditions on labels are stubs in the code.  Left out are exporters of traces
    and metrics, HTTP servers, the registration of webhooks with their library, the texts of
    the help and of the prompts, generated code, the test harness ([test/main.go]) and, of
    the tools that measure performance, the downloads and the calls to Prometheus.  What is read back is read of PostgreSQL,
    and the lists of it are those without conditions on names, labels or times.
    Concurrency is modelled where the code's correctness rests on it (the loop of a watch,
    its stop by the reconciler, the delivery of events); handlers of the sink and of the API server
    run one at a time. *)
From stdpp Require Export base numbers gmap strings list fin_maps sorting.
From Stdlib Require Export ZArith Lia Ascii.

(** ** Outcomes of Go calls

    A Go function that returns [(T, error)] and may also panic (nil
    dereference, failed type assertion, index out of range, negative
    [make]) is a function into [outcome E T]. *)
Inductive outcome (E A : Type) : Type :=
| Ok (a : A)
| Err (e : E)
| Panic.
Arguments Ok {E A} a.
Arguments Err {E A} e.
Arguments Panic {E A}.

#[export] Instance outcome_ret {E} : MRet (outcome E) := fun A a => Ok a.
#[export] Instance outcome_bind {E} : MBind (outcome E) :=
  fun A B f m => match m with Ok a => f a | Err e => Err e | Panic => Panic end.
#[export] Instance outcome_fmap {E} : FMap (outcome E) :=
  fun A B f m => match m with Ok a => Ok (f a) | Err e => Err e | Panic => Panic end.

(** ** Iteration over Go maps

    [range m] visits the entries in an order of the run's choosing: some
    permutation of any fixed enumeration. *)
Class MapRange := {
  range {A} : list A → list A;
  range_perm {A} (l : list A) : range l ≡ₚ l;
}.

(** ** Generic lemmas *)

Lemma filter_none {A} (P : A → Prop) `{!∀ x, Decision (P x)} (l : list A) :
  (∀ x, x ∈ l → ¬ P x) → filter P l = [].
Proof.
  induction l as [|x l IH]; intros Hn; [done|].
  rewrite filter_cons, decide_False; [|apply Hn; by left].
  apply IH. intros y Hy. apply Hn. by right.
Qed.

Lemma filter_all {A} (P : A → Prop) `{!∀ x, Decision (P x)} (l : list A) :
  (∀ x, x ∈ l → P x) → filter P l = l.
Proof.
  induction l as [|x l IH]; intros Hp; [done|].
  rewrite filter_cons, decide_True by (apply Hp; by left).
  f_equal. apply IH. intros y Hy. apply Hp. by right.
Qed.

Lemma StronglySorted_filter {A} (R : relation A) (P : A → Prop) `{!∀ x, Decision (P x)} (l : list A) :
  StronglySorted R l → StronglySorted R (filter P l).
Proof.
  induction 1 as [|x l _ IH Hx]; [constructor|]. rewrite filter_cons.
  destruct (decide (P x)); [|done]. constructor; [done|].
  rewrite Forall_forall in Hx |- *. intros y [_ Hy]%list_elem_of_filter. by apply Hx.
Qed.

Lemma filter_length_le {A} (P : A → Prop) `{!∀ x, Decision (P x)} l : length (filter P l) ≤ length l.
Proof. induction l as [|x l IH]; [done|]. rewrite filter_cons. case_decide; cbn [length]; lia. Qed.

Lemma bind_nil {A B} (f : A → list B) (l : list A) : l ≫= f = [] ↔ ∀ x, x ∈ l → f x = [].
Proof.
  induction l as [|x l IH]; cbn; [set_solver|].
  rewrite app_nil, IH. set_solver.
Qed.

Lemma concat_imap_nil {A B} (f : nat → A → list B) (l : list A) :
  concat (imap f l) = [] ↔ ∀ i x, l !! i = Some x → f i x = [].
Proof.
  rewrite concat_nil_Forall, Forall_lookup. split.
  - intros Hf i x Hx. apply (Hf i). by rewrite list_lookup_imap, Hx.
  - intros Hf i y. rewrite list_lookup_imap. destruct (l !! i) eqn:E; [|done].
    intros [= <-]. by apply Hf.
Qed.

(** A map filled by a loop holds the last value of each key. *)
Lemma foldl_insert_last {A V} (k : A → string) (v : A → V) (l : list A) (x : string) :
  foldl (λ m a, <[k a := v a]> m) (∅ : gmap string V) l !! x =
  v <$> last (filter (λ a, k a = x) l).
Proof.
  induction l as [|a l IH] using rev_ind; [by cbn [foldl]; rewrite lookup_empty|].
  rewrite foldl_snoc, filter_app, filter_cons, filter_nil.
  destruct (decide (k a = x)) as [<-|Hk].
  - by rewrite lookup_insert_eq, last_snoc.
  - by rewrite lookup_insert_ne, IH, app_nil_r.
Qed.

(** ** Tactics *)

(** Case analysis on a comparison of strings in the goal. *)
Ltac case_eqb :=
  match goal with
  | |- context [String.eqb ?a ?b] =>
      let E := fresh "E" in destruct (String.eqb_spec a b) as [E|E]
  end.
