(* ===== verification/GoLib.v ===== *)
(** * Go standard library fragments used by the program

    Strings are byte strings ([string]); indices of slices are Go [int]s and
    are kept as [Z], an access out of range is [Panic].  Modelled here:
    package [strings] (one-byte separators), [slices.BinarySearchFunc],
    [sort.Strings], [copy], two's complement [int64]. *)
From S2P Require Import Prelude.

(** ** Package [strings] *)

Definition HasPrefix (s p : string) : bool := String.prefix p s.

Fixpoint sdrop (n : nat) (s : string) : string :=
  match n, s with
  | O, _ => s
  | S n, String _ s => sdrop n s
  | S _, EmptyString => EmptyString
  end.

Definition HasSuffix (s suf : string) : bool :=
  (String.length suf <=? String.length s)%nat
  && String.eqb (sdrop (String.length s - String.length suf) s) suf.

(** [strings.TrimPrefix] and [strings.TrimSuffix]. *)
Definition TrimPrefix (s p : string) : string :=
  if HasPrefix s p then sdrop (String.length p) s else s.

Definition TrimSuffix (s suf : string) : string :=
  if HasSuffix s suf
  then String.substring 0 (String.length s - String.length suf) s else s.

(** [strings.Split s sep] for a separator of one byte. *)
Fixpoint Split (sep : Ascii.ascii) (s : string) : list string :=
  match s with
  | EmptyString => [""]
  | String c s' =>
      if Ascii.eqb c sep then "" :: Split sep s'
      else match Split sep s' with
           | p :: ps => String c p :: ps
           | [] => [String c ""]
           end
  end.

(** [strings.Join]. *)
Definition Join (sep : Ascii.ascii) (parts : list string) : string :=
  String.concat (String sep "") parts.

(** [strings.Contains s (string c)] for one byte. *)
Fixpoint ContainsByte (s : string) (c : Ascii.ascii) : bool :=
  match s with
  | EmptyString => false
  | String d s' => Ascii.eqb d c || ContainsByte s' c
  end.

(** ASCII white space, as [unicode.IsSpace] on one-byte runes. *)
Definition IsSpace (c : Ascii.ascii) : bool :=
  let n := Ascii.nat_of_ascii c in
  ((9 <=? n) && (n <=? 13) || (n =? 32))%nat.

Fixpoint TrimLeftSpace (s : string) : string :=
  match s with
  | EmptyString => EmptyString
  | String c s' => if IsSpace c then TrimLeftSpace s' else s
  end.

(** [strings.TrimSpace] on ASCII strings. *)
Definition TrimSpace (s : string) : string :=
  String.rev (TrimLeftSpace (String.rev (TrimLeftSpace s))).

(** [strings.Compare], and the order Go's [<] uses on strings. *)
Definition Compare (a b : string) : Z :=
  match String.compare a b with Eq => 0 | Lt => -1 | Gt => 1 end.

(** [slices.Compare] on strings. *)
Fixpoint CompareSlices (s1 s2 : list string) : Z :=
  match s1, s2 with
  | [], [] => 0
  | [], _ :: _ => -1
  | _ :: _, [] => 1
  | v1 :: s1, v2 :: s2 =>
      if (Compare v1 v2 =? 0)%Z then CompareSlices s1 s2 else Compare v1 v2
  end.

(** [strings.ToLower] on ASCII strings. *)
Definition ToLowerByte (c : Ascii.ascii) : Ascii.ascii :=
  let n := Ascii.nat_of_ascii c in
  if ((65 <=? n) && (n <=? 90))%nat then Ascii.ascii_of_nat (n + 32) else c.

Fixpoint ToLower (s : string) : string :=
  match s with
  | EmptyString => EmptyString
  | String c s => String (ToLowerByte c) (ToLower s)
  end.

(** [sort.Strings] / [slices.Sorted]. *)
Definition SortStrings (l : list string) : list string := merge_sort String.le l.

(** [slices.Sorted(maps.Keys(m))]. *)
Definition SortedKeys {A} (m : gmap string A) : list string :=
  SortStrings (elements (dom m)).

(** ** Slices *)

(** [x[i]] and [x[i] = v]: out of range panics. *)
Definition index {E A} (x : list A) (i : Z) : outcome E A :=
  if (i <? 0)%Z then Panic
  else match x !! Z.to_nat i with Some a => Ok a | None => Panic end.

Definition set_index {E A} (x : list A) (i : Z) (a : A) : outcome E (list A) :=
  if (i <? 0)%Z || (Z.of_nat (length x) <=? i)%Z then Panic
  else Ok (<[Z.to_nat i := a]> x).

(** [make([]T, n)]: a negative length panics. *)
Definition make_slice {E A} (zero : A) (n : Z) : outcome E (list A) :=
  if (n <? 0)%Z then Panic else Ok (replicate (Z.to_nat n) zero).

(** [copy(x[d:], x[s:e])] on one backing array: [min] of the two lengths
    elements are moved, as with [memmove]. *)
Definition copy_within {A} (x : list A) (d s e : nat) : list A :=
  let src := take (length x - d) (take (e - s) (drop s x)) in
  take d x ++ src ++ drop (d + length src) x.

(** [slices.BinarySearchFunc]: the loop [for i < j], [h := (i+j)/2].  Every
    round shortens [j - i], so [length x] rounds are enough. *)
Fixpoint search_loop {A T} (fuel : nat) (x : list A) (target : T)
    (cmp : A -> T -> Z) (i j : nat) : nat :=
  match fuel with
  | O => i
  | S fuel =>
      if (i <? j)%nat then
        let h := ((i + j) / 2)%nat in
        match x !! h with
        | Some e =>
            if (cmp e target <? 0)%Z
            then search_loop fuel x target cmp (S h) j
            else search_loop fuel x target cmp i h
        | None => i
        end
      else i
  end.

Definition BinarySearchFunc {A T} (x : list A) (target : T) (cmp : A -> T -> Z)
    : nat * bool :=
  let i := search_loop (S (length x)) x target cmp 0 (length x) in
  (i, match x !! i with Some e => (cmp e target =? 0)%Z | None => false end).

(** ** [int64] *)

Definition wrap64 (z : Z) : Z := ((z + 2 ^ 63) mod 2 ^ 64 - 2 ^ 63)%Z.
Definition int64_ok (z : Z) : Prop := (- 2 ^ 63 <= z < 2 ^ 63)%Z.

(** ** [time] *)

(** The zero time, the first of January of the year 1, in nanoseconds since the epoch. *)
Definition zeroTime : Z := (-62135596800000000000)%Z.

(** ** [net/http]: statuses *)

Definition StatusOK : Z := 200.
Definition StatusAccepted : Z := 202.
Definition StatusBadRequest : Z := 400.
Definition StatusUnprocessableEntity : Z := 422.
Definition StatusInternalServerError : Z := 500.
Definition StatusServiceUnavailable : Z := 503.
Definition StatusUnauthorized : Z := 401.
Definition StatusNotFound : Z := 404.

(** ** Lemmas on strings *)

Lemma string_app_cons c (a b : string) : String c a +:+ b = String c (a +:+ b).
Proof. reflexivity. Qed.

Lemma string_app_nil (b : string) : "" +:+ b = b.
Proof. reflexivity. Qed.

(** Does a byte occur in a string. *)
Definition free_of (c : Ascii.ascii) (s : string) : Prop := ContainsByte s c = false.

Lemma free_of_cons c d s : free_of c (String d s) ↔ d ≠ c ∧ free_of c s.
Proof.
  unfold free_of; simpl. rewrite orb_false_iff, Ascii.eqb_neq. done.
Qed.

Lemma Split_nonempty sep s : Split sep s ≠ [].
Proof.
  destruct s as [|c s]; simpl; [done|].
  destruct (Ascii.eqb c sep); [done|]. by destruct (Split sep s).
Qed.

Lemma Split_free sep s : free_of sep s → Split sep s = [s].
Proof.
  induction s as [|c s IH]; [done|]. rewrite free_of_cons. intros [Hc Hs].
  simpl. rewrite (proj2 (Ascii.eqb_neq c sep)) by done. by rewrite IH.
Qed.

Lemma Split_app sep a b :
  free_of sep a → Split sep (a +:+ String sep b) = a :: Split sep b.
Proof.
  induction a as [|c a IH]; simpl.
  - intros _. by rewrite Ascii.eqb_refl.
  - rewrite free_of_cons. intros [Hc Ha].
    rewrite (proj2 (Ascii.eqb_neq c sep)) by done. by rewrite IH.
Qed.

Lemma Split_two sep s : ContainsByte s sep = true → ∃ a b l, Split sep s = a :: b :: l.
Proof.
  induction s as [|c s IH]; cbn [ContainsByte Split]; [done|].
  destruct (Ascii.eqb c sep).
  - intros _. destruct (Split sep s) as [|q qs] eqn:E; [by destruct (Split_nonempty sep s)|].
    by eexists _, _, _.
  - cbn [orb]. intros H. destruct (IH H) as (a & b & l & ->). by eexists _, _, _.
Qed.

Lemma Split_app_long sep a b :
  ContainsByte a sep = true → ∃ x y z l, Split sep (a +:+ String sep b) = x :: y :: z :: l.
Proof.
  induction a as [|c a IH]; [done|]. rewrite string_app_cons. cbn [ContainsByte Split].
  destruct (Ascii.eqb c sep) eqn:Ec; cbn [orb].
  - intros _. destruct (Split_two sep (a +:+ String sep b)) as (x & y & l & ->); [|by eexists _, _, _, _].
    clear. induction a as [|d a IH].
    + rewrite string_app_nil. cbn [ContainsByte]. by rewrite Ascii.eqb_refl.
    + rewrite string_app_cons. cbn [ContainsByte]. by rewrite IH, orb_true_r.
  - intros H. destruct (IH H) as (x & y & z & l & ->). by eexists _, _, _, _.
Qed.

Lemma Split_parts_free sep s p : p ∈ Split sep s → free_of sep p.
Proof.
  revert p; induction s as [|c s IH]; simpl; intros p.
  - intros ->%list_elem_of_singleton. done.
  - destruct (Ascii.eqb_spec c sep) as [->|Hne].
    + intros [->|Hp]%elem_of_cons; [done|]. by apply IH.
    + destruct (Split sep s) as [|q qs] eqn:E.
      * intros ->%list_elem_of_singleton. by apply free_of_cons.
      * intros [->|Hp]%elem_of_cons.
        -- apply free_of_cons. split; [done|]. apply IH. by left.
        -- apply IH. by right.
Qed.

Lemma Join_cons sep p q ps : Join sep (p :: q :: ps) = p +:+ String sep (Join sep (q :: ps)).
Proof. done. Qed.

Lemma Join_Split sep s : Join sep (Split sep s) = s.
Proof.
  induction s as [|c s IH]; [done|]. simpl.
  destruct (Ascii.eqb_spec c sep) as [->|Hne].
  - destruct (Split sep s) as [|q qs] eqn:E; [by destruct (Split_nonempty sep s)|].
    rewrite Join_cons. simpl. f_equal. by rewrite <-IH.
  - destruct (Split sep s) as [|q qs] eqn:E; [by destruct (Split_nonempty sep s)|].
    destruct qs as [|r rs]; [by rewrite <-IH|].
    rewrite <-IH, !Join_cons. done.
Qed.

Lemma Split_Join sep ps :
  ps ≠ [] → Forall (free_of sep) ps → Split sep (Join sep ps) = ps.
Proof.
  induction ps as [|p ps IH]; [done|]. intros _ [Hp Hps]%Forall_cons.
  destruct ps as [|q ps]; [by apply Split_free|].
  rewrite Join_cons, Split_app by done. f_equal. by apply IH.
Qed.

Lemma string_app_assoc (a b c : string) : (a +:+ b) +:+ c = a +:+ (b +:+ c).
Proof. induction a as [|x a IH]; [done|]. by rewrite !string_app_cons, IH. Qed.

Lemma string_length_app (a b : string) :
  String.length (a +:+ b) = (String.length a + String.length b)%nat.
Proof. induction a as [|x a IH]; [done|]. rewrite string_app_cons. simpl. by rewrite IH. Qed.

Lemma sdrop_app (a b : string) : sdrop (String.length a) (a +:+ b) = b.
Proof. induction a as [|x a IH]; [done|]. rewrite string_app_cons. done. Qed.

Lemma sdrop_split n s : (n ≤ String.length s)%nat → ∃ p, s = p +:+ sdrop n s.
Proof.
  revert s; induction n as [|n IH]; intros s Hn; [by exists ""|].
  destruct s as [|c s]; simpl in *; [lia|].
  destruct (IH s) as [p Hp]; [lia|]. exists (String c p). rewrite string_app_cons. by f_equal.
Qed.

Lemma HasSuffix_spec s suf : HasSuffix s suf = true ↔ ∃ p, s = p +:+ suf.
Proof.
  unfold HasSuffix. rewrite andb_true_iff, Nat.leb_le, String.eqb_eq. split.
  - intros [Hl He]. destruct (sdrop_split (String.length s - String.length suf) s) as [p Hp]; [lia|].
    exists p. by rewrite He in Hp.
  - intros [p ->]. rewrite string_length_app. split; [lia|].
    replace (String.length p + String.length suf - String.length suf)%nat with (String.length p) by lia.
    apply sdrop_app.
Qed.

Lemma HasPrefix_spec s p : HasPrefix s p = true ↔ ∃ t, s = p +:+ t.
Proof.
  unfold HasPrefix. revert s; induction p as [|c p IH]; intros s.
  - split; [intros _; by exists s|intros _; by destruct s].
  - destruct s as [|d s]; [split; [done|by intros [t ?]]|]. cbn.
    destruct (Ascii.ascii_dec c d) as [->|Hne].
    + rewrite IH. split; intros [t Ht]; exists t.
      * by rewrite string_app_cons, <-Ht.
      * rewrite string_app_cons in Ht. by injection Ht.
    + split; [done|]. intros [t Ht]. rewrite string_app_cons in Ht. by injection Ht as ->.
Qed.

Lemma HasSuffix_app p suf : HasSuffix (p +:+ suf) suf = true.
Proof. apply HasSuffix_spec. by exists p. Qed.

(** Of two suffixes of a string one is a suffix of the other. *)
Lemma string_app_suffixes (p q a b : string) :
  p +:+ a = q +:+ b → HasSuffix a b = true ∨ HasSuffix b a = true.
Proof.
  revert q; induction p as [|c p IH]; intros q.
  - rewrite string_app_nil. intros ->. left. apply HasSuffix_app.
  - destruct q as [|d q].
    + rewrite string_app_nil. intros <-. right. apply HasSuffix_app.
    + rewrite !string_app_cons. intros [= _ He]. by apply (IH q).
Qed.

Lemma HasSuffix_disjoint p a b :
  HasSuffix a b || HasSuffix b a = false → HasSuffix (p +:+ a) b = false.
Proof.
  intros [Ha Hb]%orb_false_iff. destruct (HasSuffix (p +:+ a) b) eqn:E; [|done].
  apply HasSuffix_spec in E as [q E]. apply string_app_suffixes in E as [?|?]; congruence.
Qed.

Lemma HasPrefix_app p t : HasPrefix (p +:+ t) p = true.
Proof. apply HasPrefix_spec. by exists t. Qed.

Lemma Compare_eq a b : Compare a b = 0%Z ↔ a = b.
Proof.
  unfold Compare. destruct (String.compare a b) eqn:E; split; intros H; try done.
  - by apply String.compare_eq_iff.
  - subst. pose proof (String.compare_antisym b b) as HH. rewrite E in HH. done.
  - subst. pose proof (String.compare_antisym b b) as HH. rewrite E in HH. done.
Qed.

Lemma Compare_refl a : Compare a a = 0%Z.
Proof. by apply Compare_eq. Qed.

Lemma Compare_le a b : (Compare a b <= 0)%Z ↔ String.le a b.
Proof.
  unfold Compare, String.le, String.leb.
  destruct (String.compare a b); cbn; split; intros; try done; lia.
Qed.

Lemma Compare_opp a b : Compare b a = (- Compare a b)%Z.
Proof.
  unfold Compare. pose proof (String.compare_antisym a b) as Ha. rewrite Ha.
  by destruct (String.compare b a).
Qed.

Lemma CompareSlices_eq s1 s2 : CompareSlices s1 s2 = 0%Z ↔ s1 = s2.
Proof.
  revert s2; induction s1 as [|v1 s1 IH]; intros [|v2 s2]; cbn; try done.
  destruct (Z.eqb_spec (Compare v1 v2) 0) as [He|Hne].
  - rewrite IH. apply Compare_eq in He as ->. naive_solver.
  - split; [done|]. intros [= -> ->]. by rewrite Compare_refl in Hne.
Qed.

Lemma CompareSlices_opp s1 s2 : CompareSlices s2 s1 = (- CompareSlices s1 s2)%Z.
Proof.
  revert s2; induction s1 as [|v1 s1 IH]; intros [|v2 s2]; cbn; try done.
  rewrite (Compare_opp v1 v2).
  destruct (Z.eqb_spec (Compare v1 v2) 0) as [->|Hne]; cbn; [apply IH|].
  rewrite (proj2 (Z.eqb_neq (- Compare v1 v2) 0)) by lia. done.
Qed.

Lemma CompareSlices_trans s1 s2 s3 :
  (CompareSlices s1 s2 <= 0)%Z → (CompareSlices s2 s3 <= 0)%Z → (CompareSlices s1 s3 <= 0)%Z.
Proof.
  revert s2 s3; induction s1 as [|v1 s1 IH]; intros [|v2 s2] [|v3 s3]; cbn; try (intros; lia).
  destruct (Z.eqb_spec (Compare v1 v2) 0) as [E1|N1], (Z.eqb_spec (Compare v2 v3) 0) as [E2|N2].
  - apply Compare_eq in E1 as ->. apply Compare_eq in E2 as ->. rewrite Compare_refl. cbn. apply IH.
  - apply Compare_eq in E1 as ->. rewrite (proj2 (Z.eqb_neq (Compare v2 v3) 0)) by done. done.
  - apply Compare_eq in E2 as ->. rewrite (proj2 (Z.eqb_neq (Compare v1 v3) 0)) by done. done.
  - rewrite !Compare_le. intros H12 H23. destruct (Z.eqb_spec (Compare v1 v3) 0) as [E|N].
    + apply Compare_eq in E as ->. exfalso. apply N1, Compare_eq.
      by apply (anti_symm String.le).
    + rewrite Compare_le. by etrans.
Qed.

Lemma SortStrings_perm l : SortStrings l ≡ₚ l.
Proof. apply merge_sort_Permutation. Qed.

Lemma SortStrings_unique l1 l2 : l1 ≡ₚ l2 → SortStrings l1 = SortStrings l2.
Proof.
  intros Hp. apply (Sorted_unique String.le).
  - apply Sorted_merge_sort, _.
  - apply Sorted_merge_sort, _.
  - by rewrite !SortStrings_perm.
Qed.

Lemma elem_of_SortStrings l s : s ∈ SortStrings l ↔ s ∈ l.
Proof. by rewrite SortStrings_perm. Qed.

Lemma elem_of_SortedKeys {A} (m : gmap string A) k : k ∈ SortedKeys m ↔ is_Some (m !! k).
Proof. unfold SortedKeys. by rewrite elem_of_SortStrings, elem_of_elements, elem_of_dom. Qed.

Lemma NoDup_SortedKeys {A} (m : gmap string A) : NoDup (SortedKeys m).
Proof. unfold SortedKeys. rewrite SortStrings_perm. apply NoDup_elements. Qed.

(** ** Lemmas on slices *)

Lemma index_Ok {E A} (x : list A) i a :
  (0 <= i)%Z → x !! Z.to_nat i = Some a → index (E:=E) x i = Ok a.
Proof. intros Hi Hx. unfold index. rewrite (proj2 (Z.ltb_ge i 0)) by done. by rewrite Hx. Qed.

Lemma set_index_Ok {E A} (x : list A) i a :
  (0 <= i < Z.of_nat (length x))%Z →
  set_index (E:=E) x i a = Ok (<[Z.to_nat i := a]> x).
Proof.
  intros Hi. unfold set_index. rewrite (proj2 (Z.ltb_ge i 0)) by lia.
  by rewrite (proj2 (Z.leb_gt _ i)) by lia.
Qed.

Section search.
  Context {A T : Type} (x : list A) (target : T) (cmp : A → T → Z).

  (** What the loop guarantees without any assumption on [cmp]: the element
      before the result compares less, the one at the result does not. *)
Lemma search_loop_spec fuel i j :
    (i ≤ j)%nat → (j ≤ length x)%nat → (j - i < fuel)%nat →
    (∀ e k, i = S k → x !! k = Some e → (cmp e target < 0)%Z) →
    (∀ e, x !! j = Some e → (0 <= cmp e target)%Z) →
    let r := search_loop fuel x target cmp i j in
    (r ≤ length x)%nat ∧
    (∀ e k, r = S k → x !! k = Some e → (cmp e target < 0)%Z) ∧
    (∀ e, x !! r = Some e → (0 <= cmp e target)%Z).
Proof.
    revert i j; induction fuel as [|fuel IH]; intros i j Hij Hj Hf Hlo Hhi; [lia|].
    cbn [search_loop]. destruct (Nat.ltb_spec i j) as [Hlt|Hge].
    - pose proof (Nat.Div0.div_lt_upper_bound (i + j) 2 j ltac:(lia)).
      pose proof (Nat.div_le_lower_bound (i + j) 2 i ltac:(lia) ltac:(lia)).
      destruct (lookup_lt_is_Some_2 x ((i + j) / 2)) as [e He]; [lia|].
      rewrite He. destruct (Z.ltb_spec (cmp e target) 0).
      + apply IH; [lia|done|lia| |done].
        intros e' k Hk He'. apply eq_add_S in Hk as <-.
        rewrite He in He'. by injection He' as <-.
      + apply IH; [lia|lia|lia|done|].
        intros e' He'. rewrite He in He'. by injection He' as <-.
    - assert (i = j) as -> by lia. done.
Qed.

Lemma BinarySearchFunc_spec :
    let r := (BinarySearchFunc x target cmp).1 in
    (r ≤ length x)%nat ∧
    (∀ e k, r = S k → x !! k = Some e → (cmp e target < 0)%Z) ∧
    (∀ e, x !! r = Some e → (0 <= cmp e target)%Z).
Proof.
    intros r. subst r. unfold BinarySearchFunc. cbn [fst].
    apply search_loop_spec; [lia|done|lia|done|].
    intros e He. apply lookup_lt_Some in He. lia.
Qed.

  (** On a slice whose elements below the target form a prefix, the result is
      the length of that prefix. *)
Lemma BinarySearchFunc_partition l1 l2 :
    x = l1 ++ l2 →
    Forall (λ e, (cmp e target < 0)%Z) l1 → Forall (λ e, (0 <= cmp e target)%Z) l2 →
    (BinarySearchFunc x target cmp).1 = length l1.
Proof.
    intros Hx H1 H2. rewrite Forall_lookup in H1, H2.
    destruct BinarySearchFunc_spec as (Hr & Hlo & Hhi).
    set (r := (BinarySearchFunc x target cmp).1) in *.
    destruct (lt_eq_lt_dec r (length l1)) as [[Hlt|?]|Hgt]; [|done|].
    - destruct (lookup_lt_is_Some_2 l1 r Hlt) as [e He].
      specialize (H1 _ _ He). specialize (Hhi e). rewrite Hx, lookup_app_l in Hhi by done.
      specialize (Hhi He). lia.
    - destruct r as [|k] eqn:Hrk; [lia|].
      assert (k < length x)%nat as Hk by lia.
      destruct (lookup_lt_is_Some_2 x k Hk) as [e He].
      specialize (Hlo e k eq_refl He). rewrite Hx, lookup_app_r in He by lia.
      specialize (H2 _ _ He). lia.
Qed.
End search.

Lemma copy_within_shift {A} (x : list A) i a :
  (i < length x)%nat →
  <[i := a]> (copy_within x (S i) i (length x - 1)) =
  take i x ++ a :: take (length x - 1 - i) (drop i x).
Proof.
  intros Hi. unfold copy_within.
  rewrite (take_ge _ (length x - S i)) by (rewrite length_take; lia).
  rewrite length_take, length_drop.
  rewrite (drop_ge x (S i + _)) by lia. rewrite app_nil_r.
  destruct (lookup_lt_is_Some_2 x i Hi) as [b Hb].
  erewrite take_S_r by done. rewrite <-app_assoc. simpl.
  assert (length (take i x) = i) as Hti by (rewrite length_take; lia).
  rewrite <-Hti at 1. rewrite <-(Nat.add_0_r (length (take i x))).
  rewrite insert_app_r. done.
Qed.

Lemma wrap64_id z : int64_ok z → wrap64 z = z.
Proof. unfold int64_ok, wrap64. intros H. rewrite Z.mod_small; lia. Qed.

Lemma wrap64_ok z : int64_ok (wrap64 z).
Proof.
  unfold int64_ok, wrap64. pose proof (Z.mod_pos_bound (z + 2 ^ 63) (2 ^ 64) ltac:(lia)). lia.
Qed.

Create HintDb golib discriminated.
Create Rewrite HintDb golib.
#[export] Hint Resolve Split_nonempty Split_free HasPrefix_app HasSuffix_app wrap64_ok : golib.
#[export] Hint Rewrite string_app_cons string_app_nil Compare_refl : golib.

