(* ===== verification/GoStrings.v ===== *)
(** * More of [strings], and [strconv]

    Searching and replacing texts, splitting at white space, integers as decimal
    texts. *)
From S2P Require Import Prelude GoLib.
From Stdlib Require DecimalString DecimalZ.

(** ** [strconv] *)

Definition FormatInt (z : Z) : string := DecimalString.NilZero.string_of_int (Z.to_int z).

(** Digits with an optional sign. *)
Definition parseDigits (s : string) : option Z :=
  match s with
  | String "+"%char s => Z.of_uint <$> DecimalString.NilZero.uint_of_string s
  | _ => Z.of_int <$> DecimalString.NilZero.int_of_string s
  end.

(** [ParseInt] in base 10 on 64 bits, and [Atoi]. *)
Definition ParseInt (s : string) : option Z :=
  match parseDigits s with
  | Some n => if (-2 ^ 63 <=? n)%Z && (n <? 2 ^ 63)%Z then Some n else None
  | None => None
  end.

(** ** [strings] *)

(** [strings.ReplaceAll] of one byte by another. *)
Fixpoint ReplaceByte (c d : Ascii.ascii) (s : string) : string :=
  match s with
  | EmptyString => EmptyString
  | String e s => String (if Ascii.eqb e c then d else e) (ReplaceByte c d s)
  end.

Definition nonempty (s : string) : bool := negb (String.eqb s "").

(** [strings.ReplaceAll] for a non-empty [old]; [skip] bytes of a replaced
    occurrence are still to be dropped. *)
Fixpoint replaceFrom (skip : nat) (old new s : string) : string :=
  match s with
  | EmptyString => EmptyString
  | String c s' =>
      match skip with
      | S skip => replaceFrom skip old new s'
      | 0%nat =>
          if HasPrefix s old then new +:+ replaceFrom (pred (String.length old)) old new s'
          else String c (replaceFrom 0 old new s')
      end
  end.

Definition ReplaceAll (s old new : string) : string := replaceFrom 0 old new s.

(** [strings.Contains]. *)
Fixpoint Contains (s sub : string) : bool :=
  HasPrefix s sub ||
  match s with
  | EmptyString => false
  | String _ s => Contains s sub
  end.

(** [strings.Index]; [None] is -1. *)
Fixpoint Index (s sub : string) : option nat :=
  if HasPrefix s sub then Some 0%nat
  else match s with
       | EmptyString => None
       | String _ s => S <$> Index s sub
       end.

(** [strings.EqualFold] on ASCII texts. *)
Definition EqualFold (s t : string) : bool := String.eqb (ToLower s) (ToLower t).

(** [s[lo:hi]]. *)
Definition sliceString {E} (lo hi : nat) (s : string) : outcome E string :=
  if ((lo <=? hi) && (hi <=? String.length s))%nat then Ok (String.substring lo (hi - lo) s) else Panic.

(** [strings.SplitN s sep 2] for a separator of one byte: the text after the first
    separator, if there is one. *)
Fixpoint Cut (sep : ascii) (s : string) : string * option string :=
  match s with
  | EmptyString => ("", None)
  | String c s =>
      if Ascii.eqb c sep then ("", Some s)
      else let '(a, b) := Cut sep s in (String c a, b)
  end.

(** [strings.Count] of one byte. *)
Fixpoint CountByte (c : ascii) (s : string) : nat :=
  match s with
  | EmptyString => 0
  | String d s => (if Ascii.eqb d c then 1 else 0) + CountByte c s
  end.

(** [strings.TrimRight] with a cut set of one byte. *)
Fixpoint TrimRightByte (c : ascii) (s : string) : string :=
  match s with
  | EmptyString => EmptyString
  | String d s =>
      match TrimRightByte c s with
      | EmptyString => if Ascii.eqb d c then EmptyString else String d EmptyString
      | t => String d t
      end
  end.

Lemma TrimRightByte_more c s : TrimRightByte c (s +:+ String c "") = TrimRightByte c s.
Proof.
  induction s as [|d s IH].
  - change (TrimRightByte c (String c "") = ""). cbn. by rewrite Ascii.eqb_refl.
  - change (String d s +:+ String c "") with (String d (s +:+ String c "")). cbn [TrimRightByte]. by rewrite IH.
Qed.

(** [strings.Fields] on ASCII texts: [w] is the field being read, reversed. *)
Fixpoint fieldsFrom (w : string) (s : string) : list string :=
  let flush := if String.eqb w "" then [] else [String.rev w] in
  match s with
  | EmptyString => flush
  | String c s => if IsSpace c then flush ++ fieldsFrom "" s else fieldsFrom (String c w) s
  end.

Definition Fields (s : string) : list string := fieldsFrom "" s.

(** [strings.ToUpper] on ASCII texts. *)
Definition ToUpperByte (c : ascii) : ascii :=
  let n := nat_of_ascii c in
  if ((97 <=? n) && (n <=? 122))%nat then ascii_of_nat (n - 32) else c.

Fixpoint ToUpper (s : string) : string :=
  match s with
  | EmptyString => EmptyString
  | String c s => String (ToUpperByte c) (ToUpper s)
  end.

(** ** Lemmas on integers as texts *)

Lemma to_int_nonnil z : Z.to_int z ≠ Decimal.Pos Decimal.Nil ∧ Z.to_int z ≠ Decimal.Neg Decimal.Nil.
Proof.
  split; intros He; destruct z; cbn in He; try done;
    injection He as He; by apply DecimalPos.Unsigned.to_uint_nonnil in He.
Qed.

Lemma digits_no_space (d : Decimal.uint) :
  free_of " "%char (DecimalString.NilEmpty.string_of_uint d).
Proof. induction d; done. Qed.

Lemma FormatInt_no_space z : free_of " "%char (FormatInt z).
Proof.
  unfold FormatInt. destruct (Z.to_int z) as [d|d]; cbn [DecimalString.NilZero.string_of_int].
  - destruct d; try done; apply (digits_no_space d).
  - apply free_of_cons. split; [done|]. destruct d; try done; apply (digits_no_space d).
Qed.

Lemma parseDigits_FormatInt z : parseDigits (FormatInt z) = Some z.
Proof.
  transitivity (Z.of_int <$> DecimalString.NilZero.int_of_string (FormatInt z)).
  - unfold FormatInt. destruct (Z.to_int z) as [d|d]; [destruct d|]; reflexivity.
  - pose proof (to_int_nonnil z) as [Hp Hn]. unfold FormatInt.
    rewrite DecimalString.NilZero.isi by done.
    change (Some (Z.of_int (Z.to_int z)) = Some z). by rewrite DecimalZ.of_to.
Qed.

Lemma ParseInt_FormatInt z : int64_ok z → ParseInt (FormatInt z) = Some z.
Proof.
  intros [H1 H2]. unfold ParseInt. rewrite parseDigits_FormatInt.
  by rewrite (proj2 (Z.leb_le _ _)), (proj2 (Z.ltb_lt _ _)).
Qed.

(** ** Lemmas on replacement *)

Lemma replaceFrom_skip old new a s :
  replaceFrom (String.length a) old new (a +:+ s) = replaceFrom 0 old new s.
Proof. induction a as [|c a IH]; [done|]. rewrite string_app_cons. apply IH. Qed.

Lemma HasPrefix_cons c d s t :
  HasPrefix (String c s) (String d t) = (if Ascii.eqb c d then HasPrefix s t else false).
Proof.
  unfold HasPrefix. cbn. destruct (ascii_dec d c) as [->|Hne].
  - by rewrite Ascii.eqb_refl.
  - rewrite (proj2 (Ascii.eqb_neq c d)); [done|congruence].
Qed.


(** ** Lemmas on spaces *)

Fixpoint allSpaces (s : string) : bool :=
  match s with EmptyString => true | String c s => IsSpace c && allSpaces s end.

Lemma rev_app_spec s t : String.rev_app s t = String.rev s +:+ t.
Proof.
  unfold String.rev. revert t. induction s as [|c s IH]; intros t; [done|].
  cbn. rewrite IH, (IH (String c "")), string_app_assoc. done.
Qed.

Lemma rev_cons c s : String.rev (String c s) = String.rev s +:+ String c "".
Proof. exact (rev_app_spec s (String c "")). Qed.

Lemma string_app_nil_r s : s +:+ "" = s.
Proof. induction s as [|c s IH]; [done|]. by rewrite string_app_cons, IH. Qed.

Lemma rev_app s t : String.rev (s +:+ t) = String.rev t +:+ String.rev s.
Proof.
  induction s as [|c s IH]; [by rewrite string_app_nil, string_app_nil_r|].
  by rewrite string_app_cons, !rev_cons, IH, string_app_assoc.
Qed.

Lemma rev_rev s : String.rev (String.rev s) = s.
Proof. induction s as [|c s IH]; [done|]. by rewrite rev_cons, rev_app, IH. Qed.

Lemma allSpaces_app s t : allSpaces (s +:+ t) = allSpaces s && allSpaces t.
Proof. induction s as [|c s IH]; [done|]. rewrite string_app_cons. cbn. by rewrite IH, andb_assoc. Qed.

Lemma allSpaces_rev s : allSpaces (String.rev s) = allSpaces s.
Proof.
  induction s as [|c s IH]; [done|]. rewrite rev_cons, allSpaces_app, IH. cbn.
  by rewrite andb_true_r, andb_comm.
Qed.

Lemma TrimLeftSpace_split s : ∃ p, allSpaces p = true ∧ s = p +:+ TrimLeftSpace s.
Proof.
  induction s as [|c s (p & Hp & Hs)]; [by exists ""|]. cbn.
  destruct (IsSpace c) eqn:E; [|by exists ""].
  exists (String c p). cbn. rewrite E, Hp. split; [done|]. by rewrite string_app_cons, <-Hs.
Qed.

Lemma fieldsFrom_spaces w s : allSpaces s = true →
  fieldsFrom w s = if String.eqb w "" then [] else [String.rev w].
Proof.
  revert w. induction s as [|c s IH]; intros w; [done|]. cbn.
  destruct (IsSpace c); [cbn|done]. intros Hs. rewrite (IH "") by done. cbn. by rewrite app_nil_r.
Qed.

Lemma fieldsFrom_app_spaces w s t : allSpaces t = true → fieldsFrom w (s +:+ t) = fieldsFrom w s.
Proof.
  intros Ht. revert w. induction s as [|c s IH]; intros w.
  { rewrite string_app_nil. by apply fieldsFrom_spaces. }
  rewrite string_app_cons. cbn. destruct (IsSpace c); by rewrite !IH.
Qed.

(** The fields of a text do not depend on the spaces around it. *)
Lemma Fields_TrimSpace s : Fields (TrimSpace s) = Fields s.
Proof.
  unfold Fields, TrimSpace. transitivity (fieldsFrom "" (TrimLeftSpace s)).
  - set (u := TrimLeftSpace s). destruct (TrimLeftSpace_split (String.rev u)) as (p & Hp & Hs).
    assert (u = String.rev (TrimLeftSpace (String.rev u)) +:+ String.rev p) as E
      by (by rewrite <-rev_app, <-Hs, rev_rev).
    rewrite E at 2. rewrite fieldsFrom_app_spaces; [done|]. by rewrite allSpaces_rev.
  - induction s as [|c s IH]; [done|]. cbn. destruct (IsSpace c) eqn:E; [by rewrite IH|]. cbn. by rewrite E.
Qed.

(** ** Lemmas on cuts *)

Lemma Cut_free c s : free_of c s → Cut c s = (s, None).
Proof.
  induction s as [|d s IH]; [done|]. intros [Hd Hs]%free_of_cons. cbn [Cut].
  by rewrite (proj2 (Ascii.eqb_neq d c)), IH.
Qed.

Lemma Cut_first c s t : free_of c s → Cut c (s +:+ String c t) = (s, Some t).
Proof.
  induction s as [|d s IH]; intros Hs; [rewrite string_app_nil; cbn [Cut]; by rewrite Ascii.eqb_refl|].
  apply free_of_cons in Hs as [Hd Hs]. rewrite string_app_cons. cbn [Cut].
  by rewrite (proj2 (Ascii.eqb_neq d c)), IH.
Qed.

(** ** Lemmas on searches *)

Lemma Index_Some s sub i :
  Index s sub = Some i → ∃ x y, s = x +:+ sub +:+ y ∧ String.length x = i.
Proof.
  revert i. induction s as [|c s IH]; intros i; cbn [Index]; destruct (HasPrefix _ sub) eqn:E.
  1, 3: intros [= <-]; apply HasPrefix_spec in E as [t Ht]; exists "", t; exact (conj Ht eq_refl).
  - done.
  - destruct (Index s sub) as [k|]; [|done]. intros [= <-]. destruct (IH k eq_refl) as (x & y & -> & <-).
    by exists (String c x), y.
Qed.

(** The first occurrence. *)
Lemma Index_first x sub y : ∃ i, Index (x +:+ sub +:+ y) sub = Some i ∧ (i ≤ String.length x)%nat.
Proof.
  induction x as [|c x (i & Hi & Hle)].
  - rewrite string_app_nil. exists 0%nat. split; [|done].
    destruct (sub +:+ y) eqn:E; cbn [Index]; by rewrite <-E, HasPrefix_app.
  - rewrite string_app_cons. cbn [Index String.length]. destruct (HasPrefix _ sub); [exists 0%nat; split; [done|lia]|].
    rewrite Hi. exists (S i). split; [done|lia].
Qed.

Lemma Contains_spec s sub : Contains s sub = true ↔ ∃ x y, s = x +:+ sub +:+ y.
Proof.
  split.
  - induction s as [|c s IH]; cbn [Contains]; intros [Hp|Hs]%orb_true_iff; try done.
    1, 2: apply HasPrefix_spec in Hp as [t Ht]; exists "", t; exact Ht.
    destruct (IH Hs) as (x & y & ->). by exists (String c x), y.
  - intros (x & y & ->). induction x as [|c x IH].
    + rewrite string_app_nil. destruct (sub +:+ y) eqn:E; cbn [Contains]; by rewrite <-E, HasPrefix_app.
    + rewrite string_app_cons. cbn [Contains]. by rewrite IH, orb_true_r.
Qed.

Lemma Contains_byte s c : Contains s (String c "") = ContainsByte s c.
Proof.
  induction s as [|d s IH]; [done|]. cbn [Contains ContainsByte]. rewrite IH. f_equal. cbn.
  destruct (Ascii.ascii_dec c d) as [->|Hn]; [rewrite Ascii.eqb_refl; by destruct s|].
  symmetry. apply Ascii.eqb_neq. congruence.
Qed.

Lemma ToLower_app s t : ToLower (s +:+ t) = ToLower s +:+ ToLower t.
Proof. induction s as [|c s IH]; [done|]. rewrite !string_app_cons. cbn [ToLower]. by rewrite IH. Qed.

Lemma ToLower_star s : ContainsByte (ToLower s) "*" = ContainsByte s "*".
Proof.
  induction s as [|c s IH]; [done|]. cbn [ToLower ContainsByte]. rewrite IH. f_equal.
  destruct c as [[] [] [] [] [] [] [] []]; reflexivity.
Qed.

Lemma ContainsByte_app c s t : ContainsByte (s +:+ t) c = ContainsByte s c || ContainsByte t c.
Proof. induction s as [|d s IH]; [done|]. rewrite string_app_cons. cbn [ContainsByte]. by rewrite IH, orb_assoc. Qed.

Lemma substring_app s t : String.substring 0 (String.length s) (s +:+ t) = s.
Proof. induction s as [|c s IH]; [by destruct t|]. rewrite string_app_cons. cbn. by rewrite IH. Qed.

(** A text that ends in the separator, and what comes last. *)
Lemma last_segment sep path s :
  (1 < length (Split sep path))%nat → last (Split sep path) = Some s → HasSuffix path (String sep s) = true.
Proof.
  intros Hl Hs. rewrite <-(Join_Split sep path). apply last_Some in Hs as [segs Hs]. rewrite Hs in Hl |- *.
  clear Hs. assert (segs ≠ []) as Hne by (intros ->; cbn in Hl; lia). clear Hl.
  induction segs as [|x segs IH]; [done|]. cbn [app].
  destruct segs as [|y segs].
  - cbn [app Join String.concat]. apply HasSuffix_app.
  - cbn [app]. rewrite Join_cons. specialize (IH ltac:(done)). apply HasSuffix_spec in IH as [q Hq].
    cbn [app] in Hq. rewrite Hq. apply HasSuffix_spec. exists (x +:+ String sep q).
    by rewrite string_app_assoc, string_app_cons.
Qed.
