(* ===== verification/Api.v ===== *)
(** * API types of the operator, and the Kubernetes objects they select

    [cmd/operator/api/v1]: the custom resources as records.  Kubernetes'
    [unstructured.Unstructured] comes from a library: the model takes the
    accessors the code calls as the class [Unstructured]. *)
From S2P Require Import Prelude GoLib.

(** ** [k8s.io/apimachinery]: what the code calls on an object

    Times are nanoseconds since the epoch.  [unstructured.NestedString] is
    [None] when its [found] result is false.  [ObjectMetadataName],
    [ObjectAPIVersion] and [ObjectKind] are the values of
    [obj.Object["metadata"].(map[string]interface{})["name"].(string)] and so
    on, [None] when one of the type assertions fails; [HasMetadata] tells
    whether the first of the two succeeds.  [ObjectAPIVersionNil] and
    [ObjectKindNil] tell whether the two fields are nil; the [With] fields write
    them into the object. *)
Class Unstructured (O : Type) := {
  GetUID : O → string;
  GetName : O → string;
  GetNamespace : O → string;
  GetKind : O → string;
  GetAPIVersion : O → string;
  GetResourceVersion : O → string;
  GetCreationTimestamp : O → Z;
  GetDeletionTimestamp : O → option Z;
  SetDeletionTimestamp : O → Z → O;
  GetManagedFieldTimes : O → list (option Z);
  NestedString : O → list string → option string;
  HasMetadata : O → bool;
  ObjectMetadataName : O → option string;
  ObjectAPIVersion : O → option string;
  ObjectKind : O → option string;
  ObjectAPIVersionNil : O → bool;
  ObjectKindNil : O → bool;
  WithObjectAPIVersion : O → string → O;
  WithObjectKind : O → string → O;
}.

(** The result of a [Get] on the API server. *)
Inductive GetResult (A : Type) := Found (a : A) | NotFound | GetError.
Arguments Found {A}.
Arguments NotFound {A}.
Arguments GetError {A}.

(** ** [kubearchiveconfig_types.go] *)

(** [schema.GroupVersionResource]. *)
Record GroupVersionResource := { Group : string; Version : string; Resource : string }.

#[export] Instance GroupVersionResource_eq_dec : EqDecision GroupVersionResource.
Proof. solve_decision. Defined.

(** [meta.RESTMapper.RESTMapping], by group, kind and version; [None] is an
    error.  [schema.ParseGroupVersion] is [None] on an error. *)
Class RESTMapper := {
  RESTMapping : string → string → string → option GroupVersionResource;
  ParseGroupVersion : string → option (string * string);
}.

Record APIVersionKind := { Kind : string; APIVersion : string }.

#[export] Instance APIVersionKind_eq_dec : EqDecision APIVersionKind.
Proof. solve_decision. Defined.

Definition Key (a : APIVersionKind) : string := Kind a +:+ "-" +:+ APIVersion a.

Record KeepLastKeepRule := { keep_Count : Z; keep_When : string; keep_SortBy : string }.
Record KeepLastOverrideRule := { override_Name : string; override_Count : Z }.
Record KeepLastWhenConfig := {
  Keep : list KeepLastKeepRule;
  Override : list KeepLastOverrideRule;
}.

Record KubeArchiveConfigResource := {
  kac_Selector : APIVersionKind;
  kac_ArchiveWhen : string;
  kac_DeleteWhen : string;
  kac_ArchiveOnDelete : string;
  kac_KeepLastWhen : option KeepLastWhenConfig;
}.

(** ** [clusterkubearchiveconfig_types.go] *)

Record ClusterKeepLastRule := {
  ckeep_Name : string; ckeep_Count : Z; ckeep_When : string; ckeep_SortBy : string;
}.

Record ClusterKubeArchiveConfigResource := {
  ckac_Selector : APIVersionKind;
  ckac_ArchiveWhen : string;
  ckac_DeleteWhen : string;
  ckac_ArchiveOnDelete : string;
  ckac_KeepLastWhen : list ClusterKeepLastRule;
}.

(** ** [sinkfilter_types.go] *)

Record SinkFilterSpec := {
  Namespaces : gmap string (list KubeArchiveConfigResource);
  Cluster : list ClusterKubeArchiveConfigResource;
}.

(** ** [namespacevacuumconfig_types.go], [clustervacuumconfig_types.go] *)

Record NamespaceVacuumConfigSpec := { nvc_Resources : list APIVersionKind }.
Record ClusterVacuumConfigSpec := {
  cvc_Namespaces : gmap string NamespaceVacuumConfigSpec;
}.

(** ** [pkg/constants/constants.go] *)

Definition KubeArchiveConfigResourceName : string := "kubearchive".
Definition KubeArchiveSinkName : string := "kubearchive-sink".
Definition KubeArchiveSinkFilterName : string := "kubearchive-sinkfilter".
Definition KubeArchiveOperatorName : string := "kubearchive-operator".
Definition KubeArchiveVacuumName : string := "kubearchive-vacuum".
Definition KubeArchiveClusterVacuumName : string := "kubearchive-cluster-vacuum".
Definition SinkFilterGlobalNamespace : string := "___global___".
Definition ClusterVacuumAllNamespaces : string := "___all-namespaces___".
Definition SinkFilterResourceName : string := "sink-filters".

(** The environment of the process. *)
Class Environment := { Getenv : string → string }.

Definition KubeArchiveNamespace `{!Environment} : string :=
  let ns := Getenv "KUBEARCHIVE_NAMESPACE" in
  if String.eqb ns "" then "kubearchive" else ns.

(** ** Lemmas *)

Lemma Key_parts a :
  Key a = Kind a +:+ String "-"%char (APIVersion a).
Proof. done. Qed.

(** Two selectors with the same key are equal when neither kind holds a
    dash, whatever the API versions hold. *)
Lemma Key_inj_no_dash a b :
  free_of "-"%char (Kind a) → free_of "-"%char (Kind b) → Key a = Key b → a = b.
Proof.
  destruct a as [ka va], b as [kb vb]. rewrite !Key_parts. simpl.
  intros Ha Hb He. pose proof (Split_app "-"%char ka va Ha) as Ea.
  pose proof (Split_app "-"%char kb vb Hb) as Eb. rewrite He, Eb in Ea.
  injection Ea as -> Hs. f_equal.
  by rewrite <-(Join_Split "-"%char va), <-(Join_Split "-"%char vb), Hs.
Qed.
