(* ===== verification/Cel.v ===== *)
(** * [pkg/cel]: compiling and running CEL expressions

    The CEL engine itself ([github.com/google/cel-go]) is a parameter. *)
From S2P Require Import Prelude.

(** The engine: parsing, checking and program construction fail with an
    error ([None]); an evaluation returns a value or none, and an error flag. *)
Class CelEnv (O : Type) := {
  Ast : Type;
  CheckedAst : Type;
  Program : Type;
  Val : Type;
  env_Parse : string → option Ast;
  env_Check : Ast → option CheckedAst;
  env_Program : CheckedAst → option Program;
  ContextEval : Program → O → option Val * bool;
  Value_bool : Val → option bool;
}.

Section cel.
  Context {O : Type} `{!CelEnv O}.

Definition CompileCELExpr (expr : string) : option Program :=
  match env_Parse expr with
  | None => None
  | Some parsed =>
      match env_Check parsed with
      | None => None
      | Some checked => env_Program checked
      end
  end.

Definition ExecuteCEL (program : option Program) (obj : O) : option Val * bool :=
  match program with
  | None => (None, false)
  | Some program => ContextEval program obj
  end.

Definition ExecuteBooleanCEL (program : option Program) (obj : O) : bool :=
  match (ExecuteCEL program obj).1 with
  | None => false
  | Some val =>
      match Value_bool val with Some boolVal => boolVal | None => false end
  end.

Lemma ExecuteBooleanCEL_true program obj :
    ExecuteBooleanCEL program obj = true ↔
    ∃ p v, program = Some p ∧ (ContextEval p obj).1 = Some v ∧ Value_bool v = Some true.
Proof.
    unfold ExecuteBooleanCEL, ExecuteCEL. split.
    - destruct program as [p|]; simpl; [|done].
      destruct (ContextEval p obj).1 as [v|] eqn:Ev; [|done].
      destruct (Value_bool v) as [[]|] eqn:Eb; try done. eauto.
    - intros (p & v & -> & -> & ->). done.
Qed.

Lemma ExecuteBooleanCEL_nil obj : ExecuteBooleanCEL None obj = false.
Proof. done. Qed.
End cel.
