(* ===== verification/CloudEvents.v ===== *)
(** * [pkg/cloudevents/sink_publisher.go]: events sent to the sink

    A publisher is its source; the events handed to the HTTP client are
    values.  What the client does with them is in [Pipeline]. *)
From S2P Require Import Prelude GoLib Api.

(** [event.SetData]: whether the object can be encoded as JSON. *)
Class EventEncoding (O : Type) := { SetData : O → bool }.

Record CloudEvent (O : Type) := {
  ce_Source : string;
  ce_Type : string;
  ce_Data : O;
  ce_APIVersion : string;
  ce_Kind : string;
}.
Arguments ce_Source {O}.
Arguments ce_Type {O}.
Arguments ce_Data {O}.
Arguments ce_APIVersion {O}.
Arguments ce_Kind {O}.

(** Calls that cannot return an error, only a value or a panic. *)
Notation run := (outcome Empty_set).

Section cloudevents.
  Context {O : Type} `{!Unstructured O, !EventEncoding O}.

(** The statuses given to the HTTP client as retriable.  No context of a call to [Send]
    has a retry policy, so the client never asks: it makes one request. *)
Definition retriableStatuses : list Z := [404; 413; 425; 429; 500; 502; 503; 504]%Z.
Definition IsRetriable (statusCode : Z) : bool :=
  existsb (Z.eqb statusCode) retriableStatuses.

(** [IsACK] of the result of a request, which the senders test: the status is a success. *)
Definition IsACK (statusCode : Z) : bool := (statusCode / 100 =? 2)%Z.

(** [Send]: [None] when the data cannot be encoded (an error result is
    returned and nothing is sent); the type assertions on [apiVersion],
    [kind] and [metadata] panic. *)
Definition Send (source eventType : string) (resource : O)
    : run (option (CloudEvent O)) :=
  if SetData resource then
    match ObjectAPIVersion resource, ObjectKind resource, HasMetadata resource with
    | Some apiVersion, Some kind, true =>
        Ok (Some {| ce_Source := source; ce_Type := eventType; ce_Data := resource;
                    ce_APIVersion := apiVersion; ce_Kind := kind |})
    | _, _, _ => Panic
    end
  else Ok None.

(** Objects as the API server lists them: encodable, with the fields the
    publisher and the vacuum assert. *)
Definition well_typed (o : O) : bool :=
  SetData o && HasMetadata o && bool_decide (is_Some (ObjectMetadataName o))
  && bool_decide (is_Some (ObjectAPIVersion o)) && bool_decide (is_Some (ObjectKind o)).

Lemma Send_well_typed source ty o :
  well_typed o = true →
  ∃ e, Send source ty o = Ok (Some e) ∧ ce_Type e = ty ∧ ce_Data e = o ∧ ce_Source e = source.
Proof.
  unfold well_typed, Send. rewrite !andb_true_iff, !bool_decide_eq_true.
  intros ((((-> & ->) & _) & [v ->]) & [k ->]). by eexists.
Qed.
End cloudevents.
