(* ===== verification/Samples.v ===== *)
(** * A concrete instance of the library classes

    Used by the witnesses: objects are records of their fields, a CEL
    expression is the name of a boolean field (["true"] always holds), any
    other expression does not compile. *)
From S2P Require Import Prelude GoLib Api Cel CloudEvents.

Record sample := {
  s_uid : string;
  s_name : string;
  s_namespace : string;
  s_created : Z;
  s_deleted : option Z;
  s_version : string;
  s_flags : list string;
  s_fields : list (string * string);
}.

Definition sample_at (uid : string) (created : Z) (flags : list string) : sample :=
  {| s_uid := uid; s_name := uid; s_namespace := "ns"; s_created := created;
     s_deleted := None; s_version := "1"; s_flags := flags; s_fields := [] |}.

Fixpoint assoc (k : string) (l : list (string * string)) : option string :=
  match l with
  | [] => None
  | (k', v) :: l => if String.eqb k k' then Some v else assoc k l
  end.

#[export] Instance sample_unstructured : Unstructured sample := {|
  GetUID := s_uid;
  GetName := s_name;
  GetNamespace := s_namespace;
  GetKind := λ _, "Pod";
  GetAPIVersion := λ _, "v1";
  GetResourceVersion := s_version;
  GetCreationTimestamp := s_created;
  GetDeletionTimestamp := s_deleted;
  SetDeletionTimestamp := λ o t,
    {| s_uid := s_uid o; s_name := s_name o; s_namespace := s_namespace o;
       s_created := s_created o; s_deleted := Some t; s_version := s_version o;
       s_flags := s_flags o; s_fields := s_fields o |};
  GetManagedFieldTimes := λ o, [Some (s_created o)];
  NestedString := λ o path, assoc (Join "."%char path) (s_fields o);
  HasMetadata := λ _, true;
  ObjectMetadataName := λ o, Some (s_name o);
  ObjectAPIVersion := λ _, Some "v1";
  ObjectKind := λ _, Some "Pod";
  ObjectAPIVersionNil := λ _, false;
  ObjectKindNil := λ _, false;
  WithObjectAPIVersion := λ o _, o;
  WithObjectKind := λ o _, o;
|}.

#[export] Instance sample_cel : CelEnv sample := {|
  Ast := string;
  CheckedAst := string;
  Program := string;
  Val := bool;
  env_Parse := λ e, if String.eqb e "(" then None else Some e;
  env_Check := λ e, if String.eqb e "?" then None else Some e;
  env_Program := λ e, Some e;
  ContextEval := λ p o,
    (Some (String.eqb p "true" || bool_decide (p ∈ s_flags o)), false);
  Value_bool := λ v, Some v;
|}.

#[export] Instance sample_encoding : EventEncoding sample := {| SetData := λ _, true |}.

(** Every kind but [Unknown] is mapped, to the resource of the same name. *)
#[export] Instance sample_mapper : RESTMapper := {|
  RESTMapping := λ g k v,
    if String.eqb k "Unknown" then None
    else Some {| Group := g; Version := v; Resource := k |};
  ParseGroupVersion := λ s,
    match Split "/"%char s with
    | [v] => Some ("", v)
    | [g; v] => Some (g, v)
    | _ => None
    end;
|}.

#[export] Instance sample_environment : Environment := {| Getenv := λ _, "" |}.

#[export] Instance sample_range : MapRange := {|
  range := λ A l, l; range_perm := λ A l, Permutation_refl l |}.
