(* ===== verification/Filters.v ===== *)
(** * [pkg/filters]: the CEL expressions of a [SinkFilter], by kind *)
From S2P Require Import Prelude GoLib Api Cel Samples.

Inductive FilterType := Vacuum | Controller.

Section filters.
  Context {O : Type} `{!CelEnv O}.

Record KeepLastWhenRule := {
  Name : string;
  When : option Program;
  WhenText : string;
  Count : Z;
  SortBy : string;
}.

Record CelExpressions := {
  ArchiveWhen : option Program;
  DeleteWhen : option Program;
  ArchiveOnDelete : option Program;
  KeepLastWhen : list KeepLastWhenRule;
}.

(** The zero value of the struct. *)
Definition zero_CelExpressions : CelExpressions :=
  {| ArchiveWhen := None; DeleteWhen := None; ArchiveOnDelete := None; KeepLastWhen := [] |}.

Definition CompileCELExpression (expression : string) : option Program :=
  if String.eqb expression "" then None else CompileCELExpr expression.

Definition compileKeepLastWhenRules (keepLastWhen : option KeepLastWhenConfig)
    : list KeepLastWhenRule :=
  match keepLastWhen with
  | None => []
  | Some c =>
      map (λ rule, {| Name := ""; When := CompileCELExpression (keep_When rule);
                      WhenText := TrimSpace (keep_When rule);
                      Count := keep_Count rule; SortBy := keep_SortBy rule |}) (Keep c)
      ++ map (λ rule, {| Name := override_Name rule; When := None; WhenText := "";
                         Count := override_Count rule; SortBy := "" |}) (Override c)
  end.

Definition compileClusterKeepLastWhenRules (keepLastWhen : list ClusterKeepLastRule)
    : list KeepLastWhenRule :=
  map (λ rule, {| Name := ckeep_Name rule; When := CompileCELExpression (ckeep_When rule);
                  WhenText := TrimSpace (ckeep_When rule);
                  Count := ckeep_Count rule; SortBy := ckeep_SortBy rule |}) keepLastWhen.

(** The body of the loop of [ExtractClusterCELExpressionsByKind]. *)
Definition clusterCelExpr (filterType : FilterType)
    (res : ClusterKubeArchiveConfigResource) : CelExpressions :=
  let archiveWhen := CompileCELExpression (ckac_ArchiveWhen res) in
  match filterType with
  | Vacuum =>
      {| ArchiveWhen := archiveWhen; DeleteWhen := None; ArchiveOnDelete := None;
         KeepLastWhen := compileClusterKeepLastWhenRules (ckac_KeepLastWhen res) |}
  | Controller =>
      {| ArchiveWhen := archiveWhen;
         DeleteWhen := CompileCELExpression (ckac_DeleteWhen res);
         ArchiveOnDelete := CompileCELExpression (ckac_ArchiveOnDelete res);
         KeepLastWhen := [] |}
  end.

(** [sinkFilter] is a pointer: nil is dereferenced by [sinkFilter.Spec]. *)
Definition ExtractClusterCELExpressionsByKind {E} (sinkFilter : option SinkFilterSpec)
    (filterType : FilterType) : outcome E (gmap string CelExpressions) :=
  match sinkFilter with
  | None => Panic
  | Some spec =>
      Ok (foldl (λ m res,
                   <[Kind (ckac_Selector res) +:+ "-" +:+ APIVersion (ckac_Selector res)
                     := clusterCelExpr filterType res]> m)
                ∅ (Cluster spec))
  end.

Definition namespaceCelExpr (filterType : FilterType)
    (res : KubeArchiveConfigResource) : CelExpressions :=
  let archiveWhen := CompileCELExpression (kac_ArchiveWhen res) in
  match filterType with
  | Vacuum =>
      {| ArchiveWhen := archiveWhen; DeleteWhen := None; ArchiveOnDelete := None;
         KeepLastWhen := compileKeepLastWhenRules (kac_KeepLastWhen res) |}
  | Controller =>
      {| ArchiveWhen := archiveWhen;
         DeleteWhen := CompileCELExpression (kac_DeleteWhen res);
         ArchiveOnDelete := CompileCELExpression (kac_ArchiveOnDelete res);
         KeepLastWhen := [] |}
  end.

(** One resource of one namespace: [namespaces[ns] = celExpr]. *)
Definition addNamespaceResource (filterType : FilterType) (ns : string)
    (m : gmap string (gmap string CelExpressions)) (res : KubeArchiveConfigResource)
    : gmap string (gmap string CelExpressions) :=
  let key := Key (kac_Selector res) in
  let celExpr := namespaceCelExpr filterType res in
  match m !! key with
  | Some namespaces => <[key := <[ns := celExpr]> namespaces]> m
  | None => <[key := {[ns := celExpr]}]> m
  end.

Definition extractNamespacesByKindsList (sinkFilter : SinkFilterSpec)
    (namespacesToProcess : list string) (filterType : FilterType)
    : gmap string (gmap string CelExpressions) :=
  foldl (λ m ns,
           match Namespaces sinkFilter !! ns with
           | None => m
           | Some resources => foldl (addNamespaceResource filterType ns) m resources
           end)
        ∅ namespacesToProcess.

(** [order] is the order in which the run iterates over the map. *)
Definition ExtractNamespacesByKind {E} (sinkFilter : option SinkFilterSpec)
    (order : list string) (filterType : FilterType)
    : outcome E (gmap string (gmap string CelExpressions)) :=
  match sinkFilter with
  | None => Panic
  | Some spec => Ok (extractNamespacesByKindsList spec order filterType)
  end.

Definition ExtractNamespaceByKind {E} (sinkFilter : option SinkFilterSpec)
    (namespace : string) (filterType : FilterType)
    : outcome E (gmap string (gmap string CelExpressions)) :=
  match sinkFilter with
  | None => Panic
  | Some spec => Ok (extractNamespacesByKindsList spec [namespace] filterType)
  end.

(** ** What the extraction computes *)

(** The last resource of a namespace with the given key. *)
Definition lastWithKey (key : string) (rs : list KubeArchiveConfigResource)
    : option KubeArchiveConfigResource :=
  last (filter (λ r, Key (kac_Selector r) = key) rs).

(** The entry of the result for a kind and a namespace. *)
Definition filterOf (m : gmap string (gmap string CelExpressions)) (key ns : string)
    : option CelExpressions :=
  m !! key ≫= λ namespaces, namespaces !! ns.

Definition clusterLastWithKey (key : string) (rs : list ClusterKubeArchiveConfigResource)
    : option ClusterKubeArchiveConfigResource :=
  last (filter (λ r, Key (ckac_Selector r) = key) rs).

Lemma filterOf_addNamespaceResource ft ns m res key ns' :
    filterOf (addNamespaceResource ft ns m res) key ns' =
    if decide (key = Key (kac_Selector res) ∧ ns' = ns)
    then Some (namespaceCelExpr ft res) else filterOf m key ns'.
Proof.
    unfold filterOf, addNamespaceResource.
    destruct (decide (key = Key (kac_Selector res))) as [->|Hk].
    - destruct (decide (ns' = ns)) as [->|Hn].
      + rewrite decide_True by done.
        destruct (m !! Key (kac_Selector res)); by simplify_map_eq.
      + rewrite decide_False by naive_solver.
        destruct (m !! Key (kac_Selector res)); by simplify_map_eq.
    - rewrite decide_False by naive_solver.
      destruct (m !! Key (kac_Selector res)); by simplify_map_eq.
Qed.

Lemma filterOf_namespace ft ns m rs key ns' :
    filterOf (foldl (addNamespaceResource ft ns) m rs) key ns' =
    if decide (ns' = ns)
    then match lastWithKey key rs with
         | Some r => Some (namespaceCelExpr ft r)
         | None => filterOf m key ns'
         end
    else filterOf m key ns'.
Proof.
    induction rs as [|r rs IH] using rev_ind; [by destruct (decide _)|].
    rewrite foldl_snoc, filterOf_addNamespaceResource, IH. unfold lastWithKey.
    rewrite filter_app, filter_cons, filter_nil.
    destruct (decide (ns' = ns)) as [->|Hn].
    - destruct (decide (Key (kac_Selector r) = key)) as [<-|Hk].
      + rewrite decide_True by done. by rewrite last_snoc.
      + rewrite decide_False by naive_solver. by rewrite app_nil_r.
    - by rewrite decide_False by naive_solver.
Qed.

(** The entry for a kind and a namespace is the one of the last resource
      of that namespace with that kind. *)
Lemma filterOf_extract spec order ft key ns :
    filterOf (extractNamespacesByKindsList spec order ft) key ns =
    if decide (ns ∈ order)
    then Namespaces spec !! ns ≫= λ rs, namespaceCelExpr ft <$> lastWithKey key rs
    else None.
Proof.
    unfold extractNamespacesByKindsList.
    induction order as [|n order IH] using rev_ind.
    { rewrite decide_False by (apply not_elem_of_nil). done. }
    rewrite foldl_snoc. destruct (Namespaces spec !! n) as [rs|] eqn:En.
    - rewrite filterOf_namespace, IH. destruct (decide (ns = n)) as [->|Hn].
      + rewrite (decide_True (P:=n ∈ order ++ [n])) by set_solver. rewrite En. simpl.
        destruct (lastWithKey key rs); [done|]. by destruct (decide _).
      + destruct (decide (ns ∈ order)).
        * by rewrite decide_True by set_solver.
        * by rewrite decide_False by set_solver.
    - rewrite IH. destruct (decide (ns = n)) as [->|Hn].
      + rewrite En. simpl. by destruct (decide _), (decide _).
      + destruct (decide (ns ∈ order)).
        * by rewrite decide_True by set_solver.
        * by rewrite decide_False by set_solver.
Qed.

(** No kind is left without a namespace. *)
Lemma extract_inner_nonempty spec order ft key namespaces :
    extractNamespacesByKindsList spec order ft !! key = Some namespaces → namespaces ≠ ∅.
Proof.
    unfold extractNamespacesByKindsList. revert namespaces.
    assert (∀ (P : gmap string (gmap string CelExpressions) → Prop),
      P ∅ → (∀ m ns r, P m → P (addNamespaceResource ft ns m r)) →
      P (extractNamespacesByKindsList spec order ft)) as Hind.
    { intros P H0 Hs. unfold extractNamespacesByKindsList.
      induction order as [|n order' IH] using rev_ind; [done|]. rewrite foldl_snoc.
      destruct (Namespaces spec !! n) as [rs|]; [|done].
      induction rs as [|r rs IHr] using rev_ind; [done|]. rewrite foldl_snoc. by apply Hs. }
    apply (Hind (λ m, ∀ namespaces, m !! key = Some namespaces → namespaces ≠ ∅)).
    - intros ? ?. by simplify_map_eq.
    - intros m ns r Hm namespaces. unfold addNamespaceResource.
      destruct (decide (key = Key (kac_Selector r))) as [->|Hk].
      + destruct (m !! _) as [inner|]; rewrite lookup_insert_eq; intros [= <-].
        * apply insert_non_empty.
        * apply map_non_empty_singleton.
      + destruct (m !! Key _) as [inner|]; rewrite lookup_insert_ne by done; apply Hm.
Qed.

Lemma filterOf_ext (m1 m2 : gmap string (gmap string CelExpressions)) :
  (∀ key ns, filterOf m1 key ns = filterOf m2 key ns) →
  (∀ key inner, m1 !! key = Some inner → inner ≠ ∅) →
  (∀ key inner, m2 !! key = Some inner → inner ≠ ∅) → m1 = m2.
Proof.
  unfold filterOf. intros He H1 H2. apply map_eq; intros key.
  specialize (He key). specialize (H1 key). specialize (H2 key).
  destruct (m1 !! key) as [i1|], (m2 !! key) as [i2|]; cbn in He.
  - f_equal. by apply map_eq.
  - destruct (H1 i1 eq_refl). by apply map_empty.
  - destruct (H2 i2 eq_refl). apply map_empty. intros ns. by rewrite <-He.
  - done.
Qed.

Lemma cluster_extract_lookup {E} spec ft key m :
    ExtractClusterCELExpressionsByKind (E:=E) (Some spec) ft = Ok m →
    m !! key = clusterCelExpr ft <$> clusterLastWithKey key (Cluster spec).
Proof.
    intros [= <-]. unfold clusterLastWithKey.
    induction (Cluster spec) as [|r rs IH] using rev_ind; [simpl; by rewrite lookup_empty|].
    rewrite foldl_snoc, filter_app, filter_cons, filter_nil.
    destruct (decide (Key (ckac_Selector r) = key)) as [<-|Hk].
    - rewrite last_snoc. by rewrite lookup_insert_eq.
    - rewrite app_nil_r, <-IH. by rewrite lookup_insert_ne.
Qed.
(** The compiled filters do not depend on the order in which Go iterates
    over the namespaces: any two orders over the same namespaces give the same
    map, whose entry for a kind and a namespace is the compiled form of the last
    resource of that kind the SinkFilter lists for the namespace. *)
Theorem ExtractNamespacesByKind_order (spec : SinkFilterSpec) (order order' : list string)
    (ft : FilterType) :
  order ≡ₚ order' → Forall (λ ns, is_Some (Namespaces spec !! ns)) order →
  (∀ ns, is_Some (Namespaces spec !! ns) → ns ∈ order) →
  ∃ m, ExtractNamespacesByKind (E:=Empty_set) (Some spec) order ft = Ok m ∧
    ExtractNamespacesByKind (E:=Empty_set) (Some spec) order' ft = Ok m ∧
    ∀ key ns, filterOf m key ns =
      Namespaces spec !! ns ≫= λ rs, namespaceCelExpr ft <$> lastWithKey key rs.
Proof.
  intros Hp Hin Hall. exists (extractNamespacesByKindsList spec order ft).
  split_and!; [done| |].
  - unfold ExtractNamespacesByKind. f_equal. symmetry. apply filterOf_ext.
    + intros key ns. rewrite !filterOf_extract. by rewrite (decide_ext (ns ∈ order) (ns ∈ order')) by (by rewrite Hp).
    + intros key inner. apply extract_inner_nonempty.
    + intros key inner. apply extract_inner_nonempty.
  - intros key ns. rewrite filterOf_extract. destruct (decide (ns ∈ order)) as [|Hn]; [done|].
    destruct (Namespaces spec !! ns) eqn:E; [|done]. destruct Hn. apply Hall. by rewrite E.
Qed.
End filters.

(** ** Witness: two namespaces, one kind given twice *)
Definition sampleResource (kind archiveWhen : string) : KubeArchiveConfigResource :=
  {| kac_Selector := {| Kind := kind; APIVersion := "v1" |}; kac_ArchiveWhen := archiveWhen;
     kac_DeleteWhen := ""; kac_ArchiveOnDelete := ""; kac_KeepLastWhen := None |}.

Definition sampleSpec : SinkFilterSpec :=
  {| Namespaces := {["a" := [sampleResource "Pod" "x"; sampleResource "Pod" "y"];
                     "b" := [sampleResource "Job" "true"]]};
     Cluster := [] |}.

Lemma ExtractNamespacesByKind_order_witness :
  ∃ m, ExtractNamespacesByKind (O:=sample) (E:=Empty_set) (Some sampleSpec) ["a"; "b"] Controller = Ok m ∧
    ExtractNamespacesByKind (O:=sample) (E:=Empty_set) (Some sampleSpec) ["b"; "a"] Controller = Ok m ∧
    ∀ key ns, filterOf m key ns =
      Namespaces sampleSpec !! ns ≫= λ rs,
        namespaceCelExpr (O:=sample) Controller <$> lastWithKey key rs.
Proof.
  apply (ExtractNamespacesByKind_order (O:=sample) sampleSpec ["a"; "b"] ["b"; "a"] Controller).
  - apply (bool_decide_unpack _). vm_compute. reflexivity.
  - apply (bool_decide_unpack _). vm_compute. reflexivity.
  - intros ns. unfold sampleSpec. cbn [Namespaces]. intros Hs.
    rewrite <-elem_of_dom in Hs. rewrite dom_insert_L, dom_singleton_L in Hs. set_solver.
Defined.
