(* ===== verification/Keepers.v ===== *)
(** * [cmd/vacuum/publisher.go]: the keep-last buckets

    A keeper holds the [Count] best resources its rule matched so far.  The
    resources of one run are the items of one list; a pointer to an item is
    its index in that list. *)
From S2P Require Import Prelude GoLib Api Cel Filters CloudEvents.

Section keepers.
  Context {O : Type} `{!Unstructured O, !CelEnv O, !EventEncoding O}.

(** [bucket] has one place more than [Count], nil between two items. *)
Record Keeper := { when : KeepLastWhenRule (O:=O); bucket : list (option nat) }.

(** [jTime.Before(&iTime)] of [metav1.Time]. *)
Definition newerThan (i j : O) : bool := (GetCreationTimestamp j <? GetCreationTimestamp i)%Z.

Definition compareResources (sortField : string) (i j : option O) : bool :=
  match i, j with
  | None, None => false
  | None, Some _ => false
  | Some _, None => true
  | Some i, Some j =>
      if String.eqb sortField "" || String.eqb sortField "metadata.creationTimestamp"
      then newerThan i j
      else
        match NestedString i (Split "."%char sortField),
              NestedString j (Split "."%char sortField) with
        | Some iValue, Some jValue => (0 <? Compare iValue jValue)%Z
        | _, _ => newerThan i j
        end
  end.

(** The comparison closure of [sortResources], on pointers into [items]. *)
Definition compareElem (items : list O) (sortField : string)
    (elem target : option nat) : Z :=
  match elem, target with
  | None, None => 0
  | None, Some _ => 1
  | Some _, None => -1
  | Some e, Some t =>
      if compareResources sortField (items !! e) (items !! t) then -1
      else if compareResources sortField (items !! t) (items !! e) then 1
      else 0
  end%Z.

Definition sortResources (items : list O) (sortField : string)
    (b : list (option nat)) : list (option nat) :=
  if (length b <=? 1)%nat then b
  else
    match last b with
    | None => b
    | Some newItem =>
        let i := (BinarySearchFunc (take (length b - 1) b) newItem
                    (compareElem items sortField)).1 in
        if (i <? length b - 1)%nat
        then <[i := newItem]> (copy_within b (S i) i (length b - 1))
        else b
    end.

(** [unifyRules].  The state of the loops: the rules so far, the index of
    the last cluster rule of each name, the CEL texts seen. *)
Definition setCount (r : KeepLastWhenRule (O:=O)) (c : Z) : KeepLastWhenRule (O:=O) :=
  {| Name := Name r; When := When r; WhenText := WhenText r; Count := c; SortBy := SortBy r |}.

Definition addClusterRule
    (st : list (KeepLastWhenRule (O:=O)) * gmap string nat * gset string)
    (clusterRule : KeepLastWhenRule (O:=O)) :=
  let '(unifiedRules, ruleNames, celTexts) := st in
  let unifiedRules := unifiedRules ++ [clusterRule] in
  (unifiedRules, <[Name clusterRule := (length unifiedRules - 1)%nat]> ruleNames,
   {[WhenText clusterRule]} ∪ celTexts).

Definition addNamespaceRule (ruleNames : gmap string nat)
    (st : list (KeepLastWhenRule (O:=O)) * gset string)
    (nsRule : KeepLastWhenRule (O:=O)) :=
  let '(unifiedRules, celTexts) := st in
  if negb (String.eqb (Name nsRule) "") then
    match ruleNames !! Name nsRule with
    | Some idx =>
        (alter (λ r, if (Count nsRule <? Count r)%Z then setCount r (Count nsRule) else r)
               idx unifiedRules, celTexts)
    | None => (unifiedRules, celTexts)
    end
  else if bool_decide (WhenText nsRule ∈ celTexts) then (unifiedRules, celTexts)
  else (unifiedRules ++ [nsRule], {[WhenText nsRule]} ∪ celTexts).

Definition unifyRules (clusterRules namespaceRules : list (KeepLastWhenRule (O:=O)))
    : list (KeepLastWhenRule (O:=O)) :=
  let '(unifiedRules, ruleNames, celTexts) := foldl addClusterRule ([], ∅, ∅) clusterRules in
  (foldl (addNamespaceRule ruleNames) (unifiedRules, celTexts) namespaceRules).1.

(** [createKeepers]: [make] panics on a negative length. *)
Fixpoint makeKeepers (rules : list (KeepLastWhenRule (O:=O))) : run (list Keeper) :=
  match rules with
  | [] => Ok []
  | r :: rules =>
      b ← make_slice None (Count r + 1);
      ks ← makeKeepers rules;
      Ok ({| when := r; bucket := b |} :: ks)
  end.

Definition createKeepers (clusterCel namespaceCel : CelExpressions (O:=O))
    : run (list Keeper) :=
  makeKeepers (unifyRules (KeepLastWhen clusterCel) (KeepLastWhen namespaceCel)).

(** What the loop over the items threads: the [all] counters, the events
    sent. *)
Record vstate := { all : gmap string Z; sent : list (CloudEvent O) }.

Definition sendCloudEvent (source eventType : string) (item : O) (st : vstate)
    : run vstate :=
  e ← Send source eventType item;
  Ok {| all := all st;
        sent := sent st ++ match e with Some e => [e] | None => [] end |}.

Definition keepLastWhenDelete (prefix : string) : string :=
  prefix +:+ ".keep-last-when-delete".
Definition archiveWhen (prefix : string) : string := prefix +:+ ".archive-when".

(** [all[uid] += d]; a missing entry counts as zero. *)
Definition bump (uid : string) (d : Z) (m : gmap string Z) : gmap string Z :=
  <[uid := (default 0 (m !! uid) + d)%Z]> m.

(** The drop of a resource from a bucket. *)
Definition dropResource (source prefix : string) (drop : O) (st : vstate) : run vstate :=
  let dropUID := GetUID drop in
  let a := bump dropUID (-1) (all st) in
  let st := {| all := a; sent := sent st |} in
  if (default 0 (a !! dropUID) =? 0)%Z then
    st ← sendCloudEvent source (keepLastWhenDelete prefix) drop st;
    Ok {| all := delete dropUID (all st); sent := sent st |}
  else Ok st.

(** The body of the loop over the keepers, for a keeper that matches. *)
Definition offer (source prefix : string) (items : list O) (p : nat) (item : O)
    (k : Keeper) (st : vstate) : run (Keeper * vstate) :=
  let n := Z.of_nat (length (bucket k)) in
  b ← set_index (bucket k) (n - 1) (Some p);
  let b := sortResources items (SortBy (when k)) b in
  l ← index b (n - 1);
  st ← (if decide (l = Some p) then Ok st
        else
          let st := {| all := bump (GetUID item) 1 (all st); sent := sent st |} in
          drop ← index b (Count (when k));
          match drop with
          | None => Ok st
          | Some d =>
              match items !! d with
              | Some o => dropResource source prefix o st
              | None => Panic
              end
          end);
  b ← set_index b (n - 1) None;
  Ok ({| when := when k; bucket := b |}, st).

Definition matches (k : Keeper) (item : O) : bool :=
  ExecuteBooleanCEL (When (when k)) item.

Fixpoint offerAll (source prefix : string) (items : list O) (p : nat) (item : O)
    (ks : list Keeper) (st : vstate) : run (list Keeper * vstate * bool) :=
  match ks with
  | [] => Ok ([], st, false)
  | k :: ks =>
      if matches k item then
        '(k, st) ← offer source prefix items p item k st;
        '(ks, st, _) ← offerAll source prefix items p item ks st;
        Ok (k :: ks, st, true)
      else
        '(ks, st, m) ← offerAll source prefix items p item ks st;
        Ok (k :: ks, st, m)
  end.

(** The body of the loop over the items.  [archive] is the disjunction of
    the two [ArchiveWhen] evaluations. *)
Definition processItem (source prefix : string) (items : list O) (archive : O → bool)
    (p : nat) (item : O) (ks : list Keeper) (st : vstate) : run (list Keeper * vstate) :=
  match ObjectMetadataName item with
  | None => Panic
  | Some _ =>
      '(ks, st, m) ← offerAll source prefix items p item ks st;
      if m : bool then
        match all st !! GetUID item with
        | None =>
            st ← sendCloudEvent source (keepLastWhenDelete prefix) item st;
            Ok (ks, st)
        | Some _ => Ok (ks, st)
        end
      else if archive item then
        st ← sendCloudEvent source (archiveWhen prefix) item st;
        Ok (ks, st)
      else Ok (ks, st)
  end.

(** [rest] are the items from position [p] on. *)
Fixpoint processItems (source prefix : string) (items : list O) (archive : O → bool)
    (p : nat) (rest : list O) (ks : list Keeper) (st : vstate)
    : run (list Keeper * vstate) :=
  match rest with
  | [] => Ok (ks, st)
  | item :: rest =>
      '(ks, st) ← processItem source prefix items archive p item ks st;
      processItems source prefix items archive (S p) rest ks st
  end.

End keepers.
