(* ===== verification/KeeperFacts.v ===== *)
(** * Facts on the keep-last buckets

    Rule unification against a reference definition, the effect of one sorted
    insertion on a bucket, and the conservation invariant: every item a rule
    matched is either held by a keeper or was announced for deletion, once. *)
From S2P Require Import Prelude GoLib Api Cel Filters CloudEvents Keepers.

Section unify.
  Context {O : Type} `{!CelEnv O}.
  Implicit Types (r : KeepLastWhenRule (O:=O)) (rs : list (KeepLastWhenRule (O:=O))).

(** ** Reference definition of [unifyRules] *)

(** The override counts a namespace gives for a rule name. *)
Definition overridesOf (name : string) rs : list Z :=
  Count <$> filter (λ r, Name r = name ∧ name ≠ "") rs.

(** The [i]-th cluster rule is the one the overrides of its name reach. *)
Definition isOverridable (clusterRules : list (KeepLastWhenRule (O:=O))) (i : nat) r : bool :=
  bool_decide (Forall (λ r', Name r' ≠ Name r) (drop (S i) clusterRules)).

Definition overridden (clusterRules namespaceRules : list (KeepLastWhenRule (O:=O)))
    (i : nat) r : KeepLastWhenRule (O:=O) :=
  if isOverridable clusterRules i r
  then setCount r (foldl Z.min (Count r) (overridesOf (Name r) namespaceRules))
  else r.

(** The unnamed namespace rules whose text was not seen before. *)
Fixpoint freshRules (seen : gset string) rs : list (KeepLastWhenRule (O:=O)) :=
  match rs with
  | [] => []
  | r :: rs =>
      if decide (Name r = "") then
        if decide (WhenText r ∈ seen) then freshRules seen rs
        else r :: freshRules ({[WhenText r]} ∪ seen) rs
      else freshRules seen rs
  end.

Definition unifyReference (clusterRules namespaceRules : list (KeepLastWhenRule (O:=O)))
    : list (KeepLastWhenRule (O:=O)) :=
  imap (overridden clusterRules namespaceRules) clusterRules
  ++ freshRules (list_to_set (WhenText <$> clusterRules)) namespaceRules.

Lemma setCount_id r : setCount r (Count r) = r.
Proof. by destruct r. Qed.

Lemma addClusterRules_spec rs :
  let st := foldl addClusterRule ([], ∅, ∅) rs in
  st.1.1 = rs ∧ st.2 = list_to_set (WhenText <$> rs) ∧
  ∀ name i, st.1.2 !! name = Some i ↔
    ∃ r, rs !! i = Some r ∧ Name r = name ∧ isOverridable rs i r = true.
Proof.
  induction rs as [|r rs IH] using rev_ind.
  { cbn. split_and!; [done|done|]. intros name i. rewrite lookup_empty. naive_solver. }
  cbv zeta in *. rewrite foldl_snoc.
  destruct (foldl addClusterRule ([], ∅, ∅) rs) as [[u m] t]. cbn [fst snd] in IH.
  destruct IH as (-> & -> & Hm). cbn [addClusterRule fst snd].
  split_and!; [done|rewrite fmap_app, list_to_set_app_L; cbn; set_solver|].
  intros name i. rewrite length_app. cbn [length].
  replace (length rs + 1 - 1)%nat with (length rs) by lia.
  unfold isOverridable in *. setoid_rewrite bool_decide_eq_true in Hm.
  setoid_rewrite bool_decide_eq_true.
  destruct (decide (name = Name r)) as [->|Hne].
  - rewrite lookup_insert_eq. split.
    + intros [= <-]. exists r. rewrite lookup_app_r, Nat.sub_diag by lia.
      split_and!; [done..|]. rewrite drop_ge by (rewrite length_app; cbn; lia). done.
    + intros (r' & Hr' & He & Hf). f_equal.
      destruct (decide (i < length rs)%nat) as [Hi|Hi].
      * exfalso. rewrite drop_app_le in Hf by lia.
        apply Forall_app in Hf as [_ Hf]. inversion_clear Hf. congruence.
      * apply lookup_lt_Some in Hr'. rewrite length_app in Hr'. cbn in Hr'. lia.
  - rewrite lookup_insert_ne by done. rewrite Hm. split.
    + intros (r' & Hr' & He & Hf). exists r'. pose proof (lookup_lt_Some _ _ _ Hr').
      rewrite lookup_app_l by done. split_and!; [done..|].
      rewrite drop_app_le by lia. apply Forall_app. split; [done|].
      constructor; [congruence|done].
    + intros (r' & Hr' & He & Hf).
      destruct (decide (i < length rs)%nat) as [Hi|Hi].
      * rewrite lookup_app_l in Hr' by done. exists r'. split_and!; [done..|].
        rewrite drop_app_le in Hf by lia. by apply Forall_app in Hf as [? _].
      * rewrite lookup_app_r in Hr' by lia.
        destruct (i - length rs)%nat eqn:E; cbn in Hr'; [|done]. congruence.
Qed.

Lemma overridden_lookup rs ns r0 i r (m : gmap string nat) :
  (∀ name j, m !! name = Some j ↔
     ∃ r, rs !! j = Some r ∧ Name r = name ∧ isOverridable rs j r = true) →
  rs !! i = Some r →
  overridden rs (ns ++ [r0]) i r =
  (if decide (Name r0 ≠ "" ∧ m !! Name r0 = Some i)
   then (λ r', if (Count r0 <? Count r')%Z then setCount r' (Count r0) else r')
          (overridden rs ns i r)
   else overridden rs ns i r).
Proof.
  intros Hm Hi. unfold overridden, overridesOf.
  destruct (isOverridable rs i r) eqn:Hov.
  - rewrite filter_app, fmap_app, foldl_app, filter_cons, filter_nil.
    destruct (decide (Name r0 = Name r ∧ Name r ≠ "")) as [[He Hne]|Hn].
    + rewrite (decide_True (P:=Name r0 ≠ "" ∧ _)).
      2:{ split; [congruence|]. apply Hm. eauto. }
      cbn. destruct (Z.ltb_spec (Count r0)
        (foldl Z.min (Count r) (Count <$> filter (λ r1, Name r1 = Name r ∧ Name r ≠ "") ns))).
      * rewrite Z.min_r by lia. done.
      * by rewrite Z.min_l by lia.
    + cbn. rewrite decide_False; [done|]. intros [Hne Hl]. apply Hm in Hl as (r' & ? & ? & ?).
      simplify_eq. apply Hn. split; [done|]. congruence.
  - rewrite decide_False; [done|]. intros [Hne Hl]. apply Hm in Hl as (r' & ? & ? & ?).
    simplify_eq. congruence.
Qed.

Lemma freshRules_snoc seen rs r :
  freshRules seen (rs ++ [r]) =
  freshRules seen rs ++
    (if decide (Name r = "") then
       if decide (WhenText r ∈ seen ∪ list_to_set (WhenText <$> freshRules seen rs))
       then [] else [r]
     else []).
Proof.
  revert seen; induction rs as [|r' rs IH]; intros seen; cbn [app freshRules].
  - cbn. destruct (decide (Name r = "")); [|done].
    destruct (decide (WhenText r ∈ seen)).
    + by rewrite decide_True by set_solver.
    + by rewrite decide_False by set_solver.
  - destruct (decide (Name r' = "")); [|by apply IH].
    destruct (decide (WhenText r' ∈ seen)); [by apply IH|].
    rewrite IH. cbn [app]. f_equal. f_equal. cbn.
    destruct (decide (Name r = "")); [|done].
    apply decide_ext. set_solver.
Qed.

Lemma addNamespaceRules_spec rs ns (m : gmap string nat) :
  (∀ name j, m !! name = Some j ↔
     ∃ r, rs !! j = Some r ∧ Name r = name ∧ isOverridable rs j r = true) →
  let seen := list_to_set (WhenText <$> rs) in
  foldl (addNamespaceRule m) (rs, seen) ns =
  (imap (overridden rs ns) rs ++ freshRules seen ns,
   seen ∪ list_to_set (WhenText <$> freshRules seen ns)).
Proof.
  intros Hm seen. induction ns as [|r ns IH] using rev_ind.
  { cbn. f_equal; [|set_solver]. rewrite app_nil_r. apply list_eq; intros i.
    rewrite list_lookup_imap. destruct (rs !! i) as [r|]; [|done]. cbn. f_equal.
    unfold overridden, overridesOf. cbn. rewrite setCount_id. by destruct (isOverridable _ _ _). }
  rewrite foldl_snoc, IH, freshRules_snoc. unfold addNamespaceRule.
  destruct (String.eqb_spec (Name r) "") as [He|Hne]; cbn [negb].
  - rewrite decide_True by done.
    assert (imap (overridden rs (ns ++ [r])) rs = imap (overridden rs ns) rs) as ->.
    { apply list_eq; intros i. rewrite !list_lookup_imap.
      destruct (rs !! i) as [r'|] eqn:Hr'; [|done]. cbn. f_equal.
      rewrite (overridden_lookup rs ns r i r' m) by done.
      rewrite decide_False; [done|]. naive_solver. }
    case_bool_decide; case_decide; [|done..|].
    + by rewrite !app_nil_r.
    + rewrite app_assoc. f_equal. rewrite fmap_app, list_to_set_app_L. cbn. set_solver.
  - rewrite decide_False by done. rewrite app_nil_r.
    destruct (m !! Name r) as [idx|] eqn:Hidx.
    + f_equal. destruct (proj1 (Hm _ _) Hidx) as (r' & Hr' & _ & _).
      rewrite alter_app_l
        by (rewrite length_imap; by eapply lookup_lt_Some).
      f_equal. apply list_eq; intros i.
      destruct (decide (i = idx)) as [->|Hi].
      * rewrite list_lookup_alter_eq, !list_lookup_imap, Hr'. cbn. f_equal.
        rewrite (overridden_lookup rs ns r idx r' m) by done. by rewrite decide_True by done.
      * rewrite list_lookup_alter_ne by done. rewrite !list_lookup_imap.
        destruct (rs !! i) as [r''|] eqn:Hr''; [|done]. cbn. f_equal.
        rewrite (overridden_lookup rs ns r i r'' m) by done.
        rewrite decide_False; [done|]. intros [_ ?]. congruence.
    + f_equal. f_equal. apply list_eq; intros i. rewrite !list_lookup_imap.
      destruct (rs !! i) as [r''|] eqn:Hr''; [|done]. cbn. f_equal.
      rewrite (overridden_lookup rs ns r i r'' m) by done.
      rewrite decide_False; [done|]. intros [_ ?]. congruence.
Qed.

Lemma unifyRules_reference clusterRules namespaceRules :
  unifyRules clusterRules namespaceRules = unifyReference clusterRules namespaceRules.
Proof.
  unfold unifyRules, unifyReference.
  pose proof (addClusterRules_spec clusterRules) as H. cbv zeta in H.
  destruct (foldl addClusterRule ([], ∅, ∅) clusterRules) as [[u m] t]. cbn [fst snd] in H.
  destruct H as (-> & -> & Hm). by rewrite (addNamespaceRules_spec clusterRules _ m).
Qed.

Lemma freshRules_texts seen rs :
  NoDup (WhenText <$> freshRules seen rs) ∧
  Forall (λ r, WhenText r ∉ seen ∧ r ∈ rs) (freshRules seen rs).
Proof.
  revert seen; induction rs as [|r rs IH]; intros seen; cbn [freshRules].
  { split; constructor. }
  assert (∀ s, seen ⊆ s → Forall (λ r0, WhenText r0 ∉ seen ∧ r0 ∈ r :: rs) (freshRules s rs)) as Hw.
  { intros s Hs. destruct (IH s) as [_ Hf].
    eapply Forall_impl; [done|]. intros r' [? ?]. set_solver. }
  destruct (decide (Name r = "")); [|split; [apply IH|by apply Hw]].
  destruct (decide (WhenText r ∈ seen)); [split; [apply IH|by apply Hw]|].
  destruct (IH ({[WhenText r]} ∪ seen)) as [Hn Hf]. split.
  - cbn. constructor; [|done]. rewrite list_elem_of_fmap. intros (r' & He & Hin).
    rewrite Forall_forall in Hf. destruct (Hf _ Hin) as [Hc _]. set_solver.
  - constructor; [set_solver|]. apply Hw. set_solver.
Qed.
Lemma freshRules_unnamed seen rs r : r ∈ freshRules seen rs → Name r = "".
Proof.
  revert seen; induction rs as [|r' rs IH]; intros seen; cbn [freshRules].
  { by intros ?%not_elem_of_nil. }
  destruct (decide (Name r' = "")); [|by apply IH].
  destruct (decide (WhenText r' ∈ seen)); [by apply IH|].
  intros [->|Hin]%elem_of_cons; [done|]. by eapply IH.
Qed.

Lemma overridden_lowers clusterRules namespaceRules i r :
  ∃ c, Some (overridden clusterRules namespaceRules i r) = Some (setCount r c) ∧ (c <= Count r)%Z.
Proof.
  unfold overridden. destruct (isOverridable clusterRules i r).
  - eexists. split; [done|]. generalize (Count r). intros z.
    induction (overridesOf (Name r) namespaceRules) as [|x l IH] using rev_ind; [done|].
    rewrite foldl_snoc. lia.
  - exists (Count r). split; [by rewrite setCount_id|lia].
Qed.
End unify.

Section buckets.
  Context {O : Type} `{!Unstructured O, !CelEnv O, !EventEncoding O}.
  Context (items : list O) (source prefix : string).

(** ** One sorted insertion *)

(** Where [sortResources] puts a new resource among the sorted ones. *)
Definition position (sortField : string) (init : list (option nat)) (p : nat) : nat :=
  (BinarySearchFunc init (Some p) (compareElem items sortField)).1.

Definition insertAt {A} (i : nat) (a : A) (l : list A) : list A :=
  take i l ++ a :: drop i l.

Lemma position_le sf init p : (position sf init p <= length init)%nat.
Proof. apply BinarySearchFunc_spec. Qed.

Lemma insertAt_perm {A} i (a : A) l : insertAt i a l ≡ₚ a :: l.
Proof. unfold insertAt. rewrite <-Permutation_middle. by rewrite take_drop. Qed.

Lemma insertAt_length {A} i (a : A) l : length (insertAt i a l) = S (length l).
Proof. by rewrite (Permutation_length (insertAt_perm i a l)). Qed.

Lemma sortResources_insert sf init p :
  sortResources items sf (init ++ [Some p]) = insertAt (position sf init p) (Some p) init.
Proof.
  unfold sortResources. rewrite length_app. cbn [length].
  pose proof (position_le sf init p) as Hp.
  destruct (Nat.leb_spec (length init + 1) 1) as [Hl|Hl].
  - destruct init as [|? ?]; [|cbn in Hl; lia]. cbn in Hp.
    unfold insertAt. by rewrite take_nil, drop_nil.
  - rewrite last_snoc. replace (length init + 1 - 1)%nat with (length init) by lia.
    rewrite take_app_length. fold (position sf init p).
    destruct (Nat.ltb_spec (position sf init p) (length init)) as [Hlt|Hge].
    + pose proof (copy_within_shift (init ++ [Some p]) (position sf init p) (Some p)) as Hc.
      rewrite length_app in Hc. cbn [length] in Hc.
      replace (length init + 1 - 1)%nat with (length init) in Hc by lia.
      rewrite Hc by lia. unfold insertAt. rewrite take_app_le by lia. f_equal. f_equal.
      rewrite drop_app_le by lia. rewrite take_app_le by (rewrite length_drop; lia).
      rewrite take_ge by (rewrite length_drop; lia). done.
    + unfold insertAt. rewrite take_ge, drop_ge by lia. done.
Qed.

(** The kept part of the bucket after an insertion, and what falls out. *)
Definition keptAfter (sf : string) (init : list (option nat)) (p : nat) : list (option nat) :=
  take (length init) (insertAt (position sf init p) (Some p) init).

Definition fallsOut (sf : string) (init : list (option nat)) (p : nat) : option nat :=
  default None (last (insertAt (position sf init p) (Some p) init)).

Lemma insertAt_split sf init p :
  insertAt (position sf init p) (Some p) init = keptAfter sf init p ++ [fallsOut sf init p].
Proof.
  unfold keptAfter, fallsOut.
  destruct (insertAt (position sf init p) (Some p) init) as [|x l] eqn:E using rev_ind.
  { apply (f_equal length) in E. rewrite insertAt_length in E. done. }
  apply (f_equal length) in E. rewrite insertAt_length, length_app in E. cbn in E.
  rewrite last_snoc. rewrite take_app_length' by lia. done.
Qed.

Lemma keptAfter_length sf init p : length (keptAfter sf init p) = length init.
Proof.
  pose proof (f_equal length (insertAt_split sf init p)) as H.
  rewrite insertAt_length, length_app in H. cbn in H. lia.
Qed.

Lemma keptAfter_perm sf init p :
  keptAfter sf init p ++ [fallsOut sf init p] ≡ₚ Some p :: init.
Proof. rewrite <-insertAt_split. apply insertAt_perm. Qed.

(** The state after a keeper took or refused a resource. *)
Definition afterOffer (item : O) (p : nat) (d : option nat) (st : vstate) : run vstate :=
  if decide (d = Some p) then Ok st
  else
    let st := {| all := bump (GetUID item) 1 (all st); sent := sent st |} in
    match d with
    | None => Ok st
    | Some d => match items !! d with
                | Some o => dropResource source prefix o st
                | None => Panic
                end
    end.

Lemma offer_bucket p item k init st :
  bucket k = init ++ [None] → Count (when k) = Z.of_nat (length init) →
  offer source prefix items p item k st =
  (st ← afterOffer item p (fallsOut (SortBy (when k)) init p) st;
   Ok ({| when := when k; bucket := keptAfter (SortBy (when k)) init p ++ [None] |}, st)).
Proof.
  intros Hb Hc. unfold offer. rewrite Hb, Hc, length_app. cbn [length].
  rewrite set_index_Ok by (rewrite length_app; cbn [length]; lia). cbn [mbind outcome_bind].
  replace (Z.to_nat (Z.of_nat (length init + 1) - 1)) with (length init) by lia.
  rewrite insert_app_r_alt, Nat.sub_diag by lia. cbn [insert list_insert].
  rewrite sortResources_insert, insertAt_split.
  set (d := fallsOut (SortBy (when k)) init p). set (b := keptAfter (SortBy (when k)) init p).
  assert (length b = length init) as Hlb by apply keptAfter_length.
  assert (∀ i, i = Z.of_nat (length init) → index (E:=Empty_set) (b ++ [d]) i = Ok d) as Hidx.
  { intros i ->. apply index_Ok; [lia|]. rewrite Nat2Z.id, lookup_app_r by lia.
    by rewrite Hlb, Nat.sub_diag. }
  rewrite (Hidx (Z.of_nat (length init + 1) - 1)%Z) by lia. cbn [mbind outcome_bind].
  rewrite (Hidx (Z.of_nat (length init))) by lia. cbn [mbind outcome_bind].
  rewrite set_index_Ok by (rewrite length_app, Hlb; cbn [length]; lia).
  replace (Z.to_nat (Z.of_nat (length init + 1) - 1)) with (length b) by lia.
  rewrite insert_app_r_alt, Nat.sub_diag by lia. cbn [insert list_insert].
  unfold afterOffer. destruct (decide (d = Some p)); [done|].
  destruct d as [d|]; [|done]. by destruct (items !! d).
Qed.

(** ** Conservation *)

(** A bucket before or after item [n-1]: [Count] places and the spare one,
    distinct resources, each one matched by the rule. *)
Definition wfKeeper (n : nat) (k : Keeper) : Prop :=
  ∃ init, bucket k = init ++ [None] ∧ Count (when k) = Z.of_nat (length init) ∧
    NoDup (omap id init) ∧
    ∀ q, Some q ∈ init → (q < n)%nat ∧ ∃ o, items !! q = Some o ∧ matches k o = true.

(** How many keepers hold the item. *)
Definition occ (ks : list Keeper) (q : nat) : nat :=
  length (filter (λ k, Some q ∈ bucket k) ks).

Definition counter (n : nat) : option Z :=
  match n with 0%nat => None | S _ => Some (Z.of_nat n) end.

(** The [all] map counts the keepers that hold an item. *)
Definition allOk (ks : list Keeper) (a : gmap string Z) : Prop :=
  ∀ q o, items !! q = Some o → a !! GetUID o = counter (occ ks q).

(** How many events of a type are about an object. *)
Definition eventsOf (ty : string) (o : O) (evs : list (CloudEvent O)) : nat :=
  length (filter (λ e, ce_Type e = ty ∧ GetUID (ce_Data e) = GetUID o) evs).

(** The events of a run: about an item, of one of the two types it sends. *)
Definition vacuumEvent (e : CloudEvent O) : Prop :=
  ce_Data e ∈ items ∧ (ce_Type e = keepLastWhenDelete prefix ∨ ce_Type e = archiveWhen prefix).

(** Deletion events of an item, plus one while it is held. *)
Definition score (ks : list Keeper) (st : vstate (O:=O)) (q : nat) (o : O) : nat :=
  eventsOf (keepLastWhenDelete prefix) o (sent st) + (if decide (occ ks q = 0) then 0 else 1).

Lemma eventsOf_app ty o e1 e2 :
  eventsOf ty o (e1 ++ e2) = (eventsOf ty o e1 + eventsOf ty o e2)%nat.
Proof. unfold eventsOf. by rewrite filter_app, length_app. Qed.

Lemma eventsOf_one ty o e :
  eventsOf ty o [e] =
  if decide (ce_Type e = ty ∧ GetUID (ce_Data e) = GetUID o) then 1%nat else 0%nat.
Proof. unfold eventsOf. rewrite filter_cons, filter_nil. by destruct (decide _). Qed.

Lemma occ_app ks1 ks2 q : occ (ks1 ++ ks2) q = (occ ks1 q + occ ks2 q)%nat.
Proof. unfold occ. by rewrite filter_app, length_app. Qed.

Lemma occ_cons k ks q :
  occ (k :: ks) q = ((if decide (Some q ∈ bucket k) then 1 else 0) + occ ks q)%nat.
Proof. unfold occ. rewrite filter_cons. by destruct (decide _). Qed.

Lemma occ_replace pre k k' post q :
  (Some q ∈ bucket k ↔ Some q ∈ bucket k') →
  occ (pre ++ k :: post) q = occ (pre ++ k' :: post) q.
Proof.
  intros He. rewrite !occ_app, !occ_cons. f_equal. f_equal.
  destruct (decide (Some q ∈ bucket k)), (decide (Some q ∈ bucket k')); tauto.
Qed.

Lemma occ_remove pre k k' post q :
  Some q ∈ bucket k → Some q ∉ bucket k' →
  occ (pre ++ k :: post) q = S (occ (pre ++ k' :: post) q).
Proof.
  intros H H'. rewrite !occ_app, !occ_cons. rewrite decide_True, (decide_False (P:=_ ∈ bucket k')) by done. lia.
Qed.

Lemma occ_zero ks q :
  occ ks q = 0%nat ↔ existsb (λ k, bool_decide (Some q ∈ bucket k)) ks = false.
Proof.
  induction ks as [|k ks IH]; [done|]. rewrite occ_cons. cbn [existsb].
  rewrite orb_false_iff, bool_decide_eq_false, <-IH.
  destruct (decide (Some q ∈ bucket k)); [|naive_solver]. split; [lia|naive_solver].
Qed.

Lemma length_omap_le {A} (l : list (option A)) : (length (omap id l) <= length l)%nat.
Proof. induction l as [|[a|] l IH]; cbn; lia. Qed.

Lemma counter_succ n : counter (S n) = Some (Z.of_nat n + 1)%Z.
Proof. cbn. f_equal. lia. Qed.

Lemma default_counter n : default 0%Z (counter n) = Z.of_nat n.
Proof. by destruct n. Qed.

Lemma elem_of_snoc_None {A} (q : A) init : Some q ∈ init ++ [None] ↔ Some q ∈ init.
Proof. rewrite elem_of_app, list_elem_of_singleton. naive_solver. Qed.

Lemma NoDup_omap_perm {A} (l l' : list (option A)) :
  l ≡ₚ l' → NoDup (omap id l) → NoDup (omap id l').
Proof. intros Hp. by rewrite Hp. Qed.

(** What one insertion does to the set of resources a bucket holds. *)
Lemma wfKeeper_step p k item init (k' : Keeper) d :
  wfKeeper p k → bucket k = init ++ [None] → items !! p = Some item →
  matches k item = true →
  keptAfter (SortBy (when k)) init p ++ [d] ≡ₚ Some p :: init →
  k' = {| when := when k; bucket := keptAfter (SortBy (when k)) init p ++ [None] |} →
  wfKeeper (S p) k' ∧
  (∀ q, Some q ∈ bucket k' ↔ (q = p ∨ Some q ∈ bucket k) ∧ d ≠ Some q) ∧
  (∀ q, Some q ∈ bucket k → (q < p)%nat).
Proof.
  intros (init' & Hb' & Hc & Hnd & Hin) Hb Hitem Hmt Hp ->.
  rewrite Hb in Hb'. apply app_inj_2 in Hb' as [<- _]; [|done].
  assert (NoDup (omap id (Some p :: init))) as Hnd2.
  { cbn. constructor; [|done]. rewrite list_elem_of_omap. intros (x & Hx & Hxp).
    cbn in Hxp. subst x. apply Hin in Hx as [? _]. lia. }
  assert (∀ q, Some q ∈ keptAfter (SortBy (when k)) init p ++ [d] ↔ q = p ∨ Some q ∈ init) as Hel.
  { intros q. rewrite Hp, elem_of_cons. naive_solver. }
  set (K := keptAfter (SortBy (when k)) init p) in *.
  assert (NoDup (omap id (K ++ [d]))) as Hnd3 by (by eapply NoDup_omap_perm).
  rewrite omap_app in Hnd3. apply NoDup_app in Hnd3 as (HndK & Hdisj & _).
  assert (∀ q, Some q ∈ K ↔ (q = p ∨ Some q ∈ init) ∧ d ≠ Some q) as HK.
  { intros q. rewrite <-Hel, elem_of_app, list_elem_of_singleton. split.
    - intros Hq. split; [by left|]. intros ->.
      apply (Hdisj q); [|by apply list_elem_of_singleton].
      rewrite list_elem_of_omap. by exists (Some q).
    - intros [[?|Hq] ?]; [done|]. congruence. }
  split_and!.
  - exists K. cbn. split_and!; [done| |done|].
    + rewrite Hc. unfold K. by rewrite keptAfter_length.
    + intros q Hq. apply HK in Hq as [[->|Hq] _]; [by split; [lia|exists item]|].
      destruct (Hin q Hq) as (? & ?). split; [lia|done].
  - intros q. cbn. rewrite Hb, !elem_of_snoc_None. apply HK.
  - intros q. rewrite Hb, elem_of_snoc_None. intros Hq. by apply Hin.
Qed.

Context (Huid : NoDup (GetUID <$> items)) (Hty : Forall (λ o, well_typed o = true) items).

Lemma uid_inj q q' o o' :
  items !! q = Some o → items !! q' = Some o' → GetUID o = GetUID o' → q = q'.
Proof.
  intros Hq Hq' He. eapply NoDup_lookup; [exact Huid| |].
  - rewrite list_lookup_fmap, Hq. done.
  - rewrite list_lookup_fmap, Hq'. cbn. by rewrite He.
Qed.

(** The drop of a resource held by some keeper of [ks], leaving [ks']. *)
Lemma dropResource_step d o st ks ks' :
  items !! d = Some o →
  allOk ks (all st) → occ ks d = S (occ ks' d) → (∀ q, q ≠ d → occ ks' q = occ ks q) →
  ∃ st', dropResource source prefix o st = Ok st' ∧ allOk ks' (all st') ∧
    (∀ q o', items !! q = Some o' → score ks' st' q o' = score ks st q o') ∧
    (∀ ty q o', items !! q = Some o' → q ≠ d ∨ ty ≠ keepLastWhenDelete prefix →
       eventsOf ty o' (sent st') = eventsOf ty o' (sent st)) ∧
    ∃ evs, sent st' = sent st ++ evs ∧ Forall vacuumEvent evs.
Proof.
  intros Hd Hall Hocc Hother.
  assert (allOk ks' (if decide (occ ks' d = 0%nat) then delete (GetUID o) (bump (GetUID o) (-1) (all st))
                     else bump (GetUID o) (-1) (all st))) as Hall'.
  { intros q oq Hq. destruct (decide (q = d)) as [->|Hne].
    - assert (oq = o) as -> by congruence. unfold bump. rewrite (Hall d o Hd), Hocc, default_counter.
      destruct (decide (occ ks' d = 0%nat)) as [Hz|Hz].
      + rewrite Hz, lookup_delete_eq. done.
      + rewrite lookup_insert_eq. destruct (occ ks' d) as [|m]; [done|].
        cbn [counter default]. f_equal. lia.
    - assert (GetUID o ≠ GetUID oq) by (intros He; apply Hne; symmetry; by eapply uid_inj).
      rewrite (Hother q) by done. rewrite <-(Hall q oq Hq). unfold bump.
      destruct (decide _); by simplify_map_eq. }
  unfold dropResource. cbn [all sent].
  assert (default 0%Z (bump (GetUID o) (-1) (all st) !! GetUID o) = Z.of_nat (occ ks' d)) as ->.
  { unfold bump. rewrite lookup_insert_eq, (Hall d o Hd), Hocc, default_counter. cbn. lia. }
  destruct (Z.eqb_spec (Z.of_nat (occ ks' d)) 0) as [Hz|Hnz].
  - assert (occ ks' d = 0%nat) as Hz' by lia. rewrite decide_True in Hall' by done.
    unfold sendCloudEvent. rewrite Forall_lookup in Hty.
    destruct (Send_well_typed source (keepLastWhenDelete prefix) o (Hty _ _ Hd))
      as (e & -> & He1 & He2 & _). cbn [mbind outcome_bind].
    eexists. split; [done|]. cbn [all sent]. split_and!; [done| | |].
    + intros q oq Hq. unfold score. cbn [sent]. rewrite eventsOf_app, eventsOf_one, He1, He2.
      destruct (decide (q = d)) as [->|Hne].
      * assert (oq = o) as -> by congruence. rewrite Hocc, Hz'.
        rewrite (decide_True (P:=_ ∧ _)) by done. rewrite decide_True by done.
        rewrite decide_False by done. lia.
      * rewrite (Hother q) by done. rewrite (decide_False (P:=_ ∧ _)); [lia|].
        intros [_ He]. apply Hne. symmetry. by eapply uid_inj.
    + intros ty q oq Hq Hne. rewrite eventsOf_app, eventsOf_one, He1, He2.
      rewrite decide_False; [lia|]. intros [<- He].
      destruct Hne as [Hne|Hne]; [|done]. apply Hne. symmetry. by eapply uid_inj.
    + exists [e]. split; [done|]. constructor; [|done]. unfold vacuumEvent. rewrite He1, He2.
      split; [by eapply list_elem_of_lookup_2|by left].
  - rewrite decide_False in Hall' by lia. eexists. split; [done|]. cbn [all sent].
    split_and!; [done| |done|].
    + intros q oq Hq. unfold score. cbn [sent]. f_equal.
      destruct (decide (q = d)) as [->|Hne]; [|by rewrite Hother].
      rewrite Hocc. rewrite !decide_False by lia. done.
    + exists []. by rewrite app_nil_r.
Qed.

(** What the run preserves between two states, item [p] apart: the score of
    every other item; only deletion events are added, none about [p]. *)
Definition keeps (p : nat) (ks ks' : list Keeper) (st st' : vstate (O:=O)) : Prop :=
  (∀ q o, items !! q = Some o → q ≠ p → score ks' st' q o = score ks st q o) ∧
  (∀ ty q o, items !! q = Some o → q = p ∨ ty ≠ keepLastWhenDelete prefix →
     eventsOf ty o (sent st') = eventsOf ty o (sent st)) ∧
  ∃ evs, sent st' = sent st ++ evs ∧ Forall vacuumEvent evs.

Lemma keeps_refl p ks st : keeps p ks ks st st.
Proof. split_and!; [done|done|]. exists []. by rewrite app_nil_r. Qed.

Lemma keeps_trans p ks1 ks2 ks3 st1 st2 st3 :
  keeps p ks1 ks2 st1 st2 → keeps p ks2 ks3 st2 st3 → keeps p ks1 ks3 st1 st3.
Proof.
  intros (H1 & H2 & e1 & He1 & H3) (G1 & G2 & e2 & He2 & G3). split_and!.
  - intros q o Hq Hne. by rewrite G1, H1.
  - intros ty q o Hq Hne. by rewrite (G2 ty q), (H2 ty q).
  - exists (e1 ++ e2). rewrite He2, He1, app_assoc. split; [done|]. by apply Forall_app.
Qed.

(** Counting item [p] once more. *)
Lemma bump_succ p item ks ks' a :
  items !! p = Some item → allOk ks a →
  occ ks' p = S (occ ks p) → (∀ q, q ≠ p → occ ks' q = occ ks q) →
  allOk ks' (bump (GetUID item) 1 a).
Proof.
  intros Hp Ha Hocc Hother q oq Hq. unfold bump. destruct (decide (q = p)) as [->|Hne].
  - assert (oq = item) as -> by congruence. rewrite lookup_insert_eq, (Ha p item Hp), Hocc.
    rewrite default_counter, counter_succ. done.
  - rewrite lookup_insert_ne by (intros He; apply Hne; symmetry; by eapply uid_inj).
    by rewrite (Hother q), (Ha q oq).
Qed.

(** An item [p] offered to a keeper that becomes [k'], [d] falling out of its bucket. *)
Section offered.
  Context (p : nat) (item : O) (d : option nat) (pre post : list Keeper) (k k' : Keeper) (st : vstate (O:=O)).
  Context (Hp : items !! p = Some item).
  Context (Hel : ∀ q, Some q ∈ bucket k' ↔ (q = p ∨ Some q ∈ bucket k) ∧ d ≠ Some q).
  Context (Hlt : ∀ q, Some q ∈ bucket k → (q < p)%nat).
  Context (Hall : allOk (pre ++ k :: post) (all st)).

Definition offeredTo (d : option nat) : Prop :=
  ∃ st', afterOffer item p d st = Ok st' ∧
    allOk (pre ++ k' :: post) (all st') ∧ keeps p (pre ++ k :: post) (pre ++ k' :: post) st st'.

Lemma occ_same q : q ≠ p → d ≠ Some q → occ (pre ++ k' :: post) q = occ (pre ++ k :: post) q.
Proof. intros Hq Hd. symmetry. apply occ_replace. rewrite Hel. naive_solver. Qed.

Lemma offered_rejected : d = Some p → offeredTo (Some p).
Proof.
  intros Hd. unfold offeredTo, afterOffer. rewrite decide_True by done.
  assert (occ (pre ++ k' :: post) p = occ (pre ++ k :: post) p) as Hrej.
  { symmetry. apply occ_replace. rewrite Hel. split; [|naive_solver].
    intros Hin. apply Hlt in Hin. lia. }
  exists st. split_and!; [done| |].
  - intros q o Hq. rewrite (Hall q o Hq). destruct (decide (q = p)) as [->|?]; [by rewrite Hrej|].
    rewrite occ_same; [done..|congruence].
  - split_and!; [|done|exists []; by rewrite app_nil_r]. intros q o Hq Hne.
    unfold score. rewrite occ_same; [done..|congruence].
Qed.

Lemma offered_fills : d = None → offeredTo None.
Proof.
  intros Hd. unfold offeredTo, afterOffer. rewrite decide_False by done. eexists. split_and!; [done| |].
  - cbn [all]. eapply bump_succ; [done|exact Hall| |intros q Hq; apply occ_same; congruence].
    apply occ_remove; [apply Hel; naive_solver|]. intros Hin. apply Hlt in Hin. lia.
  - split_and!; [|done|exists []; by rewrite app_nil_r].
    intros q o Hq Hne. unfold score. cbn [sent]. rewrite occ_same; congruence.
Qed.

(** The keeper holds both items before the one that falls out is dropped. *)
Lemma offered_evicts e : d = Some e → e ≠ p → Some e ∈ bucket k → offeredTo (Some e).
Proof.
  intros Hd Hne Hin. unfold offeredTo, afterOffer. rewrite decide_False by congruence.
  destruct (lookup_lt_is_Some_2 items e) as [o Ho].
  { apply Hlt in Hin. apply lookup_lt_Some in Hp. lia. }
  rewrite Ho. set (km := {| when := when k; bucket := Some p :: bucket k |}).
  assert (allOk (pre ++ km :: post) (bump (GetUID item) 1 (all st))) as Hmid.
  { eapply bump_succ; [done|exact Hall| |].
    - apply occ_remove; [by left|]. intros Hi. apply Hlt in Hi. lia.
    - intros q Hq. symmetry. apply occ_replace. cbn. rewrite elem_of_cons. naive_solver. }
  destruct (dropResource_step e o {| all := bump (GetUID item) 1 (all st); sent := sent st |}
    (pre ++ km :: post) (pre ++ k' :: post)) as (st' & -> & Hall' & Hsc & Hev & Hdata);
    [done|exact Hmid| | |].
  { apply occ_remove; [cbn; by right|]. rewrite Hel. naive_solver. }
  { intros q Hq. symmetry. apply occ_replace. rewrite Hel. cbn. rewrite elem_of_cons. naive_solver. }
  exists st'. split_and!; [done|done|]. split_and!; [| |done].
  - intros q oq Hq Hqp. rewrite (Hsc q oq Hq). unfold score. cbn [sent]. f_equal.
    rewrite (occ_replace pre km k post q); [done|]. cbn. rewrite elem_of_cons. naive_solver.
  - intros ty q oq Hq Hqp. rewrite (Hev ty q oq Hq); [done|].
    destruct Hqp as [->|?]; [by left|by right].
Qed.

Lemma offeredTo_cases d1 :
  d = d1 → (∀ e, d1 = Some e → e = p ∨ Some e ∈ bucket k) → offeredTo d1.
Proof.
  intros Hd Hfell. destruct d1 as [e|]; [|by apply offered_fills].
  destruct (decide (e = p)) as [->|Hne]; [by apply offered_rejected|].
  destruct (Hfell e eq_refl) as [?|Hin]; [done|by apply offered_evicts].
Qed.

Lemma afterOffer_step : (∀ e, d = Some e → e = p ∨ Some e ∈ bucket k) → offeredTo d.
Proof. by apply offeredTo_cases. Qed.
End offered.

Lemma offer_step p item pre k post st :
  items !! p = Some item → matches k item = true → wfKeeper p k →
  allOk (pre ++ k :: post) (all st) →
  ∃ k' st', offer source prefix items p item k st = Ok (k', st') ∧
    when k' = when k ∧ wfKeeper (S p) k' ∧ allOk (pre ++ k' :: post) (all st') ∧
    keeps p (pre ++ k :: post) (pre ++ k' :: post) st st'.
Proof.
  intros Hp Hmt Hwf Hall. pose proof Hwf as (init & Hb & Hc & _ & _).
  rewrite (offer_bucket p item k init st Hb Hc).
  pose proof (keptAfter_perm (SortBy (when k)) init p) as Hperm.
  remember (fallsOut (SortBy (when k)) init p) as d eqn:Hd0. clear Hd0.
  set (k' := {| when := when k; bucket := keptAfter (SortBy (when k)) init p ++ [None] |}).
  destruct (wfKeeper_step p k item init k' d Hwf Hb Hp Hmt) as (Hwf' & Hel & Hlt); [done|done|].
  destruct (afterOffer_step p item d pre post k k' st Hp Hel Hlt Hall) as (st' & -> & Hall' & Hk).
  { intros e ->. assert (Some e ∈ Some p :: init) as [[= ->]|Hdi]%elem_of_cons; [|by left|right].
    { rewrite <-Hperm. apply elem_of_app. right. by apply list_elem_of_singleton. }
    rewrite Hb. by apply elem_of_snoc_None. }
  cbn [mbind outcome_bind]. by exists k', st'.
Qed.

Lemma wfKeeper_mono n m k : (n <= m)%nat → wfKeeper n k → wfKeeper m k.
Proof.
  intros Hnm (init & ? & ? & ? & Hin). exists init. split_and!; [done..|].
  intros q Hq. destruct (Hin q Hq). split; [lia|done].
Qed.

Lemma offerAll_step p item pre ks st :
  items !! p = Some item → Forall (wfKeeper p) ks → allOk (pre ++ ks) (all st) →
  ∃ ks' st', offerAll source prefix items p item ks st =
      Ok (ks', st', existsb (λ k, matches k item) ks) ∧
    when <$> ks' = when <$> ks ∧ Forall (wfKeeper (S p)) ks' ∧
    allOk (pre ++ ks') (all st') ∧ keeps p (pre ++ ks) (pre ++ ks') st st' ∧
    (existsb (λ k, matches k item) ks = false → ks' = ks ∧ st' = st).
Proof.
  intros Hp. revert pre st; induction ks as [|k ks IH]; intros pre st Hwf Hall.
  { cbn [offerAll existsb mret outcome_ret]. exists [], st.
    pose proof (keeps_refl p (pre ++ []) st). by split_and!. }
  apply Forall_cons in Hwf as [Hk Hks]. cbn [offerAll existsb].
  destruct (matches k item) eqn:Hmt.
  - destruct (offer_step p item pre k ks st Hp Hmt Hk Hall)
      as (k' & st1 & -> & Hw & Hwf' & Hall' & Hkeep). cbn [mbind outcome_bind].
    destruct (IH (pre ++ [k']) st1 Hks) as (ks' & st2 & -> & Hw2 & Hwf2 & Hall2 & Hkeep2 & _).
    { by rewrite <-app_assoc. }
    cbn [mbind outcome_bind orb]. rewrite <-(app_assoc pre [k'] ks') in Hall2, Hkeep2.
    rewrite <-(app_assoc pre [k'] ks) in Hkeep2.
    eexists _, _. split_and!; [done|by rewrite !fmap_cons, Hw, Hw2|by constructor|done| |done].
    exact (keeps_trans _ _ _ _ _ _ _ Hkeep Hkeep2).
  - destruct (IH (pre ++ [k]) st Hks) as (ks' & st2 & -> & Hw2 & Hwf2 & Hall2 & Hkeep2 & Hf).
    { by rewrite <-app_assoc. }
    cbn [mbind outcome_bind orb]. rewrite <-(app_assoc pre [k] ks') in Hall2, Hkeep2.
    rewrite <-(app_assoc pre [k] ks) in Hkeep2.
    eexists _, _. split_and!; [done|by rewrite !fmap_cons, Hw2| |done|done|].
    + constructor; [|done]. eapply wfKeeper_mono; [|done]. lia.
    + intros [-> ->]%Hf. done.
Qed.

(** Whether some rule matches the item; rules are never changed by a run. *)
Definition matchedBy (rules : list (KeepLastWhenRule (O:=O))) (o : O) : bool :=
  existsb (λ r, ExecuteBooleanCEL (When r) o) rules.

Lemma existsb_matches ks o : existsb (λ k, matches k o) ks = matchedBy (when <$> ks) o.
Proof. unfold matchedBy. induction ks as [|k ks IH]; [done|]. cbn. by rewrite IH. Qed.

Lemma offerAll_match_some p item ks st ks' st' :
  items !! p = Some item → Forall (wfKeeper p) ks → allOk ks (all st) →
  offerAll source prefix items p item ks st = Ok (ks', st', true) →
  all st' !! GetUID item = counter (occ ks' p).
Proof.
  intros Hp Hwf Hall He.
  destruct (offerAll_step p item [] ks st Hp Hwf Hall) as (ks1 & st1 & He' & _ & _ & Hall' & _).
  rewrite He' in He. injection He as -> -> _. by apply Hall'.
Qed.

(** The run so far: the first [p] items are accounted for. *)
Definition accounted (rules : list (KeepLastWhenRule (O:=O))) (archive : O → bool)
    (p : nat) (ks : list Keeper) (st : vstate (O:=O)) : Prop :=
  when <$> ks = rules ∧ Forall (wfKeeper p) ks ∧ allOk ks (all st) ∧
  Forall vacuumEvent (sent st) ∧
  ∀ q o, items !! q = Some o →
    if decide (q < p)%nat then
      if matchedBy rules o
      then score ks st q o = 1%nat ∧ eventsOf (archiveWhen prefix) o (sent st) = 0%nat
      else score ks st q o = 0%nat ∧
           eventsOf (archiveWhen prefix) o (sent st) = (if archive o then 1%nat else 0%nat)
    else score ks st q o = 0%nat ∧ eventsOf (archiveWhen prefix) o (sent st) = 0%nat.

Lemma keepLastWhenDelete_ne_archiveWhen : keepLastWhenDelete prefix ≠ archiveWhen prefix.
Proof.
  unfold keepLastWhenDelete, archiveWhen. intros H%(inj (String.append prefix)). done.
Qed.

Lemma sendCloudEvent_step ty item st p :
  items !! p = Some item →
  ∃ e, sendCloudEvent source ty item st = Ok {| all := all st; sent := sent st ++ [e] |} ∧
       ce_Type e = ty ∧ ce_Data e = item.
Proof.
  intros Hp. rewrite Forall_lookup in Hty. unfold sendCloudEvent.
  destruct (Send_well_typed source ty item (Hty _ _ Hp)) as (e & -> & ? & ? & _).
  by exists e.
Qed.

(** The items before [p] when item [p] was offered to the keepers. *)
Lemma accounted_offered rules archive p item ks st ks' st' :
  items !! p = Some item → accounted rules archive p ks st →
  keeps p ks ks' st st' →
  ∀ q o, items !! q = Some o → q ≠ p →
    score ks' st' q o = score ks st q o ∧
    eventsOf (archiveWhen prefix) o (sent st') = eventsOf (archiveWhen prefix) o (sent st).
Proof.
  intros Hp _ (Hsc & Hev & _) q o Hq Hne. split; [by apply Hsc|].
  apply (Hev _ q); [done|]. right. intros He. by apply keepLastWhenDelete_ne_archiveWhen.
Qed.

(** Events about one object count for no other. *)
Lemma eventsOf_other ty q o p item evs :
  items !! q = Some o → items !! p = Some item → q ≠ p →
  Forall (λ e, ce_Data e = item) evs → eventsOf ty o evs = 0%nat.
Proof.
  intros Hq Hp Hne Hevs. unfold eventsOf. apply length_zero_iff_nil, filter_none.
  intros e He [_ Hu]. rewrite Forall_forall in Hevs. rewrite (Hevs e He) in Hu.
  apply Hne. symmetry. by eapply uid_inj.
Qed.

(** Settling item [p]: after it was offered, events about it are sent. *)
Lemma accounted_settle rules archive p item ks st ks' st' evs :
  items !! p = Some item → accounted rules archive p ks st →
  when <$> ks' = rules → Forall (wfKeeper (S p)) ks' → allOk ks' (all st') →
  keeps p ks ks' st st' → Forall (λ e, ce_Data e = item) evs → Forall vacuumEvent evs →
  (if matchedBy rules item
   then score ks' {| all := all st'; sent := evs |} p item = 1%nat ∧
        eventsOf (archiveWhen prefix) item evs = 0%nat
   else score ks' {| all := all st'; sent := evs |} p item = 0%nat ∧
        eventsOf (archiveWhen prefix) item evs = (if archive item then 1%nat else 0%nat)) →
  accounted rules archive (S p) ks' {| all := all st'; sent := sent st' ++ evs |}.
Proof.
  intros Hp Hacc Hw Hwf Hall Hkeep Hevs Htys Hset.
  pose proof Hacc as (_ & _ & _ & Hdata & Hq).
  pose proof Hkeep as (_ & Hev & new & Hs & Hnew).
  split_and!; [done|done|done| |].
  { cbn [sent]. rewrite Hs. by rewrite !Forall_app. }
  intros q o Hqo. pose proof (Hq q o Hqo) as Hq'. unfold score in *. cbn [sent] in *.
  rewrite !eventsOf_app. destruct (decide (q = p)) as [->|Hne].
  - assert (o = item) as -> by congruence. rewrite decide_False in Hq' by lia.
    rewrite decide_True by lia. destruct Hq' as [H1 H2].
    rewrite !(Hev _ p item) by (try done; by left). rewrite H2.
    replace (eventsOf (keepLastWhenDelete prefix) item (sent st)) with 0%nat by lia. done.
  - destruct (accounted_offered rules archive p item ks st ks' st' Hp Hacc Hkeep q o Hqo Hne)
      as [Ho1 Ho2]. unfold score in Ho1.
    rewrite !(eventsOf_other _ q o p item evs) by done. rewrite !Nat.add_0_r, Ho1, Ho2.
    destruct (decide (q < p)%nat).
    + by rewrite decide_True by lia.
    + by rewrite decide_False by lia.
Qed.

Lemma score_fresh ks a p item evs :
  score ks {| all := a; sent := evs |} p item =
  (eventsOf (keepLastWhenDelete prefix) item evs + if decide (occ ks p = 0) then 0 else 1)%nat.
Proof. done. Qed.

Lemma unheld_before rules archive p item ks st :
  items !! p = Some item → accounted rules archive p ks st → occ ks p = 0%nat.
Proof.
  intros Hp (_ & _ & _ & _ & Hq). specialize (Hq p item Hp).
  rewrite decide_False in Hq by lia. destruct Hq as [Hs _]. unfold score in Hs.
  destruct (decide (occ ks p = 0%nat)); [done|lia].
Qed.

Lemma vstate_app_nil (st : vstate (O:=O)) : {| all := all st; sent := sent st ++ [] |} = st.
Proof. destruct st. cbn. by rewrite app_nil_r. Qed.

Lemma well_typed_name p item :
  items !! p = Some item → is_Some (ObjectMetadataName item).
Proof.
  intros Hp. rewrite Forall_lookup in Hty. specialize (Hty _ _ Hp). unfold well_typed in Hty.
  rewrite !andb_true_iff, !bool_decide_eq_true in Hty. by destruct Hty as (((_ & ?) & _) & _).
Qed.

Lemma processItem_step rules archive p item ks st :
  items !! p = Some item → accounted rules archive p ks st →
  ∃ ks' st', processItem source prefix items archive p item ks st = Ok (ks', st') ∧
    accounted rules archive (S p) ks' st'.
Proof.
  intros Hp Hacc. pose proof Hacc as (Hw & Hwf & Hall & _ & _).
  destruct (offerAll_step p item [] ks st Hp Hwf Hall)
    as (ks' & st1 & He & Hw' & Hwf' & Hall' & Hkeep & Hid).
  cbn [app] in *. rewrite existsb_matches, Hw in He, Hid. rewrite Hw in Hw'.
  destruct (well_typed_name p item Hp) as [v Hv].
  pose proof (accounted_settle rules archive p item ks st ks' st1) as Hfin.
  unfold processItem. rewrite Hv, He. cbn [mbind outcome_bind].
  destruct (matchedBy rules item) eqn:Hmb.
  - rewrite (Hall' p item Hp). destruct (occ ks' p) as [|n] eqn:Hocc; cbn [counter].
    + destruct (sendCloudEvent_step (keepLastWhenDelete prefix) item st1 p Hp) as (e & -> & Ht & Hda).
      cbn [mbind outcome_bind]. eexists _, _. split; [done|].
      apply Hfin; [done..|by constructor| |].
      { constructor; [|done]. unfold vacuumEvent. rewrite Ht, Hda.
        split; [by eapply list_elem_of_lookup_2|tauto]. }
      rewrite score_fresh, Hocc, !eventsOf_one, Ht, Hda. split.
      * by rewrite !decide_True by done.
      * rewrite decide_False; [done|]. intros [? _]. by apply keepLastWhenDelete_ne_archiveWhen.
    + eexists _, _. split; [done|]. rewrite <-(vstate_app_nil st1). apply Hfin; [done..|].
      by rewrite score_fresh, Hocc.
  - destruct (Hid eq_refl) as [-> ->].
    pose proof (unheld_before rules archive p item ks st Hp Hacc) as Hocc.
    destruct (archive item) eqn:Har.
    + destruct (sendCloudEvent_step (archiveWhen prefix) item st p Hp) as (e & -> & Ht & Hda).
      cbn [mbind outcome_bind]. eexists _, _. split; [done|].
      apply Hfin; [done..|by constructor| |].
      { constructor; [|done]. unfold vacuumEvent. rewrite Ht, Hda.
        split; [by eapply list_elem_of_lookup_2|tauto]. }
      rewrite score_fresh, Hocc, !eventsOf_one, Ht, Hda. split.
      * rewrite decide_False; [done|]. intros [? _]. by apply keepLastWhenDelete_ne_archiveWhen.
      * by rewrite decide_True.
    + eexists _, _. split; [done|]. rewrite <-(vstate_app_nil st). apply Hfin; [done..|].
      by rewrite score_fresh, Hocc.
Qed.

Lemma processItems_accounted rules archive p rest ks st :
  rest = drop p items → accounted rules archive p ks st →
  ∃ ks' st', processItems source prefix items archive p rest ks st = Ok (ks', st') ∧
    accounted rules archive (length items) ks' st'.
Proof.
  revert p ks st; induction rest as [|item rest IH]; intros p ks st Hr Hacc.
  - cbn [processItems]. eexists _, _. split; [done|].
    destruct Hacc as (? & Hwf & ? & ? & Hq). split_and!; [done| |done|done|].
    + eapply Forall_impl; [done|]. intros k (init & ? & ? & ? & Hin).
      exists init. split_and!; [done..|]. intros q Hqi. destruct (Hin q Hqi) as (_ & o & Ho & ?).
      split; [by eapply lookup_lt_Some|eauto].
    + intros q o Hqo. specialize (Hq q o Hqo). pose proof (lookup_lt_Some _ _ _ Hqo).
      apply (f_equal length) in Hr. rewrite length_drop in Hr. cbn in Hr.
      rewrite decide_True in Hq by lia. by rewrite decide_True by lia.
  - assert (items !! p = Some item) as Hp.
    { rewrite <-(Nat.add_0_r p), <-lookup_drop, <-Hr. done. }
    cbn [processItems].
    destruct (processItem_step rules archive p item ks st Hp Hacc) as (ks1 & st1 & -> & Hacc1).
    cbn [mbind outcome_bind]. apply IH; [|done].
    rewrite <-Nat.add_1_r, <-drop_drop, <-Hr. done.
Qed.

(** The keepers of a run before its first item. *)
Lemma makeKeepers_Ok (rules : list (KeepLastWhenRule (O:=O))) :
  Forall (λ r, (0 <= Count r)%Z) rules →
  makeKeepers rules = Ok ((λ r, {| when := r;
      bucket := replicate (Z.to_nat (Count r)) None ++ [None] |}) <$> rules).
Proof.
  induction 1 as [|r rules Hr _ IH]; [done|]. cbn [makeKeepers]. unfold make_slice.
  rewrite (proj2 (Z.ltb_ge (Count r + 1) 0)) by lia. cbn [mbind outcome_bind].
  rewrite IH. cbn [mbind outcome_bind fmap list_fmap]. do 3 f_equal.
  replace (Z.to_nat (Count r + 1)) with (Z.to_nat (Count r) + 1)%nat by lia.
  by rewrite replicate_add.
Qed.

Lemma makeKeepers_accounted (rules : list (KeepLastWhenRule (O:=O))) archive :
  Forall (λ r, (0 <= Count r)%Z) rules →
  accounted rules archive 0
    ((λ r, {| when := r; bucket := replicate (Z.to_nat (Count r)) None ++ [None] |}) <$> rules)
    {| all := ∅; sent := [] |}.
Proof.
  intros Hr.
  set (ks := (λ r, {| when := r;
    bucket := replicate (Z.to_nat (Count r)) None ++ [None] |}) <$> rules).
  assert (∀ q, occ ks q = 0%nat) as Hocc.
  { intros q. unfold occ. apply length_zero_iff_nil. apply filter_none. unfold ks.
    intros k (r & -> & _)%list_elem_of_fmap. cbn.
    rewrite elem_of_snoc_None. intros [? ?]%elem_of_replicate. done. }
  split_and!.
  - unfold ks. rewrite <-list_fmap_compose. by rewrite list_fmap_id.
  - unfold ks. apply Forall_fmap. eapply Forall_impl; [exact Hr|]. intros r Hc.
    cbn beta in Hc. exists (replicate (Z.to_nat (Count r)) None). cbn [when bucket]. split_and!.
    + done.
    + rewrite length_replicate. lia.
    + induction (Z.to_nat (Count r)); [constructor|done].
    + intros q [? ?]%elem_of_replicate. done.
  - intros q o Hq. rewrite Hocc. cbn. by rewrite lookup_empty.
  - constructor.
  - intros q o Hq. rewrite decide_False by lia. unfold score. cbn [sent].
    rewrite Hocc. done.
Qed.

End buckets.
