(* ===== verification/Ranking.v ===== *)
(** * What a bucket holds: the best [Count] resources

    Each bucket is refined to the ranking of the resources its rule matched:
    the ones the comparison puts first, the later of the list first among
    equals. *)
From S2P Require Import Prelude GoLib Api Cel Filters CloudEvents Keepers KeeperFacts.

(** ** Ranking by insertion, for any comparison *)
Section rank.
  Context (better : nat → nat → bool).

(** [a] goes before [b]: it compares better, or equal and comes later. *)
Definition outranks (a b : nat) : bool :=
  better a b || (negb (better b a) && (b <? a)%nat).

Fixpoint rankInsert (p : nat) (l : list nat) : list nat :=
  match l with
  | [] => [p]
  | e :: l => if better e p then e :: rankInsert p l else p :: e :: l
  end.

Definition ranking (ms : list nat) : list nat := foldl (λ l p, rankInsert p l) [] ms.

(** A strict weak order. *)
Record weak_order (D : nat → Prop) : Prop := {
  wo_asym : ∀ a b, D a → D b → better a b = true → better b a = false;
  wo_negtrans : ∀ a b c, D a → D b → D c →
    better a b = false → better b c = false → better a c = false;
}.

Lemma rankInsert_perm p l : rankInsert p l ≡ₚ p :: l.
Proof.
  induction l as [|e l IH]; [done|]. cbn [rankInsert].
  destruct (better e p); [|done]. rewrite IH. constructor.
Qed.

Lemma ranking_perm ms : ranking ms ≡ₚ ms.
Proof.
  unfold ranking. induction ms as [|p ms IH] using rev_ind; [done|].
  rewrite foldl_snoc, rankInsert_perm, IH. by rewrite Permutation_app_comm.
Qed.

Lemma ranking_snoc ms p : ranking (ms ++ [p]) = rankInsert p (ranking ms).
Proof. unfold ranking. by rewrite foldl_snoc. Qed.

Lemma outranks_asym D a b :
  weak_order D → D a → D b → outranks a b = true → outranks b a = false.
Proof.
  intros Hwo Ha Hb. unfold outranks. rewrite orb_true_iff, andb_true_iff, negb_true_iff, Nat.ltb_lt.
  intros [Hab|[Hba Hlt]].
  - rewrite (wo_asym _ Hwo a b) by done. rewrite Hab. done.
  - rewrite Hba, (proj2 (Nat.ltb_ge a b)) by lia. by rewrite andb_false_r.
Qed.

(** On a ranked list the elements better than [p] form a prefix. *)
Lemma rankInsert_split D p l :
  weak_order D → D p → Forall D l → Forall (λ e, (e < p)%nat) l →
  StronglySorted (λ a b, outranks a b = true) l →
  ∃ l1 l2, l = l1 ++ l2 ∧ rankInsert p l = l1 ++ p :: l2 ∧
    Forall (λ e, better e p = true) l1 ∧ Forall (λ e, better e p = false) l2.
Proof.
  intros Hwo Hp. induction l as [|e l IH]; intros HD Hlt Hs.
  { exists [], []. by split_and!. }
  apply Forall_cons in HD as [He HD]. apply Forall_cons in Hlt as [Hep Hlt].
  apply StronglySorted_inv in Hs as [Hs Hall]. cbn [rankInsert].
  destruct (better e p) eqn:Hbe.
  - destruct (IH HD Hlt Hs) as (l1 & l2 & -> & -> & H1 & H2).
    exists (e :: l1), l2. split_and!; [done|done|by constructor|done].
  - exists [], (e :: l). split_and!; [done|done|constructor|]. constructor; [done|].
    rewrite Forall_forall in HD, Hall |- *. intros x Hx.
    specialize (Hall x Hx). unfold outranks in Hall.
    rewrite orb_true_iff, andb_true_iff, negb_true_iff in Hall.
    assert (better x e = false) as Hxe.
    { destruct Hall as [Hex|[? _]]; [|done]. apply (wo_asym _ Hwo e x); auto. }
    apply (wo_negtrans _ Hwo x e p); auto.
Qed.

Lemma rankInsert_sorted D p l :
  weak_order D → D p → Forall D l → Forall (λ e, (e < p)%nat) l →
  StronglySorted (λ a b, outranks a b = true) l →
  StronglySorted (λ a b, outranks a b = true) (rankInsert p l).
Proof.
  intros Hwo Hp HD Hlt Hs.
  destruct (rankInsert_split D p l Hwo Hp HD Hlt Hs) as (l1 & l2 & -> & -> & H1 & H2).
  apply StronglySorted_app in Hs as (Hc & Hs1 & Hs2).
  apply Forall_app in Hlt as [_ Hlt2].
  apply StronglySorted_app. split_and!; [|done|].
  - intros x y Hx Hy. rewrite Forall_forall in H1. apply elem_of_cons in Hy as [->|Hy].
    + unfold outranks. by rewrite (H1 x Hx).
    + by apply Hc.
  - constructor; [done|]. rewrite Forall_forall in H2, Hlt2 |- *. intros y Hy.
    unfold outranks. rewrite (H2 y Hy), (proj2 (Nat.ltb_lt y p)) by auto.
    by rewrite orb_true_r.
Qed.

Lemma ranking_sorted D ms :
  weak_order D → Forall D ms → StronglySorted lt ms →
  StronglySorted (λ a b, outranks a b = true) (ranking ms).
Proof.
  intros Hwo. induction ms as [|p ms IH] using rev_ind; intros HD Hlt; [constructor|].
  apply Forall_app in HD as [HD Hp]. inversion_clear Hp.
  apply StronglySorted_app in Hlt as (Hlt & Hss & _).
  rewrite ranking_snoc. eapply rankInsert_sorted; [done|done| | |by apply IH].
  - by rewrite ranking_perm.
  - rewrite ranking_perm, Forall_forall. intros x Hx. apply Hlt; [done|]. by left.
Qed.

(** In a ranked list, the place of an element is the number of those that
    outrank it. *)
Lemma ranked_position D l i x :
  weak_order D → Forall D l → StronglySorted (λ a b, outranks a b = true) l →
  l !! i = Some x → length (filter (λ y, outranks y x = true) l) = i.
Proof.
  intros Hwo HD Hs Hi.
  destruct (list_elem_of_split_length _ _ _ Hi) as (l1 & l2 & -> & ->).
  apply Forall_app in HD as [HD1 HD2]. apply Forall_cons in HD2 as [Hx HD2].
  apply StronglySorted_app in Hs as (Hc & _ & Hs2).
  apply StronglySorted_inv in Hs2 as [_ Hall].
  rewrite filter_app, filter_cons.
  rewrite (filter_none _ l2).
  - rewrite decide_False.
    + rewrite app_nil_r. f_equal. rewrite Forall_forall in Hall.
      clear Hi HD1. induction l1 as [|y l1 IH]; [done|]. rewrite filter_cons, decide_True.
      * f_equal. apply IH. intros a b Ha Hb. apply Hc; [by right|done].
      * apply Hc; by left.
    + intros Hxx. rewrite (outranks_asym D x x Hwo Hx Hx Hxx) in Hxx. done.
  - rewrite Forall_forall in Hall, HD2. intros y Hy.
    rewrite (outranks_asym D x y); auto.
Qed.

(** The first [c] of the ranking are those outranked by fewer than [c]. *)
Lemma ranking_take D ms c x :
  weak_order D → Forall D ms → StronglySorted lt ms →
  x ∈ take c (ranking ms) ↔
  x ∈ ms ∧ (length (filter (λ y, outranks y x = true) ms) < c)%nat.
Proof.
  intros Hwo HD Hlt. pose proof (ranking_sorted D ms Hwo HD Hlt) as Hs.
  assert (Forall D (ranking ms)) as HD' by (by rewrite ranking_perm).
  rewrite <-(ranking_perm ms) at 2 3. split.
  - intros [i Hi]%list_elem_of_lookup. apply lookup_take_Some in Hi as [Hi Hic].
    split; [by eapply list_elem_of_lookup_2|].
    by rewrite (ranked_position D (ranking ms) i x).
  - intros [[i Hi]%list_elem_of_lookup Hc].
    rewrite (ranked_position D (ranking ms) i x) in Hc by done.
    apply list_elem_of_lookup. exists i. by apply lookup_take_Some.
Qed.
End rank.

(** ** The buckets hold the top of the ranking *)
Section refinement.
  Context {O : Type} `{!Unstructured O, !CelEnv O, !EventEncoding O}.
  Context (items : list O) (source prefix : string).

Definition better (sf : string) (a b : nat) : bool :=
  compareResources sf (items !! a) (items !! b).

Definition padded (c : nat) (l : list nat) : list (option nat) :=
  (Some <$> l) ++ replicate (c - length l) None.

(** The first [c] resources of the ranking, nil in the free places. *)
Definition topOf (sf : string) (c : nat) (ms : list nat) : list (option nat) :=
  padded c (take c (ranking (better sf) ms)).

(** The items up to position [n] a rule matches. *)
Definition matchedUpTo (n : nat) (r : KeepLastWhenRule (O:=O)) : list nat :=
  filter (λ q, (ExecuteBooleanCEL (When r) <$> items !! q) = Some true) (seq 0 n).

Definition stepKeeper (p : nat) (item : O) (k : Keeper (O:=O)) : Keeper :=
  if matches k item
  then {| when := when k;
          bucket := keptAfter items (SortBy (when k)) (removelast (bucket k)) p ++ [None] |}
  else k.

Definition spareLast (k : Keeper (O:=O)) : Prop :=
  ∃ init, bucket k = init ++ [None] ∧ Count (when k) = Z.of_nat (length init).

Lemma offer_stepKeeper p item k st k' st' :
  spareLast k → matches k item = true →
  offer source prefix items p item k st = Ok (k', st') → k' = stepKeeper p item k.
Proof.
  intros (init & Hb & Hc) Hm. rewrite (offer_bucket items source prefix p item k init st Hb Hc).
  destruct (afterOffer _ _ _ _ _ _ _) as [st1|e|]; cbn [mbind outcome_bind]; [|done..].
  intros [= <- <-]. unfold stepKeeper. by rewrite Hm, Hb, removelast_last.
Qed.

Lemma stepKeeper_spareLast p item k : spareLast k → spareLast (stepKeeper p item k).
Proof.
  intros (init & Hb & Hc). unfold stepKeeper. destruct (matches k item); [|by exists init].
  eexists. split; [done|]. cbn [when]. by rewrite keptAfter_length, Hb, removelast_last.
Qed.

Lemma offerAll_stepKeeper p item ks st ks' st' m :
  Forall spareLast ks → offerAll source prefix items p item ks st = Ok (ks', st', m) →
  ks' = stepKeeper p item <$> ks.
Proof.
  revert st ks' st' m; induction ks as [|k ks IH]; intros st ks' st' m Hs; cbn [offerAll].
  { intros [= <- _ _]. done. }
  apply Forall_cons in Hs as [Hk Hs]. destruct (matches k item) eqn:Hm.
  - destruct (offer _ _ _ _ _ _ _) as [[k1 st1]|e|] eqn:Ho; cbn [mbind outcome_bind]; [|done..].
    destruct (offerAll _ _ _ _ _ ks st1) as [[[ks1 st2] m1]|e|] eqn:Ha; cbn [mbind outcome_bind]; [|done..].
    intros [= <- _ _]. rewrite (IH _ _ _ _ Hs Ha). cbn. f_equal. by eapply offer_stepKeeper.
  - destruct (offerAll _ _ _ _ _ ks st) as [[[ks1 st2] m1]|e|] eqn:Ha; cbn [mbind outcome_bind]; [|done..].
    intros [= <- _ _]. rewrite (IH _ _ _ _ Hs Ha). cbn. f_equal.
    unfold stepKeeper. by rewrite Hm.
Qed.

Lemma processItem_stepKeeper archive p item ks st ks' st' :
  Forall spareLast ks → processItem source prefix items archive p item ks st = Ok (ks', st') →
  ks' = stepKeeper p item <$> ks.
Proof.
  intros Hs. unfold processItem, sendCloudEvent. destruct (ObjectMetadataName item); [|done].
  destruct (offerAll _ _ _ _ _ ks st) as [[[ks1 st1] m]|e|] eqn:Ha; cbn [mbind outcome_bind]; [|done..].
  apply offerAll_stepKeeper in Ha as ->; [|done].
  destruct m; [destruct (all st1 !! _)|destruct (archive item)]; cbn;
    try destruct (Send _ _ _); cbn; intros; by simplify_eq.
Qed.

(** *** One insertion, on the padded ranking *)

Lemma position_partition sf p l1 l2 n :
  (∀ e, e ∈ l1 → better sf e p = true) → (∀ e, e ∈ l2 → better sf e p = false) →
  position items sf ((Some <$> l1) ++ (Some <$> l2) ++ replicate n None) p = length l1.
Proof.
  intros H1 H2. unfold position.
  rewrite (BinarySearchFunc_partition _ _ _ (Some <$> l1) ((Some <$> l2) ++ replicate n None)).
  - by rewrite length_fmap.
  - done.
  - apply Forall_fmap, Forall_forall. intros e He. cbn.
    specialize (H1 e He). unfold better in H1. by rewrite H1.
  - apply Forall_app. split.
    + apply Forall_fmap, Forall_forall. intros e He. cbn.
      specialize (H2 e He). unfold better in H2. rewrite H2. case_match; lia.
    + apply Forall_replicate. by cbn.
Qed.

Lemma take_insert_top {A} c (p : A) r1 r2 :
  take c (take c r1 ++ p :: take (c - length r1) r2) = take c (r1 ++ p :: r2).
Proof.
  destruct (decide (c <= length r1)%nat) as [Hle|Hgt].
  - rewrite take_app_le by (rewrite length_take; lia). rewrite take_take, Nat.min_id.
    by rewrite take_app_le.
  - rewrite (take_ge r1) by lia. rewrite !take_app_ge by lia. f_equal.
    destruct (c - length r1)%nat as [|m] eqn:E; [done|]. cbn. f_equal.
    rewrite take_take. by rewrite Nat.min_l by lia.
Qed.

Lemma padded_insert c p (r1 r2 : list nat) n l1 l2 :
  l1 = take c r1 → l2 = take (c - length r1) r2 → n = (c - length (l1 ++ l2))%nat →
  take (length ((Some <$> l1) ++ (Some <$> l2) ++ replicate n None))
    ((Some <$> l1) ++ Some p :: (Some <$> l2) ++ replicate n None) =
  padded c (take c (r1 ++ p :: r2)).
Proof.
  intros -> -> ->. rewrite <-(take_insert_top c p r1 r2). set (L1 := take c r1).
  set (L2 := take (c - length r1) r2).
  assert (length (L1 ++ L2) <= c)%nat as Hle.
  { unfold L1, L2. rewrite length_app, !length_take. lia. }
  rewrite !length_app, !length_fmap, length_replicate.
  rewrite length_app in Hle.
  replace (length L1 + (length L2 + (c - (length L1 + length L2))))%nat with c by lia.
  replace ((Some <$> L1) ++ Some p :: (Some <$> L2) ++ replicate (c - (length L1 + length L2)) None)
    with ((Some <$> (L1 ++ p :: L2)) ++ replicate (c - (length L1 + length L2)) None)
    by (by rewrite fmap_app, <-app_assoc).
  rewrite take_app, length_fmap. unfold padded. rewrite <-fmap_take. f_equal.
  rewrite take_replicate, length_take, length_app. cbn [length]. f_equal. lia.
Qed.

Lemma keptAfter_topOf sf c ms p :
  weak_order (better sf) (λ q, q ∈ ms ∨ q = p) → StronglySorted lt (ms ++ [p]) →
  keptAfter items sf (topOf sf c ms) p = topOf sf c (ms ++ [p]).
Proof.
  intros Hwo Hss. apply StronglySorted_app in Hss as (Hlt & Hss & _).
  set (D := λ q, q ∈ ms ∨ q = p) in *.
  assert (Forall D ms) as HD by (apply Forall_forall; by left).
  set (R := ranking (better sf) ms).
  destruct (rankInsert_split (better sf) D p R) as (r1 & r2 & HR & HR' & H1 & H2).
  - done.
  - by right.
  - unfold R. by rewrite ranking_perm.
  - unfold R. rewrite ranking_perm, Forall_forall. intros x Hx. apply Hlt; [done|]. by left.
  - unfold R. by eapply ranking_sorted.
  - unfold topOf. rewrite ranking_snoc. fold R. rewrite HR', HR.
    rewrite take_app. unfold padded. rewrite fmap_app, <-app_assoc.
    unfold keptAfter. set (n := (c - _)%nat).
    rewrite position_partition.
    2:{ intros e He. rewrite Forall_forall in H1. apply H1. by eapply subseteq_take. }
    2:{ intros e He. rewrite Forall_forall in H2. apply H2. by eapply subseteq_take. }
    unfold insertAt.
    rewrite (take_app_length' (Some <$> take c r1)) by (by rewrite length_fmap).
    rewrite (drop_app_length' (Some <$> take c r1)) by (by rewrite length_fmap).
    by apply padded_insert.
Qed.
(** *** Along a run *)

Lemma matchedUpTo_S p item r :
  items !! p = Some item →
  matchedUpTo (S p) r =
  matchedUpTo p r ++ (if ExecuteBooleanCEL (When r) item then [p] else []).
Proof.
  intros Hp. unfold matchedUpTo. rewrite seq_S, filter_app, filter_cons, filter_nil.
  cbn [Nat.add]. rewrite Hp. cbn [fmap option_fmap option_map].
  destruct (ExecuteBooleanCEL (When r) item) eqn:E.
  - by rewrite decide_True by done.
  - by rewrite decide_False by done.
Qed.

Lemma matchedUpTo_sorted n r : StronglySorted lt (matchedUpTo n r).
Proof.
  unfold matchedUpTo. assert (StronglySorted lt (seq 0 n)) as Hs.
  { generalize 0%nat. induction n as [|n IH]; intros m; cbn; [constructor|].
    constructor; [apply IH|]. apply Forall_forall. intros x Hx%elem_of_seq. lia. }
  induction Hs as [|x l Hs IH Hx]; [constructor|]. rewrite filter_cons.
  destruct (decide _); [|done]. constructor; [done|].
  rewrite Forall_forall in Hx |- *. intros y [_ Hy]%list_elem_of_filter. by apply Hx.
Qed.

(** The bucket of rule [r] after the first [n] items. *)
Definition keeperAt (n : nat) (r : KeepLastWhenRule (O:=O)) : Keeper :=
  {| when := r; bucket := topOf (SortBy r) (Z.to_nat (Count r)) (matchedUpTo n r) ++ [None] |}.

Lemma topOf_length sf c ms : length (topOf sf c ms) = c.
Proof.
  unfold topOf, padded. rewrite length_app, length_fmap, length_replicate, length_take. lia.
Qed.

Lemma keeperAt_spareLast n r : (0 <= Count r)%Z → spareLast (keeperAt n r).
Proof.
  intros Hc. eexists. split; [done|]. cbn [when keeperAt]. rewrite topOf_length. lia.
Qed.

Lemma weak_order_subset (b : nat → nat → bool) (D D' : nat → Prop) :
  (∀ x, D' x → D x) → weak_order b D → weak_order b D'.
Proof. intros HD [Ha Hn]. split; eauto. Qed.

Lemma stepKeeper_keeperAt p item r :
  items !! p = Some item → (0 <= Count r)%Z →
  weak_order (better (SortBy r)) (λ q, q ∈ matchedUpTo (S p) r) →
  stepKeeper p item (keeperAt p r) = keeperAt (S p) r.
Proof.
  intros Hp Hc Hwo. pose proof (matchedUpTo_sorted (S p) r) as Hss.
  pose proof (matchedUpTo_S p item r Hp) as HS. unfold stepKeeper, matches, keeperAt.
  cbn [when bucket]. rewrite HS in *. destruct (ExecuteBooleanCEL (When r) item).
  - rewrite removelast_last, keptAfter_topOf; [done| |done].
    eapply weak_order_subset; [|exact Hwo]. intros x. rewrite elem_of_app.
    intros [?| ->]; [by left|]. right. by left.
  - by rewrite app_nil_r.
Qed.

Lemma matchedUpTo_mono n m r q :
  (n <= m)%nat → q ∈ matchedUpTo n r → q ∈ matchedUpTo m r.
Proof.
  intros Hnm. unfold matchedUpTo. rewrite !list_elem_of_filter, !elem_of_seq.
  intros [? ?]. split; [done|lia].
Qed.

Lemma processItems_keeperAt archive rules p rest st ks' st' :
  rest = drop p items → Forall (λ r, (0 <= Count r)%Z) rules →
  Forall (λ r, weak_order (better (SortBy r)) (λ q, q ∈ matchedUpTo (length items) r)) rules →
  processItems source prefix items archive p rest (keeperAt p <$> rules) st = Ok (ks', st') →
  ks' = keeperAt (length items) <$> rules.
Proof.
  intros Hr Hc Hwo. revert p st Hr; induction rest as [|item rest IH]; intros p st Hr.
  - cbn [processItems]. intros [= <- _]. apply (f_equal length) in Hr.
    rewrite length_drop in Hr. cbn in Hr. apply list_fmap_ext. intros i r Hri.
    unfold keeperAt. do 3 f_equal. unfold matchedUpTo.
    replace p with (length items + (p - length items))%nat by lia.
    rewrite seq_app, filter_app, (filter_none _ (seq (0 + _) _)), app_nil_r; [done|].
    intros x Hx%elem_of_seq. by rewrite lookup_ge_None_2 by lia.
  - assert (items !! p = Some item) as Hp.
    { rewrite <-(Nat.add_0_r p), <-lookup_drop, <-Hr. done. }
    pose proof (lookup_lt_Some _ _ _ Hp) as Hlt. cbn [processItems].
    destruct (processItem _ _ _ _ _ _ _ st) as [[ks1 st1]|e|] eqn:E; cbn [mbind outcome_bind]; [|done..].
    apply processItem_stepKeeper in E as ->.
    + rewrite <-list_fmap_compose.
      replace ((stepKeeper p item ∘ keeperAt p) <$> rules) with (keeperAt (S p) <$> rules).
      * apply IH. rewrite <-Nat.add_1_r, <-drop_drop, <-Hr. done.
      * apply list_fmap_ext. intros i r Hri. cbn.
        pose proof (Forall_lookup_1 _ _ _ _ Hc Hri) as Hcr.
        pose proof (Forall_lookup_1 _ _ _ _ Hwo Hri) as Hwr. cbn beta in *.
        symmetry. apply stepKeeper_keeperAt; [done..|].
        eapply weak_order_subset; [|exact Hwr]. intros x. apply matchedUpTo_mono. lia.
    + apply Forall_fmap. eapply Forall_impl; [exact Hc|]. intros r. apply keeperAt_spareLast.
Qed.

(** *** When the comparison is a weak order *)

Definition byCreation (sf : string) : bool :=
  String.eqb sf "" || String.eqb sf "metadata.creationTimestamp".

Definition hasField (sf : string) (q : nat) : bool :=
  match items !! q with
  | Some o => bool_decide (is_Some (NestedString o (Split "."%char sf)))
  | None => false
  end.

(** The field is the creation time, or every resource has it, or none has. *)
Definition uniformField (sf : string) (ms : list nat) : bool :=
  byCreation sf || forallb (hasField sf) ms || forallb (λ q, negb (hasField sf q)) ms.

Lemma Compare_pos a b : (0 <? Compare a b)%Z = true ↔ ¬ String.le a b.
Proof.
  unfold Compare, String.le, String.leb.
  destruct (String.compare a b); cbn; intuition congruence.
Qed.

Lemma newerThan_weak_order (D : nat → Prop) (b : nat → nat → bool) :
  (∀ x, D x → is_Some (items !! x)) →
  (∀ x y ox oy, D x → D y → items !! x = Some ox → items !! y = Some oy →
     b x y = newerThan ox oy) →
  weak_order b D.
Proof.
  intros HD Hb. split.
  - intros x y Hx Hy. destruct (HD x Hx) as [ox Hox], (HD y Hy) as [oy Hoy].
    rewrite (Hb x y ox oy), (Hb y x oy ox) by done. unfold newerThan.
    rewrite Z.ltb_lt, Z.ltb_ge. lia.
  - intros x y z Hx Hy Hz. destruct (HD x Hx) as [ox Hox], (HD y Hy) as [oy Hoy], (HD z Hz) as [oz Hoz].
    rewrite (Hb x y ox oy), (Hb y z oy oz), (Hb x z ox oz) by done. unfold newerThan.
    rewrite !Z.ltb_ge. lia.
Qed.

Lemma compare_weak_order (D : nat → Prop) (b : nat → nat → bool) (f : nat → string) :
  (∀ x y, D x → D y → b x y = (0 <? Compare (f x) (f y))%Z) → weak_order b D.
Proof.
  intros Hb.
  assert (∀ x y, D x → D y → b x y = false ↔ String.le (f x) (f y)) as Hf.
  { intros x y Hx Hy. rewrite (Hb x y), <-not_true_iff_false, Compare_pos by done.
    split; [apply dec_stable|auto]. }
  split.
  - intros x y Hx Hy. rewrite (Hb x y), Compare_pos by done. intros Hn. apply Hf; [done..|].
    by destruct (total String.le (f x) (f y)).
  - intros x y z Hx Hy Hz. rewrite !Hf by done. intros. by etrans.
Qed.

Lemma uniformField_weak_order sf n r :
  (n <= length items)%nat → uniformField sf (matchedUpTo n r) = true →
  weak_order (better sf) (λ q, q ∈ matchedUpTo n r).
Proof.
  intros Hn Hu.
  assert (∀ x, x ∈ matchedUpTo n r → is_Some (items !! x)) as HD.
  { intros x. unfold matchedUpTo. rewrite list_elem_of_filter, elem_of_seq.
    intros [_ ?]. apply lookup_lt_is_Some. lia. }
  unfold uniformField in Hu. rewrite !orb_true_iff in Hu.
  destruct Hu as [[Hbc|Hall]|Hnone].
  - apply newerThan_weak_order; [done|]. intros x y ox oy _ _ Hx Hy.
    unfold better. rewrite Hx, Hy. cbn. unfold byCreation in Hbc. by rewrite Hbc.
  - destruct (byCreation sf) eqn:Hbc.
    { apply newerThan_weak_order; [done|]. intros x y ox oy _ _ Hx Hy.
      unfold better. rewrite Hx, Hy. cbn. unfold byCreation in Hbc. by rewrite Hbc. }
    rewrite forallb_forall in Hall.
    apply (compare_weak_order _ _ (λ q, default "" (items !! q ≫= λ o, NestedString o (Split "."%char sf)))).
    intros x y Hx Hy. pose proof (Hall x (proj1 (list_elem_of_In _ _) Hx)) as Fx.
    pose proof (Hall y (proj1 (list_elem_of_In _ _) Hy)) as Fy. unfold hasField in Fx, Fy.
    destruct (HD x Hx) as [ox Hox], (HD y Hy) as [oy Hoy]. rewrite Hox in Fx. rewrite Hoy in Fy.
    apply bool_decide_eq_true in Fx as [vx Hvx]. apply bool_decide_eq_true in Fy as [vy Hvy].
    unfold better. rewrite Hox, Hoy. cbn. unfold byCreation in Hbc. by rewrite Hbc, Hvx, Hvy.
  - apply newerThan_weak_order; [done|]. intros x y ox oy Hx Hy Hox Hoy.
    rewrite forallb_forall in Hnone. pose proof (Hnone x (proj1 (list_elem_of_In _ _) Hx)) as Fx.
    unfold hasField in Fx. rewrite Hox, negb_true_iff, bool_decide_eq_false in Fx.
    unfold better. rewrite Hox, Hoy. cbn. destruct (_ || _); [done|].
    destruct (NestedString ox (Split "."%char sf)) eqn:E; [|done]. destruct Fx. by eexists.
Qed.
End refinement.
