(* ===== verification/Vacuum.v ===== *)
(** * [cmd/vacuum]: the vacuum jobs

    [sendByAPIVersionKind] lists the resources of a kind in a namespace and
    sends the deletion and archival events; [SendByNamespace] does so for every
    configured kind, [clusterVacuum] and [namespaceVacuum] for the namespaces
    and kinds of a vacuum configuration. *)
From S2P Require Import Prelude GoLib Api Cel Filters CloudEvents Keepers KeeperFacts Ranking Samples.

Definition SinkFilterGVR : GroupVersionResource :=
  {| Group := "kubearchive.org"; Version := "v1"; Resource := "sinkfilters" |}.
Definition ClusterVacuumConfigGVR : GroupVersionResource :=
  {| Group := "kubearchive.org"; Version := "v1"; Resource := "clustervacuumconfigs" |}.
Definition NamespaceVacuumConfigGVR : GroupVersionResource :=
  {| Group := "kubearchive.org"; Version := "v1"; Resource := "namespacevacuumconfigs" |}.

(** The Kubernetes client library: the dynamic client, the JSON conversions to the API types, whether the clients can be built. *)
Class KubeClient (O : Type) := {
  ListResources : GroupVersionResource → string → option (list O);
  GetResource : GroupVersionResource → string → string → GetResult O;
  ToSinkFilter : O → option SinkFilterSpec;
  ToClusterVacuumConfig : O → option ClusterVacuumConfigSpec;
  ToNamespaceVacuumConfig : O → option NamespaceVacuumConfigSpec;
  NewInstrumentedDynamicClient : bool;
  NewSinkCloudEventPublisher : bool;
}.

Inductive VacuumError :=
| NoNamespaceSet
| UnableToCreateReader
| UnableToGetSinkFilter
| UnableToGetClient
| UnableToCreatePublisher
| UnableToGetConfig
| UnableToConvertConfig
| UnableToGetNamespaces.

(** A call that cannot fail, within one that can. *)
Definition lift {E A} (m : run A) : outcome E A :=
  match m with Ok a => Ok a | Err e => match e with end | Panic => Panic end.

Section vacuum.
  Context {O : Type} `{!Unstructured O, !CelEnv O, !EventEncoding O, !RESTMapper, !Environment, !KubeClient O}.

Record VacuumCloudEventPublisher := {
  source : string;
  clusterFilters : gmap string (CelExpressions (O:=O));
  namespaceFilters : gmap string (gmap string (CelExpressions (O:=O)));
}.

Definition getGVR (avk : APIVersionKind) : option GroupVersionResource :=
  match Split "/"%char (APIVersion avk) with
  | apiGroup :: apiVersion :: _ => RESTMapping apiGroup (Kind avk) apiVersion
  | _ => RESTMapping "" (Kind avk) (APIVersion avk)
  end.

Definition clusterCelFor (vcep : VacuumCloudEventPublisher) (avk : APIVersionKind)
    : CelExpressions (O:=O) :=
  default zero_CelExpressions (clusterFilters vcep !! Key avk).

Definition namespaceCelFor (vcep : VacuumCloudEventPublisher) (namespace : string)
    (avk : APIVersionKind) : option (CelExpressions (O:=O)) :=
  namespaceFilters vcep !! Key avk ≫= λ resourceFilters, resourceFilters !! namespace.

(** The two [ArchiveWhen] evaluations at the end of the loop body. *)
Definition archives (vcep : VacuumCloudEventPublisher) (namespace : string)
    (avk : APIVersionKind) (item : O) : bool :=
  bool_decide (is_Some (clusterFilters vcep !! Key avk))
    && ExecuteBooleanCEL (ArchiveWhen (clusterCelFor vcep avk)) item
  || match namespaceCelFor vcep namespace avk with
     | Some namespaceCel => ExecuteBooleanCEL (ArchiveWhen namespaceCel) item
     | None => false
     end.

Definition sendByAPIVersionKind (vcep : VacuumCloudEventPublisher)
    (eventTypePrefix namespace : string) (avk : APIVersionKind) : run (list (CloudEvent O)) :=
  match getGVR avk with
  | None => Ok []
  | Some gvr =>
      match ListResources gvr namespace with
      | None => Ok []
      | Some items =>
          keepers ← createKeepers (clusterCelFor vcep avk)
                      (default zero_CelExpressions (namespaceCelFor vcep namespace avk));
          '(keepers, st) ← processItems (source vcep) eventTypePrefix items
                             (archives vcep namespace avk) 0 items keepers
                             {| all := ∅; sent := [] |};
          Ok (sent st)
      end
  end.

(** Calls in sequence, the events appended. *)
Fixpoint sendAll {A} (send : A → run (list (CloudEvent O))) (l : list A)
    : run (list (CloudEvent O)) :=
  match l with
  | [] => Ok []
  | a :: l => e1 ← send a; e2 ← sendAll send l; Ok (e1 ++ e2)
  end.

Definition sendKindAPIVersion (vcep : VacuumCloudEventPublisher)
    (eventTypePrefix namespace kindAPIVersion : string) : run (list (CloudEvent O)) :=
  match Split "-"%char kindAPIVersion with
  | [kind; apiVersion] =>
      sendByAPIVersionKind vcep eventTypePrefix namespace
        {| Kind := kind; APIVersion := apiVersion |}
  | _ => Ok []
  end.

Definition SendByNamespace (vcep : VacuumCloudEventPublisher)
    (eventTypePrefix namespace : string) : run (list (CloudEvent O)) :=
  sendAll (sendKindAPIVersion vcep eventTypePrefix namespace)
    (SortStrings (elements (dom (clusterFilters vcep) ∪ dom (namespaceFilters vcep)))).

Definition SendByAPIVersionKind := sendByAPIVersionKind.

(** ** [sinkfilter_reader.go] *)

(** [nil, nil] when the SinkFilter does not exist. *)
Definition GetSinkFilter : outcome VacuumError (option SinkFilterSpec) :=
  match GetResource SinkFilterGVR KubeArchiveNamespace SinkFilterResourceName with
  | GetError => Err UnableToGetSinkFilter
  | NotFound => Ok None
  | Found obj =>
      match ToSinkFilter obj with
      | None => Err UnableToGetSinkFilter
      | Some sinkFilter => Ok (Some sinkFilter)
      end
  end.

(** [NewSinkFilterReader]: a reader, if the client can be made. *)
Definition NewSinkFilterReader : outcome VacuumError unit :=
  if negb NewInstrumentedDynamicClient then Err UnableToCreateReader else Ok ().

(** Unlike the jobs below, these readers give no namespaces without a SinkFilter. *)
Definition ProcessAllNamespacesWithFilterType (order : list string) (filterType : FilterType)
    : outcome VacuumError (gmap string (gmap string (CelExpressions (O:=O)))) :=
  sinkFilter ← GetSinkFilter;
  match sinkFilter with
  | None => Ok ∅
  | Some _ => ExtractNamespacesByKind sinkFilter order filterType
  end.

Definition ProcessAllNamespaces (order : list string) := ProcessAllNamespacesWithFilterType order Vacuum.

Definition ProcessSingleNamespaceWithFilterType (targetNamespace : string) (filterType : FilterType)
    : outcome VacuumError (gmap string (gmap string (CelExpressions (O:=O)))) :=
  sinkFilter ← GetSinkFilter;
  match sinkFilter with
  | None => Ok ∅
  | Some _ => ExtractNamespaceByKind sinkFilter targetNamespace filterType
  end.

Definition ProcessSingleNamespace (targetNamespace : string) :=
  ProcessSingleNamespaceWithFilterType targetNamespace Vacuum.

(** ** [cluster_vacuum.go] *)

Definition clusterVacuumEventTypePrefix : string := "org.kubearchive.vacuum.cluster.resource".
Definition namespaceVacuumEventTypePrefix : string := "org.kubearchive.vacuum.namespace.resource".

Definition getNamespacesFromSinkFilter : outcome VacuumError (list string) :=
  match GetResource SinkFilterGVR KubeArchiveNamespace SinkFilterResourceName with
  | Found obj =>
      match ToSinkFilter obj with
      | None => Err UnableToGetNamespaces
      | Some sf => Ok (SortedKeys (Namespaces sf))
      end
  | _ => Err UnableToGetNamespaces
  end.

Definition getNamespacesFromClusterVacuumConfig (config : ClusterVacuumConfigSpec)
    : list string :=
  SortStrings (filter (λ ns, ns ≠ ClusterVacuumAllNamespaces)
                 (elements (dom (cvc_Namespaces config)))).

Definition sendResources (vcep : VacuumCloudEventPublisher) (prefix namespace : string)
    (resources : list APIVersionKind) : run (list (CloudEvent O)) :=
  match resources with
  | [] => SendByNamespace vcep prefix namespace
  | _ => sendAll (SendByAPIVersionKind vcep prefix namespace) resources
  end.

(** The loop body of [clusterVacuum]. *)
Definition vacuumNamespace (vcep : VacuumCloudEventPublisher)
    (config : ClusterVacuumConfigSpec) (namespace : string) : run (list (CloudEvent O)) :=
  match cvc_Namespaces config !! namespace with
  | Some value => sendResources vcep clusterVacuumEventTypePrefix namespace (nvc_Resources value)
  | None =>
      sendResources vcep clusterVacuumEventTypePrefix namespace
        (match cvc_Namespaces config !! ClusterVacuumAllNamespaces with
         | Some allResources => nvc_Resources allResources
         | None => []
         end)
  end.

(** [order]: the iteration order over the namespaces of the SinkFilter. *)
Definition clusterVacuum (order : list string) (configName : string)
    : outcome VacuumError (list (CloudEvent O)) :=
  _ ← NewSinkFilterReader;
  sinkFilter ← GetSinkFilter;
  clusterFilters ← ExtractClusterCELExpressionsByKind sinkFilter Vacuum;
  namespaceFilters ← ExtractNamespacesByKind sinkFilter order Vacuum;
  if negb NewSinkCloudEventPublisher then Err UnableToCreatePublisher
  else
    match GetResource ClusterVacuumConfigGVR KubeArchiveNamespace configName with
    | NotFound | GetError => Err UnableToGetConfig
    | Found obj =>
        match ToClusterVacuumConfig obj with
        | None => Err UnableToConvertConfig
        | Some config =>
            let vcep := {| source := "kubearchive.org/cluster-vacuum";
                           clusterFilters := clusterFilters;
                           namespaceFilters := namespaceFilters |} in
            let namespaces := getNamespacesFromClusterVacuumConfig config in
            let allNS := bool_decide
              (is_Some (cvc_Namespaces config !! ClusterVacuumAllNamespaces)) in
            namespaces ← (if (length namespaces =? 0)%nat || allNS
                          then getNamespacesFromSinkFilter else Ok namespaces);
            lift (sendAll (vacuumNamespace vcep config) namespaces)
        end
    end.

(** ** [namespace_vacuum.go] *)

Definition sortByKey (l : list APIVersionKind) : list APIVersionKind :=
  merge_sort (λ a b, String.le (Key a) (Key b)) l.

Definition namespaceVacuum (namespace configName : string)
    : outcome VacuumError (list (CloudEvent O)) :=
  if String.eqb namespace "" then Err NoNamespaceSet
  else
    _ ← NewSinkFilterReader;
    sinkFilter ← GetSinkFilter;
    clusterFilters ← ExtractClusterCELExpressionsByKind sinkFilter Vacuum;
    namespaceFilters ← ExtractNamespaceByKind sinkFilter namespace Vacuum;
    if negb NewSinkCloudEventPublisher then Err UnableToCreatePublisher
    else
      match GetResource NamespaceVacuumConfigGVR namespace configName with
      | NotFound | GetError => Err UnableToGetConfig
      | Found obj =>
          match ToNamespaceVacuumConfig obj with
          | None => Err UnableToConvertConfig
          | Some config =>
              let vcep := {| source := "kubearchive.org/namespace-vacuum";
                             clusterFilters := clusterFilters;
                             namespaceFilters := namespaceFilters |} in
              lift (sendResources vcep namespaceVacuumEventTypePrefix namespace
                      (sortByKey (nvc_Resources config)))
          end
      end.

(** ** What a run sends *)

Definition rulesFor (vcep : VacuumCloudEventPublisher) (namespace : string)
    (avk : APIVersionKind) : list (KeepLastWhenRule (O:=O)) :=
  unifyRules (KeepLastWhen (clusterCelFor vcep avk))
    (KeepLastWhen (default zero_CelExpressions (namespaceCelFor vcep namespace avk))).

(** How many of the resources a rule matches go before the [q]-th. *)
Definition outrankedBy (items : list O) (r : KeepLastWhenRule (O:=O)) (q : nat) : nat :=
  length (filter (λ y, outranks (better items (SortBy r)) y q = true)
            (matchedUpTo items (length items) r)).

(** A rule keeps the [Count] best of the resources it matches. *)
Definition keptBy (items : list O) (r : KeepLastWhenRule (O:=O)) (q : nat) : bool :=
  bool_decide (q ∈ matchedUpTo items (length items) r)
  && (Z.of_nat (outrankedBy items r q) <? Count r)%Z.

Definition sortable (items : list O) (rules : list (KeepLastWhenRule (O:=O))) : bool :=
  forallb (λ r, uniformField items (SortBy r) (matchedUpTo items (length items) r)) rules.

Lemma bucket_keptBy items r q :
  (0 <= Count r)%Z →
  uniformField items (SortBy r) (matchedUpTo items (length items) r) = true →
  Some q ∈ bucket (keeperAt items (length items) r) ↔ keptBy items r q = true.
Proof.
  intros Hc Hu. unfold keptBy. rewrite andb_true_iff, bool_decide_eq_true, Z.ltb_lt.
  cbn [bucket keeperAt]. rewrite elem_of_snoc_None. unfold topOf, padded.
  rewrite elem_of_app, elem_of_replicate, list_elem_of_fmap.
  pose proof (uniformField_weak_order items (SortBy r) (length items) r (le_n _) Hu) as Hwo.
  pose proof (ranking_take (better items (SortBy r)) _ (matchedUpTo items (length items) r)
    (Z.to_nat (Count r)) q Hwo) as Hr.
  assert (Some q ∈ Some <$> take (Z.to_nat (Count r)) (ranking (better items (SortBy r))
            (matchedUpTo items (length items) r)) ↔
          q ∈ take (Z.to_nat (Count r)) (ranking (better items (SortBy r))
            (matchedUpTo items (length items) r))) as He.
  { rewrite list_elem_of_fmap. naive_solver. }
  rewrite <-list_elem_of_fmap, He, Hr.
  - unfold outrankedBy. split; [intros [[??]|[??]]; [split; [done|lia]|done]|].
    intros [? ?]. left. split; [done|lia].
  - apply Forall_forall. done.
  - apply matchedUpTo_sorted.
Qed.

Lemma occ_keptBy items rules q :
  Forall (λ r, (0 <= Count r)%Z) rules → sortable items rules = true →
  occ (keeperAt items (length items) <$> rules) q = 0%nat ↔
  existsb (λ r, keptBy items r q) rules = false.
Proof.
  intros Hc Hs. unfold sortable in Hs. induction Hc as [|r rules Hr Hc IH]; [done|].
  cbn [forallb] in Hs. apply andb_true_iff in Hs as [Hu Hs].
  rewrite fmap_cons, occ_cons. cbn [existsb]. rewrite orb_false_iff, <-(IH Hs).
  pose proof (bucket_keptBy items r q Hr Hu) as Hb.
  destruct (decide (Some q ∈ bucket (keeperAt items (length items) r))) as [Hin|Hin].
  - rewrite (proj1 Hb Hin). split; [lia|by intros [? _]].
  - destruct (keptBy items r q); [|split; [by split|by intros [_ ?]]]. by destruct Hin; apply Hb.
Qed.

(** The keepers and the events of a run over any list of well-typed items. *)
Lemma run_accounted src prefix (items : list O) archive rules :
  NoDup (GetUID <$> items) → Forall (λ o, well_typed o = true) items →
  Forall (λ r, (0 <= Count r)%Z) rules →
  ∃ ks0 ks st, makeKeepers rules = Ok ks0 ∧
    processItems src prefix items archive 0 items ks0 {| all := ∅; sent := [] |} = Ok (ks, st) ∧
    accounted items prefix rules archive (length items) ks st ∧ ks0 = keeperAt items 0 <$> rules.
Proof.
  intros Huid Hty Hc.
  destruct (processItems_accounted items src prefix Huid Hty rules archive 0 items _ _
    (eq_sym (drop_0 items)) (makeKeepers_accounted items prefix rules archive Hc))
    as (ks & st & Hrun & Hacc).
  eexists _, ks, st. split_and!; [by apply makeKeepers_Ok|exact Hrun|exact Hacc|].
  apply list_fmap_ext. intros i r _.
  unfold keeperAt, topOf, padded. cbn. by rewrite take_nil, Nat.sub_0_r.
Qed.

(** What the events of a run are, resource by resource. *)
Definition runEvents (vcep : VacuumCloudEventPublisher) (prefix namespace : string)
    (avk : APIVersionKind) (items : list O) (evs : list (CloudEvent O)) : Prop :=
  Forall (vacuumEvent items prefix) evs ∧
  ∀ q o, items !! q = Some o →
    eventsOf (keepLastWhenDelete prefix) o evs =
      (if matchedBy (rulesFor vcep namespace avk) o
          && negb (existsb (λ r, keptBy items r q) (rulesFor vcep namespace avk))
       then 1%nat else 0%nat) ∧
    eventsOf (archiveWhen prefix) o evs =
      (if negb (matchedBy (rulesFor vcep namespace avk) o) && archives vcep namespace avk o
       then 1%nat else 0%nat).

Lemma sendByAPIVersionKind_events (vcep : VacuumCloudEventPublisher)
    (prefix namespace : string) (avk : APIVersionKind) gvr items :
  getGVR avk = Some gvr → ListResources gvr namespace = Some items →
  NoDup (GetUID <$> items) → Forall (λ o, well_typed o = true) items →
  Forall (λ r, (0 <= Count r)%Z) (rulesFor vcep namespace avk) →
  sortable items (rulesFor vcep namespace avk) = true →
  ∃ evs, sendByAPIVersionKind vcep prefix namespace avk = Ok evs ∧
    runEvents vcep prefix namespace avk items evs.
Proof.
  intros Hgvr Hlist Huid Hty Hc Hs. unfold sendByAPIVersionKind, createKeepers.
  rewrite Hgvr, Hlist. fold (rulesFor vcep namespace avk).
  destruct (run_accounted (source vcep) prefix items (archives vcep namespace avk)
    (rulesFor vcep namespace avk) Huid Hty Hc) as (ks0 & ks & st & -> & Hrun & Hacc & ->).
  cbn [mbind outcome_bind]. rewrite Hrun. cbn [mbind outcome_bind].
  apply processItems_keeperAt in Hrun; [|done|done|].
  2:{ apply Forall_forall. intros r Hr. apply uniformField_weak_order; [done|].
      unfold sortable in Hs. rewrite forallb_forall in Hs. by apply Hs, list_elem_of_In. }
  destruct Hacc as (_ & _ & _ & Hdata & Hq). eexists. split; [done|]. split; [done|].
  intros q o Hqo. specialize (Hq q o Hqo). rewrite decide_True in Hq by (by eapply lookup_lt_Some).
  unfold score in Hq. pose proof (occ_keptBy items _ q Hc Hs) as Hocc. rewrite <-Hrun in Hocc.
  destruct (matchedBy _ o); cbn [andb negb].
  - destruct Hq as [Hd ->]. split; [|done].
    destruct (existsb _ _); cbn [negb]; destruct (decide (occ ks q = 0%nat)) as [E|E];
      first [lia|by apply Hocc in E|by destruct E; apply Hocc].
  - destruct Hq as [Hd ->]. split; [lia|done].
Qed.

(** C4: a run over a kind and a namespace sends, for each listed resource, one
    deletion event exactly when some keep-last rule matches it and every rule
    that does prefers at least [Count] other matched resources (the rule's sort
    field, later in the list among equals); otherwise one archival event
    exactly when no rule matches it and an [ArchiveWhen] holds; and nothing
    else.  In particular the run does not panic. *)
Theorem sendByAPIVersionKind_spec (vcep : VacuumCloudEventPublisher)
    (prefix namespace : string) (avk : APIVersionKind) gvr items :
  getGVR avk = Some gvr → ListResources gvr namespace = Some items →
  NoDup (GetUID <$> items) → Forall (λ o, well_typed o = true) items →
  Forall (λ r, (0 <= Count r)%Z) (rulesFor vcep namespace avk) →
  sortable items (rulesFor vcep namespace avk) = true →
  ∃ evs, sendByAPIVersionKind vcep prefix namespace avk = Ok evs ∧
    Forall (vacuumEvent items prefix) evs ∧
    ∀ q o, items !! q = Some o →
      eventsOf (keepLastWhenDelete prefix) o evs =
        (if matchedBy (rulesFor vcep namespace avk) o
            && negb (existsb (λ r, keptBy items r q) (rulesFor vcep namespace avk))
         then 1%nat else 0%nat) ∧
      eventsOf (archiveWhen prefix) o evs =
        (if negb (matchedBy (rulesFor vcep namespace avk) o) && archives vcep namespace avk o
         then 1%nat else 0%nat).
Proof. apply sendByAPIVersionKind_events. Qed.

(** C12: conservation, whatever the sort fields: every resource some rule
    matched is either held by a keeper at the end and was never announced for
    deletion, or held by none and announced exactly once; the others are
    neither; no keeper holds more than [Count] resources, a resource twice, or
    one its rule does not match. *)
Theorem keepers_conserve (src prefix : string) (items : list O) (archive : O → bool)
    (clusterCel namespaceCel : CelExpressions (O:=O)) :
  NoDup (GetUID <$> items) → Forall (λ o, well_typed o = true) items →
  Forall (λ r, (0 <= Count r)%Z)
    (unifyRules (KeepLastWhen clusterCel) (KeepLastWhen namespaceCel)) →
  ∃ ks0 ks st,
    createKeepers clusterCel namespaceCel = Ok ks0 ∧
    processItems src prefix items archive 0 items ks0 {| all := ∅; sent := [] |} = Ok (ks, st) ∧
    (∀ q o, items !! q = Some o →
       (eventsOf (keepLastWhenDelete prefix) o (sent st) +
        (if existsb (λ k, bool_decide (Some q ∈ bucket k)) ks then 1 else 0))%nat =
       (if existsb (λ k, matches k o) ks then 1%nat else 0%nat)) ∧
    (∀ k, k ∈ ks →
       (Z.of_nat (length (omap id (bucket k))) <= Count (when k))%Z ∧
       NoDup (omap id (bucket k)) ∧
       ∀ q, Some q ∈ bucket k → ∃ o, items !! q = Some o ∧ matches k o = true).
Proof.
  intros Huid Hty Hc. unfold createKeepers.
  destruct (run_accounted src prefix items archive _ Huid Hty Hc)
    as (ks0 & ks & st & -> & Hrun & (Hw & Hwf & _ & _ & Hq) & _).
  exists ks0, ks, st. split_and!; [done|done| |].
  - intros q o Hqo. specialize (Hq q o Hqo).
    rewrite decide_True in Hq by (by eapply lookup_lt_Some).
    rewrite existsb_matches, Hw. unfold score in Hq.
    pose proof (occ_zero ks q) as Ho.
    destruct (existsb _ ks); destruct (decide (occ ks q = 0%nat)) as [E|E];
      try (by apply Ho in E); try (by destruct E; apply Ho); destruct (matchedBy _ o); lia.
  - intros k Hk. rewrite Forall_forall in Hwf.
    destruct (Hwf k Hk) as (init & Hb & Hcnt & Hnd & Hin). rewrite Hb, omap_app. cbn.
    rewrite app_nil_r. split_and!; [|done|].
    + rewrite Hcnt. pose proof (length_omap_le init). lia.
    + intros q. rewrite elem_of_snoc_None. intros Hqi. by apply Hin.
Qed.

(** [unifyRules] is its reference: the cluster rules in place, each
    with its count lowered to the smallest override of its name, then the
    namespace rules whose text is new. *)
Theorem unifyRules_correct (clusterRules namespaceRules : list (KeepLastWhenRule (O:=O))) :
  unifyRules clusterRules namespaceRules = unifyReference clusterRules namespaceRules.
Proof. apply unifyRules_reference. Qed.

(** C13: a namespace cannot weaken the cluster's rules: each cluster rule is
    still there, at its place, with the same condition and sort field and at
    most its count; the rules added come from the namespace, carry texts the
    cluster does not have, and no text twice. *)
Theorem unifyRules_only_tightens (clusterRules namespaceRules : list (KeepLastWhenRule (O:=O))) :
  ∃ added,
    length (unifyRules clusterRules namespaceRules) = (length clusterRules + length added)%nat ∧
    drop (length clusterRules) (unifyRules clusterRules namespaceRules) = added ∧
    (∀ i r, clusterRules !! i = Some r →
       ∃ c, unifyRules clusterRules namespaceRules !! i = Some (setCount r c) ∧ (c <= Count r)%Z) ∧
    NoDup (WhenText <$> added) ∧
    ∀ r, r ∈ added → r ∈ namespaceRules ∧ Name r = "" ∧ WhenText r ∉ WhenText <$> clusterRules.
Proof.
  rewrite unifyRules_reference. unfold unifyReference.
  exists (freshRules (list_to_set (WhenText <$> clusterRules)) namespaceRules).
  destruct (freshRules_texts (list_to_set (WhenText <$> clusterRules)) namespaceRules) as [Hnd Hf].
  split_and!; [by rewrite length_app, length_imap| | |done|].
  - by rewrite drop_app_length' by (by rewrite length_imap).
  - intros i r Hr. rewrite lookup_app_l by (rewrite length_imap; by eapply lookup_lt_Some).
    rewrite list_lookup_imap, Hr. cbn. apply overridden_lowers.
  - intros r Hr. rewrite Forall_forall in Hf. destruct (Hf r Hr) as [Hns Hin].
    split_and!; [done|by eapply freshRules_unnamed|]. by rewrite elem_of_list_to_set in Hns.
Qed.

(** The kinds a namespace run visits: a configured key with exactly one
    dash is split back into its kind and API version; any other key, such as
    one whose API group holds a dash, is skipped without an event. *)
Theorem sendKindAPIVersion_keys (vcep : VacuumCloudEventPublisher)
    (prefix namespace : string) (avk : APIVersionKind) :
  sendKindAPIVersion vcep prefix namespace (Key avk) =
  if ContainsByte (Kind avk) "-"%char || ContainsByte (APIVersion avk) "-"%char
  then Ok [] else sendByAPIVersionKind vcep prefix namespace avk.
Proof.
  destruct avk as [k v]. unfold sendKindAPIVersion. rewrite Key_parts. cbn [Kind APIVersion].
  destruct (ContainsByte k "-"%char) eqn:Hk; cbn [orb].
  - by destruct (Split_app_long "-"%char k v Hk) as (x & y & z & l & ->).
  - rewrite Split_app by done. destruct (ContainsByte v "-"%char) eqn:Hv.
    + by destruct (Split_two "-"%char v Hv) as (x & y & l & ->).
    + by rewrite Split_free.
Qed.

(** When the SinkFilter does not exist, the reader returns no error and
    a nil SinkFilter, which the cluster and the namespace vacuum dereference:
    both panic. *)
Theorem vacuum_without_sinkfilter_panics (order : list string) (namespace configName : string) :
  GetResource SinkFilterGVR KubeArchiveNamespace SinkFilterResourceName = @NotFound O →
  NewInstrumentedDynamicClient = true → namespace ≠ "" →
  GetSinkFilter = Ok None ∧
  clusterVacuum order configName = Panic ∧ namespaceVacuum namespace configName = Panic.
Proof.
  intros Hnf Hcl Hns. unfold clusterVacuum, namespaceVacuum, NewSinkFilterReader, GetSinkFilter.
  rewrite Hnf, Hcl. split_and!; [done..|].
  by rewrite (proj2 (String.eqb_neq namespace "")).
Qed.

(** The readers that return the filters do not: without a SinkFilter there are none, and
    with one both agree on each namespace the SinkFilter names. *)
Lemma readers_without_sinkfilter order ns ft :
  GetSinkFilter = Ok None →
  ProcessAllNamespacesWithFilterType order ft = Ok ∅ ∧ ProcessSingleNamespaceWithFilterType ns ft = Ok ∅.
Proof.
  intros Hn. unfold ProcessAllNamespacesWithFilterType, ProcessSingleNamespaceWithFilterType.
  by rewrite Hn.
Qed.

Lemma readers_agree spec order ns ft :
  GetSinkFilter = Ok (Some spec) → ns ∈ order →
  ∃ all single, ProcessAllNamespacesWithFilterType order ft = Ok all ∧
    ProcessSingleNamespaceWithFilterType ns ft = Ok single ∧
    (∀ key, filterOf all key ns = filterOf single key ns) ∧
    ∀ key ns', ns' ≠ ns → filterOf single key ns' = None.
Proof.
  intros Hs Hin. unfold ProcessAllNamespacesWithFilterType, ProcessSingleNamespaceWithFilterType.
  rewrite Hs. eexists _, _. split_and!; [done..| |].
  - intros key. rewrite !filterOf_extract, !decide_True; [done|by left|done].
  - intros key ns' Hne. rewrite filterOf_extract, decide_False; [done|]. by rewrite list_elem_of_singleton.
Qed.

End vacuum.

(** ** Witnesses: four pods, two rules *)
Module VacuumSamples.

Definition items : list sample :=
  [sample_at "a" 1 ["done"]; sample_at "b" 3 ["done"]; sample_at "c" 2 ["done"; "old"];
   sample_at "d" 5 ["old"]; sample_at "e" 4 ["archive"]].

#[export] Instance client : KubeClient sample := {|
  ListResources := λ _ _, Some items;
  GetResource := λ _ _ _, NotFound;
  ToSinkFilter := λ _, None;
  ToClusterVacuumConfig := λ _, None;
  ToNamespaceVacuumConfig := λ _, None;
  NewInstrumentedDynamicClient := true;
  NewSinkCloudEventPublisher := true;
|}.

Definition rule (name text : string) (count : Z) : KeepLastWhenRule (O:=sample) :=
  {| Name := name; When := CompileCELExpression text; WhenText := text;
     Count := count; SortBy := "" |}.

Definition pods : APIVersionKind := {| Kind := "Pod"; APIVersion := "v1" |}.
Definition podsGVR : GroupVersionResource :=
  {| Group := ""; Version := "v1"; Resource := "Pod" |}.

Definition clusterCel : CelExpressions (O:=sample) :=
  {| ArchiveWhen := CompileCELExpression "archive"; DeleteWhen := None;
     ArchiveOnDelete := None; KeepLastWhen := [rule "keep" "done" 2] |}.
Definition namespaceCel : CelExpressions (O:=sample) :=
  {| ArchiveWhen := None; DeleteWhen := None; ArchiveOnDelete := None;
     KeepLastWhen := [rule "keep" "" 1; rule "" "old" 1] |}.

Definition vcep : VacuumCloudEventPublisher (O:=sample) :=
  {| source := "test"; clusterFilters := {[Key pods := clusterCel]};
     namespaceFilters := {[Key pods := {["ns" := namespaceCel]}]} |}.

End VacuumSamples.
#[local] Existing Instance VacuumSamples.client.

Example sample_run :
  (λ evs, map (λ e, (ce_Type e, s_uid (ce_Data e))) evs)
    <$> sendByAPIVersionKind VacuumSamples.vcep "p" "ns" VacuumSamples.pods =
  Ok [("p.keep-last-when-delete", "a"); ("p.keep-last-when-delete", "c"); ("p.archive-when", "e")].
Proof. vm_compute. reflexivity. Qed.

Lemma sendByAPIVersionKind_spec_witness :
  ∃ evs, sendByAPIVersionKind VacuumSamples.vcep "p" "ns" VacuumSamples.pods = Ok evs ∧
    Forall (vacuumEvent VacuumSamples.items "p") evs ∧
    ∀ q o, VacuumSamples.items !! q = Some o →
      eventsOf (keepLastWhenDelete "p") o evs =
        (if matchedBy (rulesFor VacuumSamples.vcep "ns" VacuumSamples.pods) o
            && negb (existsb (λ r, keptBy VacuumSamples.items r q)
                       (rulesFor VacuumSamples.vcep "ns" VacuumSamples.pods))
         then 1%nat else 0%nat) ∧
      eventsOf (archiveWhen "p") o evs =
        (if negb (matchedBy (rulesFor VacuumSamples.vcep "ns" VacuumSamples.pods) o)
            && archives VacuumSamples.vcep "ns" VacuumSamples.pods o
         then 1%nat else 0%nat).
Proof.
  apply (sendByAPIVersionKind_spec VacuumSamples.vcep "p" "ns" VacuumSamples.pods
    VacuumSamples.podsGVR VacuumSamples.items).
  - reflexivity.
  - reflexivity.
  - apply (bool_decide_unpack _). vm_compute. reflexivity.
  - apply (bool_decide_unpack _). vm_compute. reflexivity.
  - apply (bool_decide_unpack _). vm_compute. reflexivity.
  - vm_compute. reflexivity.
Defined.

Lemma keepers_conserve_witness :
  ∃ ks0 ks st,
    createKeepers VacuumSamples.clusterCel VacuumSamples.namespaceCel = Ok ks0 ∧
    processItems "test" "p" VacuumSamples.items (λ _, false) 0 VacuumSamples.items ks0
      {| all := ∅; sent := [] |} = Ok (ks, st) ∧
    (∀ q o, VacuumSamples.items !! q = Some o →
       (eventsOf (keepLastWhenDelete "p") o (sent st) +
        (if existsb (λ k, bool_decide (Some q ∈ bucket k)) ks then 1 else 0))%nat =
       (if existsb (λ k, matches k o) ks then 1%nat else 0%nat)) ∧
    (∀ k, k ∈ ks →
       (Z.of_nat (length (omap id (bucket k))) <= Count (when k))%Z ∧
       NoDup (omap id (bucket k)) ∧
       ∀ q, Some q ∈ bucket k → ∃ o, VacuumSamples.items !! q = Some o ∧ matches k o = true).
Proof.
  apply (keepers_conserve "test" "p" VacuumSamples.items (λ _, false)
           VacuumSamples.clusterCel VacuumSamples.namespaceCel).
  - apply (bool_decide_unpack _). vm_compute. reflexivity.
  - apply (bool_decide_unpack _). vm_compute. reflexivity.
  - apply (bool_decide_unpack _). vm_compute. reflexivity.
Defined.

Lemma vacuum_without_sinkfilter_panics_witness :
  GetSinkFilter (O:=sample) = Ok None ∧
  clusterVacuum (O:=sample) ["ns"] "config" = Panic ∧
  namespaceVacuum (O:=sample) "ns" "config" = Panic.
Proof.
  apply (vacuum_without_sinkfilter_panics (O:=sample) ["ns"] "ns" "config");
    [reflexivity|reflexivity|discriminate].
Defined.
