(* ===== verification/WatchManager.v ===== *)
(** * The SinkFilter controller: watches of the selected kinds

    [cmd/operator/internal/controller/sinkfilter_controller.go] and
    [configuration.go].  The reconciler keeps one watch per kind; each watch has
    a connection loop with a backoff, a resource version, a queue and workers
    that turn watch events into CloudEvents.

    Channels are numbers; closing a closed channel panics.  Blocking reads and
    [select]s take the branch that was ready as an input.  The queue is the
    sequence of [Add] calls made on it; the work queue is a library.  A round of the
    reconciler holds the mutex, the loop and the workers of a watch do not take it: what
    they do while a round stops their watch is an input of the round ([StopView]). *)
From S2P Require Import Prelude GoLib Api Cel CloudEvents Samples Filters.

(** ** [configuration.go] *)
Record ResourceConfig := { rc_Selector : APIVersionKind; Workers : Z }.

(** The package variable [config]; [None] is nil. *)
Definition Configuration := option (gmap string (gmap string ResourceConfig)).

(** Results of [os.ReadFile]. *)
Inductive ReadFile := FileContent (data : string) | FileMissing | FileError.
Inductive ConfigError := FailedToRead | FailedToUnmarshal.

Definition emptyConfiguration : Configuration := Some {["resources" := ∅]}.

Definition LoadConfiguration (Unmarshal : string → option (list ResourceConfig))
    (file : ReadFile) : outcome ConfigError Configuration :=
  match file with
  | FileMissing => Ok emptyConfiguration
  | FileError => Err FailedToRead
  | FileContent data =>
      if String.eqb data "" then Ok emptyConfiguration
      else
        match Unmarshal data with
        | None => Err FailedToUnmarshal
        | Some resourceConfigs =>
            Ok (Some {["resources" :=
              foldl (λ m rc, <[Key (rc_Selector rc) := rc]> m) ∅ resourceConfigs]})
        end
  end.

Definition zeroResourceConfig : ResourceConfig :=
  {| rc_Selector := {| Kind := ""; APIVersion := "" |}; Workers := 0 |}.

Definition GetResourceConfig (config : Configuration) (selector : APIVersionKind)
    : ResourceConfig * bool :=
  match config ≫= λ c, c !! "resources" with
  | None => (zeroResourceConfig, false)
  | Some resources =>
      match resources !! Key selector with
      | Some rc => (rc, true)
      | None =>
          match resources !! Key {| Kind := "--all--"; APIVersion := "--all--" |} with
          | Some rc => (rc, true)
          | None => (zeroResourceConfig, false)
          end
      end
  end.

(** ** Watch events *)
Inductive EventType := Added | Modified | Deleted | Bookmark | ErrorType | OtherType (s : string).

#[export] Instance EventType_eq_dec : EqDecision EventType.
Proof. solve_decision. Defined.

(** What an event carries: an object, a [metav1.Status], or anything else. *)
Inductive EventObject (O : Type) :=
| ObjUnstructured (o : O)
| ObjStatus (code : Z) (reason : string)
| ObjOther.
Arguments ObjUnstructured {O}.
Arguments ObjStatus {O}.
Arguments ObjOther {O}.

Record WatchEvent (O : Type) := { Type_ : EventType; Object : EventObject O }.
Arguments Type_ {O}.
Arguments Object {O}.

(** What the HTTP client answers for an event. *)
Inductive SendResult := ACK | NACK | Undelivered.
Class CloudEventClient (O : Type) := { DeliveryResult : CloudEvent O → SendResult }.

Inductive HandleError :=
| UnexpectedObjectType
| PublisherNotAvailable
| NotAcknowledged
| SendFailed.

(** What a round meets in a watch it stops, once it has closed its channel: the loop of the
    watch may set or clear [WatchInterface] before each of the two reads of the round, and
    its workers return, or one of them does not. *)
Record StopView := { checkSees : bool; callSees : bool; workersReturn : bool }.

(** The interface is cleared between the two reads. *)
Definition races (view : StopView) : bool := checkSees view && negb (callSees view).
Definition stopsCleanly (view : StopView) : bool := negb (races view) && workersReturn view.

(** A round returns, panics, or waits for ever, with the mutex, for a worker. *)
Inductive Deadlock := Blocks.
Notation round := (outcome Deadlock).

Section watchmanager.
  Context {O : Type} `{!Unstructured O, !CelEnv O, !EventEncoding O, !CloudEventClient O,
    !RESTMapper}.

Record WatchInfo := {
  GVR : GroupVersionResource;
  KindSelector : APIVersionKind;
  ClusterCel : option (CelExpressions (O:=O));
  WatchNamespaces : gmap string (CelExpressions (O:=O));
  StopCh : nat;
  WatchInterface : bool;
  ResourceVersion : string;
  Queue : list (WatchEvent O);
  WorkerWg : nat;
}.

(** The watches and the channels made so far; the counter names the next.  The streams
    stopped and the queues shut down by a round are named by the channel of their watch. *)
Record SinkFilterReconciler := {
  watches : gmap string WatchInfo;
  closedChs : gset nat;
  stoppedStreams : gset nat;
  shutQueues : gset nat;
  nextCh : nat;
}.

Definition setWatches (r : SinkFilterReconciler) (w : gmap string WatchInfo)
    : SinkFilterReconciler :=
  {| watches := w; closedChs := closedChs r; stoppedStreams := stoppedStreams r;
     shutQueues := shutQueues r; nextCh := nextCh r |}.

(** ** Keys and resources *)

Definition parseKindAndAPIVersionFromKey (key : string) : string * string :=
  match Split "-"%char key with
  | kind :: ((_ :: _) as rest) => (kind, Join "-"%char rest)
  | _ => ("", "")
  end.

Definition getGVRFromKindAndAPIVersion (kind apiVersion : string)
    : option GroupVersionResource :=
  if String.eqb apiVersion "" then None
  else
    match ParseGroupVersion apiVersion with
    | None => None
    | Some (group, version) => RESTMapping group kind version
    end.

(** ** [generateWatches] *)

Definition findWatchesToStop (r : SinkFilterReconciler) (allKinds : gset string) : gset string :=
  dom (watches r) ∖ allKinds.
Definition findWatchesToCreate (r : SinkFilterReconciler) (allKinds : gset string) : gset string :=
  allKinds ∖ dom (watches r).
Definition findWatchesToUpdate (r : SinkFilterReconciler) (allKinds toStop : gset string)
    : gset string :=
  (dom (watches r) ∩ allKinds) ∖ toStop.

Definition closeCh (ch : nat) (r : SinkFilterReconciler) : round SinkFilterReconciler :=
  if decide (ch ∈ closedChs r) then Panic
  else Ok {| watches := watches r; closedChs := {[ch]} ∪ closedChs r;
             stoppedStreams := stoppedStreams r; shutQueues := shutQueues r; nextCh := nextCh r |}.

(** [if watchInfo.WatchInterface != nil { watchInfo.WatchInterface.Stop() }]: two reads of
    the field; calling a method of a nil interface panics. *)
Definition stopInterface (view : StopView) (ch : nat) (r : SinkFilterReconciler)
    : round SinkFilterReconciler :=
  if checkSees view then
    if callSees view then
      Ok {| watches := watches r; closedChs := closedChs r;
            stoppedStreams := {[ch]} ∪ stoppedStreams r; shutQueues := shutQueues r; nextCh := nextCh r |}
    else Panic
  else Ok r.

(** [Queue.ShutDown()]. *)
Definition shutDown (ch : nat) (r : SinkFilterReconciler) : SinkFilterReconciler :=
  {| watches := watches r; closedChs := closedChs r; stoppedStreams := stoppedStreams r;
     shutQueues := {[ch]} ∪ shutQueues r; nextCh := nextCh r |}.

(** [WorkerWg.Wait()]. *)
Definition waitWorkers (view : StopView) : round unit :=
  if workersReturn view then Ok () else Err Blocks.

Definition stopWatch (views : string → StopView) (r : SinkFilterReconciler) (key : string)
    : round SinkFilterReconciler :=
  match watches r !! key with
  | None => Ok r
  | Some watchInfo =>
      r ← closeCh (StopCh watchInfo) r;
      r ← stopInterface (views key) (StopCh watchInfo) r;
      let r := shutDown (StopCh watchInfo) r in
      _ ← waitWorkers (views key);
      Ok (setWatches r (delete key (watches r)))
  end.

Definition withFilters (watchInfo : WatchInfo) (clusterCel : option (CelExpressions (O:=O)))
    (namespaces : gmap string (CelExpressions (O:=O))) : WatchInfo :=
  {| GVR := GVR watchInfo; KindSelector := KindSelector watchInfo; ClusterCel := clusterCel;
     WatchNamespaces := namespaces; StopCh := StopCh watchInfo;
     WatchInterface := WatchInterface watchInfo; ResourceVersion := ResourceVersion watchInfo;
     Queue := Queue watchInfo; WorkerWg := WorkerWg watchInfo |}.

(** A missing key of a Go map of maps reads as a nil map. *)
Definition namespacesOf (m : gmap string (gmap string (CelExpressions (O:=O)))) (key : string)
    : gmap string (CelExpressions (O:=O)) := default ∅ (m !! key).

Definition updateWatch (clusterFilters : gmap string (CelExpressions (O:=O)))
    (namespacesByKinds : gmap string (gmap string (CelExpressions (O:=O))))
    (r : SinkFilterReconciler) (key : string) : round SinkFilterReconciler :=
  match watches r !! key with
  | None => Ok r
  | Some watchInfo =>
      Ok (setWatches r (<[key := withFilters watchInfo (clusterFilters !! key)
                                   (namespacesOf namespacesByKinds key)]> (watches r)))
  end.

(** A new watch: [config] gives the number of workers. *)
Definition newWatchInfo (config : Configuration) (key : string) (gvr : GroupVersionResource)
    (clusterCel : option (CelExpressions (O:=O)))
    (namespaces : gmap string (CelExpressions (O:=O))) (stopCh : nat) : WatchInfo :=
  let '(kind, apiVersion) := parseKindAndAPIVersionFromKey key in
  let kindSelector := {| Kind := kind; APIVersion := apiVersion |} in
  {| GVR := gvr; KindSelector := kindSelector; ClusterCel := clusterCel;
     WatchNamespaces := namespaces; StopCh := stopCh; WatchInterface := false;
     ResourceVersion := ""; Queue := [];
     WorkerWg := Z.to_nat (Workers (GetResourceConfig config kindSelector).1) |}.

Definition createWatchForGVR (config : Configuration) (key : string)
    (gvr : GroupVersionResource) (clusterCel : option (CelExpressions (O:=O)))
    (namespaces : gmap string (CelExpressions (O:=O))) (r : SinkFilterReconciler)
    : SinkFilterReconciler :=
  {| watches := <[key := newWatchInfo config key gvr clusterCel namespaces (nextCh r)]> (watches r);
     closedChs := closedChs r; stoppedStreams := stoppedStreams r; shutQueues := shutQueues r;
     nextCh := S (nextCh r) |}.

Definition createWatch (config : Configuration)
    (clusterFilters : gmap string (CelExpressions (O:=O)))
    (namespacesByKinds : gmap string (gmap string (CelExpressions (O:=O))))
    (r : SinkFilterReconciler) (key : string) : round SinkFilterReconciler :=
  let '(kind, apiVersion) := parseKindAndAPIVersionFromKey key in
  match getGVRFromKindAndAPIVersion kind apiVersion with
  | None => Ok r
  | Some gvr =>
      Ok (createWatchForGVR config key gvr (clusterFilters !! key)
            (namespacesOf namespacesByKinds key) r)
  end.

Fixpoint foldRun {A S} (f : S → A → round S) (s : S) (l : list A) : round S :=
  match l with
  | [] => Ok s
  | a :: l => s ← f s a; foldRun f s l
  end.

(** The iteration orders Go picks for the three maps, and what stopping each watch meets. *)
Record Orders := {
  stopOrder : list string; updateOrder : list string; createOrder : list string;
  stopViews : string → StopView;
}.

Definition allKinds (clusterFilters : gmap string (CelExpressions (O:=O)))
    (namespacesByKinds : gmap string (gmap string (CelExpressions (O:=O)))) : gset string :=
  dom clusterFilters ∪ dom namespacesByKinds.

(** [orders] enumerates the three sets computed by the [find] functions. *)
Definition validOrders (r : SinkFilterReconciler) (kinds : gset string) (orders : Orders) : Prop :=
  stopOrder orders ≡ₚ elements (findWatchesToStop r kinds) ∧
  updateOrder orders ≡ₚ elements (findWatchesToUpdate r kinds (findWatchesToStop r kinds)) ∧
  createOrder orders ≡ₚ elements (findWatchesToCreate r kinds).

Definition generateWatches (config : Configuration) (orders : Orders)
    (clusterFilters : gmap string (CelExpressions (O:=O)))
    (namespacesByKinds : gmap string (gmap string (CelExpressions (O:=O))))
    (r : SinkFilterReconciler) : round SinkFilterReconciler :=
  r ← foldRun (stopWatch (stopViews orders)) r (stopOrder orders);
  r ← foldRun (updateWatch clusterFilters namespacesByKinds) r (updateOrder orders);
  foldRun (createWatch config clusterFilters namespacesByKinds) r (createOrder orders).

(** ** The connection of one watch *)

Definition second : Z := 1000000000.
Definition initialBackoff : Z := second.
Definition maxBackoff : Z := 300 * second.

(** [time.Duration(float64(backoff) * 1.5)], exact below 2^53 ns, capped. *)
Definition nextBackoff (backoff : Z) : Z :=
  let b := (backoff * 3 / 2)%Z in if (maxBackoff <? b)%Z then maxBackoff else b.

(** [select] in [processWatchEvents]: the branch taken. *)
Inductive WatchSelect :=
| SelStop
| SelClosed
| SelEvent (e : WatchEvent O).

Definition StatusReasonGone : string := "Gone".
Definition StatusGone : Z := 410.

Definition shouldClearResourceVersion (event : WatchEvent O) : bool :=
  let '(errorCode, errorReason) :=
    match Object event with
    | ObjStatus code reason => (code, reason)
    | _ => (0%Z, "")
    end in
  String.eqb errorReason StatusReasonGone || (errorCode =? StatusGone)%Z.

Definition withResourceVersion (watchInfo : WatchInfo) (rv : string) : WatchInfo :=
  {| GVR := GVR watchInfo; KindSelector := KindSelector watchInfo;
     ClusterCel := ClusterCel watchInfo; WatchNamespaces := WatchNamespaces watchInfo;
     StopCh := StopCh watchInfo; WatchInterface := WatchInterface watchInfo;
     ResourceVersion := rv; Queue := Queue watchInfo; WorkerWg := WorkerWg watchInfo |}.

Definition withInterface (watchInfo : WatchInfo) (i : bool) : WatchInfo :=
  {| GVR := GVR watchInfo; KindSelector := KindSelector watchInfo;
     ClusterCel := ClusterCel watchInfo; WatchNamespaces := WatchNamespaces watchInfo;
     StopCh := StopCh watchInfo; WatchInterface := i;
     ResourceVersion := ResourceVersion watchInfo; Queue := Queue watchInfo;
     WorkerWg := WorkerWg watchInfo |}.

Definition enqueue (watchInfo : WatchInfo) (event : WatchEvent O) : WatchInfo :=
  {| GVR := GVR watchInfo; KindSelector := KindSelector watchInfo;
     ClusterCel := ClusterCel watchInfo; WatchNamespaces := WatchNamespaces watchInfo;
     StopCh := StopCh watchInfo; WatchInterface := WatchInterface watchInfo;
     ResourceVersion := ResourceVersion watchInfo; Queue := Queue watchInfo ++ [event];
     WorkerWg := WorkerWg watchInfo |}.

(** One event read from the channel; [None] when the loop returns. *)
Definition receiveEvent (watchInfo : WatchInfo) (event : WatchEvent O) : WatchInfo * bool :=
  if decide (Type_ event = ErrorType) then
    (if shouldClearResourceVersion event then withResourceVersion watchInfo "" else watchInfo, false)
  else
    let watchInfo :=
      match Object event with
      | ObjUnstructured o =>
          if String.eqb (GetResourceVersion o) "" then watchInfo
          else withResourceVersion watchInfo (GetResourceVersion o)
      | _ => watchInfo
      end in
    (enqueue watchInfo event, true).

(** The flag tells whether the loop has returned. *)
Fixpoint processWatchEvents (watchInfo : WatchInfo) (sel : list WatchSelect)
    : WatchInfo * bool :=
  match sel with
  | [] => (watchInfo, false)
  | SelStop :: _ | SelClosed :: _ => (watchInfo, true)
  | SelEvent event :: sel =>
      let '(watchInfo, continue) := receiveEvent watchInfo event in
      if continue then processWatchEvents watchInfo sel else (watchInfo, true)
  end.

(** The phases of [watchLoop]. *)
Inductive LoopPhase := Checking | Connecting | Waiting | Watching | Stopped.

Record LoopState := { phase : LoopPhase; backoff : Z; info : WatchInfo }.

Inductive watchLoop_step : LoopState → LoopState → Prop :=
| step_stopped s :
    phase s = Checking →
    watchLoop_step s {| phase := Stopped; backoff := backoff s; info := info s |}
| step_default s :
    phase s = Checking →
    watchLoop_step s {| phase := Connecting; backoff := backoff s; info := info s |}
| step_connect_error s :
    phase s = Connecting →
    watchLoop_step s {| phase := Waiting; backoff := backoff s;
                        info := withInterface (info s) false |}
| step_timer s :
    phase s = Waiting →
    watchLoop_step s {| phase := Checking; backoff := nextBackoff (backoff s); info := info s |}
| step_stop_waiting s :
    phase s = Waiting →
    watchLoop_step s {| phase := Stopped; backoff := backoff s; info := info s |}
| step_connected s :
    phase s = Connecting →
    watchLoop_step s {| phase := Watching; backoff := initialBackoff;
                        info := withInterface (info s) true |}
| step_watched s sel watchInfo :
    phase s = Watching → processWatchEvents (info s) sel = (watchInfo, true) →
    watchLoop_step s {| phase := Checking; backoff := backoff s;
                        info := withInterface watchInfo false |}.

Definition startLoop (watchInfo : WatchInfo) : LoopState :=
  {| phase := Checking; backoff := initialBackoff; info := watchInfo |}.

(** [randomTimeout]: [rand.Int] gives a number below 300, or an error, on
    which its result is nil and [n.Int64()] panics. *)
Definition randomTimeout (random : option Z) : run Z :=
  match random with
  | None => Panic
  | Some n => Ok (n + 300)%Z
  end.

(** ** Workers *)

Definition sendCloudEvent (publisher : option string) (eventType : string) (obj : O)
    (watchInfo : WatchInfo) : run (option (CloudEvent O) * option HandleError) :=
  match publisher with
  | None => Ok (None, Some PublisherNotAvailable)
  | Some source =>
      let obj :=
        if ObjectAPIVersionNil obj then
          WithObjectAPIVersion obj
            (if String.eqb (Group (GVR watchInfo)) "" then Version (GVR watchInfo)
             else Group (GVR watchInfo) +:+ "/" +:+ Version (GVR watchInfo))
        else obj in
      let obj :=
        if ObjectKindNil obj && negb (String.eqb (Kind (KindSelector watchInfo)) "")
        then WithObjectKind obj (Kind (KindSelector watchInfo)) else obj in
      e ← Send source ("org.kubearchive.sinkfilters.resource." +:+ eventType) obj;
      match e with
      | None => Ok (None, Some SendFailed)
      | Some ev =>
          match DeliveryResult ev with
          | ACK => Ok (Some ev, None)
          | NACK => Ok (Some ev, Some NotAcknowledged)
          | Undelivered => Ok (Some ev, Some SendFailed)
          end
      end
  end.

(** [cluster && Execute(cluster) || namespace && Execute(namespace)]. *)
Definition anyHolds (get : CelExpressions (O:=O) → option Program)
    (clusterCel namespaceCel : option (CelExpressions (O:=O))) (o : O) : bool :=
  match clusterCel with Some c => ExecuteBooleanCEL (get c) o | None => false end
  || match namespaceCel with Some c => ExecuteBooleanCEL (get c) o | None => false end.

Definition handleWatchEvent (publisher : option string) (event : WatchEvent O)
    (watchInfo : WatchInfo) : run (option (CloudEvent O) * option HandleError) :=
  match Object event with
  | ObjUnstructured obj =>
      let namespaceCel := WatchNamespaces watchInfo !! GetNamespace obj in
      let clusterCel := ClusterCel watchInfo in
      match clusterCel, namespaceCel with
      | None, None => Ok (None, None)
      | _, _ =>
          match Type_ event with
          | Added | Modified =>
              if anyHolds DeleteWhen clusterCel namespaceCel obj
              then sendCloudEvent publisher "delete-when" obj watchInfo
              else if anyHolds ArchiveWhen clusterCel namespaceCel obj
              then sendCloudEvent publisher "archive-when" obj watchInfo
              else Ok (None, None)
          | Deleted =>
              if anyHolds ArchiveOnDelete clusterCel namespaceCel obj
              then sendCloudEvent publisher "archive-on-delete" obj watchInfo
              else Ok (None, None)
          | _ => Ok (None, None)
          end
      end
  | _ => Ok (None, Some UnexpectedObjectType)
  end.

(** What a worker does with an event it got: the event sent, the [result]
    attribute of the metric, whether it is queued again, rate limited. *)
Record WorkerStep := { ws_sent : option (CloudEvent O); ws_result : string; ws_requeued : bool }.

Definition runWorkerStep (publisher : option string) (event : WatchEvent O)
    (watchInfo : WatchInfo) : run WorkerStep :=
  '(ev, err) ← handleWatchEvent publisher event watchInfo;
  match err with
  | Some _ => Ok {| ws_sent := ev; ws_result := "failed"; ws_requeued := true |}
  | None => Ok {| ws_sent := ev; ws_result := "delivered"; ws_requeued := false |}
  end.

(** ** What the event loop consumes, as a reference *)

(** The events queued before the loop ends: up to a stop, a closed channel or
    an error event. *)
Fixpoint queuedEvents (sel : list WatchSelect) : list (WatchEvent O) :=
  match sel with
  | SelEvent e :: sel => if decide (Type_ e = ErrorType) then [] else e :: queuedEvents sel
  | _ => []
  end.

(** The version to resume from: the last one seen, none after "gone". *)
Fixpoint resumeVersion (rv : string) (sel : list WatchSelect) : string :=
  match sel with
  | SelEvent e :: sel =>
      if decide (Type_ e = ErrorType)
      then if shouldClearResourceVersion e then "" else rv
      else resumeVersion
             (match Object e with
              | ObjUnstructured o =>
                  if String.eqb (GetResourceVersion o) "" then rv else GetResourceVersion o
              | _ => rv
              end) sel
  | _ => rv
  end.

(** The loop returns on a stop, a closed channel or an error event. *)
Fixpoint loopEnds (sel : list WatchSelect) : bool :=
  match sel with
  | [] => false
  | SelEvent e :: sel => if decide (Type_ e = ErrorType) then true else loopEnds sel
  | _ => true
  end.

(** The fields only the reconciler sets. *)
Definition sameFilters (w w' : WatchInfo) : Prop :=
  GVR w' = GVR w ∧ KindSelector w' = KindSelector w ∧ ClusterCel w' = ClusterCel w ∧
  WatchNamespaces w' = WatchNamespaces w ∧ StopCh w' = StopCh w ∧ WorkerWg w' = WorkerWg w.

(** [n] failed connections in a row. *)
Definition backoffAfter (n : nat) : Z := Nat.iter n nextBackoff initialBackoff.

(** ** Invariant of the reconciler: the stop channel of every watch is open,
    and its own. *)
Record wf (r : SinkFilterReconciler) : Prop := {
  wf_made : ∀ key w, watches r !! key = Some w → (StopCh w < nextCh r)%nat;
  wf_open : ∀ key w, watches r !! key = Some w → StopCh w ∉ closedChs r;
  wf_own : ∀ key key' w w', watches r !! key = Some w → watches r !! key' = Some w' →
    StopCh w = StopCh w' → key = key';
  wf_closed : ∀ ch, ch ∈ closedChs r → (ch < nextCh r)%nat;
  wf_released : stoppedStreams r ⊆ closedChs r ∧ shutQueues r ⊆ closedChs r;
}.

Definition resolves (key : string) : option GroupVersionResource :=
  let '(kind, apiVersion) := parseKindAndAPIVersionFromKey key in
  getGVRFromKindAndAPIVersion kind apiVersion.

(** One round of the reconciler, or one step of the loop of one watch. *)
Inductive reconciler_step (config : Configuration) : SinkFilterReconciler → SinkFilterReconciler → Prop :=
| step_generate r r' orders clusterFilters namespacesByKinds :
    validOrders r (allKinds clusterFilters namespacesByKinds) orders →
    generateWatches config orders clusterFilters namespacesByKinds r = Ok r' →
    reconciler_step config r r'
| step_loop r key w ph b s' :
    watches r !! key = Some w →
    watchLoop_step {| phase := ph; backoff := b; info := w |} s' →
    reconciler_step config r (setWatches r (<[key := info s']> (watches r))).

Definition initialReconciler : SinkFilterReconciler :=
  {| watches := ∅; closedChs := ∅; stoppedStreams := ∅; shutQueues := ∅; nextCh := 0 |}.

(** What stopping one watch releases. *)
Definition released (views : string → StopView) (r' : SinkFilterReconciler) (key : string)
    (w : WatchInfo) : Prop :=
  StopCh w ∈ closedChs r' ∧ StopCh w ∈ shutQueues r' ∧
  (checkSees (views key) = true → StopCh w ∈ stoppedStreams r').

(** Nothing that is released is taken back. *)
Definition keepsReleased (r r' : SinkFilterReconciler) : Prop :=
  closedChs r ⊆ closedChs r' ∧ shutQueues r ⊆ shutQueues r' ∧ stoppedStreams r ⊆ stoppedStreams r'.

#[local] Instance keepsReleased_preorder : PreOrder keepsReleased.
Proof. split; [intros r; by split_and!|]. intros r1 r2 r3 (? & ? & ?) (? & ? & ?). split_and!; by etrans. Qed.

Lemma released_later views r1 r2 key w :
  released views r1 key w → keepsReleased r1 r2 → released views r2 key w.
Proof. intros (Hc & Hq & Hs) (Hc' & Hq' & Hs'). split_and!; [by apply Hc'|by apply Hq'|intros ?; by apply Hs', Hs]. Qed.

Lemma wf_stopped r key w streams :
  wf r → watches r !! key = Some w → streams ⊆ {[StopCh w]} ∪ stoppedStreams r →
  wf {| watches := delete key (watches r); closedChs := {[StopCh w]} ∪ closedChs r;
        stoppedStreams := streams; shutQueues := {[StopCh w]} ∪ shutQueues r; nextCh := nextCh r |}.
Proof.
  intros Hwf Hw Hs. split; cbn.
  - intros k v [? Hk]%lookup_delete_Some. by eapply wf_made.
  - intros k v [? Hk]%lookup_delete_Some. rewrite elem_of_union, elem_of_singleton.
    intros [He|Hc]; [|by apply (wf_open r Hwf k v Hk)].
    by pose proof (wf_own r Hwf k key v w Hk Hw He).
  - intros k k' v v' [? Hk]%lookup_delete_Some [? Hk']%lookup_delete_Some. by eapply wf_own.
  - intros ch [->%elem_of_singleton|Hc]%elem_of_union; [by eapply wf_made|by eapply wf_closed].
  - pose proof (wf_released r Hwf). set_solver.
Qed.

(** A watch that is stopped cleanly. *)
Lemma stopWatch_step views r key :
  wf r → stopsCleanly (views key) = true →
  ∃ r', stopWatch views r key = Ok r' ∧ wf r' ∧ watches r' = delete key (watches r) ∧
    nextCh r' = nextCh r ∧ keepsReleased r r' ∧
    (∀ w, watches r !! key = Some w → released views r' key w) ∧
    ∀ c, c ∈ closedChs r' → c ∈ closedChs r ∨ ∃ w, watches r !! key = Some w ∧ StopCh w = c.
Proof.
  intros Hwf [Hraces Hworkers]%andb_true_iff. unfold stopWatch.
  destruct (watches r !! key) as [w|] eqn:Hw.
  2: { eexists. split; [done|]. split_and!; [done|by rewrite delete_id|done|done|done|]. by left. }
  unfold closeCh. rewrite decide_False by (by eapply wf_open). cbn [mbind outcome_bind].
  unfold stopInterface, waitWorkers. rewrite Hworkers. unfold races in Hraces.
  destruct (checkSees (views key)) eqn:Hc; [destruct (callSees (views key)); [|done]|];
    (eexists; split; [reflexivity|]; unfold shutDown, setWatches, keepsReleased, released;
     cbn [watches closedChs stoppedStreams shutQueues nextCh];
     split_and!; [apply wf_stopped; [done..|set_solver]|done|done|set_solver..| |]).
  1,3: intros ? [= <-]; rewrite Hc; set_solver.
  all: intros c [->%elem_of_singleton|?]%elem_of_union; [right; by exists w|by left].
Qed.

(** Any other: the round panics or waits for ever. *)
Lemma stopWatch_stuck views r key w :
  wf r → watches r !! key = Some w → stopsCleanly (views key) = false →
  stopWatch views r key = if races (views key) then Panic else Err Blocks.
Proof.
  intros Hwf Hw. unfold stopWatch, stopsCleanly. rewrite Hw. unfold closeCh.
  rewrite decide_False by (by eapply wf_open). cbn [mbind outcome_bind].
  unfold stopInterface, waitWorkers, races.
  by destruct (views key) as [[] [] []].
Qed.

Lemma stopWatches_step views r keys :
  wf r → Forall (λ key, stopsCleanly (views key) = true) keys →
  ∃ r', foldRun (stopWatch views) r keys = Ok r' ∧ wf r' ∧ nextCh r' = nextCh r ∧
    (∀ key, watches r' !! key = if decide (key ∈ keys) then None else watches r !! key) ∧
    keepsReleased r r' ∧
    (∀ key w, key ∈ keys → watches r !! key = Some w → released views r' key w) ∧
    ∀ c, c ∈ closedChs r' →
      c ∈ closedChs r ∨ ∃ key w, key ∈ keys ∧ watches r !! key = Some w ∧ StopCh w = c.
Proof.
  intros Hwf Hclean. revert r Hwf; induction Hclean as [|k keys Hk _ IH]; intros r Hwf; cbn [foldRun].
  { eexists. split; [done|]. split_and!; [done..| |done| |by left].
    - intros key. rewrite decide_False by (by intros ?%not_elem_of_nil). done.
    - by intros key w ?%not_elem_of_nil. }
  destruct (stopWatch_step views r k Hwf Hk) as (r1 & -> & Hwf1 & Hw1 & Hn1 & Hr1 & Hrel1 & Hc1).
  cbn [mbind outcome_bind].
  destruct (IH r1 Hwf1) as (r2 & -> & Hwf2 & Hn2 & Hw2 & Hr2 & Hrel2 & Hc2).
  exists r2. split_and!; [done|done|congruence| |by etrans| |].
  - intros key. rewrite Hw2, Hw1. destruct (decide (key ∈ keys)).
    + by rewrite decide_True by (by right).
    + destruct (decide (key = k)) as [->|Hne].
      * rewrite lookup_delete_eq, decide_True by (by left). done.
      * rewrite lookup_delete_ne, decide_False by (try done; rewrite elem_of_cons; naive_solver).
        done.
  - intros key w Hin Hw. destruct (decide (key = k)) as [->|Hne].
    { eapply released_later; [by apply Hrel1|done]. }
    apply elem_of_cons in Hin as [?|Hin]; [done|].
    apply (Hrel2 key w Hin). by rewrite Hw1, lookup_delete_ne by done.
  - intros c Hc. setoid_rewrite elem_of_cons. apply Hc2 in Hc as [[?|(w & ? & ?)]%Hc1|(key & w & ? & Hw & ?)];
      [by left|right..]; [eauto 10|].
    rewrite Hw1 in Hw. apply lookup_delete_Some in Hw as [??]. eauto 10.
Qed.

(** The rest of a round releases nothing. *)
Definition sameReleased (r r' : SinkFilterReconciler) : Prop :=
  closedChs r' = closedChs r ∧ shutQueues r' = shutQueues r ∧ stoppedStreams r' = stoppedStreams r.

#[local] Instance sameReleased_preorder : PreOrder sameReleased.
Proof. split; [intros r; by split_and!|]. intros r1 r2 r3 (? & ? & ?) (? & ? & ?). split_and!; congruence. Qed.

Lemma sameReleased_keeps r r' : sameReleased r r' → keepsReleased r r'.
Proof. intros (H1 & H2 & H3). unfold keepsReleased. by rewrite H1, H2, H3. Qed.

(** The first watch of a round that is not stopped cleanly. *)
Definition stuckAt (orders : Orders) : option string :=
  List.find (λ key, negb (stopsCleanly (stopViews orders key))) (stopOrder orders).

Lemma stopWatches_stuck views r keys key :
  wf r → NoDup keys → (∀ k, k ∈ keys → is_Some (watches r !! k)) →
  List.find (λ key, negb (stopsCleanly (views key))) keys = Some key →
  foldRun (stopWatch views) r keys = if races (views key) then Panic else Err Blocks.
Proof.
  revert r; induction keys as [|k keys IH]; intros r Hwf Hnd Hkeys; cbn [List.find foldRun]; [done|].
  apply NoDup_cons in Hnd as [Hk Hnd].
  destruct (stopsCleanly (views k)) eqn:Hc; cbn [negb].
  - intros Hf. destruct (stopWatch_step views r k Hwf Hc) as (r1 & -> & Hwf1 & Hw1 & _).
    cbn [mbind outcome_bind]. apply IH; [done|done| |done].
    intros k' Hk'. rewrite Hw1, lookup_delete_ne by (by intros ->). apply Hkeys. by right.
  - intros [= <-]. destruct (Hkeys k) as [w Hw]; [by left|].
    rewrite (stopWatch_stuck views r k w Hwf Hw Hc). by destruct (races (views k)).
Qed.

Lemma updateWatch_step cf nk r key :
  wf r →
  ∃ r', updateWatch cf nk r key = Ok r' ∧ wf r' ∧ nextCh r' = nextCh r ∧
    sameReleased r r' ∧
    watches r' = alter (λ w, withFilters w (cf !! key) (namespacesOf nk key)) key (watches r).
Proof.
  intros Hwf. unfold updateWatch. destruct (watches r !! key) as [w|] eqn:Hw.
  - eexists. split; [done|]. cbn. split_and!; [|done..|].
    + assert (∀ k v, <[key:=withFilters w (cf !! key) (namespacesOf nk key)]> (watches r) !! k = Some v →
        ∃ v', watches r !! k = Some v' ∧ StopCh v' = StopCh v) as Hl.
      { intros k v [[<- <-]|[? ?]]%lookup_insert_Some; [by exists w|eauto]. }
      split; cbn.
      * intros k v (v' & ? & <-)%Hl. by eapply wf_made.
      * intros k v (v' & ? & <-)%Hl. by eapply wf_open.
      * intros k k' v v' (u & ? & <-)%Hl (u' & ? & <-)%Hl. by eapply wf_own.
      * by apply wf_closed.
      * by apply wf_released.
    + apply map_eq; intros k. destruct (decide (k = key)) as [->|].
      * by rewrite lookup_insert_eq, lookup_alter_eq, Hw.
      * by rewrite lookup_insert_ne, lookup_alter_ne.
  - eexists. split; [done|]. split_and!; [done..|]. apply map_eq; intros k.
    destruct (decide (k = key)) as [->|]; [by rewrite lookup_alter_eq, Hw|by rewrite lookup_alter_ne].
Qed.

Lemma withFilters_idem w c n : withFilters (withFilters w c n) c n = withFilters w c n.
Proof. done. Qed.

Lemma updateWatches_step cf nk r keys :
  wf r →
  ∃ r', foldRun (updateWatch cf nk) r keys = Ok r' ∧ wf r' ∧ nextCh r' = nextCh r ∧
    sameReleased r r' ∧
    ∀ key, watches r' !! key =
      if decide (key ∈ keys)
      then (λ w, withFilters w (cf !! key) (namespacesOf nk key)) <$> watches r !! key
      else watches r !! key.
Proof.
  revert r; induction keys as [|k keys IH]; intros r Hwf; cbn [foldRun].
  { eexists. split; [done|]. split_and!; [done..|]. intros key.
    rewrite decide_False by (by intros ?%not_elem_of_nil). done. }
  destruct (updateWatch_step cf nk r k Hwf) as (r1 & -> & Hwf1 & Hn1 & Hc1 & Hw1).
  cbn [mbind outcome_bind].
  destruct (IH r1 Hwf1) as (r2 & -> & Hwf2 & Hn2 & Hc2 & Hw2).
  exists r2. split_and!; [done|done|congruence|by etrans|].
  intros key. rewrite Hw2, Hw1. destruct (decide (key = k)) as [->|Hne].
  - rewrite lookup_alter_eq, (decide_True (P:=k ∈ k :: keys)) by (by left).
    destruct (decide (k ∈ keys)); [|done]. by destruct (watches r !! k).
  - rewrite lookup_alter_ne by done. rewrite (decide_ext (key ∈ k :: keys) (key ∈ keys)); [done|].
    rewrite elem_of_cons. naive_solver.
Qed.

Lemma createWatch_step config cf nk r key :
  wf r →
  ∃ r', createWatch config cf nk r key = Ok r' ∧ wf r' ∧ (nextCh r <= nextCh r')%nat ∧
    sameReleased r r' ∧
    match resolves key with
    | None => r' = r
    | Some gvr => watches r' =
        <[key := newWatchInfo config key gvr (cf !! key) (namespacesOf nk key) (nextCh r)]> (watches r)
    end.
Proof.
  intros Hwf. unfold createWatch, resolves.
  destruct (parseKindAndAPIVersionFromKey key) as [kind apiVersion].
  destruct (getGVRFromKindAndAPIVersion kind apiVersion) as [gvr|]; [|by eexists].
  eexists. split; [done|].
  assert (StopCh (newWatchInfo config key gvr (cf !! key) (namespacesOf nk key) (nextCh r)) = nextCh r) as Hs.
  { unfold newWatchInfo. by destruct (parseKindAndAPIVersionFromKey key). }
  split_and!; [|cbn; lia|done|done]. split; cbn.
  - intros k v [[_ <-]|[_ Hk]]%lookup_insert_Some; [lia|]. apply wf_made in Hk; [lia|done].
  - intros k v [[_ <-]|[_ Hk]]%lookup_insert_Some; [|by eapply wf_open].
    rewrite Hs. intros Hc%wf_closed; [lia|done].
  - intros k k' v v' [[? <-]|[? Hk]]%lookup_insert_Some [[? <-]|[? Hk']]%lookup_insert_Some.
    + congruence.
    + apply wf_made in Hk'; [lia|done].
    + apply wf_made in Hk; [lia|done].
    + by eapply wf_own.
  - intros ch Hc%wf_closed; [lia|done].
  - by apply wf_released.
Qed.

Lemma createWatches_step config cf nk r keys :
  wf r → NoDup keys →
  ∃ r', foldRun (createWatch config cf nk) r keys = Ok r' ∧ wf r' ∧
    (nextCh r <= nextCh r')%nat ∧ sameReleased r r' ∧
    ∀ key,
      match (if decide (key ∈ keys) then resolves key else None) with
      | None => watches r' !! key = watches r !! key
      | Some gvr => ∃ ch, (nextCh r <= ch)%nat ∧ watches r' !! key =
          Some (newWatchInfo config key gvr (cf !! key) (namespacesOf nk key) ch)
      end.
Proof.
  revert r; induction keys as [|k keys IH]; intros r Hwf Hnd; cbn [foldRun].
  { eexists. split; [done|]. split_and!; [done..|]. intros key.
    rewrite decide_False by (by intros ?%not_elem_of_nil). done. }
  apply NoDup_cons in Hnd as [Hk Hnd].
  destruct (createWatch_step config cf nk r k Hwf) as (r1 & -> & Hwf1 & Hn1 & Hc1 & Hw1).
  cbn [mbind outcome_bind].
  destruct (IH r1 Hwf1 Hnd) as (r2 & -> & Hwf2 & Hn2 & Hc2 & Hw2).
  exists r2. split_and!; [done|done|lia|by etrans|].
  intros key. specialize (Hw2 key). destruct (decide (key = k)) as [->|Hne].
  - rewrite decide_True by (by left). rewrite decide_False in Hw2 by done.
    destruct (resolves k) as [gvr|]; [|congruence].
    exists (nextCh r). split; [lia|]. by rewrite Hw2, Hw1, lookup_insert_eq.
  - rewrite (decide_ext (key ∈ k :: keys) (key ∈ keys)) by (rewrite elem_of_cons; naive_solver).
    assert (watches r1 !! key = watches r !! key) as He.
    { destruct (resolves k); [by rewrite Hw1, lookup_insert_ne|congruence]. }
    destruct (if decide (key ∈ keys) then resolves key else None) as [gvr|]; [|congruence].
    destruct Hw2 as (ch & ? & ?). exists ch. split; [lia|done].
Qed.

Lemma stuckAt_none orders :
  stuckAt orders = None → Forall (λ key, stopsCleanly (stopViews orders key) = true) (stopOrder orders).
Proof.
  intros Hf. apply Forall_forall. intros key Hin%list_elem_of_In.
  pose proof (List.find_none _ _ Hf key Hin) as Hk. by apply negb_false_iff in Hk.
Qed.

(** A round that meets a watch it cannot stop. *)
Lemma generateWatches_stuck config orders cf nk r key :
  wf r → validOrders r (allKinds cf nk) orders → stuckAt orders = Some key →
  generateWatches config orders cf nk r = if races (stopViews orders key) then Panic else Err Blocks.
Proof.
  intros Hwf (Hstop & _ & _) Hk. unfold generateWatches.
  rewrite (stopWatches_stuck _ r (stopOrder orders) key Hwf); [by destruct (races _)| | |done].
  - rewrite Hstop. apply NoDup_elements.
  - intros k. rewrite Hstop, elem_of_elements. unfold findWatchesToStop.
    rewrite elem_of_difference, elem_of_dom. by intros [??].
Qed.

Lemma generateWatches_step config orders cf nk r :
  wf r → validOrders r (allKinds cf nk) orders → stuckAt orders = None →
  ∃ r', generateWatches config orders cf nk r = Ok r' ∧ wf r' ∧
    (∀ key,
      match watches r !! key with
      | Some w =>
          if decide (key ∈ allKinds cf nk)
          then watches r' !! key = Some (withFilters w (cf !! key) (namespacesOf nk key))
          else watches r' !! key = None ∧ released (stopViews orders) r' key w
      | None =>
          match (if decide (key ∈ allKinds cf nk) then resolves key else None) with
          | Some gvr => ∃ ch, (nextCh r <= ch)%nat ∧ watches r' !! key =
              Some (newWatchInfo config key gvr (cf !! key) (namespacesOf nk key) ch)
          | None => watches r' !! key = None
          end
      end) ∧
    ∀ ch, ch ∈ closedChs r' → ch ∈ closedChs r ∨
      ∃ key w, watches r !! key = Some w ∧ key ∉ allKinds cf nk ∧ StopCh w = ch.
Proof.
  intros Hwf (Hstop & Hupd & Hcre) Hclean%stuckAt_none. unfold generateWatches.
  assert (∀ key, key ∈ stopOrder orders ↔ is_Some (watches r !! key) ∧ key ∉ allKinds cf nk) as Es.
  { intros key. rewrite Hstop, elem_of_elements. unfold findWatchesToStop.
    by rewrite elem_of_difference, elem_of_dom. }
  assert (∀ key, key ∈ updateOrder orders ↔ is_Some (watches r !! key) ∧ key ∈ allKinds cf nk) as Eu.
  { intros key. rewrite Hupd, elem_of_elements. unfold findWatchesToUpdate, findWatchesToStop.
    rewrite !elem_of_difference, elem_of_intersection, elem_of_dom. tauto. }
  assert (∀ key, key ∈ createOrder orders ↔ watches r !! key = None ∧ key ∈ allKinds cf nk) as Ec.
  { intros key. rewrite Hcre, elem_of_elements. unfold findWatchesToCreate.
    rewrite elem_of_difference, not_elem_of_dom. tauto. }
  assert (NoDup (createOrder orders)) as Hnd by (rewrite Hcre; apply NoDup_elements).
  destruct (stopWatches_step _ r (stopOrder orders) Hwf Hclean)
    as (r1 & -> & Hwf1 & Hn1 & Hw1 & _ & Hrel & Hc1).
  cbn [mbind outcome_bind].
  destruct (updateWatches_step cf nk r1 (updateOrder orders) Hwf1) as (r2 & -> & Hwf2 & Hn2 & Hc2 & Hw2).
  cbn [mbind outcome_bind].
  destruct (createWatches_step config cf nk r2 (createOrder orders) Hwf2 Hnd)
    as (r3 & -> & Hwf3 & Hn3 & Hc3 & Hw3).
  assert (keepsReleased r1 r3) as Hkeep by (apply sameReleased_keeps; by etrans).
  destruct Hc2 as [Hc2 _], Hc3 as [Hc3 _].
  exists r3. split_and!; [done|done| |].
  - intros key. specialize (Hw3 key). rewrite Hw2, Hw1 in Hw3. specialize (Es key).
    specialize (Eu key). specialize (Ec key).
    destruct (watches r !! key) as [w|] eqn:Hkey.
    + rewrite (decide_False (P:=key ∈ createOrder orders)) in Hw3 by naive_solver.
      destruct (decide (key ∈ allKinds cf nk)).
      * rewrite decide_True, decide_False in Hw3 by naive_solver. done.
      * rewrite decide_False, decide_True in Hw3 by naive_solver. split; [done|].
        eapply released_later; [apply (Hrel key w); naive_solver|done].
    + assert ((if decide (key ∈ updateOrder orders)
        then (λ w, withFilters w (cf !! key) (namespacesOf nk key)) <$>
             (if decide (key ∈ stopOrder orders) then None else None)
        else if decide (key ∈ stopOrder orders) then None else None) = None (A:=WatchInfo)) as Hnone.
      { by repeat case_decide. }
      rewrite Hnone in Hw3.
      rewrite (decide_ext (key ∈ createOrder orders) (key ∈ allKinds cf nk)) in Hw3 by naive_solver.
      destruct (if decide (key ∈ allKinds cf nk) then resolves key else None); [|done].
      by rewrite Hn2, Hn1 in Hw3.
  - intros ch. rewrite Hc3, Hc2. intros [?|(key & w & Hin & ? & ?)]%Hc1; [by left|].
    right. exists key, w. apply Es in Hin. naive_solver.
Qed.

Lemma sameFilters_refl w : sameFilters w w.
Proof. by split_and!. Qed.

Lemma sameFilters_trans w1 w2 w3 : sameFilters w1 w2 → sameFilters w2 w3 → sameFilters w1 w3.
Proof. unfold sameFilters. intuition congruence. Qed.

Lemma receiveEvent_spec w e :
  sameFilters w (receiveEvent w e).1 ∧
  (receiveEvent w e).2 = negb (bool_decide (Type_ e = ErrorType)) ∧
  Queue (receiveEvent w e).1 = Queue w ++ (if decide (Type_ e = ErrorType) then [] else [e]).
Proof.
  unfold receiveEvent. destruct (decide (Type_ e = ErrorType)) as [He|He].
  - rewrite bool_decide_eq_true_2 by done. cbn. rewrite app_nil_r.
    by destruct (shouldClearResourceVersion e).
  - rewrite bool_decide_eq_false_2 by done. destruct (Object e) as [o| |]; cbn; try done.
    by destruct (String.eqb (GetResourceVersion o) "").
Qed.

Lemma processWatchEvents_reference w sel :
  let '(w', ended) := processWatchEvents w sel in
  sameFilters w w' ∧ WatchInterface w' = WatchInterface w ∧ ended = loopEnds sel ∧
  Queue w' = Queue w ++ queuedEvents sel ∧ ResourceVersion w' = resumeVersion (ResourceVersion w) sel.
Proof.
  revert w; induction sel as [|[| |e] sel IH]; intros w; cbn [processWatchEvents].
  1-3: rewrite app_nil_r; split_and!; by try apply sameFilters_refl.
  cbn [queuedEvents resumeVersion loopEnds]. unfold receiveEvent.
  destruct (decide (Type_ e = ErrorType)) as [He|He].
  { rewrite app_nil_r. by destruct (shouldClearResourceVersion e). }
  set (w1 := enqueue _ e). specialize (IH w1).
  destruct (processWatchEvents w1 sel) as [w2 ended].
  destruct IH as (Hf & Hi & -> & Hq & Hrv). rewrite Hq, Hrv.
  assert (sameFilters w w1 ∧ WatchInterface w1 = WatchInterface w ∧ Queue w1 = Queue w ++ [e] ∧
    ResourceVersion w1 =
      match Object e with
      | ObjUnstructured o =>
          if String.eqb (GetResourceVersion o) "" then ResourceVersion w else GetResourceVersion o
      | _ => ResourceVersion w
      end) as (Hf1 & Hi1 & Hq1 & Hrv1).
  { unfold w1. destruct (Object e) as [o| |]; try done.
    by destruct (String.eqb (GetResourceVersion o) ""). }
  rewrite Hq1, Hrv1, <-app_assoc. split_and!; [|congruence|done..].
  by eapply sameFilters_trans.
Qed.

Lemma watchLoop_step_filters s s' :
  watchLoop_step s s' → sameFilters (info s) (info s') ∧ Queue (info s) `prefix_of` Queue (info s').
Proof.
  intros [| | | | | |s0 sel w _ Hp]; cbn; try by split.
  pose proof (processWatchEvents_reference (info s0) sel) as Hr. rewrite Hp in Hr.
  destruct Hr as (Hf & _ & _ & Hq & _). split; [done|]. rewrite Hq. by eexists.
Qed.

Lemma nextBackoff_bounds b :
  (initialBackoff <= b <= maxBackoff)%Z →
  (b <= nextBackoff b)%Z ∧ (initialBackoff <= nextBackoff b <= maxBackoff)%Z.
Proof.
  unfold nextBackoff, initialBackoff, maxBackoff, second. intros Hb.
  pose proof (Z.div_le_lower_bound (b * 3) 2 b ltac:(lia) ltac:(lia)).
  destruct (Z.ltb_spec (300 * 1000000000) (b * 3 / 2)); lia.
Qed.

Lemma wf_setInfo r key w w' :
  wf r → watches r !! key = Some w → StopCh w' = StopCh w →
  wf (setWatches r (<[key := w']> (watches r))).
Proof.
  intros Hwf Hw Hs.
  assert (∀ k v, <[key:=w']> (watches r) !! k = Some v →
    ∃ v', watches r !! k = Some v' ∧ StopCh v' = StopCh v) as Hl.
  { intros k v [[<- <-]|[? ?]]%lookup_insert_Some; [by exists w|eauto]. }
  split; cbn.
  - intros k v (v' & ? & <-)%Hl. by eapply wf_made.
  - intros k v (v' & ? & <-)%Hl. by eapply wf_open.
  - intros k k' v v' (u & ? & <-)%Hl (u' & ? & <-)%Hl. by eapply wf_own.
  - by apply wf_closed.
  - by apply wf_released.
Qed.

Lemma wf_initial : wf initialReconciler.
Proof. split; cbn; [intros *; rewrite ?lookup_empty; done..|done]. Qed.

Lemma reconciler_step_wf config r r' : wf r → reconciler_step config r r' → wf r'.
Proof.
  intros Hwf Hs. destruct Hs as [r r' orders cf nk Ho Hg|r key w ph b s' Hw Hs].
  - destruct (stuckAt orders) as [key|] eqn:Hs.
    { rewrite (generateWatches_stuck config orders cf nk r key Hwf Ho Hs) in Hg. by destruct (races _). }
    destruct (generateWatches_step config orders cf nk r Hwf Ho Hs) as (r2 & Hr2 & ? & _). congruence.
  - eapply wf_setInfo; [done..|].
    apply watchLoop_step_filters in Hs as [(_ & _ & _ & _ & Hst & _) _]. exact Hst.
Qed.

Lemma reachable_wf config r :
  rtc (reconciler_step config) initialReconciler r → wf r.
Proof.
  intros Hr. cut (∀ r0, rtc (reconciler_step config) r0 r → wf r0 → wf r).
  { intros Hall. by apply (Hall initialReconciler), wf_initial. }
  clear Hr. intros r0 Hr. induction Hr; intros Hwf; [done|]. by eapply IHHr, reconciler_step_wf.
Qed.

Lemma sendCloudEvent_type source ty o w ev err :
  sendCloudEvent (Some source) ty o w = Ok (Some ev, err) →
  ce_Source ev = source ∧ ce_Type ev = "org.kubearchive.sinkfilters.resource." +:+ ty.
Proof.
  unfold sendCloudEvent, Send. cbv zeta. set (obj := (if _ && _ then _ else _) : O).
  destruct (SetData obj); [|done]. cbn [mbind outcome_bind].
  destruct (ObjectAPIVersion obj); [|done]. destruct (ObjectKind obj); [|done].
  destruct (HasMetadata obj); [|done]. cbn [mbind outcome_bind].
  destruct (DeliveryResult _); intros [= <- _]; done.
Qed.


(** Reading a watch: the queue gains exactly the events up to the first
    stop, end of the stream or error event, in order; the version to resume from
    is the last one seen and is cleared by a Gone error, so the next watch starts
    over; nothing else of the watch changes. *)
Theorem processWatchEvents_spec (w : WatchInfo) (sel : list WatchSelect) :
  (processWatchEvents w sel).2 = loopEnds sel ∧
  Queue (processWatchEvents w sel).1 = Queue w ++ queuedEvents sel ∧
  ResourceVersion (processWatchEvents w sel).1 = resumeVersion (ResourceVersion w) sel ∧
  sameFilters w (processWatchEvents w sel).1.
Proof.
  pose proof (processWatchEvents_reference w sel) as Hr.
  destruct (processWatchEvents w sel) as [w' ended].
  by destruct Hr as (? & _ & ? & ? & ?).
Qed.

(** In every state of a connection loop the backoff is between one second
    and five minutes; while waiting it only grows; the loop never touches the
    filters, the channel or the workers of its watch and never takes an event
    off its queue. *)
Theorem watchLoop_backoff (w : WatchInfo) (s : LoopState) :
  rtc watchLoop_step (startLoop w) s →
  (initialBackoff <= backoff s <= maxBackoff)%Z ∧
  sameFilters w (info s) ∧ Queue w `prefix_of` Queue (info s) ∧
  ∀ s', watchLoop_step s s' → phase s' ≠ Watching → (backoff s <= backoff s')%Z.
Proof.
  intros Hr.
  assert (∀ s0, rtc watchLoop_step s0 s → (initialBackoff <= backoff s0 <= maxBackoff)%Z →
    (initialBackoff <= backoff s <= maxBackoff)%Z ∧
    sameFilters (info s0) (info s) ∧ Queue (info s0) `prefix_of` Queue (info s)) as Hinv.
  { clear Hr. intros s0 Hr. induction Hr as [s|s1 s2 s3 Hs Hr IH]; intros Hb; [done|].
    apply watchLoop_step_filters in Hs as Hf. destruct Hf as [Hf Hq].
    destruct IH as (? & Hf' & Hq').
    - destruct Hs; cbn; try done. by apply nextBackoff_bounds.
    - split; [done|]. split; [by eapply sameFilters_trans|by etrans]. }
  destruct (Hinv _ Hr) as (Hb & Hf & Hq); [done|]. split_and!; [apply Hb|apply Hb|done|done|].
  intros s' Hs Hph. destruct Hs; cbn in *; try done. by apply nextBackoff_bounds.
Qed.

(** A round trip of the keys of watches: a kind and an API version are read
    back from their key exactly when the kind holds no dash, whatever dashes the
    API version holds. *)
Theorem parseKey_roundtrip (avk : APIVersionKind) :
  parseKindAndAPIVersionFromKey (Key avk) = (Kind avk, APIVersion avk) ↔
  ContainsByte (Kind avk) "-"%char = false.
Proof.
  destruct avk as [k v]. rewrite Key_parts. cbn [Kind APIVersion].
  unfold parseKindAndAPIVersionFromKey. split.
  - intros He. destruct (Split "-"%char (k +:+ String "-" v)) as [|p [|q qs]] eqn:Es.
    + by destruct (Split_nonempty "-"%char (k +:+ String "-" v)).
    + injection He as <- <-. done.
    + injection He as -> _. apply (Split_parts_free "-"%char (k +:+ String "-" v)).
      rewrite Es. by left.
  - intros Hk. rewrite Split_app by done.
    destruct (Split "-"%char v) as [|q qs] eqn:Es; [by destruct (Split_nonempty "-"%char v)|].
    by rewrite <-Es, Join_Split.
Qed.

(** The event carries the object, which can be encoded. *)
Lemma sendCloudEvent_data source ty o w ev err :
  sendCloudEvent (Some source) ty o w = Ok (Some ev, err) →
  SetData (ce_Data ev) = true ∧
  (ObjectAPIVersionNil o = false → ObjectKindNil o = false → ce_Data ev = o).
Proof.
  unfold sendCloudEvent, Send. cbv zeta. set (obj := (if _ && _ then _ else _) : O).
  destruct (SetData obj) eqn:Henc; [|done]. cbn [mbind outcome_bind].
  destruct (ObjectAPIVersion obj); [|done]. destruct (ObjectKind obj); [|done].
  destruct (HasMetadata obj); [|done]. cbn [mbind outcome_bind]. intros He.
  assert (ce_Data ev = obj) as -> by (by destruct (DeliveryResult _); injection He as <- _).
  split; [done|]. intros Hv Hk. unfold obj. by rewrite Hv, Hk.
Qed.

Lemma handleWatchEvent_data source event w ev err :
  handleWatchEvent (Some source) event w = Ok (Some ev, err) →
  ∃ o, Object event = ObjUnstructured o ∧ SetData (ce_Data ev) = true ∧
    (ObjectAPIVersionNil o = false → ObjectKindNil o = false → ce_Data ev = o).
Proof.
  unfold handleWatchEvent. destruct (Object event) as [o| |]; [|done..]. intros He. exists o.
  split; [done|]. destruct (ClusterCel w), (WatchNamespaces w !! GetNamespace o); try done;
    (destruct (Type_ event); try done);
    repeat (destruct (anyHolds _ _ _ _); [by apply sendCloudEvent_data in He|]); done.
Qed.

(** What a worker sends: nothing for an object outside the watched
    namespaces when no cluster filter is set; otherwise at most one event, of the
    type the first expression that holds asks for, deletion before archival for
    an added or modified object, archival for a deleted one. *)
Theorem handleWatchEvent_sends (source : string) (event : WatchEvent O) (w : WatchInfo) ev err :
  handleWatchEvent (Some source) event w = Ok (Some ev, err) →
  ∃ o, Object event = ObjUnstructured o ∧
    let ns := WatchNamespaces w !! GetNamespace o in
    (is_Some (ClusterCel w) ∨ is_Some ns) ∧
    ce_Source ev = source ∧
    ((ce_Type ev = "org.kubearchive.sinkfilters.resource.delete-when" ∧
      (Type_ event = Added ∨ Type_ event = Modified) ∧ anyHolds DeleteWhen (ClusterCel w) ns o = true) ∨
     (ce_Type ev = "org.kubearchive.sinkfilters.resource.archive-when" ∧
      (Type_ event = Added ∨ Type_ event = Modified) ∧
      anyHolds DeleteWhen (ClusterCel w) ns o = false ∧ anyHolds ArchiveWhen (ClusterCel w) ns o = true) ∨
     (ce_Type ev = "org.kubearchive.sinkfilters.resource.archive-on-delete" ∧
      Type_ event = Deleted ∧ anyHolds ArchiveOnDelete (ClusterCel w) ns o = true)).
Proof.
  unfold handleWatchEvent. destruct (Object event) as [o| |]; [|done..].
  set (ns := WatchNamespaces w !! GetNamespace o). intros He. exists o. split; [done|].
  cbv zeta. assert (is_Some (ClusterCel w) ∨ is_Some ns) as Hex.
  { destruct (ClusterCel w), ns; eauto; done. }
  split; [done|].
  assert (∀ ty, sendCloudEvent (Some source) ty o w = Ok (Some ev, err) →
    ce_Source ev = source ∧ ce_Type ev = "org.kubearchive.sinkfilters.resource." +:+ ty) as Hsend.
  { intros ty. apply sendCloudEvent_type. }
  assert (match Type_ event with
          | Added | Modified =>
              if anyHolds DeleteWhen (ClusterCel w) ns o
              then sendCloudEvent (Some source) "delete-when" o w
              else if anyHolds ArchiveWhen (ClusterCel w) ns o
              then sendCloudEvent (Some source) "archive-when" o w else Ok (None, None)
          | Deleted =>
              if anyHolds ArchiveOnDelete (ClusterCel w) ns o
              then sendCloudEvent (Some source) "archive-on-delete" o w else Ok (None, None)
          | _ => Ok (None, None)
          end = Ok (Some ev, err)) as He'.
  { by destruct (ClusterCel w), ns. }
  clear He. destruct (Type_ event); try done.
  3: destruct (anyHolds ArchiveOnDelete (ClusterCel w) ns o) eqn:E1; [|done].
  1,2: destruct (anyHolds DeleteWhen (ClusterCel w) ns o) eqn:E1;
    [|destruct (anyHolds ArchiveWhen (ClusterCel w) ns o) eqn:E2; [|done]].
  all: apply Hsend in He' as [-> ->]; split; [done|].
  1,3: left; split_and!; [reflexivity|auto|done].
  1,2: right; left; split_and!; [reflexivity|auto|done|done].
  right; right. by split_and!.
Qed.

(** With an empty configuration, as when the configuration file is
    missing, every watch a round creates has no worker: its events are queued and
    never sent. *)
Theorem no_configuration_no_workers config orders
    (clusterFilters : gmap string (CelExpressions (O:=O)))
    (namespacesByKinds : gmap string (gmap string (CelExpressions (O:=O)))) r key w :
  LoadConfiguration (λ _, None) FileMissing = Ok config →
  watches r !! key = None → rtc (reconciler_step config) initialReconciler r →
  validOrders r (allKinds clusterFilters namespacesByKinds) orders →
  (watches <$> generateWatches config orders clusterFilters namespacesByKinds r) ≫= (λ ws, Ok (ws !! key))
    = Ok (Some w) → WorkerWg w = 0%nat.
Proof.
  intros [= <-] Hk Hr Ho. apply reachable_wf in Hr. destruct (stuckAt orders) as [k|] eqn:Hs.
  { rewrite (generateWatches_stuck _ _ _ _ _ k Hr Ho Hs). by destruct (races _). }
  destruct (generateWatches_step emptyConfiguration orders clusterFilters namespacesByKinds r Hr Ho Hs)
    as (r' & -> & _ & Hw & _).
  specialize (Hw key). rewrite Hk in Hw. cbn. intros [= Hw']. rewrite Hw' in Hw.
  destruct (if decide _ then resolves key else None) as [gvr|]; [|done].
  destruct Hw as (ch & _ & [= ->]). unfold newWatchInfo.
  by destruct (parseKindAndAPIVersionFromKey key).
Qed.

End watchmanager.

(** ** Witnesses: one kind selected in one namespace *)
#[local] Instance sample_event_client : CloudEventClient sample := {| DeliveryResult := λ _, ACK |}.

Definition sampleCel : CelExpressions (O:=sample) :=
  {| ArchiveWhen := CompileCELExpression "true"; DeleteWhen := CompileCELExpression "done";
     ArchiveOnDelete := None; KeepLastWhen := [] |}.

Definition sampleFilters : gmap string (gmap string (CelExpressions (O:=sample))) :=
  {["Pod-v1" := {["ns" := sampleCel]}]}.

Definition noCluster : gmap string (CelExpressions (O:=sample)) := ∅.

Definition sampleOrders : Orders :=
  {| stopOrder := []; updateOrder := []; createOrder := ["Pod-v1"];
     stopViews := λ _, {| checkSees := false; callSees := false; workersReturn := true |} |}.

Definition sampleWatch : WatchInfo (O:=sample) :=
  newWatchInfo emptyConfiguration "Pod-v1" {| Group := ""; Version := "v1"; Resource := "Pod" |}
    None {["ns" := sampleCel]} 0.

Definition sampleEvent : WatchEvent sample :=
  {| Type_ := Modified; Object := ObjUnstructured (sample_at "a" 1 ["done"]) |}.

Lemma sample_valid_orders :
  validOrders (O:=sample) initialReconciler (allKinds noCluster sampleFilters) sampleOrders.
Proof. split_and!; apply (bool_decide_unpack _); vm_compute; reflexivity. Qed.

(** The kind is watched, and then not wanted any more. *)
Definition running : SinkFilterReconciler (O:=sample) :=
  match generateWatches emptyConfiguration sampleOrders noCluster sampleFilters initialReconciler with
  | Ok r => r
  | _ => initialReconciler
  end.

Definition stopOrders (view : StopView) : Orders :=
  {| stopOrder := ["Pod-v1"]; updateOrder := []; createOrder := []; stopViews := λ _, view |}.

Lemma running_reachable : rtc (reconciler_step emptyConfiguration) initialReconciler running.
Proof.
  apply rtc_once. apply (step_generate _ _ _ sampleOrders noCluster sampleFilters).
  - apply sample_valid_orders.
  - vm_compute. reflexivity.
Qed.

Lemma stop_valid_orders view :
  validOrders (O:=sample) running (allKinds noCluster ∅) (stopOrders view).
Proof. split_and!; apply (bool_decide_unpack _); vm_compute; reflexivity. Qed.


Lemma watchLoop_backoff_witness :
  (initialBackoff <= nextBackoff initialBackoff <= maxBackoff)%Z ∧
  sameFilters sampleWatch (withInterface sampleWatch false) ∧
  Queue sampleWatch `prefix_of` Queue (withInterface sampleWatch false) ∧
  ∀ s', watchLoop_step {| phase := Checking; backoff := nextBackoff initialBackoff;
                          info := withInterface sampleWatch false |} s' →
    phase s' ≠ Watching → (nextBackoff initialBackoff <= backoff s')%Z.
Proof.
  apply (watchLoop_backoff sampleWatch
    {| phase := Checking; backoff := nextBackoff initialBackoff;
       info := withInterface sampleWatch false |}).
  eapply rtc_l; [apply step_default; reflexivity|].
  eapply rtc_l; [apply step_connect_error; reflexivity|].
  eapply rtc_l; [apply step_timer; reflexivity|]. apply rtc_refl.
Defined.

Lemma handleWatchEvent_sends_witness :
  ∃ ev, handleWatchEvent (Some "src") sampleEvent sampleWatch = Ok (Some ev, None) ∧
  ∃ o, Object sampleEvent = ObjUnstructured o ∧
    let ns := WatchNamespaces sampleWatch !! GetNamespace o in
    (is_Some (ClusterCel sampleWatch) ∨ is_Some ns) ∧
    ce_Source ev = "src" ∧
    ((ce_Type ev = "org.kubearchive.sinkfilters.resource.delete-when" ∧
      (Type_ sampleEvent = Added ∨ Type_ sampleEvent = Modified) ∧
      anyHolds DeleteWhen (ClusterCel sampleWatch) ns o = true) ∨
     (ce_Type ev = "org.kubearchive.sinkfilters.resource.archive-when" ∧
      (Type_ sampleEvent = Added ∨ Type_ sampleEvent = Modified) ∧
      anyHolds DeleteWhen (ClusterCel sampleWatch) ns o = false ∧
      anyHolds ArchiveWhen (ClusterCel sampleWatch) ns o = true) ∨
     (ce_Type ev = "org.kubearchive.sinkfilters.resource.archive-on-delete" ∧
      Type_ sampleEvent = Deleted ∧
      anyHolds ArchiveOnDelete (ClusterCel sampleWatch) ns o = true)).
Proof.
  eexists. split; [vm_compute; reflexivity|].
  eapply (handleWatchEvent_sends "src" sampleEvent sampleWatch). vm_compute. reflexivity.
Defined.

Lemma no_configuration_no_workers_witness :
  ∃ w, (watches <$> generateWatches (O:=sample) emptyConfiguration sampleOrders noCluster sampleFilters
          initialReconciler) ≫= (λ ws, Ok (ws !! "Pod-v1")) = Ok (Some w) ∧ WorkerWg w = 0%nat.
Proof.
  eexists. split; [vm_compute; reflexivity|].
  eapply (no_configuration_no_workers emptyConfiguration sampleOrders noCluster sampleFilters
    initialReconciler "Pod-v1").
  - reflexivity.
  - reflexivity.
  - apply rtc_refl.
  - apply sample_valid_orders.
  - vm_compute. reflexivity.
Defined.
