(* ===== verification/Rbac.v ===== *)
(** * [cmd/operator/internal/controller/common.go]: roles and subjects

    Policy rules and subjects as the operator builds, compares and merges
    them.  Results of iterating over a Go map come in the order of [range]. *)
From S2P Require Import Prelude GoLib Api.

Record PolicyRule := {
  APIGroups : list string; Resources : list string; Verbs : list string;
  ResourceNames : list string; NonResourceURLs : list string;
}.
Record Subject := {
  sub_Kind : string; sub_APIGroup : string; sub_Name : string; sub_Namespace : string;
}.
Record RoleRef := { ref_APIGroup : string; ref_Kind : string; ref_Name : string }.

#[export] Instance PolicyRule_eq_dec : EqDecision PolicyRule.
Proof. solve_decision. Defined.
#[export] Instance Subject_eq_dec : EqDecision Subject.
Proof. solve_decision. Defined.
#[export] Instance RoleRef_eq_dec : EqDecision RoleRef.
Proof. solve_decision. Defined.

Record ClusterRole := { cr_Name : string; cr_Rules : list PolicyRule }.
Record ClusterRoleBinding := {
  crb_Name : string; crb_RoleRef : RoleRef; crb_Subjects : list Subject;
}.

Section rbac.
  Context `{!RESTMapper, !MapRange}.

Definition desiredClusterRole (name : string) (rules : list PolicyRule) : ClusterRole :=
  {| cr_Name := name; cr_Rules := rules |}.

Definition desiredClusterRoleBinding (name kind : string) (subjects : list Subject)
    : ClusterRoleBinding :=
  {| crb_Name := name;
     crb_RoleRef := {| ref_APIGroup := "rbac.authorization.k8s.io"; ref_Kind := kind; ref_Name := name |};
     crb_Subjects := subjects |}.

(** The group and version of an API version, as [strings.Split] gives them. *)
Definition groupVersion (apiVersion : string) : string * string :=
  match Split "/"%char apiVersion with
  | g :: v :: _ => (g, v)
  | _ => ("", apiVersion)
  end.

(** The resource name a selector is mapped to, lower case. *)
Definition pluralOf (resource : APIVersionKind) : option (string * string) :=
  let '(apiGroup, apiVersion) := groupVersion (APIVersion resource) in
  gvr ← RESTMapping apiGroup (Kind resource) apiVersion;
  Some (apiGroup, ToLower (Resource gvr)).

Definition addToGroups (groups : gmap string (list string)) (resource : APIVersionKind)
    : gmap string (list string) :=
  match pluralOf resource with
  | Some (apiGroup, plural) => <[apiGroup := default [] (groups !! apiGroup) ++ [plural]]> groups
  | None => groups
  end.

Definition createPolicyRules (resources : list APIVersionKind) (verbs : list string)
    : list PolicyRule :=
  map (λ '(group, resList), {| APIGroups := [group]; Resources := resList; Verbs := verbs;
                              ResourceNames := []; NonResourceURLs := [] |})
    (range (map_to_list (foldl addToGroups ∅ resources))).

Definition comparePolicyRules (a b : PolicyRule) : Z :=
  let cmp := CompareSlices (APIGroups a) (APIGroups b) in
  if negb (cmp =? 0)%Z then cmp
  else
    let cmp := CompareSlices (Resources a) (Resources b) in
    if negb (cmp =? 0)%Z then cmp else CompareSlices (Verbs a) (Verbs b).

Definition sortInner (r : PolicyRule) : PolicyRule :=
  {| APIGroups := SortStrings (APIGroups r); Resources := SortStrings (Resources r);
     Verbs := SortStrings (Verbs r); ResourceNames := ResourceNames r;
     NonResourceURLs := NonResourceURLs r |}.

Definition rule_le (a b : PolicyRule) : Prop := (comparePolicyRules a b <= 0)%Z.

#[export] Instance rule_le_dec : RelDecision rule_le.
Proof. intros a b. unfold rule_le. apply Z_le_dec. Defined.

(** [slices.SortFunc(_, comparePolicyRules)]; rules that compare equal may come in any
    order, and are the same to what follows. *)
Definition sortRules (l : list PolicyRule) : list PolicyRule :=
  merge_sort rule_le l.

Definition sameRule (a b : PolicyRule) : bool :=
  bool_decide (APIGroups a = APIGroups b) && bool_decide (Resources a = Resources b)
  && bool_decide (Verbs a = Verbs b).

Definition equalPolicyRules (a b : list PolicyRule) : bool :=
  if negb (length a =? length b)%nat then false
  else
    let aCopy := sortRules (map sortInner a) in
    let bCopy := sortRules (map sortInner b) in
    forallb (λ '(x, y), sameRule x y) (zip aCopy bCopy).

(** What the slices of the caller hold after a call: the copies share the slices of
    names of each rule, which are sorted in place. *)
Definition sortedInPlace (a b : list PolicyRule) : list PolicyRule * list PolicyRule :=
  if negb (length a =? length b)%nat then (a, b) else (map sortInner a, map sortInner b).

Definition removeSubjects (subjects removals : list Subject) : list Subject :=
  filter (λ s, s ∉ removals) subjects.

Definition mergeSubjects (s1 s2 : list Subject) : list Subject :=
  range (remove_dups (s1 ++ s2)).

Definition newSubject (namespace name : string) : Subject :=
  {| sub_Kind := "ServiceAccount"; sub_APIGroup := ""; sub_Name := name;
     sub_Namespace := namespace |}.

(** ** What a list of rules grants: a verb on all the objects of a resource.  A rule with
    resource names is for the objects of those names only. *)
Definition grants (rules : list PolicyRule) (group resource verb : string) : Prop :=
  ∃ r, r ∈ rules ∧ group ∈ APIGroups r ∧ resource ∈ Resources r ∧ verb ∈ Verbs r ∧
    ResourceNames r = [].

(** A rule with other resource names and URLs. *)
Definition withNames (names urls : list string) (r : PolicyRule) : PolicyRule :=
  {| APIGroups := APIGroups r; Resources := Resources r; Verbs := Verbs r;
     ResourceNames := names; NonResourceURLs := urls |}.

(** What is compared of a rule. *)
Definition compared : PolicyRule → PolicyRule := withNames [] [].

Lemma comparePolicyRules_eq a b : comparePolicyRules a b = 0%Z ↔ compared a = compared b.
Proof.
  unfold comparePolicyRules. destruct a as [ga ra va ? ?], b as [gb rb vb ? ?]. cbn.
  destruct (Z.eqb_spec (CompareSlices ga gb) 0) as [E1|N1]; cbn.
  - apply CompareSlices_eq in E1 as ->.
    destruct (Z.eqb_spec (CompareSlices ra rb) 0) as [E2|N2]; cbn.
    + apply CompareSlices_eq in E2 as ->. rewrite CompareSlices_eq. naive_solver.
    + split; [done|]. intros [= -> ->]. by destruct N2; apply CompareSlices_eq.
  - split; [done|]. intros [= -> -> ->]. by destruct N1; apply CompareSlices_eq.
Qed.

Lemma comparePolicyRules_opp a b : comparePolicyRules b a = (- comparePolicyRules a b)%Z.
Proof.
  unfold comparePolicyRules.
  rewrite (CompareSlices_opp (APIGroups a)), (CompareSlices_opp (Resources a)),
    (CompareSlices_opp (Verbs a)).
  destruct (Z.eqb_spec (CompareSlices (APIGroups a) (APIGroups b)) 0) as [->|N1]; cbn.
  - destruct (Z.eqb_spec (CompareSlices (Resources a) (Resources b)) 0) as [->|N2]; cbn; [done|].
    by rewrite (proj2 (Z.eqb_neq (- CompareSlices (Resources a) (Resources b)) 0)) by lia.
  - by rewrite (proj2 (Z.eqb_neq (- CompareSlices (APIGroups a) (APIGroups b)) 0)) by lia.
Qed.

(** Lexicographic composition of two comparisons is transitive. *)
Lemma lex_trans (a b c a' b' c' : Z) :
  (a <= 0)%Z → (b <= 0)%Z → (a = 0 → b = 0 → c = 0)%Z → (a ≠ 0 ∨ b ≠ 0 → c < 0)%Z →
  (a = 0 → a' <= 0)%Z → (b = 0 → b' <= 0)%Z → (a' <= 0 → b' <= 0 → c' <= 0)%Z →
  ((if negb (c =? 0) then c else c') <= 0)%Z.
Proof.
  intros. destruct (Z.eqb_spec c 0) as [E|N]; cbn; [|lia].
  destruct (Z.eq_dec a 0), (Z.eq_dec b 0); try lia; auto.
Qed.

Lemma CompareSlices_trans_parts s1 s2 s3 :
  (CompareSlices s1 s2 <= 0)%Z → (CompareSlices s2 s3 <= 0)%Z →
  (CompareSlices s1 s2 = 0 → CompareSlices s2 s3 = 0 → CompareSlices s1 s3 = 0)%Z ∧
  (CompareSlices s1 s2 ≠ 0 ∨ CompareSlices s2 s3 ≠ 0 → CompareSlices s1 s3 < 0)%Z.
Proof.
  intros H12 H23. pose proof (CompareSlices_trans _ _ _ H12 H23) as H13. split.
  - rewrite !CompareSlices_eq. congruence.
  - intros Hne. destruct (Z.eq_dec (CompareSlices s1 s3) 0) as [E|]; [|lia].
    apply CompareSlices_eq in E as ->. pose proof (CompareSlices_opp s3 s2). lia.
Qed.

#[export] Instance comparePolicyRules_trans :
  Transitive rule_le.
Proof.
  intros a b c. unfold rule_le, comparePolicyRules.
  set (x1 := CompareSlices (APIGroups a) (APIGroups b)).
  set (x2 := CompareSlices (APIGroups b) (APIGroups c)).
  set (y1 := CompareSlices (Resources a) (Resources b)).
  set (y2 := CompareSlices (Resources b) (Resources c)).
  intros H1 H2.
  assert (x1 <= 0 ∧ x2 <= 0)%Z as [Hx1 Hx2].
  { destruct (Z.eqb_spec x1 0), (Z.eqb_spec x2 0); cbn in H1, H2; lia. }
  destruct (CompareSlices_trans_parts _ _ _ Hx1 Hx2) as [Hx Hx'].
  apply (lex_trans x1 x2 _
    (if negb (y1 =? 0)%Z then y1 else CompareSlices (Verbs a) (Verbs b))
    (if negb (y2 =? 0)%Z then y2 else CompareSlices (Verbs b) (Verbs c))); [done..| | |].
  - intros E. by rewrite E in H1.
  - intros E. by rewrite E in H2.
  - clear H1 H2. intros H1 H2. assert (y1 <= 0 ∧ y2 <= 0)%Z as [Hy1 Hy2].
    { destruct (Z.eqb_spec y1 0), (Z.eqb_spec y2 0); cbn in H1, H2; lia. }
    destruct (CompareSlices_trans_parts _ _ _ Hy1 Hy2) as [Hy Hy'].
    apply (lex_trans y1 y2 _ (CompareSlices (Verbs a) (Verbs b))
             (CompareSlices (Verbs b) (Verbs c))); [done..| | |].
    + intros E. by rewrite E in H1.
    + intros E. by rewrite E in H2.
    + apply CompareSlices_trans.
Qed.

#[export] Instance comparePolicyRules_total :
  Total rule_le.
Proof. intros a b. unfold rule_le. rewrite (comparePolicyRules_opp a b). lia. Qed.

Lemma sortRules_perm l : sortRules l ≡ₚ l.
Proof. apply merge_sort_Permutation. Qed.

(** The order of what is compared is the same for all the ways to sort. *)
Lemma sortRules_compared l1 l2 :
  map compared l1 ≡ₚ map compared l2 → map compared (sortRules l1) = map compared (sortRules l2).
Proof.
  intros Hp. assert (∀ l, StronglySorted rule_le (map compared (sortRules l))) as Hs.
  { intros l. apply (StronglySorted_fmap compared rule_le rule_le); [done|].
    apply (StronglySorted_merge_sort rule_le). }
  apply (StronglySorted_unique_strong rule_le); [|apply Hs..|].
  - intros x1 x2 (y1 & -> & _)%list_elem_of_fmap (y2 & -> & _)%list_elem_of_fmap H1 H2.
    unfold rule_le in H1, H2. rewrite (comparePolicyRules_opp (compared y1)) in H2.
    apply (comparePolicyRules_eq (compared y1) (compared y2)). lia.
  - change (compared <$> sortRules l1 ≡ₚ compared <$> sortRules l2). by rewrite !sortRules_perm.
Qed.

Lemma sameRule_eq a b : sameRule a b = true ↔ compared a = compared b.
Proof.
  unfold sameRule. rewrite !andb_true_iff, !bool_decide_eq_true.
  destruct a, b; cbn. split; [by intros [[-> ->] ->]|by intros [= -> -> ->]].
Qed.

Lemma forallb_zip_eq (l1 l2 : list PolicyRule) :
  length l1 = length l2 →
  forallb (λ '(x, y), sameRule x y) (zip l1 l2) = true ↔ map compared l1 = map compared l2.
Proof.
  revert l2; induction l1 as [|a l1 IH]; intros [|b l2] Hl; try done.
  cbn in Hl. injection Hl as Hl. cbn. rewrite andb_true_iff, sameRule_eq.
  unfold zip in IH. rewrite (IH l2 Hl). split; [by intros [-> ->]|].
  intros He. by apply (inj2 cons) in He.
Qed.

(** A rule as it is compared: its three lists of names, each sorted. *)
Definition ruleKey (r : PolicyRule) : PolicyRule := compared (sortInner r).

Lemma map_ruleKey l : map compared (map sortInner l) = map ruleKey l.
Proof. by rewrite map_map. Qed.

Lemma equalPolicyRules_perm a b :
  equalPolicyRules a b = true ↔ map ruleKey a ≡ₚ map ruleKey b.
Proof.
  unfold equalPolicyRules. rewrite <-!map_ruleKey.
  destruct (Nat.eqb_spec (length a) (length b)) as [Hl|Hl]; cbn [negb].
  - rewrite forallb_zip_eq.
    + split; [|apply sortRules_compared]. intros He.
      change (compared <$> map sortInner a ≡ₚ compared <$> map sortInner b).
      rewrite <-(sortRules_perm (map sortInner a)), <-(sortRules_perm (map sortInner b)).
      change (map compared (sortRules (map sortInner a)) ≡ₚ map compared (sortRules (map sortInner b))).
      by rewrite He.
    + by rewrite !(Permutation_length (sortRules_perm _)), !length_map.
  - split; [done|]. intros Hp%Permutation_length. by rewrite !length_map in Hp.
Qed.

(** Rules that are for all the objects. *)
Definition unnamed (l : list PolicyRule) : Prop := Forall (λ r, ResourceNames r = []) l.

Lemma grants_ruleKey l g r v : unnamed l → grants (map ruleKey l) g r v ↔ grants l g r v.
Proof.
  intros Hl. unfold unnamed in Hl. rewrite Forall_forall in Hl. unfold grants.
  setoid_rewrite list_elem_of_fmap. split.
  - intros (r0 & (r1 & -> & Hin) & Hg & Hr & Hv & _). exists r1. cbn in *.
    rewrite SortStrings_perm in Hg, Hr, Hv. split_and!; [done..|by apply Hl].
  - intros (r1 & Hin & Hg & Hr & Hv & _). exists (ruleKey r1). split; [by exists r1|]. cbn.
    by rewrite !SortStrings_perm.
Qed.

Lemma grants_perm l1 l2 g r v : l1 ≡ₚ l2 → grants l1 g r v → grants l2 g r v.
Proof. intros Hp (x & Hx & ?). exists x. by rewrite <-Hp. Qed.

Lemma groups_lookup resources g :
  default [] (foldl addToGroups ∅ resources !! g) =
  omap (λ a, '(g', p) ← pluralOf a; if decide (g' = g) then Some p else None) resources.
Proof.
  induction resources as [|a l IH] using rev_ind; [cbn; by rewrite lookup_empty|].
  rewrite foldl_snoc, omap_app. unfold addToGroups at 1. cbn [omap list_omap].
  destruct (pluralOf a) as [[g' p]|]; cbn; [|by rewrite app_nil_r].
  destruct (decide (g' = g)) as [->|Hne].
  - rewrite lookup_insert_eq. cbn. by rewrite IH.
  - rewrite lookup_insert_ne by done. by rewrite app_nil_r.
Qed.

Lemma createPolicyRules_grants resources verbs g r v :
  grants (createPolicyRules resources verbs) g r v ↔
  v ∈ verbs ∧ ∃ a, a ∈ resources ∧ pluralOf a = Some (g, r).
Proof.
  assert (∀ rs, foldl addToGroups ∅ resources !! g = Some rs →
    rs = omap (λ a, '(g', p) ← pluralOf a; if decide (g' = g) then Some p else None) resources) as Hl.
  { intros rs Hrs. by rewrite <-groups_lookup, Hrs. }
  unfold grants, createPolicyRules. setoid_rewrite list_elem_of_fmap. split.
  - intros (x & ([g' rs] & -> & Hin) & Hg & Hr & Hv). cbn in Hg, Hr, Hv.
    apply list_elem_of_singleton in Hg as ->. destruct Hv as [Hv _]. split; [done|].
    rewrite range_perm in Hin. apply elem_of_map_to_list in Hin.
    rewrite (Hl _ Hin) in Hr. apply list_elem_of_omap in Hr as (a & Ha & Hp).
    exists a. split; [done|]. destruct (pluralOf a) as [[g'' p]|]; [|done]. cbn in Hp.
    by destruct (decide (g'' = g')) as [->|]; simplify_eq.
  - intros (Hv & a & Ha & Hp).
    assert (r ∈ omap (λ a, '(g', p) ← pluralOf a; if decide (g' = g) then Some p else None) resources) as Hr.
    { apply list_elem_of_omap. exists a. split; [done|]. rewrite Hp. cbn. by rewrite decide_True. }
    destruct (foldl addToGroups ∅ resources !! g) as [rs|] eqn:Hg.
    + exists {| APIGroups := [g]; Resources := rs; Verbs := verbs; ResourceNames := []; NonResourceURLs := [] |}. cbn. split_and!.
      * exists (g, rs). split; [done|]. rewrite range_perm. by apply elem_of_map_to_list.
      * by apply list_elem_of_singleton.
      * by rewrite (Hl rs).
      * done.
      * done.
    + rewrite <-groups_lookup, Hg in Hr. by apply not_elem_of_nil in Hr.
Qed.

Lemma elem_of_mergeSubjects s1 s2 s : s ∈ mergeSubjects s1 s2 ↔ s ∈ s1 ∨ s ∈ s2.
Proof.
  unfold mergeSubjects. by rewrite range_perm, elem_of_remove_dups, elem_of_app.
Qed.

Lemma NoDup_mergeSubjects s1 s2 : NoDup (mergeSubjects s1 s2).
Proof. unfold mergeSubjects. rewrite range_perm. apply NoDup_remove_dups. Qed.

Lemma elem_of_removeSubjects subjects removals s :
  s ∈ removeSubjects subjects removals ↔ s ∈ subjects ∧ s ∉ removals.
Proof. unfold removeSubjects. rewrite list_elem_of_filter. tauto. Qed.
(** What the sort in place leaves grants the same. *)
Lemma sortedInPlace_grants a b g r v : grants (sortedInPlace a b).2 g r v ↔ grants b g r v.
Proof.
  unfold sortedInPlace. destruct (negb _); [done|]. cbn. unfold grants. setoid_rewrite list_elem_of_fmap.
  split.
  - intros (r0 & (r1 & -> & Hin) & Hg & Hr & Hv & Hn). exists r1. cbn in *.
    by rewrite SortStrings_perm in Hg, Hr, Hv.
  - intros (r1 & Hin & Hg & Hr & Hv & Hn). exists (sortInner r1). split; [by exists r1|]. cbn.
    by rewrite !SortStrings_perm.
Qed.

(** C17: two lists of rules are found equal exactly when they are the same up to the order
    of the rules, the order of the names within each, and their resource names and URLs, so
    the cluster role is not rewritten because a map was iterated in another order, and is
    when the groups, the resources or the verbs differ.  Rules without resource names, as
    all those the operator makes, grant the same when they are found equal.  But resource
    names and URLs are not compared: the same rules restricted to some names grant nothing
    on all the objects, and are found equal to the unrestricted ones. *)
Theorem equalPolicyRules_spec (a b : list PolicyRule) :
  (equalPolicyRules a b = true ↔ map ruleKey a ≡ₚ map ruleKey b) ∧
  (equalPolicyRules a b = true → unnamed a → unnamed b → ∀ g r v, grants a g r v ↔ grants b g r v) ∧
  (∀ resources verbs, unnamed (createPolicyRules resources verbs)) ∧
  ∀ name names urls, equalPolicyRules (map (withNames (name :: names) urls) a) a = true ∧
    ∀ g r v, ¬ grants (map (withNames (name :: names) urls) a) g r v.
Proof.
  split_and!.
  - apply equalPolicyRules_perm.
  - intros He%equalPolicyRules_perm Ha Hb g r v.
    rewrite <-(grants_ruleKey a), <-(grants_ruleKey b) by done.
    split; apply grants_perm; [done|by symmetry].
  - intros resources verbs. apply Forall_fmap. apply Forall_true. by intros [].
  - intros name names urls. split; [apply equalPolicyRules_perm; by rewrite map_map|].
    intros g r v (x & (y & -> & _)%list_elem_of_fmap & _ & _ & _ & Hx). done.
Qed.
End rbac.
