(* ===== verification/Operator.v ===== *)
(** * The operator's reconcilers

    [cmd/operator/internal/controller]: [kubearchiveconfig_controller.go],
    [clusterkubearchiveconfig_controller.go] and the reconciliation part of
    [sinkfilter_controller.go].

    The state is the part of the cluster the reconcilers read and write, with
    the faults to come: each call to the API server consumes one, and fails when
    it is set.  A create fails on an existing object, an update on a missing
    one; an update that leaves an object under deletion without finalizers
    removes it.  Errors stop the reconciliation; what was written stays. *)
From S2P Require Import Prelude GoLib Api Cel CloudEvents Samples Filters WatchManager Rbac.

Definition resourceFinalizerName : string := "kubearchive.org/finalizer".

Record Role := {
  role_Namespace : string; role_Name : string; role_Owner : option string;
  role_Rules : list PolicyRule;
}.
Record RoleBinding := {
  rb_Namespace : string; rb_Name : string; rb_Owner : option string;
  rb_RoleRef : RoleRef; rb_Subjects : list Subject;
}.
Record ServiceAccount := { sa_Namespace : string; sa_Name : string; sa_Owner : option string }.

(** [Spec.Resources] of a KubeArchiveConfig: [None] is a nil slice. *)
Record KubeArchiveConfig := {
  kac_Namespace : string; kac_Name : string; kac_Deleting : bool;
  kac_Finalizers : list string; kac_Resources : option (list KubeArchiveConfigResource);
}.
Record ClusterKubeArchiveConfig := {
  ckac_Name : string; ckac_Deleting : bool; ckac_Finalizers : list string;
  ckac_Resources : list ClusterKubeArchiveConfigResource;
}.

Notation nsname := (string * string)%type.

Record Cluster := {
  roles : gmap nsname Role;
  bindings : gmap nsname RoleBinding;
  accounts : gmap nsname ServiceAccount;
  clusterRoles : gmap string ClusterRole;
  clusterBindings : gmap string ClusterRoleBinding;
  sinkFilters : gmap nsname SinkFilterSpec;
  kacs : gmap nsname KubeArchiveConfig;
  ckacs : gmap string ClusterKubeArchiveConfig;
  faults : list bool;
}.

Definition setRoles (c : Cluster) m : Cluster :=
  {| roles := m; bindings := bindings c; accounts := accounts c; clusterRoles := clusterRoles c;
     clusterBindings := clusterBindings c; sinkFilters := sinkFilters c; kacs := kacs c;
     ckacs := ckacs c; faults := faults c |}.
Definition setBindings (c : Cluster) m : Cluster :=
  {| roles := roles c; bindings := m; accounts := accounts c; clusterRoles := clusterRoles c;
     clusterBindings := clusterBindings c; sinkFilters := sinkFilters c; kacs := kacs c;
     ckacs := ckacs c; faults := faults c |}.
Definition setAccounts (c : Cluster) m : Cluster :=
  {| roles := roles c; bindings := bindings c; accounts := m; clusterRoles := clusterRoles c;
     clusterBindings := clusterBindings c; sinkFilters := sinkFilters c; kacs := kacs c;
     ckacs := ckacs c; faults := faults c |}.
Definition setClusterRoles (c : Cluster) m : Cluster :=
  {| roles := roles c; bindings := bindings c; accounts := accounts c; clusterRoles := m;
     clusterBindings := clusterBindings c; sinkFilters := sinkFilters c; kacs := kacs c;
     ckacs := ckacs c; faults := faults c |}.
Definition setClusterBindings (c : Cluster) m : Cluster :=
  {| roles := roles c; bindings := bindings c; accounts := accounts c;
     clusterRoles := clusterRoles c; clusterBindings := m; sinkFilters := sinkFilters c;
     kacs := kacs c; ckacs := ckacs c; faults := faults c |}.
Definition setSinkFilters (c : Cluster) m : Cluster :=
  {| roles := roles c; bindings := bindings c; accounts := accounts c;
     clusterRoles := clusterRoles c; clusterBindings := clusterBindings c; sinkFilters := m;
     kacs := kacs c; ckacs := ckacs c; faults := faults c |}.
Definition setKacs (c : Cluster) m : Cluster :=
  {| roles := roles c; bindings := bindings c; accounts := accounts c;
     clusterRoles := clusterRoles c; clusterBindings := clusterBindings c;
     sinkFilters := sinkFilters c; kacs := m; ckacs := ckacs c; faults := faults c |}.
Definition setCkacs (c : Cluster) m : Cluster :=
  {| roles := roles c; bindings := bindings c; accounts := accounts c;
     clusterRoles := clusterRoles c; clusterBindings := clusterBindings c;
     sinkFilters := sinkFilters c; kacs := kacs c; ckacs := m; faults := faults c |}.
Definition setFaults (c : Cluster) fs : Cluster :=
  {| roles := roles c; bindings := bindings c; accounts := accounts c;
     clusterRoles := clusterRoles c; clusterBindings := clusterBindings c;
     sinkFilters := sinkFilters c; kacs := kacs c; ckacs := ckacs c; faults := fs |}.

(** ** Calls to the API server: [None] is an error. *)
Definition K (A : Type) : Type := Cluster → option A * Cluster.

#[export] Instance K_ret : MRet K := λ A a c, (Some a, c).
#[export] Instance K_bind : MBind K := λ A B f m c,
  match m c with
  | (Some a, c) => f a c
  | (None, c) => (None, c)
  end.

Definition fail {A} : K A := λ c, (None, c).

(** The next fault, if any. *)
Definition fault (c : Cluster) : bool * Cluster :=
  match faults c with
  | [] => (false, c)
  | f :: fs => (f, setFaults c fs)
  end.

Section calls.
  Context {Key A : Type} `{Countable Key} (field : Cluster → gmap Key A)
    (set : Cluster → gmap Key A → Cluster).

Definition clientGet (key : Key) : K (GetResult A) := λ c,
  let '(f, c) := fault c in
  if f then (Some GetError, c)
  else match field c !! key with
       | Some a => (Some (Found a), c)
       | None => (Some NotFound, c)
       end.

Definition clientCreate (key : Key) (a : A) : K unit := λ c,
  let '(f, c) := fault c in
  if f then (None, c)
  else match field c !! key with
       | Some _ => (None, c)
       | None => (Some tt, set c (<[key := a]> (field c)))
       end.

(** [gone a]: the server removes [a] instead of storing it. *)
Definition clientUpdate (gone : A → bool) (key : Key) (a : A) : K unit := λ c,
  let '(f, c) := fault c in
  if f then (None, c)
  else match field c !! key with
       | None => (None, c)
       | Some _ => (Some tt, set c (if gone a then delete key (field c)
                                    else <[key := a]> (field c)))
       end.
End calls.

Section operator.
  Context `{!RESTMapper, !MapRange, !Environment}.

Definition never {A} (_ : A) : bool := false.
Definition getRole := clientGet (Key:=nsname) roles.
Definition createRole (r : Role) := clientCreate roles setRoles (role_Namespace r, role_Name r) r.
Definition updateRole (r : Role) :=
  clientUpdate roles setRoles never (role_Namespace r, role_Name r) r.
Definition getRoleBinding := clientGet (Key:=nsname) bindings.
Definition createRoleBinding (b : RoleBinding) :=
  clientCreate bindings setBindings (rb_Namespace b, rb_Name b) b.
Definition updateRoleBinding (b : RoleBinding) :=
  clientUpdate bindings setBindings never (rb_Namespace b, rb_Name b) b.
Definition updateKAC (k : KubeArchiveConfig) :=
  clientUpdate kacs setKacs (λ k, kac_Deleting k && bool_decide (kac_Finalizers k = []))
    (kac_Namespace k, kac_Name k) k.
Definition updateCKAC (k : ClusterKubeArchiveConfig) :=
  clientUpdate ckacs setCkacs (λ k, ckac_Deleting k && bool_decide (ckac_Finalizers k = []))
    (ckac_Name k) k.
Definition sinkFilterKey : nsname := (KubeArchiveNamespace, SinkFilterResourceName).

(** ** The SinkFilter *)

Definition emptySinkFilter : SinkFilterSpec := {| Namespaces := ∅; Api.Cluster := [] |}.

Definition desiredSinkFilterNamespace (sf : option SinkFilterSpec) (namespace : string)
    (resources : option (list KubeArchiveConfigResource)) : SinkFilterSpec :=
  let sf := default emptySinkFilter sf in
  {| Namespaces :=
       match resources with
       | Some rs => <[namespace := rs]> (Namespaces sf)
       | None => delete namespace (Namespaces sf)
       end;
     Api.Cluster := Api.Cluster sf |}.

Definition updateSinkFilterNamespace (namespace : string)
    (resources : option (list KubeArchiveConfigResource)) : K unit :=
  sf ← clientGet sinkFilters sinkFilterKey;
  match sf with
  | NotFound =>
      clientCreate sinkFilters setSinkFilters sinkFilterKey
        (desiredSinkFilterNamespace None namespace resources)
  | GetError => fail
  | Found sf =>
      clientUpdate sinkFilters setSinkFilters never sinkFilterKey
        (desiredSinkFilterNamespace (Some sf) namespace resources)
  end.

Definition desiredSinkFilterCluster (sf : option SinkFilterSpec)
    (resources : list ClusterKubeArchiveConfigResource) : SinkFilterSpec :=
  let sf := default emptySinkFilter sf in
  {| Namespaces := delete SinkFilterGlobalNamespace (Namespaces sf);
     Api.Cluster := resources |}.

Definition updateSinkFilterCluster (resources : list ClusterKubeArchiveConfigResource) : K unit :=
  sf ← clientGet sinkFilters sinkFilterKey;
  match sf with
  | NotFound =>
      clientCreate sinkFilters setSinkFilters sinkFilterKey
        (desiredSinkFilterCluster None resources)
  | GetError => fail
  | Found sf =>
      clientUpdate sinkFilters setSinkFilters never sinkFilterKey
        (desiredSinkFilterCluster (Some sf) resources)
  end.

(** ** Roles, bindings, accounts of a KubeArchiveConfig *)

Definition desiredRole (namespace name : string) (rules : list PolicyRule) : Role :=
  {| role_Namespace := namespace; role_Name := name; role_Owner := None; role_Rules := rules |}.

(** [ctrl.SetControllerReference]. *)
Definition ownedBy (kaconfig : option KubeArchiveConfig) : option string := kac_Name <$> kaconfig.

Definition reconcileRole (kaconfig : option KubeArchiveConfig) (namespace name : string)
    (rules : list PolicyRule) : K Role :=
  let desired := {| role_Namespace := namespace; role_Name := name;
                    role_Owner := ownedBy kaconfig;
                    role_Rules := role_Rules (desiredRole namespace name rules) |} in
  existing ← getRole (namespace, name);
  match existing with
  | NotFound => _ ← createRole desired; mret desired
  | GetError => fail
  | Found existing =>
      let existing := {| role_Namespace := role_Namespace existing;
                         role_Name := role_Name existing; role_Owner := role_Owner existing;
                         role_Rules := role_Rules desired |} in
      _ ← updateRole existing; mret existing
  end.

Definition desiredRoleBinding (namespace name kind : string) (subjects : list Subject)
    : RoleBinding :=
  {| rb_Namespace := namespace; rb_Name := name; rb_Owner := None;
     rb_RoleRef := {| ref_APIGroup := "rbac.authorization.k8s.io"; ref_Kind := kind;
                      ref_Name := name |};
     rb_Subjects := subjects |}.

Definition reconcileRoleBinding (kaconfig : option KubeArchiveConfig)
    (namespace name kind : string) (add : bool) (subjects : list Subject) : K RoleBinding :=
  let d := desiredRoleBinding namespace name kind subjects in
  let desired := {| rb_Namespace := rb_Namespace d; rb_Name := rb_Name d;
                    rb_Owner := ownedBy kaconfig; rb_RoleRef := rb_RoleRef d;
                    rb_Subjects := rb_Subjects d |} in
  existing ← getRoleBinding (namespace, name);
  match existing with
  | NotFound => _ ← createRoleBinding desired; mret desired
  | GetError => fail
  | Found existing =>
      let existing := {| rb_Namespace := rb_Namespace existing; rb_Name := rb_Name existing;
                         rb_Owner := rb_Owner existing; rb_RoleRef := rb_RoleRef existing;
                         rb_Subjects :=
                           if add then mergeSubjects (rb_Subjects existing) (rb_Subjects desired)
                           else removeSubjects (rb_Subjects existing) (rb_Subjects desired) |} in
      _ ← updateRoleBinding existing; mret existing
  end.

Definition kacSelectors (kaconfig : KubeArchiveConfig) : list APIVersionKind :=
  map kac_Selector (default [] (kac_Resources kaconfig)).
Definition ckacSelectors (ckac : ClusterKubeArchiveConfig) : list APIVersionKind :=
  map ckac_Selector (ckac_Resources ckac).

Definition reconcileSinkRole (kaconfig : KubeArchiveConfig) : K Role :=
  ckac ← clientGet ckacs KubeArchiveConfigResourceName;
  let resources := kacSelectors kaconfig ++
    match ckac with Found ckac => ckacSelectors ckac | _ => [] end in
  reconcileRole (Some kaconfig) (kac_Namespace kaconfig) KubeArchiveSinkName
    (createPolicyRules resources ["delete"]).

Definition reconcileSinkRoleBinding (kaconfig : KubeArchiveConfig) (role : Role) : K RoleBinding :=
  reconcileRoleBinding (Some kaconfig) (kac_Namespace kaconfig) (role_Name role) "Role" true
    [newSubject KubeArchiveNamespace (role_Name role)].

Definition reconcileServiceAccount (kaconfig : option KubeArchiveConfig)
    (namespace name : string) : K ServiceAccount :=
  sa ← clientGet accounts (namespace, name);
  match sa with
  | NotFound =>
      let sa := {| sa_Namespace := namespace; sa_Name := name; sa_Owner := ownedBy kaconfig |} in
      _ ← clientCreate accounts setAccounts (namespace, name) sa; mret sa
  | GetError => fail
  | Found sa => mret sa
  end.

Definition reconcileVacuumServiceAccount (kaconfig : KubeArchiveConfig) : K ServiceAccount :=
  reconcileServiceAccount (Some kaconfig) (kac_Namespace kaconfig) KubeArchiveVacuumName.

Definition vacuumConfigSelector : APIVersionKind :=
  {| Kind := "NamespaceVacuumConfig"; APIVersion := "kubearchive.org/v1" |}.

Definition reconcileVacuumRole (kaconfig : KubeArchiveConfig) : K Role :=
  ckac ← clientGet ckacs KubeArchiveConfigResourceName;
  match ckac with
  | GetError => fail
  | NotFound =>
      reconcileRole (Some kaconfig) (kac_Namespace kaconfig) KubeArchiveVacuumName
        (createPolicyRules (vacuumConfigSelector :: kacSelectors kaconfig) ["get"; "list"])
  | Found ckac =>
      reconcileRole (Some kaconfig) (kac_Namespace kaconfig) KubeArchiveVacuumName
        (createPolicyRules (vacuumConfigSelector :: kacSelectors kaconfig ++ ckacSelectors ckac)
           ["get"; "list"])
  end.

Definition reconcileLocalVacuumRoleBinding (kaconfig : KubeArchiveConfig) (role : Role)
    : K RoleBinding :=
  reconcileRoleBinding (Some kaconfig) (kac_Namespace kaconfig) (role_Name role) "Role" true
    [newSubject (kac_Namespace kaconfig) KubeArchiveVacuumName;
     newSubject KubeArchiveNamespace KubeArchiveClusterVacuumName].

Definition reconcileKubeArchiveVacuumRoleBinding (kaconfig : KubeArchiveConfig) (add : bool)
    : K unit :=
  let subjects := newSubject (kac_Namespace kaconfig) KubeArchiveVacuumName ::
    (if add then [newSubject KubeArchiveNamespace KubeArchiveClusterVacuumName] else []) in
  _ ← reconcileRoleBinding None KubeArchiveNamespace KubeArchiveVacuumName "Role" add subjects;
  mret tt.

Definition reconcileVacuumResources (kaconfig : KubeArchiveConfig) : K unit :=
  _ ← reconcileVacuumServiceAccount kaconfig;
  role ← reconcileVacuumRole kaconfig;
  _ ← reconcileLocalVacuumRoleBinding kaconfig role;
  reconcileKubeArchiveVacuumRoleBinding kaconfig true.

(** [controllerutil.ContainsFinalizer], [AddFinalizer], [RemoveFinalizer]. *)
Definition withFinalizers (k : KubeArchiveConfig) (fs : list string) : KubeArchiveConfig :=
  {| kac_Namespace := kac_Namespace k; kac_Name := kac_Name k; kac_Deleting := kac_Deleting k;
     kac_Finalizers := fs; kac_Resources := kac_Resources k |}.
Definition withClusterFinalizers (k : ClusterKubeArchiveConfig) (fs : list string)
    : ClusterKubeArchiveConfig :=
  {| ckac_Name := ckac_Name k; ckac_Deleting := ckac_Deleting k; ckac_Finalizers := fs;
     ckac_Resources := ckac_Resources k |}.
Definition removeFinalizer (fs : list string) : list string :=
  filter (λ f, f ≠ resourceFinalizerName) fs.

(** [KubeArchiveConfigReconciler.Reconcile]. *)
Definition ReconcileKAC (req : nsname) : K unit :=
  res ← clientGet kacs req;
  match res with
  | NotFound => mret tt
  | GetError => fail
  | Found kaconfig =>
      if negb (kac_Deleting kaconfig) then
        kaconfig ←
          (if decide (resourceFinalizerName ∈ kac_Finalizers kaconfig) then mret kaconfig
           else
             let kaconfig := withFinalizers kaconfig
               (kac_Finalizers kaconfig ++ [resourceFinalizerName]) in
             _ ← updateKAC kaconfig; mret kaconfig);
        _ ← updateSinkFilterNamespace (kac_Namespace kaconfig) (kac_Resources kaconfig);
        role ← reconcileSinkRole kaconfig;
        _ ← reconcileSinkRoleBinding kaconfig role;
        reconcileVacuumResources kaconfig
      else if decide (resourceFinalizerName ∈ kac_Finalizers kaconfig) then
        _ ← updateSinkFilterNamespace (kac_Namespace kaconfig) None;
        _ ← reconcileKubeArchiveVacuumRoleBinding kaconfig false;
        updateKAC (withFinalizers kaconfig (removeFinalizer (kac_Finalizers kaconfig)))
      else mret tt
  end.

(** [ClusterKubeArchiveConfigReconciler.Reconcile]. *)
Definition ReconcileCKAC (req : string) : K unit :=
  res ← clientGet ckacs req;
  match res with
  | NotFound => mret tt
  | GetError => fail
  | Found ckaconfig =>
      if negb (ckac_Deleting ckaconfig) then
        _ ← (if decide (resourceFinalizerName ∈ ckac_Finalizers ckaconfig) then mret tt
             else updateCKAC (withClusterFinalizers ckaconfig
                    (ckac_Finalizers ckaconfig ++ [resourceFinalizerName])));
        updateSinkFilterCluster (ckac_Resources ckaconfig)
      else if decide (resourceFinalizerName ∈ ckac_Finalizers ckaconfig) then
        _ ← updateSinkFilterCluster [];
        updateCKAC (withClusterFinalizers ckaconfig (removeFinalizer (ckac_Finalizers ckaconfig)))
      else mret tt
  end.

(** ** The cluster role of the SinkFilter controller *)

(** [order]: the iteration order over the namespaces of the SinkFilter. *)
Definition extractResources (order : list string) (sinkFilter : SinkFilterSpec)
    : list APIVersionKind :=
  range (remove_dups
    (map ckac_Selector (Api.Cluster sinkFilter) ++
     (order ≫= λ ns, map kac_Selector (default [] (Namespaces sinkFilter !! ns))))).

Definition reconcileClusterRole (order : list string) (sinkFilter : SinkFilterSpec) : K unit :=
  let rules := createPolicyRules (extractResources order sinkFilter) ["get"; "list"; "watch"] in
  let desired := desiredClusterRole KubeArchiveSinkFilterName rules in
  existing ← clientGet clusterRoles KubeArchiveSinkFilterName;
  match existing with
  | NotFound => clientCreate clusterRoles setClusterRoles KubeArchiveSinkFilterName desired
  | GetError => fail
  | Found existing =>
      if negb (equalPolicyRules (cr_Rules existing) rules)
      then clientUpdate clusterRoles setClusterRoles never KubeArchiveSinkFilterName
             {| cr_Name := cr_Name existing; cr_Rules := (sortedInPlace (cr_Rules existing) rules).2 |}
      else mret tt
  end.

Definition reconcileClusterRoleBinding : K unit :=
  let desired := desiredClusterRoleBinding KubeArchiveSinkFilterName "ClusterRole"
    [newSubject KubeArchiveNamespace KubeArchiveOperatorName] in
  existing ← clientGet clusterBindings KubeArchiveSinkFilterName;
  match existing with
  | NotFound => clientCreate clusterBindings setClusterBindings KubeArchiveSinkFilterName desired
  | GetError => fail
  | Found existing =>
      if negb (bool_decide (crb_Subjects existing = crb_Subjects desired))
         || negb (bool_decide (crb_RoleRef existing = crb_RoleRef desired))
      then clientUpdate clusterBindings setClusterBindings never KubeArchiveSinkFilterName
             {| crb_Name := crb_Name existing; crb_RoleRef := crb_RoleRef desired;
                crb_Subjects := crb_Subjects desired |}
      else mret tt
  end.

(** [SinkFilterReconciler.Reconcile]: [order] as above, [orders] those of the
    maps of watches.  The last component is the result of
    [generateWatches], its panic or its endless wait. *)
Definition ReconcileSinkFilter {O} `{!Unstructured O, !CelEnv O} (config : Configuration)
    (order : list string) (orders : Orders) (req : nsname) (c : Cluster)
    (r : SinkFilterReconciler (O:=O)) : option unit * Cluster * round (SinkFilterReconciler (O:=O)) :=
  match clientGet sinkFilters req c with
  | (None, c) | (Some GetError, c) => (None, c, Ok r)
  | (Some NotFound, c) => (Some tt, c, generateWatches config orders ∅ ∅ r)
  | (Some (Found sinkFilter), c) =>
      match (_ ← reconcileClusterRole order sinkFilter; reconcileClusterRoleBinding) c with
      | (None, c) => (None, c, Ok r)
      | (Some _, c) =>
          match ExtractClusterCELExpressionsByKind (E:=Empty_set) (Some sinkFilter) Controller,
                ExtractNamespacesByKind (E:=Empty_set) (Some sinkFilter) order Controller with
          | Ok clusterFilters, Ok namespacesByKinds =>
              (Some tt, c, generateWatches config orders clusterFilters namespacesByKinds r)
          | _, _ => (None, c, Panic)
          end
      end
  end.

(** ** What the theorems look at *)

Definition sinkFilterOf (c : Cluster) : SinkFilterSpec :=
  default emptySinkFilter (sinkFilters c !! sinkFilterKey).

(** The SinkFilter without the entry of a namespace. *)
Definition otherFilters (ns : string) (c : Cluster)
    : gmap string (list KubeArchiveConfigResource) * list ClusterKubeArchiveConfigResource :=
  (delete ns (Namespaces (sinkFilterOf c)), Api.Cluster (sinkFilterOf c)).

(** A property of the cluster a call keeps, whatever faults occur. *)
Definition keepsK {A} (P : Cluster → Prop) (m : K A) : Prop :=
  ∀ c r c', P c → m c = (r, c') → P c'.

(** A property that does not look at some part of the cluster. *)
Definition ignores {F} (set : Cluster → F → Cluster) (P : Cluster → Prop) : Prop :=
  ∀ c m, P c → P (set c m).

(** Objects are stored under their own names. *)
Record keyed (c : Cluster) : Prop := {
  keyed_roles : ∀ k r, roles c !! k = Some r → (role_Namespace r, role_Name r) = k;
  keyed_bindings : ∀ k b, bindings c !! k = Some b → (rb_Namespace b, rb_Name b) = k;
  keyed_kacs : ∀ k a, kacs c !! k = Some a → (kac_Namespace a, kac_Name a) = k;
}.

Definition boundIn (c : Cluster) (key : nsname) (s : Subject) : Prop :=
  ∃ b, bindings c !! key = Some b ∧ s ∈ rb_Subjects b.

(** *** Calls keep what they do not touch *)

Ltac ignore := let c := fresh in let m := fresh in let HP := fresh in intros c m HP; exact HP.

Lemma keepsK_ret {A} P (a : A) : keepsK P (mret a).
Proof. by intros c r c' HP [= _ <-]. Qed.

Lemma keepsK_fail {A} P : keepsK P (fail (A:=A)).
Proof. by intros c r c' HP [= _ <-]. Qed.

Lemma keepsK_bind {A B} P (m : K A) (f : A → K B) :
  keepsK P m → (∀ a, keepsK P (f a)) → keepsK P (m ≫= f).
Proof.
  intros Hm Hf c r c' HP. unfold mbind, K_bind. destruct (m c) as [[a|] c1] eqn:E.
  - intros Hc. eapply Hf; [|exact Hc]. by eapply Hm.
  - intros [= _ <-]. by eapply Hm.
Qed.

Lemma keepsK_fault P c b c' : ignores setFaults P → P c → fault c = (b, c') → P c'.
Proof.
  intros Hi HP. unfold fault. destruct (faults c); intros [= _ <-]; [done|]. by apply Hi.
Qed.

Lemma keepsK_get {Key A} `{Countable Key} (field : Cluster → gmap Key A) P key :
  ignores setFaults P → keepsK P (clientGet field key).
Proof.
  intros Hi c r c' HP. unfold clientGet. destruct (fault c) as [f c1] eqn:E.
  pose proof (keepsK_fault P c f c1 Hi HP E). destruct f; [by intros [= _ <-]|].
  destruct (field c1 !! key); by intros [= _ <-].
Qed.

Lemma keepsK_create {Key A} `{Countable Key} (field : Cluster → gmap Key A) set P key a :
  ignores setFaults P → ignores set P → keepsK P (clientCreate field set key a).
Proof.
  intros Hi Hs c r c' HP. unfold clientCreate. destruct (fault c) as [f c1] eqn:E.
  pose proof (keepsK_fault P c f c1 Hi HP E). destruct f; [by intros [= _ <-]|].
  destruct (field c1 !! key); intros [= _ <-]; [done|]. by apply Hs.
Qed.

Lemma keepsK_update {Key A} `{Countable Key} (field : Cluster → gmap Key A) set P gone key a :
  ignores setFaults P → ignores set P → keepsK P (clientUpdate field set gone key a).
Proof.
  intros Hi Hs c r c' HP. unfold clientUpdate. destruct (fault c) as [f c1] eqn:E.
  pose proof (keepsK_fault P c f c1 Hi HP E). destruct f; [by intros [= _ <-]|].
  destruct (field c1 !! key); intros [= _ <-]; [|done]. by apply Hs.
Qed.

Lemma keepsK_role P kac ns name rules :
  ignores setFaults P → ignores setRoles P → keepsK P (reconcileRole kac ns name rules).
Proof.
  intros Hi Hr. apply keepsK_bind; [by apply keepsK_get|]. intros [e| |].
  - apply keepsK_bind; [by apply keepsK_update|]. intros. apply keepsK_ret.
  - apply keepsK_bind; [by apply keepsK_create|]. intros. apply keepsK_ret.
  - apply keepsK_fail.
Qed.

Lemma keepsK_binding P kac ns name kind add subjects :
  ignores setFaults P → ignores setBindings P →
  keepsK P (reconcileRoleBinding kac ns name kind add subjects).
Proof.
  intros Hi Hr. apply keepsK_bind; [by apply keepsK_get|]. intros [e| |].
  - apply keepsK_bind; [by apply keepsK_update|]. intros. apply keepsK_ret.
  - apply keepsK_bind; [by apply keepsK_create|]. intros. apply keepsK_ret.
  - apply keepsK_fail.
Qed.

Lemma keepsK_account P kac ns name :
  ignores setFaults P → ignores setAccounts P → keepsK P (reconcileServiceAccount kac ns name).
Proof.
  intros Hi Hr. apply keepsK_bind; [by apply keepsK_get|]. intros [e| |].
  - apply keepsK_ret.
  - apply keepsK_bind; [by apply keepsK_create|]. intros. apply keepsK_ret.
  - apply keepsK_fail.
Qed.

Lemma keepsK_vacuumRoleBinding P kac add :
  ignores setFaults P → ignores setBindings P →
  keepsK P (reconcileKubeArchiveVacuumRoleBinding kac add).
Proof.
  intros. apply keepsK_bind; [by apply keepsK_binding|]. intros. apply keepsK_ret.
Qed.

Lemma keepsK_sinkRole P kac :
  ignores setFaults P → ignores setRoles P → keepsK P (reconcileSinkRole kac).
Proof. intros. apply keepsK_bind; [by apply keepsK_get|]. intros. by apply keepsK_role. Qed.

Lemma keepsK_vacuumResources P kac :
  ignores setFaults P → ignores setRoles P → ignores setBindings P → ignores setAccounts P →
  keepsK P (reconcileVacuumResources kac).
Proof.
  intros. apply keepsK_bind; [by apply keepsK_account|]. intros _.
  apply keepsK_bind.
  { apply keepsK_bind; [by apply keepsK_get|]. intros [| |]; try by apply keepsK_role.
    apply keepsK_fail. }
  intros role. apply keepsK_bind; [by apply keepsK_binding|]. intros _.
  by apply keepsK_vacuumRoleBinding.
Qed.

(** *** The SinkFilter *)

Lemma otherFilters_desired ns sf resources :
  delete ns (Namespaces (desiredSinkFilterNamespace sf ns resources)) =
    delete ns (Namespaces (default emptySinkFilter sf)) ∧
  Api.Cluster (desiredSinkFilterNamespace sf ns resources) =
    Api.Cluster (default emptySinkFilter sf) ∧
  Namespaces (desiredSinkFilterNamespace sf ns resources) !! ns = resources.
Proof.
  unfold desiredSinkFilterNamespace. destruct resources as [rs|]; cbn; split_and!; try done.
  - by rewrite delete_insert_eq.
  - by rewrite lookup_insert_eq.
  - by rewrite delete_delete_eq.
  - by rewrite lookup_delete_eq.
Qed.

(** The update writes the entry of the namespace, or nothing. *)
Lemma updateSinkFilterNamespace_spec ns resources c r c' :
  updateSinkFilterNamespace ns resources c = (r, c') →
  otherFilters ns c' = otherFilters ns c ∧ kacs c' = kacs c ∧
  (r = Some tt → Namespaces (sinkFilterOf c') !! ns = resources) ∧
  (r = None → sinkFilterOf c' = sinkFilterOf c).
Proof.
  unfold updateSinkFilterNamespace, mbind, K_bind, clientGet.
  destruct (fault c) as [f c1] eqn:E1.
  assert (sinkFilters c1 = sinkFilters c ∧ kacs c1 = kacs c) as [Hs1 Hk1].
  { unfold fault in E1. destruct (faults c); by injection E1 as <- <-. }
  unfold otherFilters, sinkFilterOf. rewrite <-Hs1.
  destruct f; [by intros [= <- <-]|].
  destruct (sinkFilters c1 !! sinkFilterKey) as [sf|] eqn:Esf;
    unfold clientUpdate, clientCreate; destruct (fault c1) as [f2 c2] eqn:E2;
    (assert (sinkFilters c2 = sinkFilters c1 ∧ kacs c2 = kacs c1) as [Hs2 Hk2];
     [unfold fault in E2; destruct (faults c1); by injection E2 as <- <-|]);
    (destruct f2; [intros [= <- <-]; rewrite Hs2, Esf; split_and!; try done; congruence|]);
    rewrite Hs2, Esf; intros [= <- <-]; unfold never; cbn [sinkFilters setSinkFilters kacs];
    rewrite lookup_insert_eq; cbn [default]; unfold id;
    [pose proof (otherFilters_desired ns (Some sf) resources) as (-> & -> & ?)
    |pose proof (otherFilters_desired ns None resources) as (-> & -> & ?)];
    split_and!; try done; congruence.
Qed.

(** *** Without faults *)

Definition found {A} (o : option A) : GetResult A :=
  match o with Some a => Found a | None => NotFound end.

Lemma get_ok {Key A} `{Countable Key} (field : Cluster → gmap Key A) key c :
  faults c = [] → clientGet field key c = (Some (found (field c !! key)), c).
Proof. intros Hf. unfold clientGet, fault. rewrite Hf. by destruct (field c !! key). Qed.

Lemma create_ok {Key A} `{Countable Key} (field : Cluster → gmap Key A) set key a c :
  faults c = [] → field c !! key = None →
  clientCreate field set key a c = (Some tt, set c (<[key := a]> (field c))).
Proof. intros Hf Hn. unfold clientCreate, fault. by rewrite Hf, Hn. Qed.

Lemma update_ok {Key A} `{Countable Key} (field : Cluster → gmap Key A) set gone key a b c :
  faults c = [] → field c !! key = Some b →
  clientUpdate field set gone key a c =
    (Some tt, set c (if gone a then delete key (field c) else <[key := a]> (field c))).
Proof. intros Hf Hn. unfold clientUpdate, fault. by rewrite Hf, Hn. Qed.

Lemma bind_ok {A B} (m : K A) (f : A → K B) c a c' :
  m c = (Some a, c') → (m ≫= f) c = f a c'.
Proof. intros Hm. unfold mbind, K_bind. by rewrite Hm. Qed.

Lemma bind_inv {A B} (m : K A) (f : A → K B) c r c' :
  (m ≫= f) c = (r, c') →
  (∃ a c1, m c = (Some a, c1) ∧ f a c1 = (r, c')) ∨ (m c = (None, c') ∧ r = None).
Proof.
  unfold mbind, K_bind. destruct (m c) as [[a|] c1]; [by left; exists a, c1|].
  intros [= <- <-]. by right.
Qed.

Lemma get_inv req c r c1 :
  clientGet kacs req c = (r, c1) →
  (c1 = c ∨ ∃ fs, c1 = setFaults c fs) ∧
  (r = Some (found (kacs c1 !! req)) ∨ r = Some GetError).
Proof.
  unfold clientGet, fault. destruct (faults c) as [|[] fs].
  - destruct (kacs c !! req) eqn:E; intros [= <- <-]; rewrite E; auto.
  - intros [= <- <-]. eauto.
  - destruct (kacs (setFaults c fs) !! req) eqn:E; intros [= <- <-]; rewrite E; eauto.
Qed.

Lemma reconcileRole_ok kac ns name rules c :
  faults c = [] → keyed c →
  ∃ r, reconcileRole kac ns name rules c = (Some r, setRoles c (<[(ns, name) := r]> (roles c))) ∧
    role_Namespace r = ns ∧ role_Name r = name ∧ role_Rules r = rules.
Proof.
  intros Hf Hk. unfold reconcileRole, getRole.
  rewrite (bind_ok _ _ _ _ _ (get_ok roles (ns, name) c Hf)).
  destruct (roles c !! (ns, name)) as [e|] eqn:He; cbn [found].
  - pose proof (keyed_roles c Hk _ _ He) as [= E1 E2].
    eexists. split; [unfold updateRole; cbn [role_Namespace role_Name]; rewrite E1, E2;
      by rewrite (bind_ok _ _ _ _ _ (update_ok roles setRoles never (ns, name) _ e c Hf He))|].
    done.
  - eexists. unfold createRole. split.
    + by rewrite (bind_ok _ _ _ _ _ (create_ok roles setRoles (ns, name) _ c Hf He)).
    + done.
Qed.

Lemma reconcileRoleBinding_ok kac ns name kind subjects c :
  faults c = [] → keyed c →
  ∃ b, reconcileRoleBinding kac ns name kind true subjects c =
      (Some b, setBindings c (<[(ns, name) := b]> (bindings c))) ∧
    rb_Namespace b = ns ∧ rb_Name b = name ∧
    ∀ s, s ∈ subjects ∨ boundIn c (ns, name) s → s ∈ rb_Subjects b.
Proof.
  intros Hf Hk. unfold reconcileRoleBinding, getRoleBinding, boundIn.
  rewrite (bind_ok _ _ _ _ _ (get_ok bindings (ns, name) c Hf)).
  destruct (bindings c !! (ns, name)) as [e|] eqn:He; cbn [found].
  - pose proof (keyed_bindings c Hk _ _ He) as [= E1 E2].
    eexists. split.
    + unfold updateRoleBinding. cbn [rb_Namespace rb_Name]. rewrite E1, E2.
      by rewrite (bind_ok _ _ _ _ _ (update_ok bindings setBindings never (ns, name) _ e c Hf He)).
    + split_and!; [done|done|]. cbn. intros s Hs. apply elem_of_mergeSubjects. destruct Hs as [?|(b & [= <-] & ?)]; auto.
  - eexists. split.
    + unfold createRoleBinding.
      by rewrite (bind_ok _ _ _ _ _ (create_ok bindings setBindings (ns, name) _ c Hf He)).
    + split_and!; [done..|]. cbn. intros s [?|(b & ? & ?)]; [done|]. congruence.
Qed.

Lemma reconcileServiceAccount_ok kac ns name c :
  faults c = [] →
  ∃ sa m, reconcileServiceAccount kac ns name c = (Some sa, setAccounts c m) ∧
    m !! (ns, name) = Some sa.
Proof.
  intros Hf. unfold reconcileServiceAccount.
  rewrite (bind_ok _ _ _ _ _ (get_ok accounts (ns, name) c Hf)).
  destruct (accounts c !! (ns, name)) as [e|] eqn:He; cbn [found].
  - exists e, (accounts c). split; [by destruct c|done].
  - eexists _, _. rewrite (bind_ok _ _ _ _ _ (create_ok accounts setAccounts (ns, name) _ c Hf He)).
    split; [done|]. by rewrite lookup_insert_eq.
Qed.

Lemma updateSinkFilterNamespace_ok ns resources c :
  faults c = [] →
  ∃ m, updateSinkFilterNamespace ns resources c = (Some tt, setSinkFilters c m).
Proof.
  intros Hf. unfold updateSinkFilterNamespace.
  rewrite (bind_ok _ _ _ _ _ (get_ok sinkFilters sinkFilterKey c Hf)).
  destruct (sinkFilters c !! sinkFilterKey) as [sf|] eqn:He; cbn [found]; eexists.
  - by rewrite (update_ok sinkFilters setSinkFilters never sinkFilterKey _ sf c Hf He).
  - by rewrite (create_ok sinkFilters setSinkFilters sinkFilterKey _ c Hf He).
Qed.

Lemma keyed_setRoles c ns name r :
  keyed c → role_Namespace r = ns → role_Name r = name →
  keyed (setRoles c (<[(ns, name) := r]> (roles c))).
Proof.
  intros [Hkr Hkb Hkk] <- <-. split; cbn; [|done..].
  intros k r' [[<- <-]|[_ ?]]%lookup_insert_Some; [done|]. by apply Hkr.
Qed.

Lemma keyed_setBindings c ns name b :
  keyed c → rb_Namespace b = ns → rb_Name b = name →
  keyed (setBindings c (<[(ns, name) := b]> (bindings c))).
Proof.
  intros [Hkr Hkb Hkk] <- <-. split; cbn; [done| |done].
  intros k r' [[<- <-]|[_ ?]]%lookup_insert_Some; [done|]. by apply Hkb.
Qed.

Lemma keyed_setKacs c k :
  keyed c → keyed (setKacs c (<[(kac_Namespace k, kac_Name k) := k]> (kacs c))).
Proof.
  intros [Hkr Hkb Hkk]. split; cbn; [done|done|].
  intros k' r' [[<- <-]|[_ ?]]%lookup_insert_Some; [done|]. by apply Hkk.
Qed.

(** The selectors of a KubeArchiveConfig and of the cluster one. *)
Definition selectorsOf (c : Cluster) (k : KubeArchiveConfig) : list APIVersionKind :=
  kacSelectors k ++ match ckacs c !! KubeArchiveConfigResourceName with
                    | Some ckac => ckacSelectors ckac | None => [] end.

Lemma reconcileSinkRole_ok k c :
  faults c = [] → keyed c →
  ∃ r, reconcileSinkRole k c =
      (Some r, setRoles c (<[(kac_Namespace k, KubeArchiveSinkName) := r]> (roles c))) ∧
    role_Namespace r = kac_Namespace k ∧ role_Name r = KubeArchiveSinkName ∧
    role_Rules r = createPolicyRules (selectorsOf c k) ["delete"].
Proof.
  intros Hf Hk. unfold reconcileSinkRole, selectorsOf.
  rewrite (bind_ok _ _ _ _ _ (get_ok ckacs KubeArchiveConfigResourceName c Hf)).
  destruct (ckacs c !! KubeArchiveConfigResourceName); cbn [found]; by apply reconcileRole_ok.
Qed.

Lemma reconcileVacuumRole_ok k c :
  faults c = [] → keyed c →
  ∃ r, reconcileVacuumRole k c =
      (Some r, setRoles c (<[(kac_Namespace k, KubeArchiveVacuumName) := r]> (roles c))) ∧
    role_Namespace r = kac_Namespace k ∧ role_Name r = KubeArchiveVacuumName ∧
    role_Rules r = createPolicyRules (vacuumConfigSelector :: selectorsOf c k) ["get"; "list"].
Proof.
  intros Hf Hk. unfold reconcileVacuumRole, selectorsOf.
  rewrite (bind_ok _ _ _ _ _ (get_ok ckacs KubeArchiveConfigResourceName c Hf)).
  destruct (ckacs c !! KubeArchiveConfigResourceName); cbn [found].
  - by apply reconcileRole_ok.
  - rewrite app_nil_r. by apply reconcileRole_ok.
Qed.

(** The vacuum resources of a namespace, bound in it and in KubeArchive's. *)
Lemma reconcileVacuumResources_ok k c :
  faults c = [] → keyed c →
  ∃ c' ra ba ma, reconcileVacuumResources k c = (Some tt, c') ∧
    c' = setBindings (setRoles (setAccounts c ma)
           (<[(kac_Namespace k, KubeArchiveVacuumName) := ra]> (roles c))) ba ∧
    role_Rules ra = createPolicyRules (vacuumConfigSelector :: selectorsOf c k) ["get"; "list"] ∧
    is_Some (ma !! (kac_Namespace k, KubeArchiveVacuumName)) ∧
    (∀ key s, boundIn c key s → boundIn c' key s) ∧
    boundIn c' (kac_Namespace k, KubeArchiveVacuumName)
      (newSubject (kac_Namespace k) KubeArchiveVacuumName) ∧
    boundIn c' (kac_Namespace k, KubeArchiveVacuumName)
      (newSubject KubeArchiveNamespace KubeArchiveClusterVacuumName) ∧
    boundIn c' (KubeArchiveNamespace, KubeArchiveVacuumName)
      (newSubject (kac_Namespace k) KubeArchiveVacuumName).
Proof.
  intros Hf Hk. unfold reconcileVacuumResources, reconcileVacuumServiceAccount.
  destruct (reconcileServiceAccount_ok (Some k) (kac_Namespace k) KubeArchiveVacuumName c Hf)
    as (sa & ma & Hsa & Hma). rewrite (bind_ok _ _ _ _ _ Hsa).
  set (c1 := setAccounts c ma). assert (keyed c1) as Hk1 by (by destruct Hk).
  destruct (reconcileVacuumRole_ok k c1 Hf Hk1) as (ra & Hra & Hr1 & Hr2 & Hr3).
  rewrite (bind_ok _ _ _ _ _ Hra).
  set (c2 := setRoles c1 _). assert (keyed c2) as Hk2 by (by apply keyed_setRoles).
  unfold reconcileLocalVacuumRoleBinding. rewrite Hr2.
  destruct (reconcileRoleBinding_ok (Some k) (kac_Namespace k) KubeArchiveVacuumName "Role"
    [newSubject (kac_Namespace k) KubeArchiveVacuumName;
     newSubject KubeArchiveNamespace KubeArchiveClusterVacuumName] c2 Hf Hk2)
    as (b & Hb & Hb1 & Hb2 & Hbs). rewrite (bind_ok _ _ _ _ _ Hb).
  set (c3 := setBindings c2 _). assert (keyed c3) as Hk3 by (by apply keyed_setBindings).
  unfold reconcileKubeArchiveVacuumRoleBinding. cbv zeta.
  destruct (reconcileRoleBinding_ok None KubeArchiveNamespace KubeArchiveVacuumName "Role"
    [newSubject (kac_Namespace k) KubeArchiveVacuumName;
     newSubject KubeArchiveNamespace KubeArchiveClusterVacuumName] c3 Hf Hk3)
    as (b' & Hb' & Hb'1 & Hb'2 & Hbs'). cbn [app]. rewrite (bind_ok _ _ _ _ _ Hb').
  set (c4 := setBindings c3 _).
  assert (∀ key s, boundIn c key s → boundIn c3 key s) as Hmono.
  { intros key s (b0 & Hb0 & Hs). unfold boundIn, c3. cbn.
    destruct (decide (key = (kac_Namespace k, KubeArchiveVacuumName))) as [->|Hne].
    - exists b. rewrite lookup_insert_eq. split; [done|]. apply Hbs. right. by exists b0.
    - exists b0. by rewrite lookup_insert_ne. }
  assert (∀ key s, boundIn c3 key s → boundIn c4 key s) as Hmono'.
  { intros key s (b0 & Hb0 & Hs). unfold boundIn, c4. cbn.
    destruct (decide (key = (KubeArchiveNamespace, KubeArchiveVacuumName))) as [->|Hne].
    - exists b'. rewrite lookup_insert_eq. split; [done|]. apply Hbs'. right. by exists b0.
    - exists b0. by rewrite lookup_insert_ne. }
  assert (∀ s, s ∈ rb_Subjects b → boundIn c3 (kac_Namespace k, KubeArchiveVacuumName) s) as Hin.
  { intros s Hs. exists b. unfold c3. cbn. by rewrite lookup_insert_eq. }
  exists c4, ra, (bindings c4), ma.
  split_and!; [done|done| |by eexists|by auto|..].
  - rewrite Hr3. done.
  - apply Hmono', Hin, Hbs. left. by left.
  - apply Hmono', Hin, Hbs. left. right. by left.
  - exists b'. unfold c4. cbn. rewrite lookup_insert_eq. split; [done|]. apply Hbs'. left. by left.
Qed.

(** The state after the finalizer was added, if it had to be. *)
Lemma ensureFinalizer_ok c req k :
  keyed c → faults c = [] → kacs c !! req = Some k → kac_Deleting k = false →
  ∃ k' m,
    (if decide (resourceFinalizerName ∈ kac_Finalizers k) then mret k
     else let k := withFinalizers k (kac_Finalizers k ++ [resourceFinalizerName]) in
          _ ← updateKAC k; mret k) c = (Some k', setKacs c m) ∧
    m !! req = Some k' ∧ resourceFinalizerName ∈ kac_Finalizers k' ∧
    kac_Namespace k' = kac_Namespace k ∧ kac_Resources k' = kac_Resources k ∧
    keyed (setKacs c m).
Proof.
  intros Hk Hf Hreq Hd. pose proof (keyed_kacs c Hk _ _ Hreq) as Hkey.
  destruct (decide (resourceFinalizerName ∈ kac_Finalizers k)) as [Hin|Hin].
  - exists k, (kacs c). split; [by destruct c|]. split_and!; try done; by destruct c.
  - set (k' := withFinalizers k (kac_Finalizers k ++ [resourceFinalizerName])).
    exists k', (<[req := k']> (kacs c)). cbv zeta. unfold updateKAC.
    change (kac_Namespace k', kac_Name k') with (kac_Namespace k, kac_Name k). rewrite Hkey.
    rewrite (bind_ok _ _ _ _ _ (update_ok kacs setKacs _ req k' k c Hf Hreq)).
    change (kac_Deleting k') with (kac_Deleting k). rewrite Hd. cbn [andb].
    split; [done|]. split_and!; try done.
    + by rewrite lookup_insert_eq.
    + apply elem_of_app. right. by left.
    + rewrite <-Hkey. by apply (keyed_setKacs c k').
Qed.

Lemma boundIn_setKacs c m key s : boundIn (setKacs c m) key s ↔ boundIn c key s.
Proof. done. Qed.

(** C15: without faults, reconciling a KubeArchiveConfig that is not being
    deleted installs all it needs: its finalizer; its entry of the SinkFilter,
    the rest of the SinkFilter unchanged; in its namespace the sink role, which
    grants [delete] exactly on the resolvable resources of it and of the
    cluster configuration, the vacuum role, which grants [get] and [list] on the
    same and on the vacuum configurations, the vacuum account and the bindings;
    the binding of its vacuum account in KubeArchive's namespace. *)
Theorem ReconcileKAC_installs c req k :
  keyed c → faults c = [] → kacs c !! req = Some k → kac_Deleting k = false →
  ∃ c', ReconcileKAC req c = (Some tt, c') ∧
    Namespaces (sinkFilterOf c') !! kac_Namespace k = kac_Resources k ∧
    otherFilters (kac_Namespace k) c' = otherFilters (kac_Namespace k) c ∧
    (∃ k', kacs c' !! req = Some k' ∧ resourceFinalizerName ∈ kac_Finalizers k' ∧
       kac_Resources k' = kac_Resources k) ∧
    (∃ r, roles c' !! (kac_Namespace k, KubeArchiveSinkName) = Some r ∧
       ∀ g p v, grants (role_Rules r) g p v ↔
         v ∈ ["delete"] ∧ ∃ a, a ∈ selectorsOf c k ∧ pluralOf a = Some (g, p)) ∧
    (∃ r, roles c' !! (kac_Namespace k, KubeArchiveVacuumName) = Some r ∧
       ∀ g p v, grants (role_Rules r) g p v ↔
         v ∈ ["get"; "list"] ∧
         ∃ a, a ∈ vacuumConfigSelector :: selectorsOf c k ∧ pluralOf a = Some (g, p)) ∧
    is_Some (accounts c' !! (kac_Namespace k, KubeArchiveVacuumName)) ∧
    boundIn c' (kac_Namespace k, KubeArchiveSinkName)
      (newSubject KubeArchiveNamespace KubeArchiveSinkName) ∧
    boundIn c' (kac_Namespace k, KubeArchiveVacuumName)
      (newSubject (kac_Namespace k) KubeArchiveVacuumName) ∧
    boundIn c' (kac_Namespace k, KubeArchiveVacuumName)
      (newSubject KubeArchiveNamespace KubeArchiveClusterVacuumName) ∧
    boundIn c' (KubeArchiveNamespace, KubeArchiveVacuumName)
      (newSubject (kac_Namespace k) KubeArchiveVacuumName).
Proof.
  intros Hk Hf Hreq Hd. unfold ReconcileKAC.
  rewrite (bind_ok _ _ _ _ _ (get_ok kacs req c Hf)), Hreq. cbn [found]. rewrite Hd. cbn [negb].
  destruct (ensureFinalizer_ok c req k Hk Hf Hreq Hd) as (k1 & m & Hfin & Hm & Hkf & Hns & Hrs & Hk1).
  rewrite (bind_ok _ _ _ _ _ Hfin). set (c1 := setKacs c m) in *. rewrite Hns, Hrs.
  destruct (updateSinkFilterNamespace_ok (kac_Namespace k) (kac_Resources k) c1 Hf) as (sfm & Hsf).
  rewrite (bind_ok _ _ _ _ _ Hsf).
  destruct (updateSinkFilterNamespace_spec _ _ _ _ _ Hsf) as (Ho & _ & Hset & _).
  specialize (Hset eq_refl). set (c2 := setSinkFilters c1 sfm) in *.
  assert (keyed c2) as Hk2 by (by destruct Hk1).
  destruct (reconcileSinkRole_ok k1 c2 Hf Hk2) as (r & Hr & Hr1 & Hr2 & Hr3).
  rewrite (bind_ok _ _ _ _ _ Hr). set (c3 := setRoles c2 _).
  assert (keyed c3) as Hk3 by (by apply keyed_setRoles). unfold reconcileSinkRoleBinding. rewrite Hr2.
  destruct (reconcileRoleBinding_ok (Some k1) (kac_Namespace k1) KubeArchiveSinkName "Role"
    [newSubject KubeArchiveNamespace KubeArchiveSinkName] c3 Hf Hk3) as (b & Hb & Hb1 & Hb2 & Hbs).
  rewrite (bind_ok _ _ _ _ _ Hb). set (c4 := setBindings c3 _).
  assert (keyed c4) as Hk4 by (by apply keyed_setBindings).
  destruct (reconcileVacuumResources_ok k1 c4 Hf Hk4)
    as (c5 & ra & ba & ma & -> & -> & Hra & Hma & Hmono & Hv1 & Hv2 & Hv3).
  assert (∀ c', ckacs c' = ckacs c → selectorsOf c' k1 = selectorsOf c k) as Hsel.
  { intros c' Hc. unfold selectorsOf, kacSelectors. by rewrite Hc, Hrs. }
  eexists. rewrite <-Hns. rewrite <-Hns in Hset, Ho. split_and!; [done| | | |..].
  - exact Hset.
  - exact Ho.
  - exists k1. split_and!; [exact Hm|done|done].
  - exists r. split.
    + cbn. rewrite lookup_insert_ne by (intros [= ?]). by rewrite lookup_insert_eq.
    + intros g p v. rewrite Hr3, createPolicyRules_grants, Hsel by done. done.
  - exists ra. split; [cbn; by rewrite lookup_insert_eq|].
    intros g p v. rewrite Hra, createPolicyRules_grants, Hsel by done. done.
  - exact Hma.
  - apply Hmono. exists b. unfold c4. cbn. rewrite lookup_insert_eq. split; [done|].
    apply Hbs. left. by left.
  - exact Hv1.
  - exact Hv2.
  - exact Hv3.
Qed.

Lemma updateKAC_filters k ns c r c' :
  updateKAC k c = (r, c') → otherFilters ns c' = otherFilters ns c.
Proof.
  assert (keepsK (λ c0, otherFilters ns c0 = otherFilters ns c) (updateKAC k)) as Hkp.
  { apply keepsK_update; ignore. }
  by apply (Hkp c r c').
Qed.

(** The part of [ReconcileKAC] after the finalizer. *)
Lemma keeps_installation k c r c' :
  (_ ← updateSinkFilterNamespace (kac_Namespace k) (kac_Resources k);
   role ← reconcileSinkRole k; _ ← reconcileSinkRoleBinding k role;
   reconcileVacuumResources k) c = (r, c') →
  otherFilters (kac_Namespace k) c' = otherFilters (kac_Namespace k) c.
Proof.
  unfold mbind at 1, K_bind at 1.
  destruct (updateSinkFilterNamespace (kac_Namespace k) (kac_Resources k) c) as [[u|] c2] eqn:Hu;
    destruct (updateSinkFilterNamespace_spec _ _ _ _ _ Hu) as (Ho & _).
  - intros He. rewrite <-Ho.
    assert (keepsK (λ c0, otherFilters (kac_Namespace k) c0 = otherFilters (kac_Namespace k) c2)
      (role ← reconcileSinkRole k; _ ← reconcileSinkRoleBinding k role;
       reconcileVacuumResources k)) as Hkp.
    { apply keepsK_bind; [apply keepsK_sinkRole; ignore|]. intros role.
      apply keepsK_bind; [apply keepsK_binding; ignore|]. intros _.
      apply keepsK_vacuumResources; ignore. }
    by apply (Hkp c2 r c').
  - by intros [= _ <-].
Qed.

(** C16: whatever faults occur, a reconciliation touches only its namespace's
    entry of the SinkFilter; and when a KubeArchiveConfig under deletion is
    released (its finalizer removed, or the reconciliation succeeds), its entry
    is gone. *)
Theorem ReconcileKAC_deletion_safe c req k res c' :
  keyed c → kacs c !! req = Some k → ReconcileKAC req c = (res, c') →
  otherFilters (kac_Namespace k) c' = otherFilters (kac_Namespace k) c ∧
  (kac_Deleting k = true → resourceFinalizerName ∈ kac_Finalizers k →
   res = Some tt ∨ kacs c' !! req ≠ Some k →
   Namespaces (sinkFilterOf c') !! kac_Namespace k = None).
Proof.
  intros Hk Hreq He. unfold ReconcileKAC in He.
  apply bind_inv in He as [(g & c1 & Hg & He)|[Hg ->]]; [|by destruct (get_inv _ _ _ _ Hg) as [_ []]].
  destruct (get_inv _ _ _ _ Hg) as (Hc1 & Hgk).
  assert (otherFilters (kac_Namespace k) c1 = otherFilters (kac_Namespace k) c ∧
          kacs c1 !! req = Some k) as (Ho1 & Hk1) by (destruct Hc1 as [->|[fs ->]]; done).
  destruct Hgk as [[= ->]|[= ->]].
  2:{ injection He as <- <-. split; [done|]. intros _ _ [|Hne]; done. }
  replace (found (kacs c1 !! req)) with (Found k) in He by (by rewrite Hk1).
  destruct (kac_Deleting k) eqn:Hd; cbn [negb] in He.
  - destruct (decide (resourceFinalizerName ∈ kac_Finalizers k)) as [Hin|Hin].
    2:{ injection He as <- <-. done. }
    apply bind_inv in He as [([] & c2 & Hu & He)|[Hu ->]];
      destruct (updateSinkFilterNamespace_spec _ _ _ _ _ Hu) as (Ho2 & Hkc2 & Hs2 & _).
    + assert (keepsK (λ c0, otherFilters (kac_Namespace k) c0 = otherFilters (kac_Namespace k) c ∧
          Namespaces (sinkFilterOf c0) !! kac_Namespace k = None)
        (_ ← reconcileKubeArchiveVacuumRoleBinding k false;
         updateKAC (withFinalizers k (removeFinalizer (kac_Finalizers k))))) as Hkp.
      { apply keepsK_bind; [apply keepsK_vacuumRoleBinding; ignore|]. intros _.
        apply keepsK_update; ignore. }
      eapply Hkp in He; [|split; [congruence|by apply Hs2]]. destruct He. by split.
    + split; [congruence|]. intros _ _ [|Hne]; [done|]. destruct Hne. by rewrite Hkc2.
  - split; [|done]. rewrite <-Ho1.
    destruct (decide (resourceFinalizerName ∈ kac_Finalizers k)) as [Hin|Hin].
    + by eapply keeps_installation in He.
    + set (k' := withFinalizers k (kac_Finalizers k ++ [resourceFinalizerName])) in He.
      apply bind_inv in He as [(k2 & c2 & Hu & He)|[Hu ->]].
      * apply bind_inv in Hu as [(u & c3 & Hu & [= <- <-])|[_ ?]]; [|done].
        rewrite <-(updateKAC_filters _ (kac_Namespace k) _ _ _ Hu).
        by eapply (keeps_installation k') in He.
      * apply bind_inv in Hu as [(u & c3 & Hu & [=])|[Hu _]].
        by eapply updateKAC_filters.
Qed.

(** Deleting a KubeArchiveConfig while the vacuum binding of
    KubeArchive's namespace does not exist creates that binding, with the vacuum
    account of the namespace that is being cleaned up as its subject. *)
Theorem ReconcileKAC_deletion_grants c req k :
  faults c = [] → kacs c !! req = Some k → kac_Deleting k = true →
  resourceFinalizerName ∈ kac_Finalizers k → keyed c →
  bindings c !! (KubeArchiveNamespace, KubeArchiveVacuumName) = None →
  ∃ c', ReconcileKAC req c = (Some tt, c') ∧
    boundIn c' (KubeArchiveNamespace, KubeArchiveVacuumName)
      (newSubject (kac_Namespace k) KubeArchiveVacuumName).
Proof.
  intros Hf Hreq Hd Hin Hk Hnb. unfold ReconcileKAC.
  rewrite (bind_ok _ _ _ _ _ (get_ok kacs req c Hf)), Hreq. cbn [found]. rewrite Hd. cbn [negb].
  rewrite decide_True by done.
  destruct (updateSinkFilterNamespace_ok (kac_Namespace k) None c Hf) as (sfm & Hsf).
  rewrite (bind_ok _ _ _ _ _ Hsf). set (c1 := setSinkFilters c sfm).
  unfold reconcileKubeArchiveVacuumRoleBinding, reconcileRoleBinding, getRoleBinding, createRoleBinding.
  set (bnd := {| rb_Namespace := _ |}).
  eexists. split.
  - erewrite bind_ok.
    2:{ erewrite bind_ok; [done|]. rewrite (bind_ok _ _ _ _ _ (get_ok bindings _ c1 Hf)).
        change (bindings c1) with (bindings c). rewrite Hnb. cbn [found].
        rewrite (bind_ok _ _ _ _ _ (create_ok bindings setBindings _ bnd c1 Hf Hnb)). done. }
    unfold updateKAC. cbn [withFinalizers kac_Namespace kac_Name].
    rewrite (keyed_kacs c Hk _ _ Hreq).
    exact (update_ok kacs setKacs _ req _ k
      (setBindings c1 (<[(KubeArchiveNamespace, KubeArchiveVacuumName) := bnd]> (bindings c1)))
      Hf Hreq).
  - exists bnd. cbn. rewrite lookup_insert_eq. split; [done|]. by left.
Qed.

(** C18: end to end, a reconciliation of the SinkFilter by the controller succeeds, when
    the watches it stops can be stopped (no race on their interface, workers that return),
    and one that succeeds leaves each watched kind with exactly the compiled expressions the
    SinkFilter holds for it, for the cluster and for every namespace, whatever
    the iteration orders and the earlier rounds; and it watches no kind the
    SinkFilter does not name. *)
Theorem ReconcileSinkFilter_filters {O} `{!Unstructured O, !CelEnv O} config order orders req c
    (r : SinkFilterReconciler (O:=O)) sf c' res clusterFilters namespacesByKinds :
  sinkFilters c !! req = Some sf →
  rtc (reconciler_step config) initialReconciler r →
  (∀ ns, is_Some (Namespaces sf !! ns) ↔ ns ∈ order) →
  ExtractClusterCELExpressionsByKind (E:=Empty_set) (Some sf) Controller = Ok clusterFilters →
  ExtractNamespacesByKind (E:=Empty_set) (Some sf) order Controller = Ok namespacesByKinds →
  validOrders r (allKinds clusterFilters namespacesByKinds) orders →
  faults c = [] →
  ReconcileSinkFilter config order orders req c r = (Some tt, c', res) →
  (stuckAt orders = None → ∃ r', res = Ok r') ∧
  ∀ r', res = Ok r' →
    ∀ key w, watches r' !! key = Some w →
      ClusterCel w = clusterCelExpr Controller <$> clusterLastWithKey key (Api.Cluster sf) ∧
      (∀ ns, WatchNamespaces w !! ns =
         (Namespaces sf !! ns ≫= λ rs, namespaceCelExpr Controller <$> lastWithKey key rs)) ∧
      (is_Some (ClusterCel w) ∨ ∃ ns, is_Some (WatchNamespaces w !! ns)).
Proof.
  intros Hsf Hr Hord Hcl Hns Hvo Hf. unfold ReconcileSinkFilter.
  rewrite (get_ok sinkFilters req c Hf), Hsf. cbn [found].
  destruct ((_ ← reconcileClusterRole order sf; reconcileClusterRoleBinding) c) as [[u|] c1];
    [|by intros [= ]].
  rewrite Hcl, Hns. intros [= _ <-].
  apply reachable_wf in Hr. destruct (stuckAt orders) as [k|] eqn:Hs.
  { rewrite (generateWatches_stuck _ _ _ _ _ k Hr Hvo Hs). split; [done|]. by destruct (races _). }
  destruct (generateWatches_step config orders clusterFilters namespacesByKinds r Hr Hvo Hs)
    as (r' & -> & _ & Hw & _).
  split; [by exists r'|]. intros r'' [= <-] key w Hkey. specialize (Hw key).
  assert (key ∈ allKinds clusterFilters namespacesByKinds ∧
    ClusterCel w = clusterFilters !! key ∧ WatchNamespaces w = namespacesOf namespacesByKinds key)
    as (Hin & Hc & Hn).
  { destruct (watches r !! key) as [w0|].
    - destruct (decide (key ∈ allKinds clusterFilters namespacesByKinds)); [|destruct Hw; congruence].
      rewrite Hw in Hkey. injection Hkey as <-. done.
    - destruct (decide (key ∈ allKinds clusterFilters namespacesByKinds)); [|congruence].
      destruct (resolves key); [|congruence]. destruct Hw as (ch & _ & Hw).
      rewrite Hw in Hkey. injection Hkey as <-. unfold newWatchInfo.
      by destruct (parseKindAndAPIVersionFromKey key). }
  assert (∀ ns, WatchNamespaces w !! ns =
    (Namespaces sf !! ns ≫= λ rs, namespaceCelExpr Controller <$> lastWithKey key rs)) as Hnsw.
  { intros ns. rewrite Hn. unfold namespacesOf. injection Hns as <-.
    pose proof (filterOf_extract sf order Controller key ns) as Hfo. unfold filterOf in Hfo.
    destruct (extractNamespacesByKindsList sf order Controller !! key); cbn in Hfo |- *.
    - rewrite Hfo. destruct (decide (ns ∈ order)) as [|Hnin]; [done|].
      destruct (Namespaces sf !! ns) eqn:En; [|done]. destruct Hnin. apply Hord. by rewrite En.
    - rewrite lookup_empty. destruct (decide (ns ∈ order)) as [|Hnin]; [done|].
      destruct (Namespaces sf !! ns) eqn:En; [|done]. destruct Hnin. apply Hord. by rewrite En. }
  split_and!; [|done|].
  - rewrite Hc. by eapply cluster_extract_lookup.
  - unfold allKinds in Hin. apply elem_of_union in Hin as [Hin|Hin]; apply elem_of_dom in Hin.
    + left. by rewrite Hc.
    + right. destruct Hin as [inner Hi]. rewrite Hn. unfold namespacesOf. rewrite Hi. cbn.
      injection Hns as <-. apply extract_inner_nonempty in Hi.
      apply map_choose in Hi as (ns & x & Hx). exists ns. by rewrite Hx.
Qed.

End operator.

(** ** Witnesses: a namespace with one kind, installed and under deletion *)
Definition sampleKac (deleting : bool) : KubeArchiveConfig :=
  {| kac_Namespace := "ns"; kac_Name := "kubearchive"; kac_Deleting := deleting;
     kac_Finalizers := if deleting then [resourceFinalizerName] else [];
     kac_Resources := Some [sampleResource "Pod" "true"] |}.

Definition sampleSinkFilter : SinkFilterSpec :=
  {| Namespaces := {["ns" := [sampleResource "Pod" "true"]]}; Api.Cluster := [] |}.

Definition sampleCluster (deleting : bool) : Cluster :=
  {| roles := ∅; bindings := ∅; accounts := ∅; clusterRoles := ∅; clusterBindings := ∅;
     sinkFilters := {[sinkFilterKey := sampleSinkFilter]};
     kacs := {[("ns", "kubearchive") := sampleKac deleting]}; ckacs := ∅; faults := [] |}.

Definition sampleFaulty : Cluster := setFaults (sampleCluster true) [false; false; false; true].

Definition sampleClusterFilters : gmap string (CelExpressions (O:=sample)) := ∅.
Definition sampleNamespaceFilters : gmap string (gmap string (CelExpressions (O:=sample))) :=
  extractNamespacesByKindsList sampleSinkFilter ["ns"] Controller.

Lemma sample_keyed deleting : keyed (sampleCluster deleting).
Proof.
  split; cbn; intros k x; rewrite ?lookup_empty; try done.
  intros [<- <-]%lookup_singleton_Some. done.
Qed.

Lemma ReconcileKAC_installs_witness :
  ∃ c', ReconcileKAC ("ns", "kubearchive") (sampleCluster false) = (Some tt, c') ∧
    Namespaces (sinkFilterOf c') !! "ns" = Some [sampleResource "Pod" "true"] ∧
    otherFilters "ns" c' = otherFilters "ns" (sampleCluster false) ∧
    (∃ k', kacs c' !! ("ns", "kubearchive") = Some k' ∧
       resourceFinalizerName ∈ kac_Finalizers k' ∧
       kac_Resources k' = kac_Resources (sampleKac false)) ∧
    (∃ r, roles c' !! ("ns", KubeArchiveSinkName) = Some r ∧
       ∀ g p v, grants (role_Rules r) g p v ↔
         v ∈ ["delete"] ∧ ∃ a, a ∈ selectorsOf (sampleCluster false) (sampleKac false) ∧
                               pluralOf a = Some (g, p)) ∧
    (∃ r, roles c' !! ("ns", KubeArchiveVacuumName) = Some r ∧
       ∀ g p v, grants (role_Rules r) g p v ↔
         v ∈ ["get"; "list"] ∧
         ∃ a, a ∈ vacuumConfigSelector :: selectorsOf (sampleCluster false) (sampleKac false) ∧
              pluralOf a = Some (g, p)) ∧
    is_Some (accounts c' !! ("ns", KubeArchiveVacuumName)) ∧
    boundIn c' ("ns", KubeArchiveSinkName) (newSubject KubeArchiveNamespace KubeArchiveSinkName) ∧
    boundIn c' ("ns", KubeArchiveVacuumName) (newSubject "ns" KubeArchiveVacuumName) ∧
    boundIn c' ("ns", KubeArchiveVacuumName)
      (newSubject KubeArchiveNamespace KubeArchiveClusterVacuumName) ∧
    boundIn c' (KubeArchiveNamespace, KubeArchiveVacuumName)
      (newSubject "ns" KubeArchiveVacuumName).
Proof.
  apply (ReconcileKAC_installs (sampleCluster false) ("ns", "kubearchive") (sampleKac false)).
  - apply sample_keyed.
  - reflexivity.
  - vm_compute. reflexivity.
  - reflexivity.
Defined.

Lemma ReconcileKAC_deletion_safe_witness :
  otherFilters "ns" (ReconcileKAC ("ns", "kubearchive") sampleFaulty).2 =
    otherFilters "ns" sampleFaulty ∧
  (kac_Deleting (sampleKac true) = true →
   resourceFinalizerName ∈ kac_Finalizers (sampleKac true) →
   (ReconcileKAC ("ns", "kubearchive") sampleFaulty).1 = Some tt ∨
     kacs (ReconcileKAC ("ns", "kubearchive") sampleFaulty).2 !! ("ns", "kubearchive") ≠
       Some (sampleKac true) →
   Namespaces (sinkFilterOf (ReconcileKAC ("ns", "kubearchive") sampleFaulty).2) !! "ns" = None).
Proof.
  apply (ReconcileKAC_deletion_safe sampleFaulty ("ns", "kubearchive") (sampleKac true)).
  - split; cbn; intros k x; rewrite ?lookup_empty; try done.
    intros [<- <-]%lookup_singleton_Some. done.
  - vm_compute. reflexivity.
  - apply surjective_pairing.
Defined.

Lemma ReconcileKAC_deletion_grants_witness :
  ∃ c', ReconcileKAC ("ns", "kubearchive") (sampleCluster true) = (Some tt, c') ∧
    boundIn c' (KubeArchiveNamespace, KubeArchiveVacuumName)
      (newSubject "ns" KubeArchiveVacuumName).
Proof.
  apply (ReconcileKAC_deletion_grants (sampleCluster true) ("ns", "kubearchive") (sampleKac true)).
  - reflexivity.
  - vm_compute. reflexivity.
  - reflexivity.
  - by left.
  - apply sample_keyed.
  - reflexivity.
Defined.

Lemma ReconcileSinkFilter_filters_witness :
  ∃ r', (ReconcileSinkFilter emptyConfiguration ["ns"] sampleOrders sinkFilterKey
           (sampleCluster false) (initialReconciler (O:=sample))).2 = Ok r' ∧
    ∀ key w, watches r' !! key = Some w →
      ClusterCel w = clusterCelExpr Controller <$> clusterLastWithKey key [] ∧
      (∀ ns, WatchNamespaces w !! ns =
         (Namespaces sampleSinkFilter !! ns ≫= λ rs,
            namespaceCelExpr Controller <$> lastWithKey key rs)) ∧
      (is_Some (ClusterCel w) ∨ ∃ ns, is_Some (WatchNamespaces w !! ns)).
Proof.
  set (run := ReconcileSinkFilter emptyConfiguration ["ns"] sampleOrders sinkFilterKey
    (sampleCluster false) (initialReconciler (O:=sample))).
  refine (match ReconcileSinkFilter_filters emptyConfiguration ["ns"] sampleOrders sinkFilterKey
    (sampleCluster false) (initialReconciler (O:=sample)) sampleSinkFilter
    run.1.2 run.2 sampleClusterFilters sampleNamespaceFilters _ _ _ _ _ _ _ _ with
    | conj Hok Hall =>
        match Hok eq_refl with ex_intro _ r' Hr => ex_intro _ r' (conj Hr (Hall r' Hr)) end
    end).
  - vm_compute. reflexivity.
  - apply rtc_refl.
  - intros ns. rewrite <-elem_of_dom, list_elem_of_singleton. cbn [Namespaces sampleSinkFilter].
    rewrite dom_singleton_L. apply elem_of_singleton.
  - reflexivity.
  - reflexivity.
  - split_and!; apply (bool_decide_unpack _); vm_compute; reflexivity.
  - reflexivity.
  - vm_compute. reflexivity.
Defined.
