(* ===== verification/Webhooks.v ===== *)
(** * [cmd/operator/api/v1]: the admission webhooks

    [kubearchiveconfig_webhook.go], [clusterkubearchiveconfig_webhook.go],
    [sinkfilter_webhook.go], [namespacevacuumconfig_webhook.go] and
    [clustervacuumconfig_webhook.go]: the defaults and the checks of the custom
    resources.  A check gives the list of errors that [errors.Join] joins, which it prints
    one after another, nested ones too: none accepts the object. *)
From S2P Require Import Prelude GoLib GoStrings Api Cel Operator.

(** ** Libraries *)

(** Whether evaluating a program on the empty object gives an error that [errors.Is]
    the conversion of a string to a duration. *)
Class DurationEval (O : Type) `{!CelEnv O} := { BadConversion : Program → bool }.

(** The custom resources as the clients of the webhooks give them, by name and by
    namespace and name; an error of the conversion counts as one of the request. *)
Class ConfigClient := {
  GetCKAC : string → GetResult ClusterKubeArchiveConfig;
  GetKAC : string → string → GetResult KubeArchiveConfig;
}.

(** The [vacuum] resources of the API, as far as the webhooks read them. *)
Record NamespaceVacuumConfig := { nv_Namespace : string; nv_Spec : NamespaceVacuumConfigSpec }.
Record ClusterVacuumConfig := { cv_Namespace : string; cv_Spec : ClusterVacuumConfigSpec }.
Record SinkFilter := { sf_Namespace : string; sf_Name : string; sf_Spec : SinkFilterSpec }.

Inductive WebhookError :=
| UnexpectedObject
| ForbiddenNamespace (ns : string) | BadName (name : string) | BadNamespace (ns : string)
| FetchFailed (ns : string)
| BadExpression (expr : string) | BadDuration (expr : string)
| AtRule (i : nat) (e : WebhookError)
| WhenRequired (i : nat) | DuplicateWhen (i : nat) (j : nat) | NegativeCount (i : nat)
| MatchesClusterRule (i : nat) (name : string)
| OverrideWithoutCluster | NoMatchingResource (resourceIdx : nat) (selector : APIVersionKind)
| OverrideNameRequired (i : nat) | NegativeOverrideCount (i : nat)
| UnknownOverride (i : nat) (name : string)
| OverrideTooLarge (i : nat) (count : Z) (name : string) (clusterCount : Z)
| NameRequired (i : nat) | DuplicateName (i : nat) (name : string) (j : nat)
| DuplicateClusterWhen (i : nat) (name : string)
| NotConfigured (ns : string) (resource : APIVersionKind).

(** ** Defaults *)

Definition defaultSortBy (sortBy : string) : string :=
  if String.eqb sortBy "" then "metadata.creationTimestamp" else sortBy.

Definition DefaultKAC (kac : KubeArchiveConfig) : KubeArchiveConfig :=
  let defaultKeep rule :=
    {| keep_Count := keep_Count rule; keep_When := keep_When rule;
       keep_SortBy := defaultSortBy (keep_SortBy rule) |} in
  let defaultResource r :=
    {| kac_Selector := kac_Selector r; kac_ArchiveWhen := kac_ArchiveWhen r;
       kac_DeleteWhen := kac_DeleteWhen r; kac_ArchiveOnDelete := kac_ArchiveOnDelete r;
       kac_KeepLastWhen :=
         (λ c, {| Keep := map defaultKeep (Keep c); Override := Override c |})
         <$> kac_KeepLastWhen r |} in
  {| kac_Namespace := kac_Namespace kac; kac_Name := kac_Name kac;
     kac_Deleting := kac_Deleting kac; kac_Finalizers := kac_Finalizers kac;
     kac_Resources := map defaultResource <$> kac_Resources kac |}.

Definition DefaultCKAC (ckac : ClusterKubeArchiveConfig) : ClusterKubeArchiveConfig :=
  let defaultKeep rule :=
    {| ckeep_Name := ckeep_Name rule; ckeep_Count := ckeep_Count rule;
       ckeep_When := ckeep_When rule; ckeep_SortBy := defaultSortBy (ckeep_SortBy rule) |} in
  let defaultResource r :=
    {| ckac_Selector := ckac_Selector r; ckac_ArchiveWhen := ckac_ArchiveWhen r;
       ckac_DeleteWhen := ckac_DeleteWhen r; ckac_ArchiveOnDelete := ckac_ArchiveOnDelete r;
       ckac_KeepLastWhen := map defaultKeep (ckac_KeepLastWhen r) |} in
  {| ckac_Name := ckac_Name ckac; ckac_Deleting := ckac_Deleting ckac;
     ckac_Finalizers := ckac_Finalizers ckac;
     ckac_Resources := map defaultResource (ckac_Resources ckac) |}.

(** ** Durations *)

(** [regexp]: the length of the match of the pattern, the word [duration], spaces and
    an opening parenthesis, at the start of a text. *)
Fixpoint spacesThenParen (s : string) : option nat :=
  match s with
  | EmptyString => None
  | String c s =>
      if Ascii.eqb c "(" then Some 1%nat
      else if Ascii.eqb c " " then S <$> spacesThenParen s
      else None
  end.

Definition durationAt (s : string) : option nat :=
  if HasPrefix s "duration" then Nat.add 8 <$> spacesThenParen (sdrop 8 s) else None.

(** [FindAllStringIndex]: the matches that do not overlap, from the left, each with the
    text from its start and its length; [skip] bytes belong to the last one. *)
Fixpoint durationsFrom (skip : nat) (s : string) : list (string * nat) :=
  match s with
  | EmptyString => []
  | String _ s' =>
      match skip with
      | S skip => durationsFrom skip s'
      | O =>
          match durationAt s with
          | Some n => (s, n) :: durationsFrom (n - 1) s'
          | None => durationsFrom 0 s'
          end
      end
  end.

(** The bytes up to the parenthesis that closes the count. *)
Fixpoint closingParen (innerParenCount : Z) (s : string) : option nat :=
  match s with
  | EmptyString => None
  | String c s =>
      let innerParenCount :=
        if Ascii.eqb c "(" then (innerParenCount + 1)%Z
        else if Ascii.eqb c ")" then (innerParenCount - 1)%Z
        else innerParenCount in
      if (innerParenCount =? 0)%Z then Some 1%nat else S <$> closingParen innerParenCount s
  end.

Definition getDurationCalls (expr : string) : list string :=
  omap (λ loc, (λ k, String.substring 0 (loc.2 + k) loc.1) <$> closingParen 1 (sdrop loc.2 loc.1))
       (durationsFrom 0 expr).

Definition normalizeString (s : string) : string := Join " "%char (Fields s).

Section webhooks.
  Context {O : Type} `{!CelEnv O, !DurationEval O}.

Definition validateDurationString (expr : string) : list WebhookError :=
  mbind (M:=list) (λ m,
    match CompileCELExpr m with
    | None => [BadExpression m]
    | Some prg => if BadConversion prg then [BadDuration m] else []
    end) (getDurationCalls expr).

(** An expression and the durations in it. *)
Definition compileErrors (expr : string) : list WebhookError :=
  match CompileCELExpr expr with
  | None => [BadExpression expr]
  | Some _ => validateDurationString expr
  end.

Definition validateExpression (expr : string) : list WebhookError :=
  if String.eqb expr "" then [] else compileErrors expr.

(** ** [kubearchiveconfig_webhook.go] *)

(** The loop over the rules to keep, from the [i]-th on. *)
Fixpoint validateKeep (i : nat) (seenKeepCELExpressions : gmap string nat)
    (rules : list KeepLastKeepRule) : list WebhookError :=
  match rules with
  | [] => []
  | rule :: rules =>
      let when := normalizeString (keep_When rule) in
      (if String.eqb when "" then [WhenRequired i]
       else map (AtRule i) (compileErrors when) ++
            match seenKeepCELExpressions !! when with
            | Some existingIdx => [DuplicateWhen i existingIdx]
            | None => []
            end) ++
      (if (keep_Count rule <? 0)%Z then [NegativeCount i] else []) ++
      validateKeep (S i)
        (if String.eqb when "" then seenKeepCELExpressions
         else match seenKeepCELExpressions !! when with
              | Some _ => seenKeepCELExpressions
              | None => <[when := i]> seenKeepCELExpressions
              end) rules
  end.

Definition matchingClusterResource (ckac : ClusterKubeArchiveConfig) (selector : APIVersionKind)
    : option ClusterKubeArchiveConfigResource :=
  head (filter (λ r, Kind (ckac_Selector r) = Kind selector ∧
                     APIVersion (ckac_Selector r) = APIVersion selector) (ckac_Resources ckac)).

(** Rules to keep that a rule of the cluster has the condition of. *)
Definition validateAgainstCluster (keep : list KeepLastKeepRule)
    (matching : ClusterKubeArchiveConfigResource) : list WebhookError :=
  let clusterRuleCELs : gmap string string :=
    foldl (λ m clusterRule, <[normalizeString (ckeep_When clusterRule) := ckeep_Name clusterRule]> m)
          ∅ (ckac_KeepLastWhen matching) in
  concat (imap (λ i keepRule,
    match clusterRuleCELs !! normalizeString (keep_When keepRule) with
    | Some clusterRuleName => [MatchesClusterRule i clusterRuleName]
    | None => []
    end) keep).

Definition validateOverrides (overrides : list KeepLastOverrideRule)
    (matching : ClusterKubeArchiveConfigResource) : list WebhookError :=
  let clusterRules : gmap string Z :=
    foldl (λ m clusterRule, <[ckeep_Name clusterRule := ckeep_Count clusterRule]> m)
          ∅ (ckac_KeepLastWhen matching) in
  concat (imap (λ i override,
    if String.eqb (override_Name override) "" then [OverrideNameRequired i]
    else if (override_Count override <? 0)%Z then [NegativeOverrideCount i]
    else
      match clusterRules !! override_Name override with
      | None => [UnknownOverride i (override_Name override)]
      | Some clusterCount =>
          if (clusterCount <? override_Count override)%Z
          then [OverrideTooLarge i (override_Count override) (override_Name override) clusterCount]
          else []
      end) overrides).

(** The [KeepLastWhen] of a resource; [ckac] is the configuration of the cluster, when
    there is one. *)
Definition validateKeepLastWhen (ckac : option ClusterKubeArchiveConfig) (resourceIdx : nat)
    (selector : APIVersionKind) (c : KeepLastWhenConfig) : list WebhookError :=
  validateKeep 0 ∅ (Keep c) ++
  match ckac with
  | Some ckac =>
      match matchingClusterResource ckac selector with
      | Some matching => validateAgainstCluster (Keep c) matching
      | None => []
      end
  | None => []
  end ++
  if (0 <? length (Override c))%nat then
    match ckac with
    | None => [OverrideWithoutCluster]
    | Some ckac =>
        match matchingClusterResource ckac selector with
        | None => [NoMatchingResource resourceIdx selector]
        | Some matching => validateOverrides (Override c) matching
        end
    end
  else [].

Definition validateResource (ckac : option ClusterKubeArchiveConfig) (resourceIdx : nat)
    (resource : KubeArchiveConfigResource) : list WebhookError :=
  validateExpression (kac_ArchiveWhen resource) ++
  validateExpression (kac_DeleteWhen resource) ++
  validateExpression (kac_ArchiveOnDelete resource) ++
  match kac_KeepLastWhen resource with
  | Some c => validateKeepLastWhen ckac resourceIdx (kac_Selector resource) c
  | None => []
  end.

Definition hasKeepLastWhen (resource : KubeArchiveConfigResource) : bool :=
  match kac_KeepLastWhen resource with Some _ => true | None => false end.

Definition validateKAC `{!Environment, !ConfigClient} (kac : KubeArchiveConfig)
    : list WebhookError :=
  let resources := default [] (kac_Resources kac) in
  if String.eqb (kac_Namespace kac) KubeArchiveNamespace
  then [ForbiddenNamespace (kac_Namespace kac)]
  else
    let nameErrors :=
      if String.eqb (kac_Name kac) "kubearchive" then [] else [BadName (kac_Name kac)] in
    let needsClusterConfig := existsb hasKeepLastWhen resources in
    match (if needsClusterConfig then GetCKAC "kubearchive" else NotFound) with
    | GetError => [FetchFailed ""]
    | NotFound => nameErrors ++ concat (imap (validateResource None) resources)
    | Found ckac => nameErrors ++ concat (imap (validateResource (Some ckac)) resources)
    end.

(** ** [clusterkubearchiveconfig_webhook.go] *)

Fixpoint validateClusterKeep (i : nat) (seenCELExpressions : gmap string string)
    (seenNames : gmap string nat) (rules : list ClusterKeepLastRule) : list WebhookError :=
  match rules with
  | [] => []
  | rule :: rules =>
      let name := ckeep_Name rule in
      let when := normalizeString (ckeep_When rule) in
      (if String.eqb name "" then [NameRequired i]
       else match seenNames !! name with
            | Some existingIdx => [DuplicateName i name existingIdx]
            | None => []
            end) ++
      (if String.eqb when "" then [WhenRequired i]
       else map (AtRule i) (compileErrors when) ++
            match seenCELExpressions !! when with
            | Some existingRuleName => [DuplicateClusterWhen i existingRuleName]
            | None => []
            end) ++
      (if (ckeep_Count rule <? 0)%Z then [NegativeCount i] else []) ++
      validateClusterKeep (S i)
        (if String.eqb when "" then seenCELExpressions
         else match seenCELExpressions !! when with
              | Some _ => seenCELExpressions
              | None => <[when := name]> seenCELExpressions
              end)
        (if String.eqb name "" then seenNames
         else match seenNames !! name with
              | Some _ => seenNames
              | None => <[name := i]> seenNames
              end) rules
  end.

Definition validateClusterResource (resource : ClusterKubeArchiveConfigResource)
    : list WebhookError :=
  validateExpression (ckac_ArchiveWhen resource) ++
  validateExpression (ckac_DeleteWhen resource) ++
  validateExpression (ckac_ArchiveOnDelete resource) ++
  validateClusterKeep 0 ∅ ∅ (ckac_KeepLastWhen resource).

Definition validateCKAC (ckac : ClusterKubeArchiveConfig) : list WebhookError :=
  (if String.eqb (ckac_Name ckac) "kubearchive" then [] else [BadName (ckac_Name ckac)]) ++
  mbind (M:=list) validateClusterResource (ckac_Resources ckac).

(** ** [sinkfilter_webhook.go] *)

(** Here the durations are not looked at. *)
Definition compilesOrEmpty (expr : string) : list WebhookError :=
  if String.eqb expr "" then []
  else match CompileCELExpr expr with None => [BadExpression expr] | Some _ => [] end.

Definition validateSinkFilter `{!Environment, !MapRange} (sf : SinkFilter) : list WebhookError :=
  (if String.eqb (sf_Name sf) SinkFilterResourceName then [] else [BadName (sf_Name sf)]) ++
  (if String.eqb (sf_Namespace sf) KubeArchiveNamespace then [] else [BadNamespace (sf_Namespace sf)]) ++
  mbind (M:=list) (λ resources : string * list KubeArchiveConfigResource,
    mbind (M:=list) (λ resource,
      compilesOrEmpty (kac_ArchiveWhen resource) ++ compilesOrEmpty (kac_DeleteWhen resource) ++
      compilesOrEmpty (kac_ArchiveOnDelete resource)) resources.2)
    (range (map_to_list (Namespaces (sf_Spec sf)))).
End webhooks.

(** ** [namespacevacuumconfig_webhook.go], [clustervacuumconfig_webhook.go] *)

Section vacuums.
  Context `{!ConfigClient}.

(** The selectors the cluster configures, the empty list when there is no
    configuration; [None] is an error. *)
Definition getGlobalResourceSet : option (list APIVersionKind) :=
  match GetCKAC KubeArchiveConfigResourceName with
  | NotFound => Some []
  | GetError => None
  | Found ckac => Some (map ckac_Selector (ckac_Resources ckac))
  end.

Definition getNamespaceResourceSet (namespace : string) : option (list APIVersionKind) :=
  match GetKAC namespace KubeArchiveConfigResourceName with
  | Found kac => Some (map kac_Selector (default [] (kac_Resources kac)))
  | _ => None
  end.

Definition validateResources (namespace : string) (resources : list APIVersionKind)
    : list WebhookError :=
  match getGlobalResourceSet with
  | None => [FetchFailed ""]
  | Some gres =>
      match getNamespaceResourceSet namespace with
      | None => [FetchFailed namespace]
      | Some nres =>
          mbind (M:=list) (λ resource,
            if bool_decide (resource ∈ gres) || bool_decide (resource ∈ nres) then []
            else [NotConfigured namespace resource]) resources
      end
  end.

Definition validateNamespaceVacuumConfig (cv : NamespaceVacuumConfig) : list WebhookError :=
  validateResources (nv_Namespace cv) (nvc_Resources (nv_Spec cv)).

Definition validateClusterVacuumConfig `{!Environment, !MapRange} (cv : ClusterVacuumConfig)
    : list WebhookError :=
  (if String.eqb (cv_Namespace cv) KubeArchiveNamespace then []
   else [BadNamespace (cv_Namespace cv)]) ++
  mbind (M:=list) (λ e : string * NamespaceVacuumConfigSpec,
    if String.eqb e.1 ClusterVacuumAllNamespaces then []
    else validateResources e.1 (nvc_Resources e.2))
    (range (map_to_list (cvc_Namespaces (cv_Spec cv)))).
End vacuums.

(** ** The handlers

    [ValidateCreate], [ValidateUpdate] and [ValidateDelete] of each kind; an update is
    given the new object, [None] is an object of another type. *)
Inductive Operation := Create | Update | Delete.

Definition handle {T} (validate : T → list WebhookError) (op : Operation) (obj : option T)
    : list WebhookError :=
  match obj with
  | None => [UnexpectedObject]
  | Some obj => match op with Delete => [] | _ => validate obj end
  end.

Section handlers.
  Context {O : Type} `{!CelEnv O, !DurationEval O, !Environment, !ConfigClient, !MapRange}.

Definition ValidateKAC : Operation → option KubeArchiveConfig → list WebhookError :=
  handle validateKAC.

Definition ValidateCKAC : Operation → option ClusterKubeArchiveConfig → list WebhookError :=
  handle validateCKAC.

Definition ValidateSinkFilter : Operation → option SinkFilter → list WebhookError :=
  handle validateSinkFilter.

Definition ValidateNamespaceVacuumConfig : Operation → option NamespaceVacuumConfig → list WebhookError :=
  handle validateNamespaceVacuumConfig.

Definition ValidateClusterVacuumConfig : Operation → option ClusterVacuumConfig → list WebhookError :=
  handle validateClusterVacuumConfig.
End handlers.
