(* ===== verification/WebhookFacts.v ===== *)
(** * What the admission webhooks accept, and what the vacuum makes of it *)
From S2P Require Import Prelude GoLib GoStrings Api Cel Operator Filters Keepers KeeperFacts Webhooks Samples.

(** ** Durations *)

Lemma spacesThenParen_chars s n i :
  spacesThenParen s = Some n → (i < n)%nat → String.get i s ≠ Some "d"%char.
Proof.
  revert n i. induction s as [|c s IH]; intros n i; [done|]. cbn.
  destruct (Ascii.eqb_spec c "(") as [->|_]; [intros [= <-]; by destruct i; [|lia]|].
  destruct (Ascii.eqb_spec c " ") as [->|_]; [|done].
  destruct (spacesThenParen s) as [m|]; [|done]. cbn. intros [= <-] Hi.
  destruct i as [|i]; [done|]. apply (IH m); [done|lia].
Qed.

Lemma sdrop_get n s i : String.get i (sdrop n s) = String.get (n + i) s.
Proof. revert s; induction n as [|n IH]; intros [|c s]; try done; apply IH. Qed.

(** Only the first byte of a match is a [d]. *)
Lemma durationAt_chars s n i :
  durationAt s = Some n → (0 < i < n)%nat → String.get i s ≠ Some "d"%char.
Proof.
  unfold durationAt. destruct (HasPrefix s "duration") eqn:Hp; [|done].
  apply HasPrefix_spec in Hp as [t ->].
  destruct (spacesThenParen _) as [m|] eqn:Em; [|done]. cbn [fmap option_fmap option_map].
  intros [= <-] [H0 Hi]. destruct (decide (i < 8)%nat).
  - do 8 (destruct i as [|i]; [done || lia|]). lia.
  - replace i with (8 + (i - 8))%nat by lia. rewrite <-(sdrop_get 8).
    apply (spacesThenParen_chars _ m); [done|lia].
Qed.

Lemma durationAt_pos s n : durationAt s = Some n → (0 < n)%nat.
Proof.
  unfold durationAt. destruct (HasPrefix s "duration"); [|done].
  destruct (spacesThenParen _); [|done]. cbn. intros [= <-]. lia.
Qed.

Lemma durationAt_d s n : durationAt s = Some n → String.get 0 s = Some "d"%char.
Proof.
  unfold durationAt. destruct (HasPrefix s "duration") eqn:Hp; [|done].
  by apply HasPrefix_spec in Hp as [t ->].
Qed.

(** No match is missed: one that starts earlier ends before it. *)
Lemma durationsFrom_complete pre s n skip :
  durationAt s = Some n → (skip ≤ String.length pre)%nat →
  (s, n) ∈ durationsFrom skip (pre +:+ s).
Proof.
  intros Hn. revert skip. induction pre as [|c pre IH]; intros skip Hs.
  - cbn in Hs. replace skip with 0%nat by lia. rewrite string_app_nil.
    destruct s as [|c s]; [done|]. cbn [durationsFrom]. rewrite Hn. by left.
  - rewrite string_app_cons. cbn [durationsFrom]. cbn in Hs.
    destruct skip as [|skip]; [|apply IH; lia].
    destruct (durationAt (String c (pre +:+ s))) as [m|] eqn:Em; [|apply IH; lia].
    right. apply IH. destruct (decide (m ≤ S (String.length pre)))%nat as [|Hm]; [lia|].
    exfalso. apply (durationAt_chars _ m (S (String.length pre)) Em); [lia|].
    cbn. change (String.length pre) with (0 + String.length pre)%nat.
    rewrite <-String.append_correct2. by eapply durationAt_d.
Qed.

Lemma closingParen_prefix k s post j :
  closingParen k s = Some j → closingParen k (s +:+ post) = Some j.
Proof.
  revert k j. induction s as [|c s IH]; intros k j; [done|]. rewrite string_app_cons. cbn.
  destruct (_ =? 0)%Z; [done|]. destruct (closingParen _ s) as [m|] eqn:Em; [|done].
  by rewrite (IH _ m).
Qed.

(** A call: its head, and what is read up to the parenthesis that closes it. *)
Definition durationCall (head body : string) : Prop :=
  durationAt head = Some (String.length head) ∧
  closingParen 1 body = Some (String.length body).

Lemma durationAt_app s t n : durationAt s = Some n → durationAt (s +:+ t) = Some n.
Proof.
  unfold durationAt. destruct (HasPrefix s "duration") eqn:Hp; [|done].
  apply HasPrefix_spec in Hp as [u ->]. rewrite string_app_assoc, HasPrefix_app.
  change 8%nat with (String.length "duration"). rewrite !sdrop_app.
  generalize (String.length "duration"). intros k.
  enough (∀ m, spacesThenParen u = Some m → spacesThenParen (u +:+ t) = Some m) as Hu.
  { destruct (spacesThenParen u) as [m|] eqn:Em; [|done]. by rewrite (Hu m). }
  induction u as [|c u IH]; intros m; [done|]. rewrite string_app_cons. cbn.
  destruct (Ascii.eqb c "("); [done|]. destruct (Ascii.eqb c " "); [|done].
  destruct (spacesThenParen u) as [j|]; [|done]. by rewrite (IH j).
Qed.

Lemma getDurationCalls_complete pre head body post :
  durationCall head body → head +:+ body ∈ getDurationCalls (pre +:+ head +:+ body +:+ post).
Proof.
  intros [Hh Hb]. unfold getDurationCalls. apply list_elem_of_omap.
  exists (head +:+ body +:+ post, String.length head). split.
  - apply durationsFrom_complete; [by apply durationAt_app|lia].
  - cbn [fst snd]. rewrite sdrop_app, (closingParen_prefix _ _ _ _ Hb). cbn.
    rewrite <-string_app_assoc, <-string_length_app. f_equal. apply substring_app.
Qed.

(** ** What is accepted *)

Lemma map_nil {A B} (f : A → B) l : map f l = [] ↔ l = [].
Proof. by destruct l. Qed.

Section accepted.
  Context {O : Type} `{!CelEnv O, !DurationEval O}.

(** An expression compiles, and so do the durations in it, which are durations. *)
Definition sound (expr : string) : Prop :=
  (∃ p, CompileCELExpr expr = Some p) ∧
  ∀ d, d ∈ getDurationCalls expr → ∃ q, CompileCELExpr d = Some q ∧ BadConversion q = false.

Definition soundOrEmpty (expr : string) : Prop := expr = "" ∨ sound expr.

Lemma compileErrors_nil expr : compileErrors expr = [] ↔ sound expr.
Proof.
  unfold compileErrors, sound, validateDurationString.
  destruct (CompileCELExpr expr) as [p|]; [|naive_solver].
  rewrite bind_nil. split.
  - intros Hd. split; [eauto|]. intros d Hin. specialize (Hd d Hin).
    destruct (CompileCELExpr d) as [q|]; [|done]. exists q. by destruct (BadConversion q).
  - intros [_ Hd] d Hin. by destruct (Hd d Hin) as (q & -> & ->).
Qed.

Lemma validateExpression_nil expr : validateExpression expr = [] ↔ soundOrEmpty expr.
Proof.
  unfold validateExpression, soundOrEmpty. case_eqb; [naive_solver|].
  rewrite compileErrors_nil. naive_solver.
Qed.

(** A condition as the webhooks read it. *)
Definition soundWhen (when : string) : Prop := normalizeString when ≠ "" ∧ sound (normalizeString when).

Definition whenOf (rule : KeepLastKeepRule) : string := normalizeString (keep_When rule).
Definition clusterWhenOf (rule : ClusterKeepLastRule) : string := normalizeString (ckeep_When rule).

Lemma validateKeep_nil i (seen : gmap string nat) rules :
  validateKeep i seen rules = [] ↔
  Forall (λ rule, soundWhen (keep_When rule) ∧ (0 <= keep_Count rule)%Z) rules ∧
  NoDup (whenOf <$> rules) ∧ ∀ w, w ∈ whenOf <$> rules → seen !! w = None.
Proof.
  revert i seen. induction rules as [|rule rules IH]; intros i seen.
  { cbn. split; [intros _|done]. split_and!; [constructor..|by intros w ?%not_elem_of_nil]. }
  cbn [validateKeep fmap list_fmap]. rewrite !app_nil, IH, Forall_cons, NoDup_cons.
  unfold soundWhen. fold (whenOf rule).
  assert ((if (keep_Count rule <? 0)%Z then [NegativeCount i] else []) = [] ↔
    (0 <= keep_Count rule)%Z) as ->.
  { destruct (Z.ltb_spec (keep_Count rule) 0); split; (done || lia). }
  case_eqb; [naive_solver|]. rewrite app_nil, map_nil, compileErrors_nil.
  destruct (seen !! whenOf rule) as [j|] eqn:Es.
  - split; [naive_solver|]. intros (_ & _ & Hs). rewrite Hs in Es; [done|by left].
  - split.
    + intros ([Hw _] & Hc & Hr & Hn & Hs). split_and!; [done..| |done|].
      * intros Hin. specialize (Hs _ Hin). by rewrite lookup_insert_eq in Hs.
      * intros w [->|Hw']%elem_of_cons; [done|]. specialize (Hs w Hw').
        by apply lookup_insert_None in Hs as [? _].
    + intros ([[[Hw Hw'] Hc] Hr] & [Hn Hd] & Hs). split_and!; [done..|].
      intros w Hw0. apply lookup_insert_None. split; [apply Hs; by right|]. intros <-. done.
Qed.

Lemma validateClusterKeep_nil i (seen : gmap string string) (names : gmap string nat) rules :
  validateClusterKeep i seen names rules = [] ↔
  Forall (λ rule, ckeep_Name rule ≠ "" ∧ soundWhen (ckeep_When rule) ∧ (0 <= ckeep_Count rule)%Z) rules ∧
  (NoDup (clusterWhenOf <$> rules) ∧ ∀ w, w ∈ clusterWhenOf <$> rules → seen !! w = None) ∧
  (NoDup (ckeep_Name <$> rules) ∧ ∀ n, n ∈ ckeep_Name <$> rules → names !! n = None).
Proof.
  revert i seen names. induction rules as [|rule rules IH]; intros i seen names.
  { cbn. split; [intros _|done].
    split_and!; (constructor || by intros w ?%not_elem_of_nil). }
  cbn [validateClusterKeep fmap list_fmap]. rewrite !app_nil, IH, Forall_cons, !NoDup_cons.
  unfold soundWhen. fold (clusterWhenOf rule).
  assert ((if (ckeep_Count rule <? 0)%Z then [NegativeCount i] else []) = [] ↔
    (0 <= ckeep_Count rule)%Z) as ->.
  { destruct (Z.ltb_spec (ckeep_Count rule) 0); split; (done || lia). }
  destruct (String.eqb_spec (ckeep_Name rule) "") as [En|En]; [naive_solver|].
  case_eqb; [naive_solver|]. rewrite app_nil, map_nil, compileErrors_nil.
  destruct (names !! ckeep_Name rule) as [j|] eqn:Ej.
  { split; [naive_solver|]. intros (_ & _ & _ & Hs). rewrite Hs in Ej; [done|by left]. }
  destruct (seen !! clusterWhenOf rule) as [j|] eqn:Es.
  { split; [naive_solver|]. intros (_ & [_ Hs] & _). rewrite Hs in Es; [done|by left]. }
  split.
  - intros (_ & [Hw _] & Hc & Hr & [Hd Hs] & Hd' & Hs'). split_and!; try done.
    + intros Hin. specialize (Hs _ Hin). by rewrite lookup_insert_eq in Hs.
    + intros w [->|Hw']%elem_of_cons; [done|]. specialize (Hs w Hw').
      by apply lookup_insert_None in Hs as [? _].
    + intros Hin. specialize (Hs' _ Hin). by rewrite lookup_insert_eq in Hs'.
    + intros w [->|Hw']%elem_of_cons; [done|]. specialize (Hs' w Hw').
      by apply lookup_insert_None in Hs' as [? _].
  - intros ([(_ & [_ Hw] & Hc) Hr] & [[Hn Hd] Hs] & [Hn' Hd'] & Hs'). split_and!; try done.
    + intros w Hw0. apply lookup_insert_None. split; [apply Hs; by right|]. intros <-. done.
    + intros w Hw0. apply lookup_insert_None. split; [apply Hs'; by right|]. intros <-. done.
Qed.

(** *** A resource of a namespace *)

(** The rule of the cluster that an override of a name is held against. *)
Definition clusterRuleOf (matching : ClusterKubeArchiveConfigResource) (name : string)
    : option ClusterKeepLastRule :=
  last (filter (λ r, ckeep_Name r = name) (ckac_KeepLastWhen matching)).

Definition matchingOf (ckac : option ClusterKubeArchiveConfig) (selector : APIVersionKind)
    : option ClusterKubeArchiveConfigResource :=
  ckac ≫= λ k, matchingClusterResource k selector.

(** The rules to keep are sound and differ from each other and from the cluster's; an
    override names a rule of the cluster and does not raise its count. *)
Record keepAccepted (matching : option ClusterKubeArchiveConfigResource)
    (c : KeepLastWhenConfig) : Prop := {
  keep_sound : Forall (λ rule, soundWhen (keep_When rule) ∧ (0 <= keep_Count rule)%Z) (Keep c);
  keep_distinct : NoDup (whenOf <$> Keep c);
  keep_new m : matching = Some m → ∀ rule, rule ∈ Keep c →
    whenOf rule ∉ clusterWhenOf <$> ckac_KeepLastWhen m;
  override_known o : o ∈ Override c → ∃ m r, matching = Some m ∧
    override_Name o ≠ "" ∧ clusterRuleOf m (override_Name o) = Some r ∧
    (0 <= override_Count o <= ckeep_Count r)%Z;
}.

Record resourceAccepted (ckac : option ClusterKubeArchiveConfig) (r : KubeArchiveConfigResource)
    : Prop := {
  archive_sound : soundOrEmpty (kac_ArchiveWhen r);
  delete_sound : soundOrEmpty (kac_DeleteWhen r);
  archiveOnDelete_sound : soundOrEmpty (kac_ArchiveOnDelete r);
  keepLastWhen_accepted c : kac_KeepLastWhen r = Some c →
    keepAccepted (matchingOf ckac (kac_Selector r)) c;
}.

Lemma last_filter_None {A} (P : A → Prop) `{!∀ x, Decision (P x)} (l : list A) :
  last (filter P l) = None ↔ ∀ x, x ∈ l → ¬ P x.
Proof.
  rewrite last_None. split; [|apply filter_none].
  intros Hf x Hx HP. assert (x ∈ filter P l) as Hin by (by apply list_elem_of_filter).
  rewrite Hf in Hin. by apply not_elem_of_nil in Hin.
Qed.

Lemma validateAgainstCluster_nil keep matching :
  validateAgainstCluster keep matching = [] ↔
  ∀ rule, rule ∈ keep → whenOf rule ∉ clusterWhenOf <$> ckac_KeepLastWhen matching.
Proof.
  unfold validateAgainstCluster. rewrite concat_imap_nil. setoid_rewrite foldl_insert_last.
  assert (∀ rule, last (filter (λ a, normalizeString (ckeep_When a) = normalizeString (keep_When rule))
      (ckac_KeepLastWhen matching)) = None ↔
    whenOf rule ∉ clusterWhenOf <$> ckac_KeepLastWhen matching) as Hl.
  { intros rule. rewrite last_filter_None, list_elem_of_fmap. unfold whenOf, clusterWhenOf. naive_solver. }
  split.
  - intros Hf rule [i Hi]%list_elem_of_lookup. specialize (Hf i rule Hi). apply Hl.
    by destruct (last _).
  - intros Hf i rule Hi. rewrite (proj2 (Hl rule)); [done|].
    apply Hf. by eapply list_elem_of_lookup_2.
Qed.

Lemma validateOverrides_nil overrides matching :
  validateOverrides overrides matching = [] ↔
  ∀ o, o ∈ overrides → ∃ r, override_Name o ≠ "" ∧ clusterRuleOf matching (override_Name o) = Some r ∧
    (0 <= override_Count o <= ckeep_Count r)%Z.
Proof.
  unfold validateOverrides, clusterRuleOf. rewrite concat_imap_nil. setoid_rewrite foldl_insert_last.
  split.
  - intros Hf o [i Hi]%list_elem_of_lookup. specialize (Hf i o Hi). revert Hf.
    case_eqb; [done|]. destruct (Z.ltb_spec (override_Count o) 0); [done|].
    destruct (last _) as [r|]; [|done]. cbn. destruct (Z.ltb_spec (ckeep_Count r) (override_Count o)); [done|].
    intros _. exists r. split_and!; (done || lia).
  - intros Hf i o Hi. destruct (Hf o) as (r & Hn & -> & Hc); [by eapply list_elem_of_lookup_2|]. cbn.
    rewrite (proj2 (String.eqb_neq _ _) Hn). rewrite (proj2 (Z.ltb_ge _ _)) by lia.
    by rewrite (proj2 (Z.ltb_ge _ _)) by lia.
Qed.

Lemma validateKeepLastWhen_nil ckac i selector c :
  validateKeepLastWhen ckac i selector c = [] ↔ keepAccepted (matchingOf ckac selector) c.
Proof.
  unfold validateKeepLastWhen. rewrite !app_nil, validateKeep_nil.
  assert (∀ w, w ∈ whenOf <$> Keep c → (∅ : gmap string nat) !! w = None) as He
    by (intros; apply lookup_empty).
  assert (match ckac with
          | Some ckac => match matchingClusterResource ckac selector with
                         | Some m => validateAgainstCluster (Keep c) m | None => [] end
          | None => [] end = [] ↔
    ∀ m, matchingOf ckac selector = Some m → ∀ rule, rule ∈ Keep c →
      whenOf rule ∉ clusterWhenOf <$> ckac_KeepLastWhen m) as ->.
  { destruct ckac as [k|]; cbn; [|naive_solver].
    destruct (matchingClusterResource k selector) as [m|]; [|naive_solver].
    rewrite validateAgainstCluster_nil. naive_solver. }
  assert ((if (0 <? length (Override c))%nat then
             match ckac with
             | None => [OverrideWithoutCluster]
             | Some ckac => match matchingClusterResource ckac selector with
                            | None => [NoMatchingResource i selector]
                            | Some m => validateOverrides (Override c) m end end
           else []) = [] ↔
    ∀ o, o ∈ Override c → ∃ m r, matchingOf ckac selector = Some m ∧ override_Name o ≠ "" ∧
      clusterRuleOf m (override_Name o) = Some r ∧ (0 <= override_Count o <= ckeep_Count r)%Z) as ->.
  { destruct (Override c) as [|o os] eqn:Eo.
    { split; [|done]. by intros _ o ?%not_elem_of_nil. }
    cbn [length Nat.ltb Nat.leb]. assert (o ∈ o :: os) as Hin by (by left).
    unfold matchingOf. destruct ckac as [k|]; cbn [mbind option_bind].
    2:{ split; [done|]. intros Hf. by destruct (Hf o Hin) as (m & r & ? & _). }
    destruct (matchingClusterResource k selector) as [m|].
    2:{ split; [done|]. intros Hf. by destruct (Hf o Hin) as (m & r & ? & _). }
    rewrite validateOverrides_nil. split.
    - intros Hf o' Ho'. destruct (Hf o' Ho') as (r & ?). eauto.
    - intros Hf o' Ho'. destruct (Hf o' Ho') as (m' & r & [= <-] & ?). eauto. }
  split; [intros ((? & ? & _) & ? & ?); by split|]. by intros [].
Qed.

Lemma validateResource_nil ckac i r : validateResource ckac i r = [] ↔ resourceAccepted ckac r.
Proof.
  unfold validateResource. rewrite !app_nil, !validateExpression_nil.
  destruct (kac_KeepLastWhen r) as [c|] eqn:E.
  - rewrite validateKeepLastWhen_nil. split.
    + intros (? & ? & ? & ?). split; [done..|]. rewrite E. by intros ? [= <-].
    + intros [? ? ? Hk]. split_and!; [done..|by apply Hk].
  - split; [|by intros []]. intros (? & ? & ? & _). split; [done..|]. by rewrite E.
Qed.

(** The configuration of the cluster a validation reads: none when no resource has rules
    to keep, or when there is none. *)
Definition clusterConfigFor `{!ConfigClient} (resources : list KubeArchiveConfigResource)
    (ckac : option ClusterKubeArchiveConfig) : Prop :=
  match (if existsb hasKeepLastWhen resources then GetCKAC "kubearchive" else NotFound) with
  | Found k => ckac = Some k
  | NotFound => ckac = None
  | GetError => False
  end.

Lemma validateKAC_nil `{!Environment, !ConfigClient} kac :
  validateKAC kac = [] ↔
  kac_Namespace kac ≠ KubeArchiveNamespace ∧ kac_Name kac = "kubearchive" ∧
  ∃ ckac, clusterConfigFor (default [] (kac_Resources kac)) ckac ∧
    Forall (resourceAccepted ckac) (default [] (kac_Resources kac)).
Proof.
  unfold validateKAC, clusterConfigFor. case_eqb; [naive_solver|].
  assert (∀ ckac rs, concat (imap (validateResource ckac) rs) = [] ↔ Forall (resourceAccepted ckac) rs) as Hr.
  { intros ckac rs. rewrite concat_imap_nil, Forall_lookup. setoid_rewrite validateResource_nil. naive_solver. }
  assert ((if String.eqb (kac_Name kac) "kubearchive" then [] else [BadName (kac_Name kac)]) = [] ↔
    kac_Name kac = "kubearchive") as Hn by (case_eqb; naive_solver).
  destruct (if existsb _ _ then _ else _) as [k| |].
  - rewrite app_nil, Hr, Hn. naive_solver.
  - rewrite app_nil, Hr, Hn. naive_solver.
  - naive_solver.
Qed.

(** *** The cluster's configuration *)

Record clusterResourceAccepted (r : ClusterKubeArchiveConfigResource) : Prop := {
  ckac_archive_sound : soundOrEmpty (ckac_ArchiveWhen r);
  ckac_delete_sound : soundOrEmpty (ckac_DeleteWhen r);
  ckac_archiveOnDelete_sound : soundOrEmpty (ckac_ArchiveOnDelete r);
  ckac_keep_sound : Forall (λ rule, ckeep_Name rule ≠ "" ∧ soundWhen (ckeep_When rule) ∧
    (0 <= ckeep_Count rule)%Z) (ckac_KeepLastWhen r);
  ckac_whens_distinct : NoDup (clusterWhenOf <$> ckac_KeepLastWhen r);
  ckac_names_distinct : NoDup (ckeep_Name <$> ckac_KeepLastWhen r);
}.

Lemma validateCKAC_nil ckac :
  validateCKAC ckac = [] ↔
  ckac_Name ckac = "kubearchive" ∧ Forall clusterResourceAccepted (ckac_Resources ckac).
Proof.
  unfold validateCKAC. rewrite app_nil, bind_nil, Forall_forall.
  assert ((if String.eqb (ckac_Name ckac) "kubearchive" then [] else [BadName (ckac_Name ckac)]) = [] ↔
    ckac_Name ckac = "kubearchive") as -> by (case_eqb; naive_solver).
  assert (∀ r, validateClusterResource r = [] ↔ clusterResourceAccepted r) as Hr.
  { intros r. unfold validateClusterResource.
    rewrite !app_nil, !validateExpression_nil, validateClusterKeep_nil. split.
    - intros (? & ? & ? & ? & [? _] & [? _]). by split.
    - intros []. split_and!; try done; intros; apply lookup_empty. }
  by setoid_rewrite Hr.
Qed.
End accepted.

(** ** What the vacuum makes of accepted rules *)

Section effective.
  Context {O : Type} `{!Unstructured O, !CelEnv O, !DurationEval O, !Environment, !ConfigClient, !MapRange}.
  Implicit Types rs : list (KeepLastWhenRule (O:=O)).

Lemma normalizeString_TrimSpace s : normalizeString (TrimSpace s) = normalizeString s.
Proof. unfold normalizeString. by rewrite Fields_TrimSpace. Qed.

(** Rules without a name and of new and different texts are all kept, named ones are not. *)
Lemma freshRules_kept (seen : gset string) rs named :
  Forall (λ r, Name r = "" ∧ WhenText r ∉ seen) rs → NoDup (WhenText <$> rs) →
  Forall (λ r, Name r ≠ "") named → freshRules seen (rs ++ named) = rs.
Proof.
  revert seen. induction rs as [|r rs IH]; intros seen Hrs Hnd Hnamed; cbn [app freshRules].
  - induction Hnamed as [|r named Hr _ IHn]; [done|]. cbn [freshRules]. by rewrite decide_False.
  - apply Forall_cons in Hrs as [[Hr Ht] Hrs]. apply NoDup_cons in Hnd as [Hnew Hnd].
    rewrite decide_True, decide_False by done. f_equal. apply IH; [|done..].
    rewrite Forall_forall in Hrs |- *. intros r' Hr'. destruct (Hrs r' Hr') as [? Hs].
    split; [done|]. apply not_elem_of_union. split; [|done]. rewrite elem_of_singleton.
    intros He. apply Hnew. rewrite <-He. by apply list_elem_of_fmap_2.
Qed.

Definition keepRules (keep : list KeepLastKeepRule) : list (KeepLastWhenRule (O:=O)) :=
  compileKeepLastWhenRules (Some {| Keep := keep; Override := [] |}).

Definition overrideRules (overrides : list KeepLastOverrideRule) : list (KeepLastWhenRule (O:=O)) :=
  compileKeepLastWhenRules (Some {| Keep := []; Override := overrides |}).

(** A rule of the cluster, its count lowered to the least override of its name. *)
Definition lowered (overrides : list KeepLastOverrideRule) (rule : KeepLastWhenRule (O:=O)) :=
  setCount rule (foldl Z.min (Count rule)
    (override_Count <$> filter (λ o, override_Name o = Name rule) overrides)).

Lemma compile_split c :
  compileKeepLastWhenRules (O:=O) (Some c) = keepRules (Keep c) ++ overrideRules (Override c).
Proof. cbn. by rewrite app_nil_r. Qed.

Lemma overridesOf_compiled name c : name ≠ "" →
  overridesOf name (compileKeepLastWhenRules (O:=O) (Some c)) =
  override_Count <$> filter (λ o, override_Name o = name) (Override c).
Proof.
  intros Hn. unfold overridesOf. rewrite compile_split, filter_app, fmap_app.
  rewrite (filter_none _ (keepRules (Keep c))).
  2:{ intros r. unfold keepRules. cbn. rewrite app_nil_r.
      intros (k & <- & _)%list_elem_of_In%in_map_iff [He _]. cbn in He. congruence. }
  cbn. induction (Override c) as [|o os IH]; [done|]. cbn [map]. rewrite !filter_cons. cbn [Name].
  destruct (decide (override_Name o = name)).
  - rewrite decide_True by done. cbn. by rewrite IH.
  - rewrite decide_False by naive_solver. done.
Qed.

Lemma overridden_all rs ns (overrides : list KeepLastOverrideRule) :
  NoDup (Name <$> rs) → Forall (λ r, Name r ≠ "") rs →
  (∀ name, name ≠ "" → overridesOf name ns =
     override_Count <$> filter (λ o, override_Name o = name) overrides) →
  imap (overridden rs ns) rs = lowered overrides <$> rs.
Proof.
  intros Hnd Hnames Ho. apply list_eq. intros i. rewrite list_lookup_imap, list_lookup_fmap.
  destruct (rs !! i) as [r|] eqn:Hr; [|done]. cbn. f_equal. unfold overridden, lowered.
  assert (isOverridable rs i r = true) as ->.
  { apply bool_decide_eq_true. apply Forall_lookup. intros j r' Hj He. rewrite lookup_drop in Hj.
    assert (i = S i + j)%nat; [|lia].
    apply (NoDup_lookup (Name <$> rs) _ _ (Name r)); [done|..]; rewrite list_lookup_fmap.
    - by rewrite Hr.
    - rewrite Hj. cbn. by rewrite He. }
  rewrite Ho; [done|]. rewrite Forall_lookup in Hnames. by apply (Hnames i).
Qed.

Lemma foldl_min_nonneg z l : (0 <= z)%Z → Forall (λ x, 0 <= x)%Z l → (0 <= foldl Z.min z l)%Z.
Proof.
  intros Hz Hl. revert z Hz. induction Hl as [|x l Hx _ IH]; intros z Hz; [done|].
  cbn. apply IH. lia.
Qed.

Lemma NoDup_texts {A} (f : A → string) (l : list A) :
  NoDup ((λ a, normalizeString (f a)) <$> l) → NoDup ((λ a, TrimSpace (f a)) <$> l).
Proof.
  intros Hnd. apply (NoDup_fmap_1 normalizeString). rewrite <-list_fmap_compose.
  erewrite list_fmap_ext; [exact Hnd|]. intros i a _. apply normalizeString_TrimSpace.
Qed.

(** The cluster configures the kind of a selector at most once, and no other kind has its
    key. *)
Definition configuredOnce (ckac : ClusterKubeArchiveConfig) (selector : APIVersionKind) : Prop :=
  (length (filter (λ cr, Key (ckac_Selector cr) = Key selector) (ckac_Resources ckac)) ≤ 1)%nat ∧
  ∀ cr, cr ∈ ckac_Resources ckac → Key (ckac_Selector cr) = Key selector → ckac_Selector cr = selector.

Lemma filter_iff_in {A} (P Q : A → Prop) `{!∀ x, Decision (P x), !∀ x, Decision (Q x)} (l : list A) :
  (∀ x, x ∈ l → P x ↔ Q x) → filter P l = filter Q l.
Proof.
  intros Hpq. induction l as [|x l IH]; [done|]. rewrite !filter_cons, IH by (intros; apply Hpq; by right).
  destruct (Hpq x) as [? ?]; [by left|]. destruct (decide (P x)), (decide (Q x)); (done || (exfalso; auto)).
Qed.

Lemma matching_unique ckac selector :
  configuredOnce ckac selector →
  clusterLastWithKey (Key selector) (ckac_Resources ckac) = matchingClusterResource ckac selector.
Proof.
  intros [Hone Hkeys]. unfold clusterLastWithKey, matchingClusterResource.
  rewrite <-(filter_iff_in (λ cr, Key (ckac_Selector cr) = Key selector) (λ r, Kind (ckac_Selector r) = Kind selector ∧
    APIVersion (ckac_Selector r) = APIVersion selector)).
  - destruct (filter _ _) as [|cr [|cr' l]]; [done..|]. cbn in Hone. lia.
  - intros cr Hcr. split; [intros Hk; by rewrite (Hkeys cr Hcr Hk)|]. unfold Key. by intros [-> ->].
Qed.

Lemma matching_in ckac selector cr :
  matchingClusterResource ckac selector = Some cr → cr ∈ ckac_Resources ckac.
Proof. by intros [_ Hin]%head_Some_elem_of%list_elem_of_filter. Qed.

(** The cluster rules the vacuum has for a selector. *)
Definition clusterRulesOf (matching : option ClusterKubeArchiveConfigResource)
    : list (KeepLastWhenRule (O:=O)) :=
  compileClusterKeepLastWhenRules (from_option ckac_KeepLastWhen [] matching).

(** The conditions of an accepted resource, as the vacuum compares them. *)
Lemma keepRules_fresh matching c :
  keepAccepted matching c →
  Forall (λ r, Name r = "" ∧ WhenText r ∉ (list_to_set (WhenText <$> clusterRulesOf matching) : gset string))
    (keepRules (Keep c)) ∧ NoDup (WhenText <$> keepRules (Keep c)).
Proof.
  intros [_ Hd Hn _]. unfold keepRules, clusterRulesOf. cbn. rewrite app_nil_r. split.
  - apply Forall_forall. intros r (k & <- & Hk)%list_elem_of_In%in_map_iff. cbn. split; [done|].
    apply list_elem_of_In in Hk.
    rewrite elem_of_list_to_set. destruct matching as [m|]; cbn; [|by intros ?%not_elem_of_nil].
    intros (r' & He & (k' & <- & Hk')%list_elem_of_In%in_map_iff)%list_elem_of_fmap. cbn in He.
    apply list_elem_of_In in Hk'. apply (Hn m eq_refl k Hk). apply list_elem_of_fmap. exists k'.
    split; [|done]. unfold whenOf, clusterWhenOf.
    by rewrite <-(normalizeString_TrimSpace (keep_When k)), He, normalizeString_TrimSpace.
  - match goal with |- context [map ?f ?l] => change (map f l) with (f <$> l) end.
    rewrite <-list_fmap_compose. by apply (NoDup_texts keep_When).
Qed.

Lemma clusterRules_named matching :
  (∀ m, matching = Some m → clusterResourceAccepted m) →
  NoDup (Name <$> clusterRulesOf matching) ∧
  Forall (λ r, Name r ≠ "" ∧ (0 <= Count r)%Z) (clusterRulesOf matching).
Proof.
  intros Hm. destruct matching as [m|]; cbn; [|by split; constructor].
  destruct (Hm m eq_refl) as [_ _ _ Hs _ Hd]. unfold compileClusterKeepLastWhenRules. split.
  - match goal with |- context [map ?f ?l] => change (map f l) with (f <$> l) end.
    by rewrite <-list_fmap_compose.
  - apply Forall_forall. intros r (k & <- & Hk)%list_elem_of_In%in_map_iff. cbn.
    rewrite Forall_forall in Hs. destruct (Hs k) as (? & _ & ?); [by apply list_elem_of_In|done].
Qed.

Lemma overrides_reach matching c o :
  keepAccepted matching c → o ∈ Override c →
  ∃ rule, rule ∈ clusterRulesOf matching ∧ Name rule = override_Name o ∧ Name rule ≠ "" ∧
    (0 <= override_Count o <= Count rule)%Z.
Proof.
  intros [_ _ _ Ho] Hin. destruct (Ho o Hin) as (m & r & -> & Hne & Hl & Hc).
  unfold clusterRuleOf in Hl. apply last_Some_elem_of, list_elem_of_filter in Hl as [He Hr].
  assert (∃ rule, rule ∈ clusterRulesOf (Some m) ∧ Name rule = ckeep_Name r ∧ Count rule = ckeep_Count r)
    as (rule & Hrule & Hname & Hcount).
  { eexists. split.
    - apply list_elem_of_In, in_map_iff. exists r. split; [reflexivity|by apply list_elem_of_In].
    - by split. }
  exists rule. rewrite Hname, Hcount, He. split_and!; (done || lia).
Qed.

Lemma unify_accepted matching c :
  keepAccepted matching c → (∀ m, matching = Some m → clusterResourceAccepted m) →
  unifyRules (clusterRulesOf matching) (compileKeepLastWhenRules (Some c)) =
  (lowered (Override c) <$> clusterRulesOf matching) ++ keepRules (Keep c).
Proof.
  intros Hacc Hcl. destruct (clusterRules_named matching Hcl) as [Hnd Hnamed].
  destruct (keepRules_fresh matching c Hacc) as [Hfresh Htexts].
  rewrite unifyRules_reference. unfold unifyReference. f_equal.
  - apply overridden_all; [done| |intros name; apply overridesOf_compiled].
    eapply Forall_impl; [exact Hnamed|]. by intros ? [].
  - rewrite compile_split. apply freshRules_kept; [done|done|].
    apply Forall_forall. intros r' (o & <- & Ho)%list_elem_of_In%in_map_iff. cbn.
    destruct (overrides_reach matching c o Hacc) as (rule & _ & Hn & Hne & _);
      [by apply list_elem_of_In|congruence].
Qed.

Lemma accepted_counts matching c :
  keepAccepted matching c → (∀ m, matching = Some m → clusterResourceAccepted m) →
  Forall (λ r, 0 <= Count r)%Z ((lowered (Override c) <$> clusterRulesOf matching) ++ keepRules (Keep c)).
Proof.
  intros Hacc Hcl. destruct (clusterRules_named matching Hcl) as [_ Hnamed].
  apply Forall_app. split.
  - apply Forall_fmap. eapply Forall_impl; [exact Hnamed|]. intros rule [_ Hc]. cbn.
    apply foldl_min_nonneg; [done|]. apply Forall_fmap, Forall_forall.
    intros o [_ Ho]%list_elem_of_filter.
    destruct (overrides_reach matching c o Hacc Ho) as (rule0 & Hin0 & Hn0 & Hne0 & Hc0). cbn. lia.
  - apply Forall_forall. unfold keepRules. cbn. rewrite app_nil_r.
    intros rule (k & <- & Hk)%list_elem_of_In%in_map_iff. cbn.
    pose proof (keep_sound _ _ Hacc) as Hs. rewrite Forall_forall in Hs.
    apply Hs. by apply list_elem_of_In.
Qed.

(** C31: an accepted configuration is well formed, and a well-formed one is accepted: it is
    named [kubearchive], outside the namespace of the system, its expressions and the
    durations in them compile, its rules to keep differ from each other and from those of
    the cluster, and its overrides name rules of the cluster whose counts they do not
    raise. *)
Theorem validateKAC_accepts kac :
  ValidateKAC Create (Some kac) = [] ↔
  kac_Namespace kac ≠ KubeArchiveNamespace ∧ kac_Name kac = "kubearchive" ∧
  ∃ ckac, clusterConfigFor (default [] (kac_Resources kac)) ckac ∧
    Forall (resourceAccepted ckac) (default [] (kac_Resources kac)).
Proof. apply validateKAC_nil. Qed.

Lemma compiled_text text p : CompileCELExpr text = Some p → text ≠ "" →
  CompileCELExpression (O:=O) text = Some p.
Proof. intros Hp Hne. unfold CompileCELExpression. by case_eqb. Qed.

(** A condition the webhooks accepted, written the way they read it, is compiled by the
    vacuum. *)
Lemma accepted_when matching c text :
  keepAccepted matching c → (∀ m, matching = Some m → clusterResourceAccepted m) →
  (text ∈ keep_When <$> Keep c ∨ ∃ m, matching = Some m ∧ text ∈ ckeep_When <$> ckac_KeepLastWhen m) →
  normalizeString text = text →
  ∃ p rule, CompileCELExpr text = Some p ∧ When rule = Some p ∧ WhenText rule = TrimSpace text ∧
    rule ∈ (lowered (Override c) <$> clusterRulesOf matching) ++ keepRules (Keep c).
Proof.
  intros Hacc Hcl Hin Hn.
  assert (soundWhen text → ∃ p, CompileCELExpr text = Some p ∧ CompileCELExpression text = Some p) as Hs.
  { intros [Hne [[p Hp] _]]. rewrite Hn in Hne, Hp. exists p. split; [done|by apply compiled_text]. }
  destruct Hin as [(k & -> & Hk)%list_elem_of_fmap|(m & -> & (k & -> & Hk)%list_elem_of_fmap)].
  - pose proof (keep_sound _ _ Hacc) as Hks. rewrite Forall_forall in Hks.
    destruct (Hs (proj1 (Hks k Hk))) as (p & Hp & Hw). exists p.
    exists {| Name := ""; When := CompileCELExpression (keep_When k); WhenText := TrimSpace (keep_When k);
              Count := keep_Count k; SortBy := keep_SortBy k |}.
    split_and!; [done..|]. apply elem_of_app. right. unfold keepRules. cbn.
    rewrite app_nil_r. apply list_elem_of_In, in_map_iff. exists k.
    split; [done|by apply list_elem_of_In].
  - pose proof (ckac_keep_sound _ (Hcl m eq_refl)) as Hks. rewrite Forall_forall in Hks.
    destruct (Hs (proj1 (proj2 (Hks k Hk)))) as (p & Hp & Hw). exists p.
    exists (lowered (Override c) {| Name := ckeep_Name k; When := CompileCELExpression (ckeep_When k);
              WhenText := TrimSpace (ckeep_When k); Count := ckeep_Count k; SortBy := ckeep_SortBy k |}).
    split_and!; [done..|]. apply elem_of_app. left.
    apply list_elem_of_fmap_2, list_elem_of_In, in_map_iff. exists k.
    split; [done|by apply list_elem_of_In].
Qed.


(** In an accepted configuration every call of [duration] whose parentheses close,
    wherever it is in a filter, compiles and is not a bad duration. *)
Theorem accepted_durations kac r pre head body post
    (Hkac : validateKAC kac = []) (Hr : r ∈ default [] (kac_Resources kac))
    (Hcall : durationCall head body)
    (Hin : pre +:+ head +:+ body +:+ post ∈ [kac_ArchiveWhen r; kac_DeleteWhen r; kac_ArchiveOnDelete r]) :
  ∃ q, CompileCELExpr (head +:+ body) = Some q ∧ BadConversion q = false.
Proof.
  apply validateKAC_nil in Hkac as (_ & _ & k & _ & Hall). rewrite Forall_forall in Hall.
  destruct (Hall r Hr) as [Ha Hd Ho _].
  assert (soundOrEmpty (pre +:+ head +:+ body +:+ post)) as [He|[_ Hs]].
  { apply elem_of_cons in Hin as [->|Hin]; [done|]. apply elem_of_cons in Hin as [->|Hin]; [done|].
    by apply list_elem_of_singleton in Hin as ->. }
  - exfalso. destruct Hcall as [Hh _]. apply durationAt_d in Hh. destruct pre; [|done].
    by destruct head.
  - apply Hs. by apply getDurationCalls_complete.
Qed.
End effective.

(** ** The vacuums' configurations *)

(** The configuration of a cluster vacuum is accepted exactly when it is in the
    namespace of the system and each namespace it names has a configuration, as the
    cluster may, with every kind to vacuum in one of the two. *)
Theorem validateClusterVacuumConfig_accepts `{!Environment, !ConfigClient, !MapRange} cv :
  ValidateClusterVacuumConfig Update (Some cv) = [] ↔
  cv_Namespace cv = KubeArchiveNamespace ∧
  ∀ ns spec, cvc_Namespaces (cv_Spec cv) !! ns = Some spec → ns ≠ ClusterVacuumAllNamespaces →
    ∃ gres nres, getGlobalResourceSet = Some gres ∧ getNamespaceResourceSet ns = Some nres ∧
      ∀ resource, resource ∈ nvc_Resources spec → resource ∈ gres ∨ resource ∈ nres.
Proof.
  unfold ValidateClusterVacuumConfig. cbn [handle]. unfold validateClusterVacuumConfig. rewrite app_nil, bind_nil.
  assert ((if String.eqb (cv_Namespace cv) KubeArchiveNamespace then []
           else [BadNamespace (cv_Namespace cv)]) = [] ↔ cv_Namespace cv = KubeArchiveNamespace) as ->
    by (case_eqb; naive_solver).
  assert (∀ ns resources, validateResources ns resources = [] ↔
    ∃ gres nres, getGlobalResourceSet = Some gres ∧ getNamespaceResourceSet ns = Some nres ∧
      ∀ resource, resource ∈ resources → resource ∈ gres ∨ resource ∈ nres) as Hr.
  { intros ns resources. unfold validateResources.
    destruct getGlobalResourceSet as [gres|]; [|naive_solver].
    destruct (getNamespaceResourceSet ns) as [nres|]; [|naive_solver].
    rewrite bind_nil. split.
    - intros Hf. exists gres, nres. split_and!; [done..|]. intros resource Hin.
      specialize (Hf resource Hin). do 2 (case_bool_decide; [by auto|]). done.
    - intros (? & ? & [= <-] & [= <-] & Hf) resource Hin.
      destruct (Hf resource Hin); [rewrite bool_decide_true by done; done|].
      by rewrite (bool_decide_true (resource ∈ nres)), orb_true_r. }
  split; intros [Hn Hf]; (split; [done|]).
  - intros ns spec Hs Hne. apply Hr.
    assert ((ns, spec) ∈ range (map_to_list (cvc_Namespaces (cv_Spec cv)))) as Hin
      by (by rewrite range_perm, elem_of_map_to_list).
    specialize (Hf _ Hin). cbn in Hf. by rewrite (proj2 (String.eqb_neq _ _) Hne) in Hf.
  - intros [ns spec] Hin. rewrite range_perm, elem_of_map_to_list in Hin. cbn.
    case_eqb; [done|]. apply Hr. by apply (Hf ns).
Qed.

(** ** Samples *)

#[local] Instance sample_durations : DurationEval sample := {|
  BadConversion := λ p, String.eqb p "duration('x')" |}.

Definition sample_selector : APIVersionKind := {| Kind := "Pod"; APIVersion := "v1" |}.

Definition sample_cluster_resource (rules : list ClusterKeepLastRule) :=
  {| ckac_Selector := sample_selector; ckac_ArchiveWhen := ""; ckac_DeleteWhen := "";
     ckac_ArchiveOnDelete := ""; ckac_KeepLastWhen := rules |}.

Definition sample_ckac (resources : list ClusterKubeArchiveConfigResource) :=
  {| ckac_Name := "kubearchive"; ckac_Deleting := false; ckac_Finalizers := [];
     ckac_Resources := resources |}.

Definition sample_resource (c : KeepLastWhenConfig) : KubeArchiveConfigResource :=
  {| kac_Selector := sample_selector; kac_ArchiveWhen := "a < duration('1h')"; kac_DeleteWhen := "";
     kac_ArchiveOnDelete := ""; kac_KeepLastWhen := Some c |}.

Definition sample_kac (c : KeepLastWhenConfig) : KubeArchiveConfig :=
  {| kac_Namespace := "team"; kac_Name := "kubearchive"; kac_Deleting := false; kac_Finalizers := [];
     kac_Resources := Some [sample_resource c] |}.

Definition sample_rule (name when : string) (count : Z) : ClusterKeepLastRule :=
  {| ckeep_Name := name; ckeep_Count := count; ckeep_When := when; ckeep_SortBy := "t" |}.

Definition sample_keep (when : string) : KeepLastKeepRule :=
  {| keep_Count := 2; keep_When := when; keep_SortBy := "t" |}.

Definition sample_client (ckac : ClusterKubeArchiveConfig) : ConfigClient :=
  {| GetCKAC := λ _, Found ckac; GetKAC := λ _ _, NotFound |}.

Definition sample_cluster : ClusterKubeArchiveConfig :=
  sample_ckac [sample_cluster_resource [sample_rule "old" "x  == 1" 5; sample_rule "new" "x == 2" 3]].

Definition sample_keeps : KeepLastWhenConfig :=
  {| Keep := [sample_keep " x == 3 "]; Override := [{| override_Name := "old"; override_Count := 4 |}] |}.

Definition sample_rules_spec : SinkFilterSpec :=
  {| Namespaces := {["team" := [sample_resource sample_keeps]]}; Api.Cluster := ckac_Resources sample_cluster |}.


Lemma accepted_durations_witness :
  validateKAC (H0:=sample_client sample_cluster) (sample_kac sample_keeps) = [] ∧
  ∃ q, CompileCELExpr (O:=sample) "duration('1h')" = Some q ∧ BadConversion q = false.
Proof.
  split; [vm_compute; reflexivity|].
  apply (@accepted_durations sample _ _ sample_environment (sample_client sample_cluster)
    (sample_kac sample_keeps)
    (sample_resource sample_keeps)
    "a < " "duration(" "'1h')" "").
  - vm_compute. reflexivity.
  - left.
  - split; vm_compute; reflexivity.
  - left.
Defined.

(** ** What is not checked *)

(** A parenthesis in the text of a duration hides the call. *)
Lemma unclosed_duration_unchecked : getDurationCalls "duration('1(h')" = [].
Proof. reflexivity. Qed.

(** The first resource of a kind is read here, the last one by the vacuum: of a cluster
    that configures a kind twice, as is accepted, the rules an accepted override names
    need not be there, and a rule to keep may have the condition of another. *)
Lemma repeated_kind_unchecked :
  let ckac := sample_ckac [sample_cluster_resource [sample_rule "old" "x == 1" 5];
                           sample_cluster_resource [sample_rule "other" "x == 3" 5]] in
  validateCKAC (O:=sample) ckac = [] ∧
  validateKAC (O:=sample) (H0:=sample_client ckac) (sample_kac sample_keeps) = [] ∧
  ∃ cr, clusterLastWithKey (Key sample_selector) (ckac_Resources ckac) = Some cr ∧
    unifyRules (KeepLastWhen (clusterCelExpr (O:=sample) Vacuum cr))
      (compileKeepLastWhenRules (Some sample_keeps)) = KeepLastWhen (clusterCelExpr Vacuum cr).
Proof.
  split_and!; [vm_compute; reflexivity..|].
  exists (sample_cluster_resource [sample_rule "other" "x == 3" 5]). split; vm_compute; reflexivity.
Qed.
