(* ===== verification/Writer.v ===== *)
(** * [pkg/database]: writing a resource and its log URLs

    [postgresql.go] and [mariadb.go], [ResourceInserter] and [WriteResource].
    A statement the code builds is a value: the row inserted, what the update
    clause does to a conflicting row, the condition of the update.  The engine
    is a parameter, with its documented behaviour on such a statement.  A
    transaction works on a copy of the tables, kept on commit. *)
From S2P Require Import Prelude GoLib Api Samples.

(** ** [interfaces/database.go] *)
Inductive WriteResourceResult :=
| WriteResourceResultInserted
| WriteResourceResultUpdated
| WriteResourceResultNone
| WriteResourceResultError.

(** ** [models.go] *)
Record LogTuple := {
  log_ContainerName : string; log_Url : string; log_Query : string;
  log_Start : string; log_End : string;
}.

(** The time a RFC 3339 string denotes: whole seconds, rounded down. *)
Definition FormatTimestamp (timestamp : Z) : Z :=
  (timestamp / 1000000000 * 1000000000)%Z.

(** A [sql.NullString], [None] when it is not valid. *)
Definition OptionalTimestamp (timestamp : option Z) : option Z :=
  match timestamp with
  | None => None
  | Some t => Some (FormatTimestamp t)
  end.

(** ** The tables *)
Record Row := {
  row_uuid : string; row_api_version : string; row_kind : string; row_name : string;
  row_namespace : string; row_resource_version : string; row_cluster_updated_ts : Z;
  row_cluster_deleted_ts : option Z; row_data : string;
}.

Record LogRow := { lr_uuid : string; lr_log : LogTuple }.

Record Tables := { t_resource : gmap string Row; t_log_url : list LogRow }.

(** An [INSERT ... ON CONFLICT(uuid) DO UPDATE SET ... WHERE ...]. *)
Record InsertBuilder := {
  ib_Values : Row;
  ib_Update : Row → Row;
  ib_Where : Row → bool;
}.

(** The row that a column of documents keeps of the one it is given. *)
Definition withDocument (text : string → string) (row : Row) : Row :=
  {| row_uuid := row_uuid row; row_api_version := row_api_version row; row_kind := row_kind row;
     row_name := row_name row; row_namespace := row_namespace row;
     row_resource_version := row_resource_version row;
     row_cluster_updated_ts := row_cluster_updated_ts row;
     row_cluster_deleted_ts := row_cluster_deleted_ts row; row_data := text (row_data row) |}.

(** PostgreSQL on such a statement: the table after it, and the row it returns,
    [Some inserted], or no row.  The column [data] is [jsonb]: it keeps the JSON
    value, and gives it back as [Jsonb] of the text it was given, without its
    spaces, the order of its keys or its repeated keys.  (A document it refuses
    makes the statement fail, [flt_upsert].) *)
Class Postgres := {
  Jsonb : string → string;
  pg_upsert : gmap string Row → InsertBuilder → gmap string Row * option bool;
  pg_upsert_new t ib : t !! row_uuid (ib_Values ib) = None →
    pg_upsert t ib = (<[row_uuid (ib_Values ib) := withDocument Jsonb (ib_Values ib)]> t, Some true);
  pg_upsert_update t ib old : t !! row_uuid (ib_Values ib) = Some old → ib_Where ib old = true →
    pg_upsert t ib = (<[row_uuid (ib_Values ib) := withDocument Jsonb (ib_Update ib old)]> t, Some false);
  pg_upsert_none t ib old : t !! row_uuid (ib_Values ib) = Some old → ib_Where ib old = false →
    pg_upsert t ib = (t, None);
}.

(** MariaDB on its statement: the table after it, or a failure; it leaves a row
    of the key it inserts. *)
Class MariaDB := {
  mdb_upsert : gmap string Row → InsertBuilder → option (gmap string Row);
  mdb_upsert_stores t ib t' : mdb_upsert t ib = Some t' → is_Some (t' !! row_uuid (ib_Values ib));
}.

(** The calls of one [WriteResource] that fail: [flt_insert_log n] is the
    [n]-th log insertion. *)
Record TxFaults := {
  flt_begin : bool; flt_upsert : bool; flt_delete_logs : bool;
  flt_insert_log : nat → bool; flt_commit : bool; flt_rollback : bool;
}.

Definition noFaults : TxFaults :=
  {| flt_begin := false; flt_upsert := false; flt_delete_logs := false;
     flt_insert_log := λ _, false; flt_commit := false; flt_rollback := false |}.

Inductive WriteError :=
| NilObject
| CannotBegin
| WriteFailed (rolledBack : bool)
| DeleteUrlsFailed (rolledBack : bool)
| WriteUrlsFailed (rolledBack : bool)
| CommitFailed (rolledBack : bool).

(** What a writer returns, and the committed tables. *)
Record WriteOutcome := { wo_result : WriteResourceResult; wo_err : option WriteError; wo_db : Tables }.

Definition failed (e : WriteError) (db : Tables) : WriteOutcome :=
  {| wo_result := WriteResourceResultError; wo_err := Some e; wo_db := db |}.

(** [interfaces.DBWriter], what a client may count on: a write that fails changes
    nothing, one that succeeds leaves a row for the object. *)
Class DBWriter (O : Type) `{!Unstructured O} := {
  db_WriteResource : TxFaults → option O → string → Z → list LogTuple → Tables → WriteOutcome;
  db_write_fails f o data ts logs db : wo_err (db_WriteResource f o data ts logs db) ≠ None →
    wo_db (db_WriteResource f o data ts logs db) = db;
  db_write_stores f o data ts logs db :
    wo_err (db_WriteResource f (Some o) data ts logs db) = None →
    is_Some (t_resource (wo_db (db_WriteResource f (Some o) data ts logs db)) !! GetUID o);
}.

Section writer.
  Context {O : Type} `{!Unstructured O}.

Definition rowOf (k8sObj : O) (lastUpdated : Z) (data : string) : Row :=
  {| row_uuid := GetUID k8sObj; row_api_version := GetAPIVersion k8sObj;
     row_kind := GetKind k8sObj; row_name := GetName k8sObj;
     row_namespace := GetNamespace k8sObj; row_resource_version := GetResourceVersion k8sObj;
     row_cluster_updated_ts := lastUpdated;
     row_cluster_deleted_ts := OptionalTimestamp (GetDeletionTimestamp k8sObj);
     row_data := data |}.

(** The [SET] clause, the same in both: the identity and the kind stay. *)
Definition setRow (new old : Row) : Row :=
  {| row_uuid := row_uuid old; row_api_version := row_api_version old; row_kind := row_kind old;
     row_name := row_name new; row_namespace := row_namespace new;
     row_resource_version := row_resource_version new;
     row_cluster_updated_ts := row_cluster_updated_ts new;
     row_cluster_deleted_ts := row_cluster_deleted_ts new; row_data := row_data new |}.

(** [postgreSQLInserter.ResourceInserter]. *)
Definition ResourceInserter (row : Row) : InsertBuilder :=
  {| ib_Values := row; ib_Update := setRow row;
     ib_Where := λ old, (row_cluster_updated_ts old <? row_cluster_updated_ts row)%Z |}.

(** [mariaDBInserter.ResourceInserter]: the condition is on another column. *)
Definition mariaDBResourceInserter (row : Row) : InsertBuilder :=
  {| ib_Values := row; ib_Update := setRow row;
     ib_Where := λ old, match row_cluster_deleted_ts old with
                        | Some ts => (ts <? row_cluster_updated_ts row)%Z
                        | None => false
                        end |}.

(** [UrlDeleter] with [UuidFilter]. *)
Definition deleteUrls (uuid : string) (t : list LogRow) : list LogRow :=
  filter (λ r, lr_uuid r ≠ uuid) t.

(** The loop over the logs: [None] when an insertion fails. *)
Fixpoint insertUrls (f : TxFaults) (n : nat) (uuid : string) (logs : list LogTuple)
    (t : list LogRow) : option (list LogRow) :=
  match logs with
  | [] => Some t
  | log :: logs =>
      if flt_insert_log f n then None
      else insertUrls f (S n) uuid logs (t ++ [{| lr_uuid := uuid; lr_log := log |}])
  end.

(** What a call on the transaction returns as its error. *)
Inductive ExecErr := ErrNoRows | ExecFailure.

Definition isNoRows (e : option ExecErr) : bool :=
  match e with Some ErrNoRows => true | _ => false end.

(** [performSingleRowQuery]: the value of the row, zero without one. *)
Definition performSingleRowQuery (fails : bool) (returned : option bool) : bool * option ExecErr :=
  if fails then (false, Some ExecFailure)
  else match returned with
       | Some inserted => (inserted, None)
       | None => (false, Some ErrNoRows)
       end.

(** The end of [postgreSQLDatabase.WriteResource]: the commit sets [execErr],
    which the choice of the result then reads. *)
Definition commitWrite (f : TxFaults) (inserted : bool) (db after : Tables) : WriteOutcome :=
  let execErr := if flt_commit f then Some ExecFailure else None in
  match execErr with
  | Some _ => failed (CommitFailed (negb (flt_rollback f))) db
  | None =>
      {| wo_result :=
           if isNoRows execErr then WriteResourceResultNone
           else if inserted then WriteResourceResultInserted
           else WriteResourceResultUpdated;
         wo_err := None; wo_db := after |}
  end.

(** [postgreSQLDatabase.WriteResource]. *)
Definition WriteResource `{!Postgres} (f : TxFaults) (k8sObj : option O) (data : string)
    (lastUpdated : Z) (logs : list LogTuple) (db : Tables) : WriteOutcome :=
  match k8sObj with
  | None => failed NilObject db
  | Some k8sObj =>
      if flt_begin f then failed CannotBegin db
      else
        let '(resource, returned) :=
          pg_upsert (t_resource db) (ResourceInserter (rowOf k8sObj lastUpdated data)) in
        let '(inserted, execErr) := performSingleRowQuery (flt_upsert f) returned in
        if bool_decide (is_Some execErr) && negb (isNoRows execErr) then
          failed (WriteFailed (negb (flt_rollback f))) db
        else if String.eqb (GetKind k8sObj) "Pod" then
          if flt_delete_logs f then failed (DeleteUrlsFailed (negb (flt_rollback f))) db
          else
            match insertUrls f 0 (GetUID k8sObj) logs (deleteUrls (GetUID k8sObj) (t_log_url db)) with
            | None => failed (WriteUrlsFailed (negb (flt_rollback f))) db
            | Some log_url =>
                commitWrite f inserted db {| t_resource := resource; t_log_url := log_url |}
            end
        else commitWrite f inserted db {| t_resource := resource; t_log_url := t_log_url db |}
  end.

(** [mariaDBDatabase.WriteResource]: the logs first, always "inserted". *)
Definition mariaDBWriteResource `{!MariaDB} (f : TxFaults) (k8sObj : option O) (data : string)
    (lastUpdated : Z) (logs : list LogTuple) (db : Tables) : WriteOutcome :=
  match k8sObj with
  | None => failed NilObject db
  | Some k8sObj =>
      if flt_begin f then failed CannotBegin db
      else
        let finish log_url :=
          let upserted :=
            if flt_upsert f then None
            else mdb_upsert (t_resource db)
                   (mariaDBResourceInserter (rowOf k8sObj lastUpdated data)) in
          match upserted with
          | None => failed (WriteFailed (negb (flt_rollback f))) db
          | Some resource =>
              if flt_commit f then failed (CommitFailed (negb (flt_rollback f))) db
              else {| wo_result := WriteResourceResultInserted; wo_err := None;
                      wo_db := {| t_resource := resource; t_log_url := log_url |} |}
          end in
        if String.eqb (GetKind k8sObj) "Pod" then
          if flt_delete_logs f then failed (DeleteUrlsFailed (negb (flt_rollback f))) db
          else
            match insertUrls f 0 (GetUID k8sObj) logs (deleteUrls (GetUID k8sObj) (t_log_url db)) with
            | None => failed (WriteUrlsFailed (negb (flt_rollback f))) db
            | Some log_url => finish log_url
            end
        else finish (t_log_url db)
  end.

(** ** What a write does *)

(** The row of a uuid after a write: the newest by its update time, the one
    already there on a tie. *)
Definition newest (old : option Row) (row : Row) : Row :=
  match old with
  | None => row
  | Some old =>
      if (row_cluster_updated_ts old <? row_cluster_updated_ts row)%Z then setRow row old else old
  end.

Definition logsOf (uuid : string) (db : Tables) : list LogTuple :=
  lr_log <$> filter (λ r, lr_uuid r = uuid) (t_log_url db).

Section postgres.
  Context `{!Postgres}.

(** The row of an object as its columns keep it: the document is the text of the JSON
    value that was sent. *)
Definition storedRow (o : O) (ts : Z) (data : string) : Row := withDocument Jsonb (rowOf o ts data).

Lemma insertUrls_all f n uuid logs t :
  (∀ i, flt_insert_log f i = false) →
  insertUrls f n uuid logs t = Some (t ++ ((λ l, {| lr_uuid := uuid; lr_log := l |}) <$> logs)).
Proof.
  intros Hf. revert n t; induction logs as [|l logs IH]; intros n t; cbn [insertUrls].
  - by rewrite app_nil_r.
  - rewrite Hf, IH, <-app_assoc. done.
Qed.

Lemma logsOf_replaced uuid uuid' (logs : list LogTuple) (t : list LogRow) :
  lr_log <$> filter (λ r, lr_uuid r = uuid')
    (deleteUrls uuid t ++ ((λ l, {| lr_uuid := uuid; lr_log := l |}) <$> logs)) =
  if decide (uuid' = uuid) then logs else lr_log <$> filter (λ r, lr_uuid r = uuid') t.
Proof.
  rewrite filter_app, fmap_app. destruct (decide (uuid' = uuid)) as [->|Hne].
  - rewrite (filter_none _ (deleteUrls uuid t)).
    + rewrite fmap_nil, app_nil_l. induction logs as [|l logs IH]; [done|].
      rewrite fmap_cons, filter_cons, decide_True by done. rewrite fmap_cons. by f_equal.
    + intros r Hr. unfold deleteUrls in Hr. by apply list_elem_of_filter in Hr as [? _].
  - rewrite (filter_none _ (_ <$> logs)).
    + rewrite fmap_nil, app_nil_r. f_equal. unfold deleteUrls.
      rewrite list_filter_filter_l; [done|]. intros r Hr He. apply Hne. by rewrite <-Hr, <-He.
    + intros r (l & -> & _)%list_elem_of_fmap. cbn. congruence.
Qed.

Lemma pg_upsert_newest t row :
  (pg_upsert t (ResourceInserter row)).1 = <[row_uuid row := newest (t !! row_uuid row) (withDocument Jsonb row)]> t.
Proof.
  destruct (t !! row_uuid row) as [old|] eqn:E.
  - destruct (ib_Where (ResourceInserter row) old) eqn:Ew.
    + rewrite (pg_upsert_update t (ResourceInserter row) old E Ew). cbn.
      cbn in Ew. by rewrite Ew.
    + rewrite (pg_upsert_none t (ResourceInserter row) old E Ew). cbn in Ew |- *.
      rewrite Ew. by rewrite insert_id.
  - by rewrite (pg_upsert_new t (ResourceInserter row) E).
Qed.

(** A write fails, leaving the tables, or commits the result of the statements. *)
Lemma WriteResource_cases f o data ts logs db :
  let w := WriteResource f (Some o) data ts logs db in
  let '(resource, returned) := pg_upsert (t_resource db) (ResourceInserter (rowOf o ts data)) in
  (wo_err w ≠ None ∧ wo_db w = db ∧ wo_result w = WriteResourceResultError) ∨
  (wo_err w = None ∧ t_resource (wo_db w) = resource ∧
   wo_result w = (if default false returned then WriteResourceResultInserted
                  else WriteResourceResultUpdated) ∧
   if String.eqb (GetKind o) "Pod" then
     insertUrls f 0 (GetUID o) logs (deleteUrls (GetUID o) (t_log_url db)) =
       Some (t_log_url (wo_db w))
   else t_log_url (wo_db w) = t_log_url db).
Proof.
  unfold WriteResource. destruct (pg_upsert _ _) as [resource returned].
  destruct (flt_begin f); [by left|].
  destruct (flt_upsert f); [by left|].
  assert (∀ after, let w := commitWrite f (default false returned) db after in
    (wo_err w ≠ None ∧ wo_db w = db ∧ wo_result w = WriteResourceResultError) ∨
    (wo_err w = None ∧ wo_db w = after ∧
     wo_result w = (if default false returned then WriteResourceResultInserted
                    else WriteResourceResultUpdated))) as Hc.
  { intros after. unfold commitWrite. destruct (flt_commit f); [by left|by right]. }
  assert (performSingleRowQuery false returned =
    (default false returned, match returned with Some _ => None | None => Some ErrNoRows end)) as -> by (by destruct returned).
  replace (bool_decide _ && _) with false by (by destruct returned).
  destruct (String.eqb (GetKind o) "Pod").
  - destruct (flt_delete_logs f); [by left|].
    destruct (insertUrls _ _ _ _ _) as [l|]; [|by left].
    destruct (Hc {| t_resource := resource; t_log_url := l |}) as [?|(-> & -> & ->)]; [by left|].
    by right.
  - destruct (Hc {| t_resource := resource; t_log_url := t_log_url db |})
      as [?|(-> & -> & ->)]; [by left|by right].
Qed.

Lemma WriteResource_error f k8sObj data ts logs db :
  wo_err (WriteResource f k8sObj data ts logs db) ≠ None →
  wo_db (WriteResource f k8sObj data ts logs db) = db ∧
  wo_result (WriteResource f k8sObj data ts logs db) = WriteResourceResultError.
Proof.
  destruct k8sObj as [o|]; [|done].
  pose proof (WriteResource_cases f o data ts logs db) as Hw.
  destruct (pg_upsert _ _) as [res ret]. intros He. destruct Hw as [(_ & Hw)|(? & _)]; done.
Qed.

Lemma pg_upsert_returned t row :
  default false (pg_upsert t (ResourceInserter row)).2 = bool_decide (t !! row_uuid row = None).
Proof.
  destruct (t !! row_uuid row) as [old|] eqn:E.
  - rewrite bool_decide_eq_false_2 by done.
    destruct (ib_Where (ResourceInserter row) old) eqn:Ew.
    + by rewrite (pg_upsert_update _ (ResourceInserter row) old E Ew).
    + by rewrite (pg_upsert_none _ (ResourceInserter row) old E Ew).
  - rewrite bool_decide_eq_true_2 by done. by rewrite (pg_upsert_new _ (ResourceInserter row) E).
Qed.

Lemma WriteResource_ok f o data ts logs db :
  wo_err (WriteResource f (Some o) data ts logs db) = None →
  t_resource (wo_db (WriteResource f (Some o) data ts logs db)) =
    <[GetUID o := newest (t_resource db !! GetUID o) (storedRow o ts data)]> (t_resource db) ∧
  wo_result (WriteResource f (Some o) data ts logs db) =
    match t_resource db !! GetUID o with
    | None => WriteResourceResultInserted
    | Some _ => WriteResourceResultUpdated
    end.
Proof.
  intros He. pose proof (WriteResource_cases f o data ts logs db) as Hw.
  pose proof (pg_upsert_newest (t_resource db) (rowOf o ts data)) as Hnew.
  pose proof (pg_upsert_returned (t_resource db) (rowOf o ts data)) as Hret.
  destruct (pg_upsert _ _) as [res ret]. cbn [fst snd row_uuid rowOf] in *.
  destruct Hw as [(Hw & _)|(_ & -> & -> & _)]; [done|]. split; [done|].
  rewrite Hret. by destruct (t_resource db !! GetUID o).
Qed.

Lemma newest_ts old row :
  match old with Some old => (row_cluster_updated_ts old <= row_cluster_updated_ts (newest (Some old) row))%Z
  | None => True end ∧
  (row_cluster_updated_ts row <= row_cluster_updated_ts (newest old row))%Z.
Proof.
  destruct old as [old|]; cbn; [|split; [done|lia]].
  destruct (Z.ltb_spec (row_cluster_updated_ts old) (row_cluster_updated_ts row)); cbn; lia.
Qed.

(** C19: a write either fails, leaving every table as it was, or commits: the
    row of the object is then the newest of the stored one and the new one by
    their update times, no other row changes; for a Pod the log URLs of the object
    are replaced by the new ones, even when the row was newer and stayed, and no
    other object's change; for another kind none changes. *)
Theorem WriteResource_spec (f : TxFaults) (o : O) (data : string) (ts : Z)
    (logs : list LogTuple) (db : Tables) :
  let w := WriteResource f (Some o) data ts logs db in
  match wo_err w with
  | Some _ => wo_db w = db ∧ wo_result w = WriteResourceResultError
  | None =>
      t_resource (wo_db w) =
        <[GetUID o := newest (t_resource db !! GetUID o) (storedRow o ts data)]> (t_resource db) ∧
      (∀ uuid, (∀ i, flt_insert_log f i = false) → logsOf uuid (wo_db w) =
         if String.eqb (GetKind o) "Pod" && String.eqb uuid (GetUID o) then logs
         else logsOf uuid db)
  end.
Proof.
  intros w. destruct (wo_err w) as [e|] eqn:He.
  { apply WriteResource_error. fold w. by rewrite He. }
  split; [by apply WriteResource_ok|]. intros uuid Hf.
  pose proof (WriteResource_cases f o data ts logs db) as Hw.
  destruct (pg_upsert _ _) as [res ret]. fold w in Hw.
  destruct Hw as [(Hw & _)|(_ & _ & _ & Hl)]; [done|]. unfold logsOf.
  destruct (String.eqb_spec (GetKind o) "Pod") as [Hk|Hk].
  - rewrite insertUrls_all in Hl by done. injection Hl as <-. rewrite logsOf_replaced.
    destruct (decide (uuid = GetUID o)) as [->|Hne].
    + by rewrite String.eqb_refl.
    + by rewrite (proj2 (String.eqb_neq uuid (GetUID o)) Hne).
  - by rewrite Hl.
Qed.

Definition writeOne (db : Tables) (w : TxFaults * O * string * Z * list LogTuple) : Tables :=
  let '(f, o, data, ts, logs) := w in wo_db (WriteResource f (Some o) data ts logs db).

Lemma writeOne_keeps w db uuid old :
  t_resource db !! uuid = Some old →
  ∃ new, t_resource (writeOne db w) !! uuid = Some new ∧
    (row_cluster_updated_ts old <= row_cluster_updated_ts new)%Z.
Proof.
  destruct w as [[[[f o] data] ts] logs]. cbn [writeOne]. intros Eold.
  destruct (wo_err (WriteResource f (Some o) data ts logs db)) eqn:He.
  - destruct (WriteResource_error f (Some o) data ts logs db) as [-> _]; [by rewrite He|].
    exists old. split; [done|lia].
  - destruct (WriteResource_ok f o data ts logs db He) as [-> _].
    destruct (decide (uuid = GetUID o)) as [->|Hne].
    + rewrite lookup_insert_eq, Eold. eexists. split; [done|]. apply (newest_ts (Some old)).
    + rewrite lookup_insert_ne by done. exists old. split; [done|lia].
Qed.

Lemma writes_keep ws db uuid old :
  t_resource db !! uuid = Some old →
  ∃ new, t_resource (foldl writeOne db ws) !! uuid = Some new ∧
    (row_cluster_updated_ts old <= row_cluster_updated_ts new)%Z.
Proof.
  revert db old; induction ws as [|w ws IH]; intros db old Eold; cbn [foldl].
  - exists old. split; [done|lia].
  - destruct (writeOne_keeps w db uuid old Eold) as (mid & Hmid & Hle).
    destruct (IH _ _ Hmid) as (new & Hnew & Hle'). exists new. split; [done|lia].
Qed.

(** C20: in any sequence of writes, with any faults, the update time stored for a
    uuid never goes back, and it ends at least at that of every write about it that
    succeeded: an event received late never overwrites a newer one. *)
Theorem WriteResource_monotonic
    (before after : list (TxFaults * O * string * Z * list LogTuple))
    (f : TxFaults) (o : O) (data : string) (ts : Z) (logs : list LogTuple) (db : Tables) :
  let db1 := foldl writeOne db before in
  let last := foldl writeOne db (before ++ (f, o, data, ts, logs) :: after) in
  (∀ uuid old, t_resource db1 !! uuid = Some old →
     ∃ new, t_resource last !! uuid = Some new ∧
       (row_cluster_updated_ts old <= row_cluster_updated_ts new)%Z) ∧
  (wo_err (WriteResource f (Some o) data ts logs db1) = None →
     ∃ new, t_resource last !! GetUID o = Some new ∧ (ts <= row_cluster_updated_ts new)%Z).
Proof.
  intros db1 last. subst last. rewrite foldl_app. fold db1. split.
  - intros uuid old. apply writes_keep.
  - intros He. cbn [foldl]. destruct (WriteResource_ok f o data ts logs db1 He) as [Hr _].
    pose proof (newest_ts (t_resource db1 !! GetUID o) (storedRow o ts data)) as [_ Hn].
    destruct (writes_keep after (writeOne db1 (f, o, data, ts, logs)) (GetUID o)
      (newest (t_resource db1 !! GetUID o) (storedRow o ts data))) as (new & Hnew & Hle).
    + cbn [writeOne]. rewrite Hr. apply lookup_insert_eq.
    + exists new. split; [done|]. cbn in Hn. lia.
Qed.

(** The result of a write tells an insertion from the rest but never
    "none": a write that was ignored because the stored row is as new is reported
    as an update. *)
Theorem WriteResource_never_none (f : TxFaults) (k8sObj : option O) (data : string) (ts : Z)
    (logs : list LogTuple) (db : Tables) :
  wo_result (WriteResource f k8sObj data ts logs db) ≠ WriteResourceResultNone ∧
  ∀ o old, k8sObj = Some o → wo_err (WriteResource f k8sObj data ts logs db) = None →
    t_resource db !! GetUID o = Some old → (ts <= row_cluster_updated_ts old)%Z →
    wo_result (WriteResource f k8sObj data ts logs db) = WriteResourceResultUpdated ∧
    t_resource (wo_db (WriteResource f k8sObj data ts logs db)) = t_resource db.
Proof.
  split.
  - destruct (wo_err (WriteResource f k8sObj data ts logs db)) eqn:He.
    + destruct (WriteResource_error f k8sObj data ts logs db) as [_ ->]; [by rewrite He|done].
    + destruct k8sObj as [o|]; [|done].
      destruct (WriteResource_ok f o data ts logs db He) as [_ ->]. by destruct (_ !! _).
  - intros o old -> He Hold Hts.
    destruct (WriteResource_ok f o data ts logs db He) as [-> ->]. rewrite Hold. split; [done|].
    unfold newest. cbn [rowOf row_cluster_updated_ts].
    rewrite (proj2 (Z.ltb_ge _ _)) by done. by rewrite insert_id.
Qed.

Lemma insertUrls_some f n uuid logs t t' :
  insertUrls f n uuid logs t = Some t' → t' = t ++ ((λ l, {| lr_uuid := uuid; lr_log := l |}) <$> logs).
Proof.
  revert n t; induction logs as [|l logs IH]; intros n t; cbn [insertUrls].
  - intros [= <-]. by rewrite app_nil_r.
  - destruct (flt_insert_log f n); [done|]. intros ->%IH. by rewrite <-app_assoc.
Qed.

(** The logs of a Pod that is written are those of the write. *)
Lemma WriteResource_logs f o data ts logs db :
  wo_err (WriteResource f (Some o) data ts logs db) = None → GetKind o = "Pod" →
  logsOf (GetUID o) (wo_db (WriteResource f (Some o) data ts logs db)) = logs.
Proof.
  intros He Hk. pose proof (WriteResource_cases f o data ts logs db) as Hw. cbv zeta in Hw.
  destruct (pg_upsert (t_resource db) (ResourceInserter (rowOf o ts data))) as [res ret].
  destruct Hw as [(Hw & _)|(_ & _ & _ & Hl)]; [done|].
  rewrite Hk in Hl. cbn [String.eqb Ascii.eqb Bool.eqb] in Hl. apply insertUrls_some in Hl.
  unfold logsOf. rewrite Hl, logsOf_replaced. by rewrite decide_True.
Qed.

(** The PostgreSQL writer has the promises of the interface. *)
#[export] Instance postgreSQLDatabase : DBWriter O.
Proof.
  refine {| db_WriteResource := WriteResource |}.
  - intros f o data ts logs db He. by apply WriteResource_error.
  - intros f o data ts logs db He. destruct (WriteResource_ok f o data ts logs db He) as [-> _].
    rewrite lookup_insert_eq. eauto.
Defined.
End postgres.

(** And so has the MariaDB writer. *)
#[export] Instance mariaDBDatabase `{!MariaDB} : DBWriter O | 100.
Proof.
  refine {| db_WriteResource := mariaDBWriteResource |}.
  - intros f [o|] data ts logs db; unfold mariaDBWriteResource; [|done].
    destruct (flt_begin f); [done|].
    destruct (String.eqb _ _); [destruct (flt_delete_logs f); [done|]; destruct (insertUrls _ _ _ _ _); [|done]|];
      (destruct (if flt_upsert f then _ else _); [|done]); by destruct (flt_commit f).
  - intros f o data ts logs db. unfold mariaDBWriteResource.
    destruct (flt_begin f); [done|].
    destruct (String.eqb _ _); [destruct (flt_delete_logs f); [done|]; destruct (insertUrls _ _ _ _ _); [|done]|];
      (destruct (flt_upsert f); [done|]); (destruct (mdb_upsert _ _) eqn:Em; [|done]);
      (destruct (flt_commit f); [done|]); intros _; by apply mdb_upsert_stores in Em.
Defined.
End writer.

(** ** A concrete engine, for the witnesses: the document is given back with a space *)
Definition sample_jsonb (text : string) : string := text +:+ " ".
Definition sample_upsert (t : gmap string Row) (ib : InsertBuilder) : gmap string Row * option bool :=
  match t !! row_uuid (ib_Values ib) with
  | None => (<[row_uuid (ib_Values ib) := withDocument sample_jsonb (ib_Values ib)]> t, Some true)
  | Some old =>
      if ib_Where ib old then (<[row_uuid (ib_Values ib) := withDocument sample_jsonb (ib_Update ib old)]> t, Some false)
      else (t, None)
  end.

#[export] Instance sample_postgres : Postgres.
Proof.
  refine {| Jsonb := sample_jsonb; pg_upsert := sample_upsert |}; unfold sample_upsert.
  - intros t ib Ht. by rewrite Ht.
  - intros t ib old Ht Hw. by rewrite Ht, Hw.
  - intros t ib old Ht Hw. by rewrite Ht, Hw.
Defined.
