(* ===== verification/LogUrls.v ===== *)
(** * [pkg/logurls], [cmd/sink/logs]: the log URLs of a resource

    A logging configuration maps names to texts, a text with the prefix [cel:]
    being an expression run on the object.  An expression that gives a list
    makes one URL per element; a text refers to another name as [{NAME}]. *)
From S2P Require Import Prelude GoLib GoStrings Api Cel Samples Writer.
#[local] Open Scope char_scope.

(** ** [regexp], [strings]: what the file uses *)

(** [[A-Za-z0-9_]]. *)
Definition isWord (c : ascii) : bool :=
  let n := N_of_ascii c in
  (((65 <=? n) && (n <=? 90)) || ((97 <=? n) && (n <=? 122)) ||
   ((48 <=? n) && (n <=? 57)) || (n =? 95))%N.

#[global] Arguments isWord : simpl never.

(** The word that starts a text and is followed by a closing brace. *)
Fixpoint wordThenBrace (s : string) : option string :=
  match s with
  | EmptyString => None
  | String c s =>
      if isWord c then String c <$> wordThenBrace s
      else if Ascii.eqb c "}" then Some EmptyString else None
  end.

(** [FindAllStringSubmatch] of [variableRegex], the names.  No match starts
    inside another, since a name holds no brace. *)
Fixpoint FindAll (s : string) : list string :=
  match s with
  | EmptyString => []
  | String c s =>
      if Ascii.eqb c "{" then
        match wordThenBrace s with
        | Some (String d w) => String d w :: FindAll s
        | _ => FindAll s
        end
      else FindAll s
  end.

(** The text matched for a name. *)
Definition braced (n : string) : string := String "{" (n +:+ String "}" EmptyString).

(** ** [logurls.go] *)

(** [interpolateString]: one call replaces every name it finds, then calls
    itself on the result.  [None] when [fuel] calls did not end it. *)
Fixpoint interpolateString (fuel : nat) (val : string) (env : gmap string string) : option string :=
  match FindAll val with
  | [] => Some val
  | matches =>
      match fuel with
      | 0%nat => None
      | S fuel =>
          interpolateString fuel
            (foldl (λ val m, ReplaceAll val (braced m) (default EmptyString (env !! m))) val matches)
            env
      end
  end.

(** What the file asks of a value of the engine: the elements of a list, and
    [fmt.Sprintf] of a value, nil included. *)
Class LogValues (O : Type) `{!CelEnv O} := {
  Lister : Val → option (list Val);
  SprintVal : option Val → string;
}.

(** A value of [m], the map after evaluation. *)
Inductive LogVal (V : Type) := LogStr (s : string) | LogRes (v : option V).
Arguments LogStr {V} s.
Arguments LogRes {V} v.

(** A value of the configuration, before evaluation. *)
Inductive LogEntry (P : Type) := EntryText (s : string) | EntryCel (p : P).
Arguments EntryText {P} s.
Arguments EntryCel {P} p.

Definition celPrefix : string := "cel:".
Definition containerNameCel : string :=
  "cel:spec.containers.map(c, c.name) + (has(spec.initContainers) ? spec.initContainers.map(c, c.name) : [])".
Definition LogURL : string := "LOG_URL".
Definition ContainerName : string := "CONTAINER_NAME".
Definition QueryKey : string := "QUERY".
Definition StartKey : string := "START".
Definition EndKey : string := "END".

(** ** [pkg/files] *)

(** A directory gives its entries and whether each is a directory; both calls
    may fail. *)
Class FileSystem := {
  ReadDir : string → option (list (string * bool));
  ReadFile : string → option string;
}.

Definition FilesInDir `{!FileSystem} (path : string) : option (gmap string string) :=
  match ReadDir path with
  | None => None
  | Some dir =>
      Some (foldl (λ files '(name, IsDir),
        if negb IsDir && negb (HasPrefix name "..") then <[name := path +:+ String "/" name]> files
        else files) ∅ dir)
  end.

Definition LoggingConfigFromFiles `{!FileSystem} (files : gmap string string)
    : option (gmap string string) :=
  list_to_map <$>
    mapM (λ '(name, path), pair name ∘ TrimSpace <$> ReadFile path) (map_to_list files).

Section logurls.
  Context {O : Type} `{!CelEnv O, !LogValues O, !MapRange, !FileSystem}.

(** The texts a value stands for: one per element of a list, the empty text for
    an empty list. *)
Definition listOf (v : LogVal Val) : option (list Val) :=
  match v with
  | LogRes (Some v) => Lister v
  | _ => None
  end.

Definition SprintValue (v : LogVal Val) : string :=
  match v with
  | LogStr s => s
  | LogRes v => SprintVal v
  end.

(** The body of the loop of [generateSubstitutionMaps]. *)
Definition substitute (vmaps : list (gmap string string)) (kv : string * LogVal Val)
    : list (gmap string string) :=
  let '(key, value) := kv in
  match listOf value with
  | Some [] => (λ vm, <[key := EmptyString]> vm) <$> vmaps
  | Some vals => vals ≫= λ val, (λ vm, <[key := SprintVal (Some val)]> vm) <$> vmaps
  | None => (λ vm, <[key := SprintValue value]> vm) <$> vmaps
  end.

Definition generateSubstitutionMaps (m : gmap string (LogVal Val)) : list (gmap string string) :=
  foldl substitute [∅] (range (map_to_list m)).

(** The values with their expressions run on the object. *)
Definition evaluateEntries (cm : gmap string (LogEntry Program)) (data : O)
    : gmap string (LogVal Val) :=
  (λ value, match value with
            | EntryText s => LogStr s
            | EntryCel prgmPtr => LogRes (ExecuteCEL (Some prgmPtr) data).1
            end) <$> cm.

Definition at_key (vmap : gmap string string) (key : string) : string :=
  default EmptyString (vmap !! key).

(** [GenerateLogURLs]; [None] when an interpolation does not end in [fuel]
    calls. *)
Definition GenerateLogURLs (fuel : nat) (cm : gmap string (LogEntry Program)) (data : O)
    : option (list LogTuple) :=
  mapM (λ vmap,
    url ← interpolateString fuel (at_key vmap LogURL) vmap;
    query ← interpolateString fuel (at_key vmap QueryKey) vmap;
    Some {| log_ContainerName := at_key vmap ContainerName; log_Url := url; log_Query := query;
            log_Start := at_key vmap StartKey; log_End := at_key vmap EndKey |})
    (generateSubstitutionMaps (evaluateEntries cm data)).

(** ** [logs.go] *)

(** The entry of a configured text. *)
Definition compileEntry (val : string) : option (LogEntry Program) :=
  if HasPrefix val celPrefix then EntryCel <$> CompileCELExpr (TrimPrefix val celPrefix)
  else Some (EntryText val).

(** [getKubeArchiveLoggingConfig]; [loggingDir] is the environment variable. *)
Definition getKubeArchiveLoggingConfig (loggingDir : option string) : option (gmap string string) :=
  match loggingDir with
  | None => None
  | Some loggingDir =>
      match FilesInDir loggingDir with
      | None => None
      | Some configFiles =>
          if bool_decide (configFiles = ∅) then None else LoggingConfigFromFiles configFiles
      end
  end.

(** [NewUrlBuilder]: its [logMap], or an error. *)
Definition NewUrlBuilder (loggingDir : option string)
    : option (gmap string (LogEntry Program)) :=
  match getKubeArchiveLoggingConfig loggingDir with
  | None => None
  | Some loggingConf =>
      match loggingConf !! LogURL with
      | None => None
      | Some _ =>
          list_to_map <$>
            mapM (λ '(key, val), pair key <$> compileEntry val)
              (map_to_list (<[ContainerName := containerNameCel]> loggingConf))
      end
  end.

(** ** The substitution maps *)

(** The texts a value stands for. *)
Definition choices (v : LogVal Val) : list string :=
  match listOf v with
  | Some [] => [EmptyString]
  | Some vals => (λ val, SprintVal (Some val)) <$> vals
  | None => [SprintValue v]
  end.

Lemma substitute_choices vmaps k v :
  substitute vmaps (k, v) = choices v ≫= λ s, (λ vm, <[k := s]> vm) <$> vmaps.
Proof.
  unfold substitute, choices. destruct (listOf v) as [[|x l]|].
  - cbn. by rewrite app_nil_r.
  - generalize (x :: l). clear. intros l. by rewrite list_fmap_bind.
  - cbn. by rewrite app_nil_r.
Qed.
Lemma elem_of_substitute vmaps k v vm :
  vm ∈ substitute vmaps (k, v) ↔ ∃ s vm', s ∈ choices v ∧ vm' ∈ vmaps ∧ vm = <[k := s]> vm'.
Proof.
  rewrite substitute_choices, list_elem_of_bind. split.
  - intros (s & (vm' & -> & ?)%list_elem_of_fmap & ?). by exists s, vm'.
  - intros (s & vm' & ? & ? & ->). exists s. split; [|done]. apply list_elem_of_fmap. eauto.
Qed.

Lemma length_substitute vmaps k v :
  length (substitute vmaps (k, v)) = (length (choices v) * length vmaps)%nat.
Proof.
  rewrite substitute_choices. induction (choices v) as [|s l IH]; [done|].
  cbn [mbind list_bind length]. unfold mbind in *.
  rewrite length_app, length_fmap, IH. lia.
Qed.

Definition substituteAll (l : list (string * LogVal Val)) : list (gmap string string) :=
  foldr (λ kv vmaps, substitute vmaps kv) [∅] l.

Lemma elem_of_substituteAll l vm :
  NoDup l.*1 →
  vm ∈ substituteAll l ↔
    dom vm = list_to_set l.*1 ∧ ∀ k v, (k, v) ∈ l → ∃ s, vm !! k = Some s ∧ s ∈ choices v.
Proof.
  revert vm; induction l as [|[k v] l IH]; intros vm; cbn [substituteAll foldr].
  - intros _. rewrite list_elem_of_singleton. split.
    + intros ->. split; [by rewrite dom_empty_L|]. intros k v Hkv. by apply not_elem_of_nil in Hkv.
    + intros [Hd _]. apply dom_empty_inv_L. rewrite Hd. done.
  - rewrite fmap_cons. cbn [fst]. intros [Hk Hnd]%NoDup_cons. rewrite elem_of_substitute.
    fold (substituteAll l). split.
    + intros (s & vm' & Hs & Hvm' & ->). apply IH in Hvm' as [Hd Hv]; [|done].
      split; [rewrite dom_insert_L, Hd; cbn; set_solver|].
      intros k' v' [[= -> ->]|Hin]%elem_of_cons.
      * exists s. by rewrite lookup_insert_eq.
      * rewrite lookup_insert_ne; [by apply Hv|]. intros <-. apply Hk. apply list_elem_of_fmap.
        by exists (k, v').
    + intros [Hd Hv]. destruct (Hv k v) as (s & Hs & Hc); [by left|].
      exists s, (delete k vm). split_and!; [done| |by rewrite insert_delete_id].
      apply IH; [done|]. split.
      * rewrite dom_delete_L, Hd. cbn. set_solver.
      * intros k' v' Hin. destruct (Hv k' v') as (s' & Hs' & Hc'); [by right|].
        exists s'. rewrite lookup_delete_ne; [done|]. intros <-. apply Hk.
        apply list_elem_of_fmap. by exists (k, v').
Qed.

Lemma length_substituteAll l :
  length (substituteAll l) = foldr (λ kv n, length (choices kv.2) * n)%nat 1%nat l.
Proof.
  induction l as [|[k v] l IH]; [done|]. cbn [substituteAll foldr].
  rewrite length_substitute. fold (substituteAll l). by rewrite IH.
Qed.

Lemma generateSubstitutionMaps_all m :
  ∃ l, l ≡ₚ map_to_list m ∧ generateSubstitutionMaps m = substituteAll l.
Proof.
  exists (rev (range (map_to_list m))). split.
  - rewrite <-Permutation_rev. apply range_perm.
  - unfold generateSubstitutionMaps, substituteAll. generalize [∅ : gmap string string].
    induction (range (map_to_list m)) as [|kv l IH]; intros vmaps; [done|].
    cbn [rev foldl]. by rewrite IH, foldr_app.
Qed.

(** The substitution maps of a configuration are, whatever the order the map
    is visited in, one per way of choosing a text for each name: an element of its
    list, the empty text for an empty list, the text itself otherwise. *)
Theorem generateSubstitutionMaps_spec (m : gmap string (LogVal Val)) :
  (∀ vm, vm ∈ generateSubstitutionMaps m ↔
     dom vm = dom m ∧ ∀ k v, m !! k = Some v → ∃ s, vm !! k = Some s ∧ s ∈ choices v) ∧
  length (generateSubstitutionMaps m) =
    foldr (λ kv n, length (choices kv.2) * n)%nat 1%nat (map_to_list m).
Proof.
  destruct (generateSubstitutionMaps_all m) as (l & Hl & ->). split.
  - intros vm. rewrite elem_of_substituteAll by (rewrite Hl; apply NoDup_fst_map_to_list).
    assert ((list_to_set l.*1 : gset string) = dom m) as ->.
    { apply leibniz_equiv. by rewrite Hl, dom_alt. }
    setoid_rewrite Hl. setoid_rewrite elem_of_map_to_list. done.
  - rewrite length_substituteAll. apply (foldr_permutation_proper (=)); [apply _|lia|done].
Qed.
End logurls.

(** ** Interpolation

    A template is a text cut into bytes and names.  A brace that opens no name
    may stand in it when the bytes after it already tell so. *)
Inductive token := Chr (c : ascii) | Name (n : string).

Definition isName (n : string) : bool := forallb isWord (String.list_ascii_of_string n) && negb (String.eqb n "").

Definition renderToken (t : token) : string :=
  match t with
  | Chr c => String c EmptyString
  | Name n => braced n
  end.

Fixpoint render (ts : list token) : string :=
  match ts with
  | [] => EmptyString
  | t :: ts => renderToken t +:+ render ts
  end.

Fixpoint noName (ts : list token) : bool :=
  match ts with
  | Chr c :: ts => if isWord c then noName ts else negb (Ascii.eqb c "}")
  | _ => false
  end.

Fixpoint template (ts : list token) : bool :=
  match ts with
  | [] => true
  | Chr c :: ts => (negb (Ascii.eqb c "{") || noName ts) && template ts
  | Name n :: ts => isName n && template ts
  end.

Fixpoint names (ts : list token) : list string :=
  match ts with
  | [] => []
  | Chr _ :: ts => names ts
  | Name n :: ts => n :: names ts
  end.

Definition subst1 (x : string) (v : list token) (ts : list token) : list token :=
  ts ≫= λ t, match t with
             | Name n => if String.eqb n x then v else [t]
             | Chr _ => [t]
             end.

Lemma isWord_not_brace c : isWord c = true → c ≠ "{" ∧ c ≠ "}".
Proof. intros Hc. split; intros ->; by vm_compute in Hc. Qed.

Lemma isName_spec n :
  isName n = true → forallb isWord (String.list_ascii_of_string n) = true ∧ ∃ d w, n = String d w.
Proof.
  unfold isName. intros [Hw Hn]%andb_true_iff. split; [done|].
  destruct n as [|d w]; [done|]. by exists d, w.
Qed.

Lemma wordThenBrace_name n r :
  forallb isWord (String.list_ascii_of_string n) = true → wordThenBrace (n +:+ String "}" r) = Some n.
Proof.
  induction n as [|c n IH]; [done|]. cbn [String.list_ascii_of_string forallb].
  intros [Hc Hn]%andb_true_iff. rewrite string_app_cons. cbn [wordThenBrace].
  by rewrite Hc, IH.
Qed.

Lemma wordThenBrace_prefix n s :
  forallb isWord (String.list_ascii_of_string n) = true →
  HasPrefix s (n +:+ String "}" EmptyString) = true → wordThenBrace s = Some n.
Proof.
  intros Hn [t ->]%HasPrefix_spec. rewrite string_app_assoc. autorewrite with golib.
  by apply wordThenBrace_name.
Qed.

Lemma noName_render ts : noName ts = true → wordThenBrace (render ts) = None.
Proof.
  induction ts as [|[c|n] ts IH]; [done| |done]. cbn [noName render renderToken].
  autorewrite with golib. cbn [wordThenBrace]. intros Hc.
  destruct (isWord c); [by rewrite IH|]. by apply negb_true_iff in Hc as ->.
Qed.

Lemma FindAll_words n s :
  forallb isWord (String.list_ascii_of_string n) = true → FindAll (n +:+ String "}" s) = FindAll s.
Proof.
  induction n as [|c n IH]; [done|]. cbn [String.list_ascii_of_string forallb].
  intros [Hc Hn]%andb_true_iff. rewrite string_app_cons. cbn [FindAll].
  destruct (isWord_not_brace c Hc) as [Hb _]. apply Ascii.eqb_neq in Hb as ->. by apply IH.
Qed.

Lemma braced_app n s : braced n +:+ s = String "{" (n +:+ String "}" s).
Proof. unfold braced. by rewrite string_app_cons, string_app_assoc. Qed.

Lemma FindAll_render ts : template ts = true → FindAll (render ts) = names ts.
Proof.
  induction ts as [|[c|n] ts IH]; [done| |]; cbn [template render renderToken names].
  - intros [Hc Hts]%andb_true_iff. autorewrite with golib. cbn [FindAll].
    destruct (Ascii.eqb c "{"); [|by apply IH]. cbn in Hc. by rewrite noName_render, IH.
  - intros [Hn Hts]%andb_true_iff. apply isName_spec in Hn as [Hw (d & w & ->)].
    rewrite braced_app. cbn [FindAll]. rewrite Ascii.eqb_refl, wordThenBrace_name by done.
    by rewrite FindAll_words, IH.
Qed.

Lemma replaceFrom_words x new n s :
  forallb isWord (String.list_ascii_of_string n) = true →
  replaceFrom 0 (braced x) new (n +:+ String "}" s) =
  n +:+ String "}" (replaceFrom 0 (braced x) new s).
Proof.
  induction n as [|c n IH]; [done|]. cbn [String.list_ascii_of_string forallb].
  intros [Hc Hn]%andb_true_iff. rewrite !string_app_cons. cbn [replaceFrom].
  destruct (isWord_not_brace c Hc) as [Hb _]. apply Ascii.eqb_neq in Hb.
  unfold braced at 1. rewrite HasPrefix_cons, Hb. by rewrite IH.
Qed.

Lemma render_app ts1 ts2 : render (ts1 ++ ts2) = render ts1 +:+ render ts2.
Proof.
  induction ts1 as [|t ts1 IH]; [done|]. cbn. by rewrite IH, string_app_assoc.
Qed.

Lemma ReplaceAll_render x v ts :
  isName x = true → template ts = true →
  ReplaceAll (render ts) (braced x) (render v) = render (subst1 x v ts).
Proof.
  intros [Hx _]%isName_spec. unfold ReplaceAll.
  induction ts as [|[c|n] ts IH]; [done| |]; cbn [template render renderToken].
  - intros [Hc Hts]%andb_true_iff. autorewrite with golib. cbn [replaceFrom].
    unfold braced at 1. rewrite HasPrefix_cons.
    destruct (Ascii.eqb_spec c "{") as [->|Hb]; cbn in Hc.
    + destruct (HasPrefix (render ts) _) eqn:Hp.
      { apply wordThenBrace_prefix in Hp; [|done]. by rewrite noName_render in Hp. }
      rewrite IH by done. done.
    + rewrite IH by done. done.
  - intros [Hn Hts]%andb_true_iff. apply isName_spec in Hn as [Hw _].
    rewrite braced_app. cbn [replaceFrom]. unfold braced at 1.
    rewrite HasPrefix_cons, Ascii.eqb_refl.
    change (subst1 x v (Name n :: ts)) with
      ((if String.eqb n x then v else [Name n]) ++ subst1 x v ts).
    rewrite render_app. destruct (String.eqb_spec n x) as [->|Hne].
    + replace (x +:+ String "}" (render ts)) with ((x +:+ String "}" EmptyString) +:+ render ts)
        by (by rewrite string_app_assoc).
      rewrite HasPrefix_app. f_equal.
      change (pred (String.length (braced x))) with (String.length (x +:+ String "}" EmptyString)).
      rewrite replaceFrom_skip. by apply IH.
    + destruct (HasPrefix _ (x +:+ _)) eqn:Hp.
      { apply wordThenBrace_prefix in Hp; [|done]. rewrite wordThenBrace_name in Hp by done.
        by injection Hp as ->. }
      rewrite replaceFrom_words, IH by done. cbn [render renderToken].
      by rewrite (string_app_assoc (braced n)), braced_app.
Qed.

Lemma noName_app ts1 ts2 : noName ts1 = true → noName (ts1 ++ ts2) = true.
Proof.
  induction ts1 as [|[c|n] ts1 IH]; [done| |done]. cbn. destruct (isWord c); [done|done].
Qed.

Lemma template_app ts1 ts2 :
  template ts1 = true → template ts2 = true → template (ts1 ++ ts2) = true.
Proof.
  intros H1 H2. induction ts1 as [|[c|n] ts1 IH]; [done| |]; cbn [template app] in *.
  - apply andb_true_iff in H1 as [[Hc|Hn]%orb_true_iff Ht]; rewrite IH by done.
    + by rewrite Hc.
    + by rewrite noName_app, orb_true_r.
  - apply andb_true_iff in H1 as [Hn Ht]. by rewrite Hn, IH.
Qed.

Lemma subst1_cons x v t ts : subst1 x v (t :: ts) = subst1 x v [t] ++ subst1 x v ts.
Proof. unfold subst1. cbn. by rewrite app_nil_r. Qed.

Lemma noName_subst1 x v ts : noName ts = true → noName (subst1 x v ts) = true.
Proof.
  induction ts as [|[c|n] ts IH]; [done| |done]. rewrite subst1_cons. cbn.
  destruct (isWord c); [done|done].
Qed.

Lemma template_subst1 x v ts :
  template v = true → template ts = true → template (subst1 x v ts) = true.
Proof.
  intros Hv. induction ts as [|[c|n] ts IH]; [done| |]; rewrite subst1_cons; cbn [template].
  - intros [[Hc|Hn]%orb_true_iff Ht]%andb_true_iff; cbn; rewrite IH by done.
    + by rewrite Hc.
    + by rewrite noName_subst1, orb_true_r.
  - intros [Hn Ht]%andb_true_iff. apply template_app; [|by apply IH]. unfold subst1. cbn.
    destruct (String.eqb n x); rewrite app_nil_r; [done|]. cbn. by rewrite Hn.
Qed.

Lemma elem_of_names_app m ts1 ts2 : m ∈ names (ts1 ++ ts2) ↔ m ∈ names ts1 ∨ m ∈ names ts2.
Proof.
  induction ts1 as [|[c|n] ts1 IH]; cbn; [| |rewrite !elem_of_cons, IH]; set_solver.
Qed.

Lemma elem_of_names_subst1 m x v ts :
  m ∈ names (subst1 x v ts) ↔ (m ∈ names ts ∧ m ≠ x) ∨ (x ∈ names ts ∧ m ∈ names v).
Proof.
  induction ts as [|[c|n] ts IH].
  - set_solver.
  - rewrite subst1_cons, elem_of_names_app, IH. cbn. set_solver.
  - rewrite subst1_cons, elem_of_names_app, IH. unfold subst1. cbn.
    destruct (String.eqb_spec n x) as [->|Hne]; rewrite app_nil_r, !elem_of_cons; cbn;
      rewrite ?elem_of_cons; set_solver.
Qed.

Lemma names_isName m ts : template ts = true → m ∈ names ts → isName m = true.
Proof.
  induction ts as [|[c|n] ts IH]; cbn [template names].
  - intros _ Hm. by apply not_elem_of_nil in Hm.
  - intros [_ Ht]%andb_true_iff. by apply IH.
  - intros [Hn Ht]%andb_true_iff [->|Hm]%elem_of_cons; [done|by apply IH].
Qed.

Section templates.
  Context (env : gmap string string) (tenv : string → list token).
  Context (Htenv : ∀ n, template (tenv n) = true ∧ render (tenv n) = default EmptyString (env !! n)).

(** One call of [interpolateString], on templates. *)
Definition pass (ts : list token) (ms : list string) : list token :=
  foldl (λ ts m, subst1 m (tenv m) ts) ts ms.

Lemma pass_render ts ms :
  template ts = true → (∀ m, m ∈ ms → isName m = true) →
  template (pass ts ms) = true ∧
  foldl (λ val m, ReplaceAll val (braced m) (default EmptyString (env !! m))) (render ts) ms =
    render (pass ts ms).
Proof.
  revert ts; induction ms as [|m ms IH]; intros ts Ht Hms; [done|].
  unfold pass. cbn [foldl]. destruct (Htenv m) as [Hm He]. rewrite <-He, ReplaceAll_render;
    [|apply Hms; by left|done].
  apply IH; [by apply template_subst1|]. intros m' Hm'. apply Hms. by right.
Qed.

Lemma interpolateString_pass fuel ts :
  template ts = true →
  interpolateString fuel (render ts) env =
    match names ts with
    | [] => Some (render ts)
    | ms => match fuel with
            | 0%nat => None
            | S fuel => interpolateString fuel (render (pass ts ms)) env
            end
    end.
Proof.
  intros Ht. destruct (pass_render ts (names ts) Ht (λ m, names_isName m ts Ht)) as [_ Hp].
  destruct fuel as [|fuel]; cbn [interpolateString]; rewrite FindAll_render by done;
    destruct (names ts) as [|m ms]; [done|done|done|]. by rewrite Hp.
Qed.

Context (rank : string → nat).

Definition bounded (k : nat) (ts : list token) : Prop := ∀ m, m ∈ names ts → rank m < k.

(** The text with every name replaced, to any depth below [k]. *)
Fixpoint expand (k : nat) (ts : list token) : list token :=
  ts ≫= λ t, match t with
             | Chr c => [Chr c]
             | Name n => match k with 0%nat => [] | S k => expand k (tenv n) end
             end.

Lemma expand_app k ts1 ts2 : expand k (ts1 ++ ts2) = expand k ts1 ++ expand k ts2.
Proof. destruct k; apply bind_app. Qed.

Lemma expand_cons k t ts : expand k (t :: ts) = expand k [t] ++ expand k ts.
Proof. apply (expand_app k [t] ts). Qed.

Lemma expand_nameless k ts : names ts = [] → expand k ts = ts.
Proof.
  induction ts as [|[c|n] ts IH]; [by destruct k| |done]. intros Hn.
  rewrite expand_cons, IH by done. by destruct k.
Qed.

Lemma bounded_cons k t ts : bounded k (t :: ts) → bounded k [t] ∧ bounded k ts.
Proof. unfold bounded. destruct t; cbn; set_solver. Qed.

Lemma bounded_name k n : bounded k [Name n] → rank n < k.
Proof. intros Hb. apply Hb. by left. Qed.

Context (Hrank : ∀ n m, m ∈ names (tenv n) → rank m < rank n).

Lemma bounded_tenv k n : rank n ≤ k → bounded k (tenv n).
Proof. intros Hk m Hm. specialize (Hrank n m Hm). lia. Qed.

Lemma expand_ext k k' ts : bounded k ts → bounded k' ts → expand k ts = expand k' ts.
Proof.
  revert k' ts; induction k as [|k IH]; intros k' ts; induction ts as [|t ts IHts];
    [by destruct k'| |by destruct k'|]; intros [H1 H2]%bounded_cons [H1' H2']%bounded_cons;
    rewrite (expand_cons _ t), (expand_cons k' t), IHts by done; f_equal;
    (destruct t as [c|n]; [by destruct k'|]); apply bounded_name in H1, H1'; [lia|].
  destruct k' as [|k']; [lia|]. cbn. rewrite !app_nil_r.
  apply IH; apply bounded_tenv; lia.
Qed.

Lemma expand_subst1 k x ts : bounded k ts → expand k (subst1 x (tenv x) ts) = expand k ts.
Proof.
  induction ts as [|t ts IH]; [done|]. intros [H1 H2]%bounded_cons.
  rewrite subst1_cons, expand_app, IH, (expand_cons k t) by done. f_equal.
  unfold subst1. destruct t as [c|n]; [done|]. cbn.
  destruct (String.eqb_spec n x) as [->|Hne]; rewrite app_nil_r; [|done].
  apply bounded_name in H1. destruct k as [|k]; [lia|].
  transitivity (expand k (tenv x)); [apply expand_ext; apply bounded_tenv; lia|].
  cbn. by rewrite app_nil_r.
Qed.

Lemma bounded_subst1 k x ts : bounded k ts → bounded k (subst1 x (tenv x) ts).
Proof.
  intros Hb m [[Hm _]|[Hx Hm]]%elem_of_names_subst1; [by apply Hb|].
  specialize (Hb x Hx). specialize (Hrank x m Hm). lia.
Qed.

Lemma expand_pass k ts ms : bounded k ts → expand k (pass ts ms) = expand k ts.
Proof.
  revert ts; induction ms as [|m ms IH]; intros ts Hb; [done|]. unfold pass. cbn [foldl].
  fold (pass (subst1 m (tenv m) ts) ms). rewrite IH by (by apply bounded_subst1).
  by apply expand_subst1.
Qed.

(** A pass over the names of the greatest rank leaves none of that rank. *)
Lemma bounded_pass k ts ms :
  bounded (S k) ts → (∀ m, m ∈ names ts → rank m < k ∨ m ∈ ms) → bounded k (pass ts ms).
Proof.
  revert ts; induction ms as [|x ms IH]; intros ts Hb Hms.
  - intros m Hm. destruct (Hms m Hm) as [?|Hin]; [done|]. by apply not_elem_of_nil in Hin.
  - apply IH; [by apply bounded_subst1|].
    intros m [[Hm Hne]|[Hx Hm]]%elem_of_names_subst1.
    + destruct (Hms m Hm) as [?|[->|?]%elem_of_cons]; [by left|done|by right].
    + left. specialize (Hb x Hx). specialize (Hrank x m Hm). lia.
Qed.

Lemma interpolateString_expand fuel k ts :
  template ts = true → bounded k ts → k ≤ fuel →
  interpolateString fuel (render ts) env = Some (render (expand k ts)).
Proof.
  revert k ts; induction fuel as [|fuel IH]; intros k ts Ht Hb Hk;
    rewrite interpolateString_pass by done; destruct (names ts) as [|m ms] eqn:En;
    [by rewrite expand_nameless| |by rewrite expand_nameless|].
  - specialize (Hb m ltac:(rewrite En; by left)). lia.
  - destruct k as [|k]; [specialize (Hb m ltac:(rewrite En; by left)); lia|].
    assert (bounded k (pass ts (m :: ms))) as Hb'.
    { apply bounded_pass; [done|]. intros m' Hm'. right. by rewrite <-En. }
    rewrite (IH k); [|apply pass_render; [done|]|done|lia].
    + f_equal. f_equal. rewrite <-(expand_pass (S k) ts (m :: ms)) by done.
      apply expand_ext; [done|]. intros m' Hm'. specialize (Hb' m' Hm'). lia.
    + intros m' Hm'. apply (names_isName m' ts Ht). by rewrite En.
Qed.
End templates.

Lemma interpolateString_done fuel val env r :
  interpolateString fuel val env = Some r → FindAll r = [].
Proof.
  revert val; induction fuel as [|fuel IH]; intros val; cbn [interpolateString];
    destruct (FindAll val) eqn:Ef; [by intros [= <-]|done|by intros [= <-]|apply IH].
Qed.

Definition template_of (tm : gmap string (list token)) (n : string) : list token :=
  default [] (tm !! n).

Lemma template_of_env (tm : gmap string (list token)) n :
  map_Forall (λ _ v, template v = true) tm →
  template (template_of tm n) = true ∧
  render (template_of tm n) = default EmptyString ((render <$> tm) !! n).
Proof.
  intros Htm. unfold template_of. rewrite lookup_fmap.
  destruct (tm !! n) as [v|] eqn:Ev; cbn; [|done]. split; [by apply (Htm n)|done].
Qed.

Lemma elem_of_names_template_of tm n m :
  m ∈ names (template_of tm n) → ∃ v, tm !! n = Some v ∧ m ∈ names v.
Proof.
  unfold template_of. destruct (tm !! n) as [v|]; cbn; [by exists v|].
  intros Hm. by apply not_elem_of_nil in Hm.
Qed.

(** C21: when no name of a configuration refers to itself, directly or through
    others, interpolation ends, after as many calls as the longest chain of
    names: the text it gives holds no name any more, and is the template with
    each name replaced, to any depth, by what it stands for, an unknown one by
    the empty text. *)
Theorem interpolateString_acyclic (tm : gmap string (list token)) (rank : string → nat)
    (ts : list token) (k fuel : nat)
    (Htm : map_Forall (λ _ v, template v = true) tm) (Hts : template ts = true)
    (Hrank : ∀ n v m, tm !! n = Some v → m ∈ names v → rank m < rank n)
    (Hk : ∀ m, m ∈ names ts → rank m < k) (Hfuel : k ≤ fuel) :
  interpolateString fuel (render ts) (render <$> tm) =
    Some (render (expand (template_of tm) k ts)) ∧
  FindAll (render (expand (template_of tm) k ts)) = [].
Proof.
  assert (interpolateString fuel (render ts) (render <$> tm) =
    Some (render (expand (template_of tm) k ts))) as Hi.
  { apply (interpolateString_expand _ _ (λ n, template_of_env tm n Htm) rank); try done.
    intros n m (v & Hv & Hm)%elem_of_names_template_of. by apply (Hrank n v). }
  split; [done|]. by apply interpolateString_done in Hi.
Qed.

(** When a name refers to itself, directly or through others, the
    interpolation of a text that holds it never ends, whatever number of calls
    is allowed. *)
Theorem interpolateString_cyclic (tm : gmap string (list token)) (cycle : gset string)
    (ts : list token) (x : string) (fuel : nat)
    (Htm : map_Forall (λ _ v, template v = true) tm) (Hts : template ts = true)
    (Hcycle : set_Forall (λ n, Exists (λ m, m ∈ cycle) (names (template_of tm n))) cycle)
    (Hx : x ∈ names ts) (Hin : x ∈ cycle) :
  interpolateString fuel (render ts) (render <$> tm) = None.
Proof.
  pose proof (λ n, template_of_env tm n Htm) as Henv.
  assert (∀ ms ts, (∃ y, y ∈ names ts ∧ y ∈ cycle) →
    ∃ y, y ∈ names (pass (template_of tm) ts ms) ∧ y ∈ cycle) as Hpass.
  { induction ms as [|m ms IH]; intros ts' (y & Hy & Hyc); [by exists y|]. apply IH.
    destruct (decide (y = m)) as [->|Hne].
    - specialize (Hcycle m Hyc). apply Exists_exists in Hcycle as (z & Hz & Hzc).
      exists z. split; [|done]. apply elem_of_names_subst1. by right.
    - exists y. split; [|done]. apply elem_of_names_subst1. by left. }
  assert (∃ y, y ∈ names ts ∧ y ∈ cycle) as Hc by (by exists x). clear Hx Hin.
  revert ts Hts Hc; induction fuel as [|fuel IH]; intros ts Hts Hc;
    rewrite (interpolateString_pass _ _ Henv) by done;
    destruct (names ts) as [|m ms] eqn:En; try done;
    [by destruct Hc as (y & Hy%not_elem_of_nil & _)|by destruct Hc as (y & Hy%not_elem_of_nil & _)|].
  rewrite <-En in Hc |- *. apply IH; [|by apply Hpass].
  apply (pass_render _ _ Henv); [done|]. intros m'. by apply names_isName.
Qed.

(** ** Witnesses *)

(** The configuration for Loki of the repository's tests. *)
Definition sample_templates : gmap string (list token) :=
  <["QUERY"%string := [Chr "{"; Chr "p"; Chr "o"; Chr "d"; Chr "="; Name "POD_ID"; Chr ",";
     Chr "c"; Chr "="; Name "CONTAINER"; Chr "}"]]>
  (<["CONTAINER"%string := [Chr "#"; Name "CONTAINER_NAME"]]>
  (<["CONTAINER_NAME"%string := [Chr "w"; Chr "1"]]>
  (<["POD_ID"%string := [Chr "7"]]> ∅))).

Definition sample_rank (n : string) : nat :=
  if String.eqb n "QUERY" then 2%nat else if String.eqb n "CONTAINER" then 1%nat else 0%nat.

Lemma interpolateString_acyclic_witness :
  interpolateString 3 "{QUERY}" (render <$> sample_templates) = Some "{pod=7,c=#w1}"%string.
Proof.
  refine (proj1 (interpolateString_acyclic sample_templates sample_rank [Name "QUERY"] 3 3
    _ _ _ _ _)).
  - apply (bool_decide_unpack _). vm_compute. reflexivity.
  - vm_compute. reflexivity.
  - assert (map_Forall (λ n v, Forall (λ m, sample_rank m < sample_rank n) (names v))
      sample_templates) as Hall by (apply (bool_decide_unpack _); vm_compute; reflexivity).
    intros n v m Hv Hm. specialize (Hall n v Hv). rewrite Forall_forall in Hall. by apply Hall.
  - intros m Hm. apply list_elem_of_singleton in Hm as ->. vm_compute. lia.
  - lia.
Defined.

Definition sample_cyclic : gmap string (list token) :=
  <["A"%string := [Chr "a"; Name "B"]]> (<["B"%string := [Name "A"; Chr "b"]]> ∅).

Definition sample_cycle : gset string := list_to_set ["A"%string; "B"%string].

Lemma interpolateString_cyclic_witness :
  interpolateString 5 "{A}" (render <$> sample_cyclic) = None.
Proof.
  apply (interpolateString_cyclic sample_cyclic sample_cycle [Name "A"] "A" 5).
  - apply (bool_decide_unpack _). vm_compute. reflexivity.
  - vm_compute. reflexivity.
  - apply (bool_decide_unpack _). vm_compute. reflexivity.
  - by left.
  - apply (bool_decide_unpack _). vm_compute. reflexivity.
Defined.

#[export] Instance sample_logvalues : LogValues sample := {|
  Lister := λ _, None; SprintVal := λ v, if v is Some true then "true"%string else "false"%string |}.

Lemma generateSubstitutionMaps_example :
  generateSubstitutionMaps
    (<["B"%string := LogRes (Some true)]> (<["A"%string := LogStr "x"]> ∅) : gmap _ (LogVal bool)) =
  [<["B"%string := "true"%string]> (<["A"%string := "x"%string]> ∅)].
Proof. vm_compute. reflexivity. Qed.
