(* ===== verification/SinkRouter.v ===== *)
(** * [cmd/sink]: receiving an event

    [routers.go], [ReceiveCloudEvent]: an event is checked, its object is written
    to the database, and, for the types that ask for it, deleted from the cluster
    and written again.  A request runs against faults of the database and of the
    API server chosen by its caller; the state is the database, the deletions
    asked to the cluster and the metric. *)
From S2P Require Import Prelude GoLib Api Cel CloudEvents Samples Filters Keepers WatchManager Writer LogUrls.

(** ** [pkg/observability/metrics.go] *)
Definition CEResultInsert : string := "insert".
Definition CEResultUpdate : string := "update".
Definition CEResultNone : string := "none".
Definition CEResultError : string := "error".
Definition CEResultNoConfiguration : string := "no_conf".

Definition NewCEResultFromWriteResourceResult (result : WriteResourceResult) : string :=
  match result with
  | WriteResourceResultInserted => CEResultInsert
  | WriteResourceResultUpdated => CEResultUpdate
  | WriteResourceResultNone => CEResultNone
  | WriteResourceResultError => CEResultError
  end.

(** ** [k8s/objects.go] *)

Section objects.
  Context {O : Type} `{!Unstructured O}.

(** [Before] is false when the other time is nil. *)
Definition GetLastUpdateTs (obj : O) : Z :=
  foldl (λ latest elem,
    match elem with
    | Some t => if (latest <? t)%Z then t else latest
    | None => latest
    end) zeroTime (GetManagedFieldTimes obj).
End objects.

(** ** [routers.go] *)

(** The body of an event and its type. *)
Record Event := { ev_Type : string; ev_Data : string }.

(** A request: the event parsed from it, if any, and whether it is valid. *)
Record Request := { rq_Event : option Event; rq_Valid : bool }.

(** Libraries: the decoding of an object and the plural of a kind. *)
Class SinkLib (O : Type) := {
  UnmarshalJSON : string → option O;
  UnsafeGuessKindToResource : string → string → GroupVersionResource;
}.

Inductive DeleteResult := DeleteDone | DeleteNotFound | DeleteFailed.

(** What happens outside during a request. *)
Record RequestRun := {
  run_write : TxFaults; run_delete : DeleteResult; run_now : Z; run_rewrite : TxFaults;
}.

Record CEMetric := { m_event_type : string; m_result : string; m_resource_type : option string }.

Record SinkState := {
  sk_db : Tables;
  sk_deletes : list (GroupVersionResource * string * string);
  sk_metrics : list CEMetric;
}.


Definition isDeleteWhen (eventType : string) : bool := HasSuffix eventType ".delete-when".
Definition isArchiveWhen (eventType : string) : bool := HasSuffix eventType ".archive-when".
Definition isArchiveOnDelete (eventType : string) : bool :=
  HasSuffix eventType ".archive-on-delete".
Definition isKeepLastWhenDelete (eventType : string) : bool :=
  HasSuffix eventType ".keep-last-when-delete".

Definition supportedType (eventType : string) : bool :=
  isDeleteWhen eventType || isArchiveWhen eventType || isArchiveOnDelete eventType
  || isKeepLastWhenDelete eventType.

(** The types after which the object is deleted from the cluster. *)
Definition deletingType (eventType : string) : bool :=
  isDeleteWhen eventType || isKeepLastWhenDelete eventType.

Section router.
  Context {O : Type} `{!Unstructured O, !CelEnv O, !LogValues O, !MapRange, !SinkLib O}.
  Context `{!DBWriter O}.

(** A [Controller]; its [LogUrlBuilder] may be nil. *)
Record Controller := { LogUrlBuilder : option (gmap string (LogEntry Program)) }.

(** [UrlBuilder.Urls]; [None] when it does not return. *)
Definition Urls (fuel : nat) (c : Controller) (obj : O) : option (list LogTuple) :=
  match LogUrlBuilder c with
  | None => Some []
  | Some logMap => GenerateLogURLs fuel logMap obj
  end.

Definition writeResource (fuel : nat) (c : Controller) (f : TxFaults) (obj : O) (event : Event)
    (db : Tables) : option WriteOutcome :=
  urls ← Urls fuel c obj;
  Some (db_WriteResource f (Some obj) (ev_Data event) (GetLastUpdateTs obj) urls db).

(** The deferred update of the metric. *)
Definition addMetric (event : Event) (result : string) (k8sObj : option O) (st : SinkState)
    : SinkState :=
  {| sk_db := sk_db st; sk_deletes := sk_deletes st;
     sk_metrics := sk_metrics st ++
       [{| m_event_type := ev_Type event; m_result := result;
           m_resource_type := (λ o, GetAPIVersion o +:+ "/" +:+ GetKind o) <$> k8sObj |}] |}.

Definition withDb (db : Tables) (st : SinkState) : SinkState :=
  {| sk_db := db; sk_deletes := sk_deletes st; sk_metrics := sk_metrics st |}.

(** What a deletion names: the plural of the kind, the namespace and the name. *)
Definition deletionOf (obj : O) : GroupVersionResource * string * string :=
  (UnsafeGuessKindToResource (GetAPIVersion obj) (GetKind obj), GetNamespace obj, GetName obj).

Definition addDelete (obj : O) (st : SinkState) : SinkState :=
  {| sk_db := sk_db st; sk_deletes := sk_deletes st ++ [deletionOf obj];
     sk_metrics := sk_metrics st |}.

(** The end of [ReceiveCloudEvent], after the first write: the deletion and the
    second write. [result] is the metric's so far. *)
Definition deleteResource (fuel : nat) (c : Controller) (run : RequestRun) (event : Event)
    (k8sObj : O) (result : string) (st : SinkState) : option (Z * SinkState) :=
  let st := addDelete k8sObj st in
  match run_delete run with
  | DeleteNotFound => Some (StatusAccepted, addMetric event result (Some k8sObj) st)
  | DeleteFailed => Some (StatusInternalServerError, addMetric event result (Some k8sObj) st)
  | DeleteDone =>
      let deleted := SetDeletionTimestamp k8sObj (run_now run) in
      w ← writeResource fuel c (run_rewrite run) deleted event (sk_db st);
      let st := withDb (wo_db w) st in
      match wo_err w with
      | Some _ => Some (StatusInternalServerError, addMetric event result (Some k8sObj) st)
      | None =>
          Some (StatusAccepted,
            addMetric event (NewCEResultFromWriteResourceResult (wo_result w)) (Some k8sObj) st)
      end
  end.

(** [ReceiveCloudEvent] of a valid event whose object was decoded. *)
Definition receiveObject (fuel : nat) (c : Controller) (run : RequestRun) (event : Event)
    (k8sObj : O) (st : SinkState) : option (Z * SinkState) :=
  if negb (supportedType (ev_Type event)) then
    Some (StatusAccepted, addMetric event CEResultNoConfiguration (Some k8sObj) st)
  else
    w ← writeResource fuel c (run_write run) k8sObj event (sk_db st);
    let st := withDb (wo_db w) st in
    match wo_err w with
    | Some _ => Some (StatusInternalServerError, addMetric event CEResultError (Some k8sObj) st)
    | None =>
        let result := NewCEResultFromWriteResourceResult (wo_result w) in
        if negb (isDeleteWhen (ev_Type event)) && negb (isKeepLastWhenDelete (ev_Type event))
        then Some (StatusAccepted, addMetric event result (Some k8sObj) st)
        else deleteResource fuel c run event k8sObj result st
    end.

(** [ReceiveCloudEvent]: the status of the answer, and the state after it;
    [None] when it does not return. *)
Definition ReceiveCloudEvent (fuel : nat) (c : Controller) (run : RequestRun) (req : Request)
    (st : SinkState) : option (Z * SinkState) :=
  match rq_Event req with
  | None => Some (StatusBadRequest, st)
  | Some event =>
      if negb (rq_Valid req) then Some (StatusBadRequest, st)
      else
        match UnmarshalJSON (ev_Data event) with
        | None => Some (StatusUnprocessableEntity, addMetric event CEResultError None st)
        | Some k8sObj => receiveObject fuel c run event k8sObj st
        end
  end.

(** [Readyz]: [pinged] tells whether the database answered. *)
Definition Readyz (pinged : bool) : Z := if pinged then StatusOK else StatusServiceUnavailable.

(** ** What a request does *)

(** The laws of [unstructured.Unstructured] the second write relies on. *)
Class DeletionStamp := {
  GetUID_deleted (o : O) t : GetUID (SetDeletionTimestamp o t) = GetUID o;
  GetManagedFieldTimes_deleted (o : O) t :
    GetManagedFieldTimes (SetDeletionTimestamp o t) = GetManagedFieldTimes o;
  GetKind_deleted (o : O) t : GetKind (SetDeletionTimestamp o t) = GetKind o;
}.

(** What the handler of a decoded object does: nothing, or a first write, a
    deletion asked after it, and a second write. *)
Inductive handled (fuel : nat) (c : Controller) (f : TxFaults) (event : Event) (o : O) (st : SinkState)
    : bool → Z → SinkState → Prop :=
| handled_ignored st' :
    supportedType (ev_Type event) = false → sk_db st' = sk_db st → sk_deletes st' = sk_deletes st →
    handled fuel c f event o st false StatusAccepted st'
| handled_failed w st' :
    supportedType (ev_Type event) = true →
    writeResource fuel c f o event (sk_db st) = Some w → wo_err w ≠ None →
    sk_db st' = sk_db st → sk_deletes st' = sk_deletes st →
    handled fuel c f event o st false StatusInternalServerError st'
| handled_archived w st' :
    supportedType (ev_Type event) = true → deletingType (ev_Type event) = false →
    writeResource fuel c f o event (sk_db st) = Some w → wo_err w = None →
    sk_db st' = wo_db w → sk_deletes st' = sk_deletes st →
    handled fuel c f event o st false StatusAccepted st'
| handled_kept w status st' :
    deletingType (ev_Type event) = true →
    writeResource fuel c f o event (sk_db st) = Some w → wo_err w = None →
    sk_db st' = wo_db w → sk_deletes st' = sk_deletes st ++ [deletionOf o] →
    (status = StatusAccepted ∨ status = StatusInternalServerError) →
    handled fuel c f event o st true status st'
| handled_rewritten w f' now w' status st' :
    deletingType (ev_Type event) = true →
    writeResource fuel c f o event (sk_db st) = Some w → wo_err w = None →
    writeResource fuel c f' (SetDeletionTimestamp o now) event (wo_db w) = Some w' →
    sk_db st' = wo_db w' → sk_deletes st' = sk_deletes st ++ [deletionOf o] →
    status = (if wo_err w' is Some _ then StatusInternalServerError else StatusAccepted) →
    handled fuel c f event o st true status st'.

Lemma writeResource_fails fuel c f o event db w :
  writeResource fuel c f o event db = Some w → wo_err w ≠ None → wo_db w = db.
Proof.
  unfold writeResource. destruct (Urls fuel c o) as [urls|]; [|done]. intros [= <-].
  apply db_write_fails.
Qed.

Lemma writeResource_stores fuel c f o event db w :
  writeResource fuel c f o event db = Some w → wo_err w = None →
  is_Some (t_resource (wo_db w) !! GetUID o).
Proof.
  unfold writeResource. destruct (Urls fuel c o) as [urls|]; [|done]. intros [= <-].
  apply db_write_stores.
Qed.

Lemma receiveObject_handled fuel c run event o st status st' :
  receiveObject fuel c run event o st = Some (status, st') →
  (∃ deleted, handled fuel c (run_write run) event o st deleted status st') ∧
  ∃ m, sk_metrics st' = sk_metrics st ++ [m].
Proof.
  unfold receiveObject. destruct (supportedType (ev_Type event)) eqn:Es; cbn [negb].
  2: { intros [= <- <-]. split; [|by eexists]. exists false. by apply handled_ignored. }
  destruct (writeResource fuel c (run_write run) o event (sk_db st)) as [w|] eqn:Ew; [|done].
  cbn [mbind option_bind]. destruct (wo_err w) as [e|] eqn:He.
  { intros [= <- <-]. split; [|by eexists]. exists false.
    apply (handled_failed _ _ _ _ _ _ w); try done; [by rewrite He|].
    apply (writeResource_fails _ _ _ _ _ _ _ Ew). by rewrite He. }
  destruct (negb (isDeleteWhen _) && negb (isKeepLastWhenDelete _)) eqn:Ed.
  { intros [= <- <-]. split; [|by eexists]. exists false.
    apply (handled_archived _ _ _ _ _ _ w); try done.
    unfold deletingType. apply andb_true_iff in Ed as [->%negb_true_iff ->%negb_true_iff]. done. }
  assert (deletingType (ev_Type event) = true) as Hd.
  { unfold deletingType. by destruct (isDeleteWhen _), (isKeepLastWhenDelete _). }
  unfold deleteResource. destruct (run_delete run) eqn:Er.
  - set (w' := writeResource _ _ _ _ _ _).
    destruct w' as [v|] eqn:Ew'; [|done]. cbn [mbind option_bind].
    destruct (wo_err v) eqn:He'; intros [= <- <-]; (split; [|by eexists]); exists true;
      apply (handled_rewritten _ _ _ _ _ _ w (run_rewrite run) (run_now run) v);
      try done; by rewrite He'.
  - intros [= <- <-]. split; [|by eexists]. exists true.
    apply (handled_kept _ _ _ _ _ _ w); try done. by left.
  - intros [= <- <-]. split; [|by eexists]. exists true.
    apply (handled_kept _ _ _ _ _ _ w); try done. by right.
Qed.

Lemma deletingType_supported t : deletingType t = true → supportedType t = true.
Proof.
  unfold deletingType, supportedType. intros [->| ->]%orb_true_iff; [done|apply orb_true_r].
Qed.

Lemma handled_status fuel c f event o st deleted status st' :
  handled fuel c f event o st deleted status st' →
  (status = StatusAccepted ∨ status = StatusInternalServerError) ∧
  (supportedType (ev_Type event) = false → status = StatusAccepted ∧
     sk_db st' = sk_db st ∧ sk_deletes st' = sk_deletes st).
Proof.
  intros Hh. split; [|destruct Hh; intros Hs; try done; try congruence;
    match goal with H : deletingType _ = true |- _ => apply deletingType_supported in H end;
    congruence].
  destruct Hh; try (by left); try (by right); try done.
  match goal with H : status = _ |- _ => rewrite H end. destruct (wo_err w'); [by right|by left].
Qed.

(** When a supported event is accepted its object has a row. *)
Lemma handled_stores `{!DeletionStamp} fuel c f event o st deleted status st' :
  handled fuel c f event o st deleted status st' → supportedType (ev_Type event) = true →
  status = StatusAccepted → is_Some (t_resource (sk_db st') !! GetUID o).
Proof.
  intros Hh Hs Ha. destruct Hh as [|w st' _ _ _ _ _|w st' _ _ Hw He Hdb _|w status st' _ Hw He Hdb _ _
    |w f' now w' status st' _ Hw He Hw' Hdb _ Hst]; [congruence|done|..].
  1,2: rewrite Hdb; by apply (writeResource_stores _ _ _ _ _ _ _ Hw).
  rewrite Hdb, <-(GetUID_deleted o now). apply (writeResource_stores _ _ _ _ _ _ _ Hw').
  destruct (wo_err w'); [|done]. rewrite Hst in Ha. done.
Qed.

(** The calls that handling a supported event makes, and that all succeed: the write of
    its object and, for the types that delete, a deletion that does not fail (an object
    already gone is no failure), followed, unless the object was gone, by a second write. *)
Definition succeeds (fuel : nat) (c : Controller) (run : RequestRun) (event : Event) (o : O)
    (db : Tables) : Prop :=
  ∃ w, writeResource fuel c (run_write run) o event db = Some w ∧ wo_err w = None ∧
    (deletingType (ev_Type event) = true →
     run_delete run ≠ DeleteFailed ∧
     (run_delete run = DeleteDone → ∃ w',
        writeResource fuel c (run_rewrite run) (SetDeletionTimestamp o (run_now run)) event (wo_db w) =
          Some w' ∧ wo_err w' = None)).

Lemma receiveObject_succeeds fuel c run event o st status st' :
  supportedType (ev_Type event) = true →
  receiveObject fuel c run event o st = Some (status, st') →
  (status = StatusAccepted ∧ succeeds fuel c run event o (sk_db st)) ∨
  (status = StatusInternalServerError ∧ ¬ succeeds fuel c run event o (sk_db st)).
Proof.
  intros Hs. unfold receiveObject, succeeds. rewrite Hs. cbn [negb].
  destruct (writeResource fuel c (run_write run) o event (sk_db st)) as [w|]; [|done].
  cbn [mbind option_bind]. destruct (wo_err w) as [e|] eqn:He.
  { intros [= <- <-]. right. split; [done|]. intros (w0 & [= <-] & He' & _). congruence. }
  unfold deletingType. destruct (negb (isDeleteWhen _) && negb (isKeepLastWhenDelete _)) eqn:Ed.
  { intros [= <- <-]. left. split; [done|]. exists w. split_and!; [done..|].
    by destruct (isDeleteWhen _), (isKeepLastWhenDelete _). }
  assert (isDeleteWhen (ev_Type event) || isKeepLastWhenDelete (ev_Type event) = true) as Hd
    by (by destruct (isDeleteWhen _), (isKeepLastWhenDelete _)).
  unfold deleteResource. destruct (run_delete run) eqn:Er.
  - cbn [sk_db addDelete withDb].
    destruct (writeResource _ _ _ (SetDeletionTimestamp _ _) _ _) as [v|] eqn:Ev; [|done].
    cbn [mbind option_bind]. destruct (wo_err v) as [e|] eqn:He'; intros [= <- <-].
    + right. split; [done|]. intros (w0 & [= <-] & _ & Hw). destruct (Hw Hd) as [_ Hw'].
      destruct (Hw' eq_refl) as (v' & Hv' & ?). congruence.
    + left. split; [done|]. exists w. split_and!; [done..|]. intros _. split; [done|]. intros _. by exists v.
  - intros [= <- <-]. left. split; [done|]. exists w. split_and!; [done..|]. by intros _.
  - intros [= <- <-]. right. split; [done|]. intros (w0 & [= <-] & _ & Hw). by destruct (Hw Hd).
Qed.

(** C22: the answer to a request, when it comes: 400 and no effect at all without
    a valid event; 422 without a decodable object, 202 for a type that is not
    supported, and both leave the database and the cluster alone.  For a supported type
    the answer is 202 exactly when the write of the object and, for the types that
    delete, the deletion and the write after it all succeeded, and 500 exactly when one
    of them failed; when it is 202 the row of the object is in the database.  Each valid
    event counts once. *)
Theorem ReceiveCloudEvent_status `{!DeletionStamp} (fuel : nat) (c : Controller) (run : RequestRun)
    (req : Request) (st st' : SinkState) (status : Z)
    (Hreq : ReceiveCloudEvent fuel c run req st = Some (status, st')) :
  match rq_Event req with
  | Some event =>
      if rq_Valid req then
        (∃ m, sk_metrics st' = sk_metrics st ++ [m]) ∧
        match UnmarshalJSON (ev_Data event) with
        | None => status = StatusUnprocessableEntity ∧
            sk_db st' = sk_db st ∧ sk_deletes st' = sk_deletes st
        | Some o =>
            if supportedType (ev_Type event) then
              (status = StatusAccepted ↔ succeeds fuel c run event o (sk_db st)) ∧
              (status = StatusInternalServerError ↔ ¬ succeeds fuel c run event o (sk_db st)) ∧
              (status = StatusAccepted → is_Some (t_resource (sk_db st') !! GetUID o))
            else status = StatusAccepted ∧ sk_db st' = sk_db st ∧ sk_deletes st' = sk_deletes st
        end
      else status = StatusBadRequest ∧ st' = st
  | None => status = StatusBadRequest ∧ st' = st
  end.
Proof.
  unfold ReceiveCloudEvent in Hreq. destruct (rq_Event req) as [event|]; [|by injection Hreq as <- <-].
  destruct (rq_Valid req); cbn [negb] in Hreq; [|by injection Hreq as <- <-].
  destruct (UnmarshalJSON (ev_Data event)) as [o|]; [|injection Hreq as <- <-; split; [by eexists|done]].
  destruct (receiveObject_handled _ _ _ _ _ _ _ _ Hreq) as [[d Hh] Hm]. split; [done|].
  destruct (supportedType (ev_Type event)) eqn:Hs; [|apply handled_status in Hh; naive_solver].
  destruct (receiveObject_succeeds _ _ _ _ _ _ _ _ Hs Hreq) as [[-> Hok]|[-> Hno]];
    (split_and!; [split; [done|intros ?; try done]..|intros Ha; try done]).
  by apply (handled_stores _ _ _ _ _ _ _ _ _ Hh).
Qed.

(** C23: a deletion is asked only for a type that says so, once, for the very
    object of the event, and only when its row is in the database; the row is
    still there when the request ends, whatever failed in between. *)
Theorem ReceiveCloudEvent_deletes_archived `{!DeletionStamp} (fuel : nat) (c : Controller)
    (run : RequestRun) (req : Request) (st st' : SinkState) (status : Z)
    (Hreq : ReceiveCloudEvent fuel c run req st = Some (status, st')) :
  sk_deletes st' = sk_deletes st ∨
  ∃ event o w, rq_Event req = Some event ∧ rq_Valid req = true ∧
    UnmarshalJSON (ev_Data event) = Some o ∧ deletingType (ev_Type event) = true ∧
    sk_deletes st' = sk_deletes st ++ [deletionOf o] ∧
    writeResource fuel c (run_write run) o event (sk_db st) = Some w ∧ wo_err w = None ∧
    is_Some (t_resource (wo_db w) !! GetUID o) ∧
    is_Some (t_resource (sk_db st') !! GetUID o).
Proof.
  unfold ReceiveCloudEvent in Hreq. destruct (rq_Event req) as [event|]; [|injection Hreq as _ <-; by left].
  destruct (rq_Valid req); cbn [negb] in Hreq; [|injection Hreq as _ <-; by left].
  destruct (UnmarshalJSON (ev_Data event)) as [o|] eqn:Eo; [|injection Hreq as _ <-; by left].
  destruct (receiveObject_handled _ _ _ _ _ _ _ _ Hreq) as [[d Hh] _].
  destruct Hh as [| | |w status st' Hd Hw He Hdb Hdel _|w f' now w' status st' Hd Hw He Hw' Hdb Hdel _];
    try (by left); right; exists event, o, w;
    pose proof (writeResource_stores _ _ _ _ _ _ _ Hw He) as Hst; split_and!; try done.
  - by rewrite Hdb.
  - rewrite Hdb. destruct (wo_err w') eqn:He'.
    + rewrite (writeResource_fails _ _ _ _ _ _ _ Hw'); [done|by rewrite He'].
    + rewrite <-(GetUID_deleted o now). by apply (writeResource_stores _ _ _ _ _ _ _ Hw').
Qed.
End router.

(** ** With PostgreSQL *)
Section postgres.
  Context {O : Type} `{!Unstructured O, !CelEnv O, !LogValues O, !MapRange, !SinkLib O}.
  Context `{!Postgres, !DeletionStamp (O:=O)}.

Lemma newest_again old row row' :
  row_cluster_updated_ts row' = row_cluster_updated_ts row →
  newest (Some (newest old row)) row' = newest old row.
Proof.
  intros Hts. pose proof (newest_ts old row) as [_ Hn]. unfold newest at 1.
  rewrite (proj2 (Z.ltb_ge _ _)); [done|lia].
Qed.

Lemma GetLastUpdateTs_deleted o t : GetLastUpdateTs (SetDeletionTimestamp o t) = GetLastUpdateTs o.
Proof. unfold GetLastUpdateTs. by rewrite GetManagedFieldTimes_deleted. Qed.

Lemma writeResource_row fuel (c : Controller (O:=O)) f (o : O) event db w :
  writeResource fuel c f o event db = Some w → wo_err w = None →
  t_resource (wo_db w) =
    <[GetUID o := newest (t_resource db !! GetUID o)
        (storedRow o (GetLastUpdateTs o) (ev_Data event))]> (t_resource db).
Proof.
  unfold writeResource. destruct (Urls fuel c o) as [urls|]; [|done]. intros [= <-] He.
  by apply WriteResource_ok.
Qed.

Lemma rewrite_keeps_row fuel (c : Controller (O:=O)) f f' now (o : O) event db w w' :
  writeResource fuel c f o event db = Some w → wo_err w = None →
  writeResource fuel c f' (SetDeletionTimestamp o now) event (wo_db w) = Some w' →
  t_resource (wo_db w') = t_resource (wo_db w).
Proof.
  intros Hw He Hw'. destruct (wo_err w') eqn:He'.
  - by rewrite (writeResource_fails _ _ _ _ _ _ _ Hw') by (by rewrite He').
  - rewrite (writeResource_row _ _ _ _ _ _ _ Hw' He'), GetUID_deleted, GetLastUpdateTs_deleted.
    rewrite (writeResource_row _ _ _ _ _ _ _ Hw He), lookup_insert_eq, newest_again by done.
    apply insert_insert_eq.
Qed.

(** The write that follows a deletion changes no row: its update time is that
    of the write before it, so the table a request leaves is the one that archiving
    the object alone leaves, and the deletion time set on the object is never
    stored. *)
Theorem deletion_time_not_recorded (fuel : nat) (c : Controller (O:=O)) (run : RequestRun)
    (event : Event) (o : O) (st st' : SinkState) (status : Z)
    (Ho : UnmarshalJSON (ev_Data event) = Some o)
    (Hreq : ReceiveCloudEvent fuel c run {| rq_Event := Some event; rq_Valid := true |} st =
      Some (status, st')) :
  (t_resource (sk_db st') = t_resource (sk_db st) ∨
   t_resource (sk_db st') =
     <[GetUID o := newest (t_resource (sk_db st) !! GetUID o)
         (storedRow o (GetLastUpdateTs o) (ev_Data event))]> (t_resource (sk_db st))) ∧
  (GetDeletionTimestamp o = None → ∀ uuid row, t_resource (sk_db st') !! uuid = Some row →
     row_cluster_deleted_ts row = None ∨ t_resource (sk_db st) !! uuid = Some row).
Proof.
  unfold ReceiveCloudEvent in Hreq. cbn in Hreq. rewrite Ho in Hreq.
  destruct (receiveObject_handled _ _ _ _ _ _ _ _ Hreq) as [[d Hh] _].
  assert (t_resource (sk_db st') = t_resource (sk_db st) ∨
    t_resource (sk_db st') =
      <[GetUID o := newest (t_resource (sk_db st) !! GetUID o)
          (storedRow o (GetLastUpdateTs o) (ev_Data event))]> (t_resource (sk_db st))) as Hrow.
  { destruct Hh as [st' _ -> _|w st' _ _ _ -> _|w st' _ _ Hw He -> _|w status st' _ Hw He -> _ _
      |w f' now w' status st' _ Hw He Hw' -> _ _]; [by left|by left|right..].
    1,2: by apply (writeResource_row _ _ _ _ _ _ _ Hw).
    rewrite (rewrite_keeps_row _ _ _ _ _ _ _ _ _ _ Hw He Hw').
    by apply (writeResource_row _ _ _ _ _ _ _ Hw). }
  split; [done|]. intros Hnone uuid row. destruct Hrow as [->| ->]; [by right|].
  destruct (decide (uuid = GetUID o)) as [->|Hne].
  - rewrite lookup_insert_eq. intros [= <-]. unfold newest.
    destruct (t_resource (sk_db st) !! GetUID o) as [old|]; cbn [storedRow withDocument rowOf row_cluster_deleted_ts].
    + destruct (_ <? _)%Z; cbn; [left; by rewrite Hnone|by right].
    + left. cbn. by rewrite Hnone.
  - rewrite lookup_insert_ne by done. by right.
Qed.
End postgres.

(** ** The senders *)

(** The types of the events of a vacuum. *)
Lemma vacuum_types prefix :
  supportedType (keepLastWhenDelete prefix) = true ∧ deletingType (keepLastWhenDelete prefix) = true ∧
  supportedType (archiveWhen prefix) = true ∧ deletingType (archiveWhen prefix) = false.
Proof.
  unfold keepLastWhenDelete, archiveWhen, supportedType, deletingType,
    isDeleteWhen, isArchiveWhen, isArchiveOnDelete, isKeepLastWhenDelete.
  rewrite !HasSuffix_app, !(HasSuffix_disjoint prefix ".archive-when") by (vm_compute; done).
  by rewrite !orb_true_r.
Qed.

Section senders.
  Context {O : Type} `{!Unstructured O, !EventEncoding O, !CelEnv O, !CloudEventClient O}.

(** Every event the controller and the vacuum send has a type the sink
    supports: the sink deletes the object of an event of the controller exactly
    when a deletion expression of the watch held, and that of a vacuum exactly
    when a keeper dropped it. *)
Theorem senders_supported :
  (∀ source (event : WatchEvent O) w ev err,
     handleWatchEvent (Some source) event w = Ok (Some ev, err) →
     supportedType (ce_Type ev) = true ∧
     ∃ o, Object event = ObjUnstructured o ∧
       deletingType (ce_Type ev) =
         bool_decide (Type_ event ≠ Deleted) &&
         anyHolds DeleteWhen (ClusterCel w) (WatchNamespaces w !! GetNamespace o) o) ∧
  (∀ prefix, supportedType (keepLastWhenDelete prefix) = true ∧
     deletingType (keepLastWhenDelete prefix) = true ∧
     supportedType (archiveWhen prefix) = true ∧ deletingType (archiveWhen prefix) = false).
Proof.
  split.
  - intros source event w ev err. unfold handleWatchEvent.
    destruct (Object event) as [o| |]; [|done..].
    set (ns := WatchNamespaces w !! GetNamespace o). intros He.
    assert (match Type_ event with
            | Added | Modified =>
                if anyHolds DeleteWhen (ClusterCel w) ns o
                then sendCloudEvent (Some source) "delete-when" o w
                else if anyHolds ArchiveWhen (ClusterCel w) ns o
                then sendCloudEvent (Some source) "archive-when" o w else Ok (None, None)
            | Deleted =>
                if anyHolds ArchiveOnDelete (ClusterCel w) ns o
                then sendCloudEvent (Some source) "archive-on-delete" o w else Ok (None, None)
            | _ => Ok (None, None)
            end = Ok (Some ev, err)) as He' by (by destruct (ClusterCel w), ns).
    clear He. rename He' into He.
    enough (supportedType (ce_Type ev) = true ∧ deletingType (ce_Type ev) =
      bool_decide (Type_ event ≠ Deleted) && anyHolds DeleteWhen (ClusterCel w) ns o) as [? ?]
      by (split; [done|by exists o]).
    destruct (Type_ event); try done;
      destruct (anyHolds DeleteWhen (ClusterCel w) ns o), (anyHolds ArchiveWhen (ClusterCel w) ns o),
        (anyHolds ArchiveOnDelete (ClusterCel w) ns o); try done;
      apply sendCloudEvent_type in He as [_ ->]; vm_compute; done.
  - apply vacuum_types.
Qed.
End senders.

(** ** Witnesses *)

#[local] Instance sample_sinklib : SinkLib sample := {|
  UnmarshalJSON := λ s, if String.eqb s "" then None else Some (sample_at s 5 []);
  UnsafeGuessKindToResource := λ v k, {| Group := ""; Version := v; Resource := k |};
|}.

#[local] Instance sample_deletionstamp : DeletionStamp (O:=sample).
Proof. split; reflexivity. Defined.

Definition sample_controller : Controller (O:=sample) := {| LogUrlBuilder := None |}.
Definition sample_event : Event := {| ev_Type := "x.delete-when"; ev_Data := "u" |}.
Definition sample_request : Request := {| rq_Event := Some sample_event; rq_Valid := true |}.
Definition sample_run : RequestRun :=
  {| run_write := noFaults; run_delete := DeleteDone; run_now := 9000000000;
     run_rewrite := noFaults |}.
Definition sample_sink : SinkState :=
  {| sk_db := {| t_resource := ∅; t_log_url := [] |}; sk_deletes := []; sk_metrics := [] |}.

Definition sample_row : Row := storedRow (sample_at "u" 5 []) 5 "u".
Definition sample_after : SinkState :=
  {| sk_db := {| t_resource := <["u" := sample_row]> ∅; t_log_url := [] |};
     sk_deletes := [({| Group := ""; Version := "v1"; Resource := "Pod" |}, "ns", "u")];
     sk_metrics := [{| m_event_type := "x.delete-when"; m_result := "update";
                       m_resource_type := Some "v1/Pod" |}] |}.

Lemma sample_receives :
  ReceiveCloudEvent 1 sample_controller sample_run sample_request sample_sink =
    Some (202%Z, sample_after).
Proof. vm_compute. reflexivity. Qed.

Lemma ReceiveCloudEvent_status_witness :
  (∃ m, sk_metrics sample_after = sk_metrics sample_sink ++ [m]) ∧
  (202%Z = StatusAccepted ↔
     succeeds 1 sample_controller sample_run sample_event (sample_at "u" 5 []) (sk_db sample_sink)) ∧
  (202%Z = StatusInternalServerError ↔
     ¬ succeeds 1 sample_controller sample_run sample_event (sample_at "u" 5 []) (sk_db sample_sink)) ∧
  (202%Z = StatusAccepted → is_Some (t_resource (sk_db sample_after) !! "u")).
Proof.
  exact (ReceiveCloudEvent_status 1 sample_controller sample_run sample_request sample_sink
    sample_after 202 sample_receives).
Defined.

Lemma ReceiveCloudEvent_deletes_archived_witness :
  sk_deletes sample_after ≠ sk_deletes sample_sink ∧
  is_Some (t_resource (sk_db sample_after) !! "u").
Proof.
  split; [by vm_compute|].
  destruct (ReceiveCloudEvent_deletes_archived 1 sample_controller sample_run sample_request
    sample_sink sample_after 202 sample_receives) as [H|(event & o & w & He & _ & Ho & _ & _ & _ & _ & _ & H)].
  - by vm_compute in H.
  - injection He as <-. injection Ho as <-. exact H.
Defined.

Lemma deletion_time_not_recorded_witness :
  row_cluster_deleted_ts sample_row = None ∨ t_resource (sk_db sample_sink) !! "u" = Some sample_row.
Proof.
  assert (UnmarshalJSON (ev_Data sample_event) = Some (sample_at "u" 5 [])) as Ho by reflexivity.
  apply (proj2 (deletion_time_not_recorded 1 sample_controller sample_run sample_event
    (sample_at "u" 5 []) sample_sink sample_after 202 Ho sample_receives) eq_refl "u" sample_row).
  vm_compute. reflexivity.
Defined.
