(* ===== verification/Pipeline.v ===== *)
(** * From an event to the archive

    The senders of events ([Vacuum], [WatchManager]) and the sink ([SinkRouter])
    put together: what the deliveries of the events of a vacuum leave in the
    database and ask of the cluster. *)
From S2P Require Import Prelude GoLib GoStrings Api Cel CloudEvents Samples Filters Keepers KeeperFacts Vacuum WatchManager Writer LogUrls SinkRouter.

(** An object is sent as JSON, which decodes to the object. *)
Class EventJSON (O : Type) `{!EventEncoding O, !SinkLib O} := {
  MarshalJSON : O → string;
  UnmarshalJSON_MarshalJSON o : SetData o = true → UnmarshalJSON (MarshalJSON o) = Some o;
}.

Section pipeline.
  Context {O : Type} `{!Unstructured O, !CelEnv O, !LogValues O, !MapRange}.
  Context `{!EventEncoding O, !SinkLib O, !EventJSON O, !Postgres, !DeletionStamp (O:=O)}.

(** The request [Send] makes of an event. *)
Definition requestOf (e : CloudEvent O) : Request :=
  {| rq_Event := Some {| ev_Type := ce_Type e; ev_Data := MarshalJSON (ce_Data e) |}; rq_Valid := true |}.

(** What becomes of the request of an event: it does not reach the sink, or the sink
    runs it, and the answer comes back or not. *)
Inductive Transport :=
| Lost
| Arrives (run : RequestRun) (answerReturns : bool).

(** The delivery of an event: one request.  True when its result is an [ACK], [None] when
    the request does not return. *)
Definition post (fuel : nat) (c : Controller (O:=O)) (e : CloudEvent O) (way : Transport)
    (st : SinkState) : option (bool * SinkState) :=
  match way with
  | Lost => Some (false, st)
  | Arrives run answerReturns =>
      '(status, st) ← ReceiveCloudEvent fuel c run (requestOf e) st;
      Some (answerReturns && IsACK status, st)
  end.

Fixpoint deliverAll (fuel : nat) (c : Controller (O:=O)) (l : list (CloudEvent O * Transport))
    (st : SinkState) : option (list bool * SinkState) :=
  match l with
  | [] => Some ([], st)
  | (e, way) :: l =>
      '(answered, st) ← post fuel c e way st;
      '(rest, st) ← deliverAll fuel c l st;
      Some (answered :: rest, st)
  end.

(** The database has a row of an object, at least as recent as the object. *)
Definition stored (o : O) (st : SinkState) : Prop :=
  ∃ row, t_resource (sk_db st) !! GetUID o = Some row ∧
    (GetLastUpdateTs o <= row_cluster_updated_ts row)%Z.

(** No row is lost, and none goes back in time. *)
Definition grows (st st' : SinkState) : Prop :=
  ∀ uuid row, t_resource (sk_db st) !! uuid = Some row →
    ∃ row', t_resource (sk_db st') !! uuid = Some row' ∧
      (row_cluster_updated_ts row <= row_cluster_updated_ts row')%Z.

#[export] Instance grows_preorder : PreOrder grows.
Proof.
  split.
  - intros st uuid row Hr. exists row. split; [done|lia].
  - intros st1 st2 st3 H12 H23 uuid row Hr. destruct (H12 _ _ Hr) as (r2 & H2 & ?).
    destruct (H23 _ _ H2) as (r3 & H3 & ?). exists r3. split; [done|lia].
Qed.

#[export] Instance stored_grows o : Proper (grows ==> impl) (stored o).
Proof.
  intros st st' Hg (row & Hr & Hle). destruct (Hg _ _ Hr) as (row' & Hr' & ?).
  exists row'. split; [done|lia].
Qed.

(** The events a sender builds: encodable, and of a type of the sink. *)
Definition sendable (e : CloudEvent O) : Prop :=
  SetData (ce_Data e) = true ∧ supportedType (ce_Type e) = true.

Lemma write_step fuel (c : Controller (O:=O)) f o event st w st' :
  writeResource fuel c f o event (sk_db st) = Some w → wo_err w = None → sk_db st' = wo_db w →
  grows st st' ∧ stored o st'.
Proof.
  intros Hw He Hdb. pose proof (writeResource_row _ _ _ _ _ _ _ Hw He) as Hrow. rewrite <-Hdb in Hrow.
  split.
  - intros uuid row Hr. rewrite Hrow. destruct (decide (uuid = GetUID o)) as [->|Hne].
    + rewrite lookup_insert_eq, Hr. eexists. split; [done|]. apply (newest_ts (Some row)).
    + rewrite lookup_insert_ne by done. exists row. split; [done|lia].
  - eexists. rewrite Hrow, lookup_insert_eq. split; [done|].
    by destruct (newest_ts (t_resource (sk_db st) !! GetUID o) (storedRow o (GetLastUpdateTs o) (ev_Data event))).
Qed.

Lemma grows_same st st' : sk_db st' = sk_db st → grows st st'.
Proof. intros Hdb uuid row Hr. exists row. rewrite Hdb. split; [done|lia]. Qed.

(** What the sink does with one request. *)
Lemma attempt_step fuel c run e st status st' :
  sendable e → ReceiveCloudEvent fuel c run (requestOf e) st = Some (status, st') →
  grows st st' ∧
  (IsACK status = true → stored (ce_Data e) st') ∧
  ((sk_deletes st' = sk_deletes st ∧ (IsACK status = true → deletingType (ce_Type e) = false)) ∨
   (deletingType (ce_Type e) = true ∧ stored (ce_Data e) st' ∧
    sk_deletes st' = sk_deletes st ++ [deletionOf (ce_Data e)])).
Proof.
  intros [Henc Hsup]. unfold ReceiveCloudEvent. cbn. rewrite UnmarshalJSON_MarshalJSON by done.
  intros [[d Hh] _]%receiveObject_handled.
  destruct Hh as [st' Hn|w st' _ _ _ Hdb Hdel|w st' _ Hnd Hw He Hdb Hdel
    |w status st' Hd Hw He Hdb Hdel _|w f' now w' status st' Hd Hw He Hw' Hdb Hdel _]; cbn in *.
  - congruence.
  - split_and!; [by apply grows_same|done|by left].
  - destruct (write_step _ _ _ _ _ _ _ _ Hw He Hdb). split_and!; [done|done|by left].
  - destruct (write_step _ _ _ _ _ _ _ _ Hw He Hdb). split_and!; [done|done|by right].
  - set (mid := withDb (wo_db w) st).
    destruct (write_step _ _ _ _ _ st w mid Hw He eq_refl) as [Hg Hs].
    assert (grows mid st') as Hg'.
    { destruct (wo_err w') eqn:He'.
      - apply grows_same. rewrite Hdb. apply (writeResource_fails _ _ _ _ _ _ _ Hw'). by rewrite He'.
      - by apply (write_step _ _ _ _ _ mid _ _ Hw' He' Hdb). }
    assert (stored (ce_Data e) st') by by rewrite <-Hg'.
    split_and!; [by transitivity mid|done|by right].
Qed.

(** The delivery of one event. *)
Lemma post_step fuel c e way st answered st' :
  sendable e → post fuel c e way st = Some (answered, st') →
  grows st st' ∧
  ∃ n, (n ≤ 1)%nat ∧ sk_deletes st' = sk_deletes st ++ replicate n (deletionOf (ce_Data e)) ∧
    (n ≠ 0%nat → deletingType (ce_Type e) = true ∧ stored (ce_Data e) st') ∧
    (answered = true → stored (ce_Data e) st' ∧ (deletingType (ce_Type e) = true → n ≠ 0%nat)).
Proof.
  intros He. destruct way as [|run seen]; cbn [post].
  { intros [= <- <-]. split; [done|]. exists 0%nat. rewrite app_nil_r. split; [lia|done]. }
  destruct (ReceiveCloudEvent _ _ _ _ _) as [[status st1]|] eqn:Hr; [|done].
  cbn [mbind option_bind]. intros [= <- <-].
  destruct (attempt_step _ _ _ _ _ _ _ He Hr) as (Hg & Hs & Hd). split; [done|].
  destruct Hd as [[Hd Hnd]|(Hdel & Hst & Hd)].
  - exists 0%nat. rewrite Hd, app_nil_r. split_and!; [lia|done|done|]. intros [_ Ha]%andb_true_iff.
    split; [by apply Hs|]. by rewrite Hnd.
  - exists 1%nat. rewrite Hd. split_and!; [lia|done|done|]. intros [_ Ha]%andb_true_iff.
    split; [by apply Hs|done].
Qed.

(** What is asked of the cluster is asked for an event that deletes, of an
    object that is stored; what is answered is done. *)
Lemma deliverAll_step fuel c l st oks st' :
  Forall (λ p, sendable p.1) l → deliverAll fuel c l st = Some (oks, st') →
  grows st st' ∧
  ∃ ds, sk_deletes st' = sk_deletes st ++ ds ∧
    (∀ d, d ∈ ds → ∃ e, e ∈ l.*1 ∧ deletingType (ce_Type e) = true ∧ d = deletionOf (ce_Data e) ∧
      stored (ce_Data e) st') ∧
    (Forall (eq true) oks → ∀ e, e ∈ l.*1 → stored (ce_Data e) st' ∧
      (deletingType (ce_Type e) = true → deletionOf (ce_Data e) ∈ ds)).
Proof.
  intros Hl. revert st oks; induction Hl as [|[e way] l He Hl IH]; intros st oks; cbn [deliverAll].
  { intros [= <- <-]. split; [done|]. exists []. rewrite app_nil_r.
    split_and!; [done|by intros d ?%elem_of_nil|by intros _ e ?%elem_of_nil]. }
  destruct (post _ _ _ _ _) as [[answered st1]|] eqn:Hp; [|done]. cbn [mbind option_bind].
  destruct (deliverAll _ _ _ st1) as [[rest st2]|] eqn:Hr; [|done]. cbn [mbind option_bind].
  intros [= <- <-]. destruct (post_step _ _ _ _ _ _ _ He Hp) as (Hg & n & _ & Hn & Hpos & Hok).
  destruct (IH _ _ Hr) as (Hg' & ds & Hds & Hin & Hall).
  split; [by transitivity st1|]. exists (replicate n (deletionOf (ce_Data e)) ++ ds).
  rewrite Hds, Hn, <-app_assoc. split; [done|]. split.
  - intros d [[-> Hne]%elem_of_replicate|(e' & He' & ?)%Hin]%elem_of_app.
    + exists e. destruct (Hpos Hne) as [??]. split_and!; [by left|done|done|by rewrite <-Hg'].
    + exists e'. split; [by right|done].
  - intros [<- Hoks]%Forall_cons e' [->|He']%elem_of_cons.
    + destruct (Hok eq_refl) as [Hs Hd]. split; [by rewrite <-Hg'|]. intros Hdel.
      apply elem_of_app. left. apply elem_of_replicate. split; [done|by apply Hd].
    + destruct (Hall Hoks e' He') as [Hs Hd]. split; [done|]. intros Hdel.
      apply elem_of_app. right. by apply Hd.
Qed.

(** ** A vacuum, from the list to the archive *)

(** Some rule matches the [q]-th resource, and none keeps it. *)
Definition prunes (vcep : VacuumCloudEventPublisher (O:=O)) (namespace : string) (avk : APIVersionKind)
    (items : list O) (q : nat) (o : O) : bool :=
  matchedBy (rulesFor vcep namespace avk) o &&
  negb (existsb (λ r, keptBy items r q) (rulesFor vcep namespace avk)).

(** No rule matches a resource, and an expression archives it. *)
Definition onlyArchives (vcep : VacuumCloudEventPublisher (O:=O)) (namespace : string)
    (avk : APIVersionKind) (o : O) : bool :=
  negb (matchedBy (rulesFor vcep namespace avk) o) && archives vcep namespace avk o.

Lemma eventsOf_elem ty (o : O) evs :
  eventsOf ty o evs ≠ 0%nat ↔ ∃ e, e ∈ evs ∧ ce_Type e = ty ∧ GetUID (ce_Data e) = GetUID o.
Proof.
  unfold eventsOf. split.
  - intros Hn. destruct (filter _ evs) as [|e l] eqn:E; [done|].
    assert (e ∈ filter (λ e, ce_Type e = ty ∧ GetUID (ce_Data e) = GetUID o) evs) as He
      by (rewrite E; by left).
    apply list_elem_of_filter in He as [[??]?]. by exists e.
  - intros (e & He & Ht & Hu) Hz. apply length_zero_iff_nil in Hz.
    assert (e ∈ filter (λ e, ce_Type e = ty ∧ GetUID (ce_Data e) = GetUID o) evs) as Hin
      by by apply list_elem_of_filter.
    rewrite Hz in Hin. by apply elem_of_nil in Hin.
Qed.

Lemma same_uid (items : list O) o o' :
  NoDup (GetUID <$> items) → o ∈ items → o' ∈ items → GetUID o = GetUID o' → o = o'.
Proof.
  intros Hnd (i & Hi)%list_elem_of_lookup (j & Hj)%list_elem_of_lookup Hu.
  assert (i = j) as ->; [|congruence].
  eapply NoDup_lookup; [exact Hnd|by rewrite list_lookup_fmap, Hi|by rewrite list_lookup_fmap, Hj, Hu].
Qed.

Section vacuum_run.
  Context `{!RESTMapper, !Environment, !KubeClient O}.
  Context (vcep : VacuumCloudEventPublisher (O:=O)) (prefix namespace : string) (avk : APIVersionKind).
  Context (items : list O) (evs : list (CloudEvent O)).
  Context (Huid : NoDup (GetUID <$> items)) (Hty : Forall (λ o, well_typed o = true) items).
  Context (Hevs : runEvents vcep prefix namespace avk items evs).

Lemma run_sendable : Forall sendable evs.
Proof using Hty Hevs.
  destruct Hevs as [Hv _]. eapply Forall_impl; [exact Hv|]. intros e [Hin Ht].
  rewrite Forall_forall in Hty. specialize (Hty _ Hin). unfold well_typed in Hty.
  rewrite !andb_true_iff in Hty. destruct (vacuum_types prefix) as (? & _ & ? & _).
  split; [tauto|by destruct Ht as [-> | ->]].
Qed.

(** The deletions sent are of the resources that are pruned. *)
Lemma deletion_pruned e :
  e ∈ evs → deletingType (ce_Type e) = true →
  ∃ q, items !! q = Some (ce_Data e) ∧ prunes vcep namespace avk items q (ce_Data e) = true.
Proof using Hevs.
  destruct Hevs as [Hv Hq]. rewrite Forall_forall in Hv. intros He Hd. destruct (Hv _ He) as [Hin Ht].
  destruct (vacuum_types prefix) as (_ & _ & _ & Hna).
  destruct Ht as [Ht|Ht]; [|rewrite Ht in Hd; congruence].
  apply list_elem_of_lookup in Hin as [q Hiq]. exists q. split; [done|].
  destruct (Hq q _ Hiq) as [Hn _]. unfold prunes.
  destruct (matchedBy _ _ && _); [done|]. apply (proj2 (eventsOf_elem _ _ _)) in Hn; [done|]. by exists e.
Qed.

Lemma count_event ty o :
  o ∈ items → eventsOf ty o evs ≠ 0%nat → ∃ e, e ∈ evs ∧ ce_Type e = ty ∧ ce_Data e = o.
Proof using Huid Hevs.
  intros Ho (e & He & Ht & Hu)%eventsOf_elem. exists e. split_and!; [done..|].
  destruct Hevs as [Hv _]. rewrite Forall_forall in Hv. destruct (Hv _ He) as [Hin _].
  by apply (same_uid items).
Qed.

Lemma pruned_deletion q o :
  items !! q = Some o → prunes vcep namespace avk items q o = true →
  ∃ e, e ∈ evs ∧ deletingType (ce_Type e) = true ∧ ce_Data e = o.
Proof using Huid Hevs.
  intros Hq Hp. destruct (proj2 Hevs q o Hq) as [Hn _]. unfold prunes in Hp. rewrite Hp in Hn.
  destruct (count_event (keepLastWhenDelete prefix) o) as (e & He & Ht & Hd);
    [by eapply list_elem_of_lookup_2|by rewrite Hn|].
  exists e. split_and!; [done| |done]. rewrite Ht. by destruct (vacuum_types prefix) as (_ & ? & _).
Qed.

Lemma archived_event q o :
  items !! q = Some o → onlyArchives vcep namespace avk o = true → ∃ e, e ∈ evs ∧ ce_Data e = o.
Proof using Huid Hevs.
  intros Hq Hp. destruct (proj2 Hevs q o Hq) as [_ Hn]. unfold onlyArchives in Hp. rewrite Hp in Hn.
  destruct (count_event (archiveWhen prefix) o) as (e & He & Ht & Hd);
    [by eapply list_elem_of_lookup_2|by rewrite Hn|]. by exists e.
Qed.
End vacuum_run.

(** C2: a vacuum, from the resources it lists to the archive.  Whatever fails
    while its events are delivered, every deletion asked of the cluster is of a
    listed resource that some keep-last rule matches and none keeps, and the
    database has a row of it as recent as the resource.  When the sink answered every
    event with a success, all those resources were deleted, and the ones an expression
    archives are stored as well. *)
Theorem vacuum_prunes `{!RESTMapper, !Environment, !KubeClient O}
    (vcep : VacuumCloudEventPublisher) (prefix namespace : string) (avk : APIVersionKind) gvr items
    (fuel : nat) (c : Controller) (deliveries : list (CloudEvent O * Transport))
    (st st' : SinkState) (answers : list bool) :
  getGVR avk = Some gvr → ListResources gvr namespace = Some items →
  NoDup (GetUID <$> items) → Forall (λ o, well_typed o = true) items →
  Forall (λ r, (0 <= Count r)%Z) (rulesFor vcep namespace avk) →
  sortable items (rulesFor vcep namespace avk) = true →
  sendByAPIVersionKind vcep prefix namespace avk = Ok deliveries.*1 →
  deliverAll fuel c deliveries st = Some (answers, st') →
  ∃ deletes, sk_deletes st' = sk_deletes st ++ deletes ∧
    (∀ d, d ∈ deletes → ∃ q o, items !! q = Some o ∧ d = deletionOf o ∧
       prunes vcep namespace avk items q o = true ∧ stored o st') ∧
    (Forall (eq true) answers → ∀ q o, items !! q = Some o →
       (prunes vcep namespace avk items q o = true → deletionOf o ∈ deletes ∧ stored o st') ∧
       (onlyArchives vcep namespace avk o = true → stored o st')).
Proof.
  intros Hgvr Hlist Huid Hty Hc Hs Hsend Hdel.
  destruct (sendByAPIVersionKind_events vcep prefix namespace avk gvr items Hgvr Hlist Huid Hty Hc Hs)
    as (evs & He & Hrun).
  rewrite He in Hsend. injection Hsend as ->.
  pose proof (run_sendable _ _ _ _ _ _ Hty Hrun) as Hsa. rewrite Forall_fmap in Hsa.
  destruct (deliverAll_step _ _ _ _ _ _ Hsa Hdel) as (_ & ds & Hds & Hin & Hall).
  exists ds. split; [done|]. split.
  - intros d (e & Hev & Hd & -> & Hst)%Hin.
    destruct (deletion_pruned _ _ _ _ _ _ Hrun e Hev Hd) as (q & Hq & Hp).
    by exists q, (ce_Data e).
  - intros Hok q o Hq. split.
    + intros Hp. destruct (pruned_deletion _ _ _ _ _ _ Huid Hrun q o Hq Hp) as (e & Hev & Hd & <-).
      destruct (Hall Hok e Hev). split; [auto|done].
    + intros Hp. destruct (archived_event _ _ _ _ _ _ Huid Hrun q o Hq Hp) as (e & Hev & <-).
      by destruct (Hall Hok e Hev).
Qed.

(** ** Deliveries that end *)

(** A request during which nothing fails outside the sink, and whose answer comes back. *)
Definition faultless (way : Transport) : Prop :=
  match way with
  | Lost => False
  | Arrives run answerReturns =>
      answerReturns = true ∧ run_write run = noFaults ∧ run_delete run ≠ DeleteFailed ∧
      run_rewrite run = noFaults
  end.

(** The log URLs of every object are generated. *)
Definition urlsEnd (fuel : nat) (c : Controller (O:=O)) : Prop := ∀ o, is_Some (Urls fuel c o).

Lemma WriteResource_noFaults (o : O) data ts logs db :
  wo_err (WriteResource noFaults (Some o) data ts logs db) = None.
Proof.
  unfold WriteResource. cbn [flt_begin noFaults]. destruct (pg_upsert _ _) as [resource returned].
  unfold performSingleRowQuery. cbn [flt_upsert noFaults flt_delete_logs].
  rewrite insertUrls_all by done.
  destruct returned as [inserted|]; cbn; by destruct (String.eqb _ _).
Qed.

Lemma writeResource_noFaults fuel c (o : O) event db :
  urlsEnd fuel c → ∃ w, writeResource fuel c noFaults o event db = Some w ∧ wo_err w = None.
Proof.
  intros Hu. unfold writeResource. destruct (Hu o) as [urls ->]. eexists. split; [done|].
  apply WriteResource_noFaults.
Qed.

Lemma receiveObject_ends fuel c run event (o : O) st :
  urlsEnd fuel c → is_Some (receiveObject fuel c run event o st).
Proof.
  intros Hu. unfold receiveObject. destruct (negb (supportedType _)); [done|].
  unfold writeResource. destruct (Hu o) as [urls ->]. cbn [mbind option_bind].
  destruct (wo_err _); [done|]. destruct (negb _ && negb _); [done|].
  unfold deleteResource. destruct (run_delete run); [|done..].
  unfold writeResource. destruct (Hu (SetDeletionTimestamp o (run_now run))) as [urls' ->].
  cbn [mbind option_bind]. by destruct (wo_err _).
Qed.

(** A request that meets no fault is answered with a success. *)
Lemma post_answers fuel c e way st :
  urlsEnd fuel c → sendable e → faultless way →
  ∃ st', post fuel c e way st = Some (true, st').
Proof.
  intros Hu [Henc Hsup]. destruct way as [|run seen]; [done|]. intros (-> & Hw & Hd & Hw'). cbn [post].
  unfold ReceiveCloudEvent. cbn [rq_Event rq_Valid requestOf negb ev_Data].
  rewrite UnmarshalJSON_MarshalJSON by done. set (event := {| ev_Type := _; ev_Data := _ |}).
  destruct (receiveObject_ends fuel c run event (ce_Data e) st Hu) as [[status st'] Hr]. rewrite Hr.
  exists st'. cbn [mbind option_bind].
  change (supportedType (ev_Type event) = true) in Hsup.
  destruct (receiveObject_succeeds _ _ _ _ _ _ _ _ Hsup Hr) as [[-> _]|[_ Hno]]; [done|]. exfalso. apply Hno.
  unfold succeeds. rewrite Hw, Hw'.
  destruct (writeResource_noFaults fuel c (ce_Data e) event (sk_db st) Hu) as (w & Hsw & He). exists w.
  split_and!; [done..|]. intros _. split; [done|]. intros _.
  by apply writeResource_noFaults.
Qed.

(** The deletions that some events ask. *)
Definition deletionsOf (events : list (CloudEvent O)) : list (GroupVersionResource * string * string) :=
  (λ e, deletionOf (ce_Data e)) <$> filter (λ e, deletingType (ce_Type e) = true) events.


(** ** A watched object, from the cluster to the archive *)

(** C5: an object a worker sent the event of, whatever became of its delivery: no row is
    lost, a deletion is asked at most once, only when the object still exists and an
    expression deletes it, and only once it is stored; and when the sink answered with a
    success, the object is stored, and was deleted if it should be. *)
Theorem watched_object_archived `{!CloudEventClient O} (source : string) (event : WatchEvent O)
    (w : WatchInfo) (ev : CloudEvent O) err (fuel : nat) (c : Controller) (way : Transport)
    (st st' : SinkState) (answered : bool) :
  handleWatchEvent (Some source) event w = Ok (Some ev, err) →
  post fuel c ev way st = Some (answered, st') →
  ∃ o n, Object event = ObjUnstructured o ∧
    (ObjectAPIVersionNil o = false → ObjectKindNil o = false → ce_Data ev = o) ∧
    let toDelete := bool_decide (Type_ event ≠ Deleted) &&
      anyHolds DeleteWhen (ClusterCel w) (WatchNamespaces w !! GetNamespace o) o in
    grows st st' ∧
    (n ≤ 1)%nat ∧
    sk_deletes st' = sk_deletes st ++ replicate n (deletionOf (ce_Data ev)) ∧
    (n ≠ 0%nat → toDelete = true ∧ stored (ce_Data ev) st') ∧
    (answered = true → stored (ce_Data ev) st' ∧ (toDelete = true → n ≠ 0%nat)).
Proof.
  intros He Hp. destruct (handleWatchEvent_data _ _ _ _ _ He) as (o & Ho & Henc & Hdata).
  destruct (proj1 senders_supported _ _ _ _ _ He) as (Hsup & o' & Ho' & Hdel).
  assert (o' = o) as -> by congruence.
  destruct (post_step _ _ _ _ _ _ _ (conj Henc Hsup) Hp) as (Hg & n & Hle & Hn & Hpos & Hok).
  exists o, n. rewrite <-Hdel. by split_and!.
Qed.
End pipeline.

(** ** Witnesses: the pods of [VacuumSamples] *)
Module PipelineSamples.

#[export] Instance sample_eq_dec : EqDecision sample.
Proof. solve_decision. Defined.

(** The sample pods are sent as their uid, and read with or without spaces. *)
#[export] Instance sinklib : SinkLib sample := {|
  UnmarshalJSON := λ s, snd <$> list_find (λ o, s_uid o = TrimRightByte " " s) VacuumSamples.items;
  UnsafeGuessKindToResource := λ v k, {| Group := ""; Version := v; Resource := k |};
|}.

#[export] Instance encoding : EventEncoding sample := {|
  SetData := λ o, bool_decide (UnmarshalJSON (s_uid o) = Some o) |}.

#[export] Instance json : EventJSON sample.
Proof. refine {| MarshalJSON := s_uid |}. intros o Ho. by apply bool_decide_eq_true in Ho. Defined.

#[export] Instance stamp : DeletionStamp (O:=sample).
Proof. split; reflexivity. Defined.

Definition controller : Controller (O:=sample) := {| LogUrlBuilder := None |}.
Definition works : RequestRun :=
  {| run_write := noFaults; run_delete := DeleteDone; run_now := 0; run_rewrite := noFaults |}.
Definition start : SinkState :=
  {| sk_db := {| t_resource := ∅; t_log_url := [] |}; sk_deletes := []; sk_metrics := [] |}.

Definition eventAt (ty uid : string) (created : Z) (flags : list string) : CloudEvent sample :=
  {| ce_Source := "test"; ce_Type := ty; ce_Data := sample_at uid created flags;
     ce_APIVersion := "v1"; ce_Kind := "Pod" |}.

(** The events of the run. *)
Definition deliveries : list (CloudEvent sample * Transport) :=
  [(eventAt "p.keep-last-when-delete" "a" 1 ["done"], Arrives works true);
   (eventAt "p.keep-last-when-delete" "c" 2 ["done"; "old"], Arrives works true);
   (eventAt "p.archive-when" "e" 4 ["archive"], Arrives works true)].

Definition finish : SinkState :=
  match deliverAll 1 controller deliveries start with Some (_, st) => st | None => start end.

(** A pod the controller deletes. *)
Definition podEvent : WatchEvent sample :=
  {| Type_ := Modified; Object := ObjUnstructured (sample_at "a" 1 ["done"]) |}.

Definition podWatch : WatchInfo (O:=sample) :=
  {| GVR := VacuumSamples.podsGVR; KindSelector := VacuumSamples.pods; StopCh := 1; Queue := [];
     ResourceVersion := ""; WatchInterface := true; WorkerWg := 0;
     ClusterCel := Some {| ArchiveWhen := None; DeleteWhen := CompileCELExpression "done";
       ArchiveOnDelete := None; KeepLastWhen := [] |};
     WatchNamespaces := ∅ |}.

Definition podDeletion : CloudEvent sample :=
  {| ce_Source := "src"; ce_Type := "org.kubearchive.sinkfilters.resource.delete-when";
     ce_Data := sample_at "a" 1 ["done"]; ce_APIVersion := "v1"; ce_Kind := "Pod" |}.

Definition podFinish : SinkState :=
  match post 1 controller podDeletion (Arrives works true) start with
  | Some (_, st) => st
  | None => start
  end.

End PipelineSamples.
Import PipelineSamples.
#[local] Existing Instance VacuumSamples.client.
#[local] Existing Instance sample_event_client.


Lemma vacuum_prunes_witness :
  ∃ deletes, sk_deletes finish = sk_deletes start ++ deletes ∧
    (∀ d, d ∈ deletes → ∃ q o, VacuumSamples.items !! q = Some o ∧ d = deletionOf o ∧
       prunes VacuumSamples.vcep "ns" VacuumSamples.pods VacuumSamples.items q o = true ∧
       stored o finish) ∧
    (Forall (eq true) [true; true; true] → ∀ q o, VacuumSamples.items !! q = Some o →
       (prunes VacuumSamples.vcep "ns" VacuumSamples.pods VacuumSamples.items q o = true →
          deletionOf o ∈ deletes ∧ stored o finish) ∧
       (onlyArchives VacuumSamples.vcep "ns" VacuumSamples.pods o = true → stored o finish)).
Proof.
  apply (vacuum_prunes VacuumSamples.vcep "p" "ns" VacuumSamples.pods VacuumSamples.podsGVR
    VacuumSamples.items 1 controller deliveries start finish [true; true; true]).
  - reflexivity.
  - reflexivity.
  - apply (bool_decide_unpack _). vm_compute. reflexivity.
  - apply (bool_decide_unpack _). vm_compute. reflexivity.
  - apply (bool_decide_unpack _). vm_compute. reflexivity.
  - vm_compute. reflexivity.
  - vm_compute. reflexivity.
  - vm_compute. reflexivity.
Defined.

Lemma watched_object_archived_witness :
  ∃ o n, Object PipelineSamples.podEvent = ObjUnstructured o ∧
    (ObjectAPIVersionNil o = false → ObjectKindNil o = false →
       ce_Data PipelineSamples.podDeletion = o) ∧
    let toDelete := bool_decide (Type_ PipelineSamples.podEvent ≠ Deleted) &&
      anyHolds DeleteWhen (ClusterCel PipelineSamples.podWatch)
        (WatchNamespaces PipelineSamples.podWatch !! GetNamespace o) o in
    grows start PipelineSamples.podFinish ∧
    (n ≤ 1)%nat ∧
    sk_deletes PipelineSamples.podFinish =
      sk_deletes start ++ replicate n (deletionOf (ce_Data PipelineSamples.podDeletion)) ∧
    (n ≠ 0%nat → toDelete = true ∧ stored (ce_Data PipelineSamples.podDeletion) PipelineSamples.podFinish) ∧
    (true = true → stored (ce_Data PipelineSamples.podDeletion) PipelineSamples.podFinish ∧
       (toDelete = true → n ≠ 0%nat)).
Proof.
  apply (watched_object_archived "src" PipelineSamples.podEvent PipelineSamples.podWatch
    PipelineSamples.podDeletion None 1 controller (Arrives works true) start PipelineSamples.podFinish true).
  - vm_compute. reflexivity.
  - vm_compute. reflexivity.
Defined.
