(* ===== verification/LabelSql.v ===== *)
(** * [pkg/database/sql/postgresql.go]: label filters

    A label selector becomes conditions on the resources of a query, over the
    tables [label_key], [label_key_value] and [resource_label].  The conditions
    the file writes are values; PostgreSQL, which answers the queries that
    resolve the identifiers and evaluates the conditions, is a parameter. *)
From S2P Require Import Prelude GoLib.

(** ** [models/labels.go] *)

(** [selection.Operator]. *)
Inductive Operator :=
| OpDoesNotExist | OpEquals | OpDoubleEquals | OpIn | OpNotEquals | OpNotIn | OpExists
| OpGreaterThan | OpLessThan.

(** [labels.Requirement]: a key, an operator and values. *)
Record Requirement := { rq_key : string; rq_operator : Operator; rq_values : list string }.

Record LabelFilters := {
  Exists_ : list string;
  NotExists : list string;
  Equals : gmap string string;
  NotEquals : gmap string string;
  In_ : gmap string (list string);
  NotIn : gmap string (list string);
}.

Definition noFilters : LabelFilters :=
  {| Exists_ := []; NotExists := []; Equals := ∅; NotEquals := ∅; In_ := ∅; NotIn := ∅ |}.

(** The body of the loop of [NewLabelFilters]; the error is the operator that is
    not supported. *)
Definition addRequirement (lf : LabelFilters) (r : Requirement) : outcome Operator LabelFilters :=
  match rq_operator r with
  | OpExists =>
      Ok {| Exists_ := Exists_ lf ++ [rq_key r]; NotExists := NotExists lf; Equals := Equals lf;
            NotEquals := NotEquals lf; In_ := In_ lf; NotIn := NotIn lf |}
  | OpDoesNotExist =>
      Ok {| Exists_ := Exists_ lf; NotExists := NotExists lf ++ [rq_key r]; Equals := Equals lf;
            NotEquals := NotEquals lf; In_ := In_ lf; NotIn := NotIn lf |}
  | OpEquals =>
      v ← index (rq_values r) 0;
      Ok {| Exists_ := Exists_ lf; NotExists := NotExists lf; Equals := <[rq_key r := v]> (Equals lf);
            NotEquals := NotEquals lf; In_ := In_ lf; NotIn := NotIn lf |}
  | OpNotEquals =>
      v ← index (rq_values r) 0;
      Ok {| Exists_ := Exists_ lf; NotExists := NotExists lf; Equals := Equals lf;
            NotEquals := <[rq_key r := v]> (NotEquals lf); In_ := In_ lf; NotIn := NotIn lf |}
  | OpIn =>
      Ok {| Exists_ := Exists_ lf; NotExists := NotExists lf; Equals := Equals lf;
            NotEquals := NotEquals lf; In_ := <[rq_key r := rq_values r]> (In_ lf); NotIn := NotIn lf |}
  | OpNotIn =>
      Ok {| Exists_ := Exists_ lf; NotExists := NotExists lf; Equals := Equals lf;
            NotEquals := NotEquals lf; In_ := In_ lf; NotIn := <[rq_key r := rq_values r]> (NotIn lf) |}
  | op => Err op
  end.

Fixpoint addRequirements (lf : LabelFilters) (rs : list Requirement) : outcome Operator LabelFilters :=
  match rs with
  | [] => Ok lf
  | r :: rs => lf ← addRequirement lf r; addRequirements lf rs
  end.

Definition NewLabelFilters (rs : list Requirement) : outcome Operator LabelFilters :=
  addRequirements noFilters rs.

Definition IsEmpty (lf : LabelFilters) : bool :=
  (length (Exists_ lf) =? 0)%nat && (length (NotExists lf) =? 0)%nat &&
  (size (Equals lf) =? 0)%nat && (size (NotEquals lf) =? 0)%nat &&
  (size (In_ lf) =? 0)%nat && (size (NotIn lf) =? 0)%nat.

(** ** The label tables *)

(** [label_key], [label_key_value] joined with its key and its value, the key of
    each pair, and [resource_label]. *)
Record LabelTables := {
  lt_keys : gmap string Z;
  lt_labels : gmap (string * string) Z;
  lt_key_of : gmap Z Z;
  lt_resource : list (Z * Z);
}.

(** The constraints of the schema. *)
Record schema (t : LabelTables) : Prop := {
  keys_unique k1 k2 id : lt_keys t !! k1 = Some id → lt_keys t !! k2 = Some id → k1 = k2;
  labels_unique p1 p2 id : lt_labels t !! p1 = Some id → lt_labels t !! p2 = Some id → p1 = p2;
  label_has_key k v l : lt_labels t !! (k, v) = Some l →
    ∃ kid, lt_keys t !! k = Some kid ∧ lt_key_of t !! l = Some kid;
  resource_has_label r l : (r, l) ∈ lt_resource t → ∃ k v, lt_labels t !! (k, v) = Some l;
}.

(** The conditions, each on the resource [resource.id]. *)
Inductive Cond :=
| CFalse
| CHasKey (keyID : Z)
| CHasLabel (labelID : Z)
| CHasLabelIn (labelIDs : list Z)
| CNotHasKeyIn (keyIDs : list Z)
| CNotHasLabelIn (labelIDs : list Z)
| CCountKeys (keyIDs : list Z) (n : nat).

(** The keys of a resource, by identifier. *)
Definition keyIDsOf (t : LabelTables) (r : Z) : list Z :=
  omap (λ '(r', l), if (r' =? r)%Z then lt_key_of t !! l else None) (lt_resource t).

(** PostgreSQL: the rows of the queries that resolve keys and labels, and the
    value of each condition on a resource.  A list of identifiers is never
    empty, which SQL does not allow. *)
Class LabelEngine := {
  queryKeys : LabelTables → list string → option (list (Z * string));
  queryKeys_rows t keys rows : queryKeys t keys = Some rows →
    ∀ id k, (id, k) ∈ rows ↔ k ∈ keys ∧ lt_keys t !! k = Some id;
  queryLabels : LabelTables → list (string * string) → option (list (Z * string * string));
  queryLabels_rows t pairs rows : queryLabels t pairs = Some rows →
    ∀ id k v, (id, k, v) ∈ rows ↔ (k, v) ∈ pairs ∧ lt_labels t !! (k, v) = Some id;
  holds : LabelTables → Z → Cond → bool;
  holds_false t r : holds t r CFalse = false;
  holds_key t r id : holds t r (CHasKey id) = true ↔ id ∈ keyIDsOf t r;
  holds_label t r id : holds t r (CHasLabel id) = true ↔ (r, id) ∈ lt_resource t;
  holds_label_in t r ids : ids ≠ [] →
    holds t r (CHasLabelIn ids) = true ↔ ∃ id, id ∈ ids ∧ (r, id) ∈ lt_resource t;
  holds_not_key_in t r ids : ids ≠ [] →
    holds t r (CNotHasKeyIn ids) = true ↔ ¬ ∃ id, id ∈ ids ∧ id ∈ keyIDsOf t r;
  holds_not_label_in t r ids : ids ≠ [] →
    holds t r (CNotHasLabelIn ids) = true ↔ ¬ ∃ id, id ∈ ids ∧ (r, id) ∈ lt_resource t;
  holds_count t r ids n : ids ≠ [] → n ≠ 0%nat →
    holds t r (CCountKeys ids n) = true ↔
    size (list_to_set (filter (λ id, id ∈ ids) (keyIDsOf t r)) : gset Z) = n;
}.

(** ** Resolving identifiers *)
Section resolve.
  Context `{LE : !LabelEngine}.

(** The name of a label in the maps of identifiers. *)
Definition labelName (k v : string) : string := k +:+ String "=" v.

Definition resolveKeyIDs (t : LabelTables) (keys : list string) : option (gmap string Z) :=
  if (length keys =? 0)%nat then Some ∅
  else rows ← queryKeys t keys;
       Some (foldl (λ result '(id, key), <[key := id]> result) ∅ rows).

(** The rows of a query of labels, by name. *)
Definition labelRows (rows : list (Z * string * string)) : gmap string Z :=
  foldl (λ result '(id, key, value), <[labelName key value := id]> result) ∅ rows.

Definition resolveLabelIDs (t : LabelTables) (labels : gmap string string)
    : option (gmap string Z) :=
  if (size labels =? 0)%nat then Some ∅
  else labelRows <$> queryLabels t ((λ key, (key, default "" (labels !! key))) <$> SortedKeys labels).

Definition resolveLabelIDsMulti (t : LabelTables) (labels : gmap string (list string))
    : option (gmap string Z) :=
  if (size labels =? 0)%nat then Some ∅
  else labelRows <$>
    queryLabels t (SortedKeys labels ≫= λ key, pair key <$> default [] (labels !! key)).

(** ** The conditions of each kind of filter *)

(** The identifiers of the labels that have one. *)
Definition idsOf (ids : gmap string Z) (names : list string) : list Z := omap (λ n, ids !! n) names.

(** A missing key has the zero identifier of a Go map. *)
Definition applyExistsFilter (keyIDs : gmap string Z) (keys : list string) : list Cond :=
  (λ key, CHasKey (default 0%Z (keyIDs !! key))) <$> SortStrings keys.

Definition applyEqualsFilter (labelIDs : gmap string Z) (labels : gmap string string) : list Cond :=
  (λ key, CHasLabel (default 0%Z (labelIDs !! labelName key (default "" (labels !! key))))) <$>
    SortedKeys labels.

Definition applyInFilter (labelIDs : gmap string Z) (labels : gmap string (list string)) : list Cond :=
  (λ key, CHasLabelIn (idsOf labelIDs (labelName key <$> default [] (labels !! key)))) <$>
    SortedKeys labels.

Definition applyNotExistsFilter (keyIDs : gmap string Z) (keys : list string) : list Cond :=
  let idVars := idsOf keyIDs keys in
  if (length idVars =? 0)%nat then [] else [CNotHasKeyIn idVars].

Definition applyNotEqualsFilter (labelIDs : gmap string Z) (labels : gmap string string) : list Cond :=
  let idVars :=
    idsOf labelIDs ((λ key, labelName key (default "" (labels !! key))) <$> SortedKeys labels) in
  if (length idVars =? 0)%nat then [] else [CNotHasLabelIn idVars].

Definition applyNotInFilter (keyIDs labelIDs : gmap string Z) (labels : gmap string (list string))
    : list Cond :=
  let keys := SortedKeys labels in
  let keyIDVars := idsOf keyIDs keys in
  let forbiddenIDVars :=
    idsOf labelIDs (keys ≫= λ key, labelName key <$> default [] (labels !! key)) in
  CCountKeys keyIDVars (length keys) ::
    (if (0 <? length forbiddenIDVars)%nat then [CNotHasLabelIn forbiddenIDVars] else []).

(** The loops that look for a filter nothing can satisfy. *)
Definition existsResolved (keyIDs : gmap string Z) (keys : list string) : bool :=
  forallb (λ key, bool_decide (is_Some (keyIDs !! key))) keys.

Definition equalsResolved (labelIDs : gmap string Z) (labels : gmap string string) : bool :=
  forallb (λ key,
    bool_decide (is_Some (labelIDs !! labelName key (default "" (labels !! key)))))
    (SortedKeys labels).

Definition inResolved (labelIDs : gmap string Z) (labels : gmap string (list string)) : bool :=
  forallb (λ key,
    existsb (λ v, bool_decide (is_Some (labelIDs !! labelName key v))) (default [] (labels !! key)))
    (SortedKeys labels).

(** [maps.Copy]. *)
Definition copyInto {A} (dst src : gmap string A) : gmap string A := src ∪ dst.

(** The second loop over the multi-valued filters appends to the first one's. *)
Definition appendValues (dst src : gmap string (list string)) : gmap string (list string) :=
  union_with (λ vs ws, Some (vs ++ ws)) dst src.

(** The keys to resolve. *)
Definition allKeys (lf : LabelFilters) : gset string :=
  list_to_set (Exists_ lf) ∪ list_to_set (NotExists lf) ∪ dom (NotIn lf).

(** The negative filters. *)
Definition negativeFilters (keyIDs labelIDs multiLabelIDs : gmap string Z) (lf : LabelFilters)
    : list Cond :=
  applyNotExistsFilter keyIDs (NotExists lf) ++
  applyNotEqualsFilter labelIDs (NotEquals lf) ++
  (if (0 <? size (NotIn lf))%nat then
     if existsResolved keyIDs (SortedKeys (NotIn lf))
     then applyNotInFilter keyIDs multiLabelIDs (NotIn lf)
     else [CFalse]
   else []).

(** [ApplyLabelFilters]: the conditions added, or an error of a query. *)
Definition ApplyLabelFilters (t : LabelTables) (lf : LabelFilters) : option (list Cond) :=
  keyIDs ← resolveKeyIDs t (SortStrings (elements (allKeys lf)));
  labelIDs ← resolveLabelIDs t (copyInto (copyInto ∅ (Equals lf)) (NotEquals lf));
  multiLabelIDs ← resolveLabelIDsMulti t (appendValues (In_ lf) (NotIn lf));
  Some (
    if negb (existsResolved keyIDs (Exists_ lf)) then [CFalse]
    else
      applyExistsFilter keyIDs (Exists_ lf) ++
      (if negb (equalsResolved labelIDs (Equals lf)) then [CFalse]
       else
         applyEqualsFilter labelIDs (Equals lf) ++
         (if negb (inResolved multiLabelIDs (In_ lf)) then [CFalse]
          else applyInFilter multiLabelIDs (In_ lf) ++
               negativeFilters keyIDs labelIDs multiLabelIDs lf))).

(** ** The meaning of a selector *)

Definition hasLabel (t : LabelTables) (r : Z) (k v : string) : Prop :=
  ∃ l, lt_labels t !! (k, v) = Some l ∧ (r, l) ∈ lt_resource t.

Definition hasKey (t : LabelTables) (r : Z) (k : string) : Prop := ∃ v, hasLabel t r k v.

(** What the filters ask of a resource. *)
Record selected (t : LabelTables) (r : Z) (lf : LabelFilters) : Prop := {
  sel_exists : ∀ k, k ∈ Exists_ lf → hasKey t r k;
  sel_not_exists : ∀ k, k ∈ NotExists lf → ¬ hasKey t r k;
  sel_equals : ∀ k v, Equals lf !! k = Some v → hasLabel t r k v;
  sel_not_equals : ∀ k v, NotEquals lf !! k = Some v → ¬ hasLabel t r k v;
  sel_in : ∀ k vs, In_ lf !! k = Some vs → ∃ v, v ∈ vs ∧ hasLabel t r k v;
  sel_not_in : ∀ k vs, NotIn lf !! k = Some vs →
    hasKey t r k ∧ ∀ v, v ∈ vs → ¬ hasLabel t r k v;
}.

(** What Kubernetes selects by the same filters, as [reference/api.adoc] says of a list. *)
Record kubernetesSelects (t : LabelTables) (r : Z) (lf : LabelFilters) : Prop := {
  k8s_exists : ∀ k, k ∈ Exists_ lf → hasKey t r k;
  k8s_not_exists : ∀ k, k ∈ NotExists lf → ¬ hasKey t r k;
  k8s_equals : ∀ k v, Equals lf !! k = Some v → hasLabel t r k v;
  k8s_not_equals : ∀ k v, NotEquals lf !! k = Some v → ¬ hasLabel t r k v;
  k8s_in : ∀ k vs, In_ lf !! k = Some vs → ∃ v, v ∈ vs ∧ hasLabel t r k v;
  k8s_not_in : ∀ k vs, NotIn lf !! k = Some vs → ∀ v, v ∈ vs → ¬ hasLabel t r k v;
}.

(** Keys hold no equal sign, as Kubernetes requires. *)
Definition valid_keys {A} (m : gmap string A) : Prop := ∀ k, is_Some (m !! k) → free_of "="%char k.

Record valid (lf : LabelFilters) : Prop := {
  valid_equals : valid_keys (Equals lf);
  valid_not_equals : valid_keys (NotEquals lf);
  valid_in : valid_keys (In_ lf);
  valid_not_in : valid_keys (NotIn lf);
}.

(** ** Rows to maps *)

Lemma lookup_rows (l : list (string * Z)) k x :
  (∀ k x y, (k, x) ∈ l → (k, y) ∈ l → x = y) →
  foldl (λ m '(k, x), <[k := x]> m) (∅ : gmap string Z) l !! k = Some x ↔ (k, x) ∈ l.
Proof.
  induction l as [|[k' x'] l IH] using rev_ind; intros Hf.
  - cbn. rewrite lookup_empty, elem_of_nil. done.
  - rewrite foldl_snoc, elem_of_app, list_elem_of_singleton.
    destruct (decide (k = k')) as [->|Hne].
    + rewrite lookup_insert_eq. split; [intros [= ->]; by right|].
      intros [Hin|[= ->]]; [|done]. f_equal. apply (Hf k'); apply elem_of_app; [right|left; done].
      by apply list_elem_of_singleton.
    + rewrite lookup_insert_ne by done. rewrite IH; [split; [by left|by intros [?|[= -> ->]]]|].
      intros k0 x0 y0 Hx Hy. apply (Hf k0); apply elem_of_app; by left.
Qed.

Lemma foldl_through {A B M} (f : M → B → M) (g : A → B) (l : list A) m :
  foldl f m (g <$> l) = foldl (λ m a, f m (g a)) m l.
Proof. revert m; induction l as [|a l IH]; intros m; [done|]. apply IH. Qed.

Lemma foldl_ext {A M} (f g : M → A → M) (l : list A) m :
  (∀ m a, f m a = g m a) → foldl f m l = foldl g m l.
Proof. intros Hfg. revert m; induction l as [|a l IH]; intros m; [done|]. cbn. by rewrite Hfg. Qed.

Lemma resolveKeyIDs_spec t keys ids k :
  resolveKeyIDs t keys = Some ids → k ∈ keys → ids !! k = lt_keys t !! k.
Proof.
  unfold resolveKeyIDs. destruct keys as [|k0 keys]; cbn [length Nat.eqb].
  { intros _ Hk. by apply not_elem_of_nil in Hk. }
  destruct (queryKeys t (k0 :: keys)) as [rows|] eqn:Eq; [|done]. intros [= <-] Hk.
  pose proof (queryKeys_rows t _ rows Eq) as Hrows.
  rewrite (foldl_ext _ (λ m a, (λ m '(k, x), <[k := x]> m) m ((λ '(id, key), (key, id)) a)))
    by (by intros m []).
  rewrite <-(foldl_through (λ m '(k, x), <[k := x]> m) (λ '(id, key), (key, id))).
  apply option_eq. intros id. rewrite lookup_rows.
  - rewrite list_elem_of_fmap. split.
    + intros ([id' k'] & [= -> ->] & Hin). by apply Hrows in Hin as [_ ?].
    + intros Hid. exists (id, k). split; [done|]. by apply Hrows.
  - intros k1 x y ([? ?] & [= -> ->] & Hx)%list_elem_of_fmap ([? ?] & [= -> ->] & Hy)%list_elem_of_fmap.
    apply Hrows in Hx as [_ Hx], Hy as [_ Hy]. congruence.
Qed.

Lemma labelName_inj k v k' v' :
  free_of "="%char k → free_of "="%char k' → labelName k v = labelName k' v' → k = k' ∧ v = v'.
Proof.
  unfold labelName. intros Hk Hk' He. pose proof (Split_app "="%char k v Hk) as E1.
  rewrite He, (Split_app "="%char k' v' Hk') in E1. injection E1 as -> Hs.
  by rewrite <-(Join_Split "="%char v), <-(Join_Split "="%char v'), Hs.
Qed.

Lemma labelRows_spec t pairs rows k v :
  queryLabels t pairs = Some rows → (∀ k v, (k, v) ∈ pairs → free_of "="%char k) →
  (k, v) ∈ pairs → labelRows rows !! labelName k v = lt_labels t !! (k, v).
Proof.
  intros Eq Hfree Hkv. pose proof (queryLabels_rows t _ rows Eq) as Hrows. unfold labelRows.
  rewrite (foldl_ext _ (λ m a, (λ m '(k, x), <[k := x]> m) m
    ((λ '(id, key, value), (labelName key value, id)) a))) by (by intros m [[]]).
  rewrite <-(foldl_through (λ m '(k, x), <[k := x]> m)
    (λ '(id, key, value), (labelName key value, id))).
  apply option_eq. intros id. rewrite lookup_rows.
  - rewrite list_elem_of_fmap. split.
    + intros ([[id' k'] v'] & [= Hn ->] & Hin). apply Hrows in Hin as [Hin Hid].
      apply labelName_inj in Hn as [-> ->]; [done|by apply (Hfree k v)|by apply (Hfree k' v')].
    + intros Hid. exists (id, k, v). split; [done|]. by apply Hrows.
  - intros n x y ([[i1 k1] v1] & [= -> ->] & Hx)%list_elem_of_fmap
      ([[i2 k2] v2] & [= Hn ->] & Hy)%list_elem_of_fmap.
    apply Hrows in Hx as [Hin1 Hx], Hy as [Hin2 Hy].
    apply labelName_inj in Hn as [-> ->]; [congruence|by apply (Hfree _ v1)|by apply (Hfree _ v2)].
Qed.

Lemma labelRows_some rows n id :
  labelRows rows !! n = Some id → ∃ k v, n = labelName k v ∧ (id, k, v) ∈ rows.
Proof.
  unfold labelRows. induction rows as [|[[id' k] v] rows IH] using rev_ind; [done|].
  rewrite foldl_snoc. destruct (decide (n = labelName k v)) as [->|Hne].
  - rewrite lookup_insert_eq. intros [= ->]. exists k, v. split; [done|].
    apply elem_of_app. right. by apply list_elem_of_singleton.
  - rewrite lookup_insert_ne by done. intros (k' & v' & -> & Hin)%IH. exists k', v'.
    split; [done|]. apply elem_of_app. by left.
Qed.

Lemma resolveLabelIDs_spec t labels ids k v :
  resolveLabelIDs t labels = Some ids → valid_keys labels → labels !! k = Some v →
  ids !! labelName k v = lt_labels t !! (k, v).
Proof.
  unfold resolveLabelIDs. intros Hr Hv Hk. destruct (Nat.eqb_spec (size labels) 0) as [Hs|_].
  { apply map_size_empty_inv in Hs. by rewrite Hs in Hk. }
  destruct (queryLabels t _) as [rows|] eqn:Eq; [|done]. injection Hr as <-.
  apply (labelRows_spec t _ rows k v Eq).
  - intros k' v' (k0 & [= -> ->] & Hin%elem_of_SortedKeys)%list_elem_of_fmap. by apply Hv.
  - apply list_elem_of_fmap. exists k. rewrite Hk. split; [done|]. apply elem_of_SortedKeys. eauto.
Qed.

Lemma resolveLabelIDsMulti_spec t labels ids k vs v :
  resolveLabelIDsMulti t labels = Some ids → valid_keys labels → labels !! k = Some vs → v ∈ vs →
  ids !! labelName k v = lt_labels t !! (k, v).
Proof.
  unfold resolveLabelIDsMulti. intros Hr Hv Hk Hvs. destruct (Nat.eqb_spec (size labels) 0) as [Hs|_].
  { apply map_size_empty_inv in Hs. by rewrite Hs in Hk. }
  destruct (queryLabels t _) as [rows|] eqn:Eq; [|done]. injection Hr as <-.
  apply (labelRows_spec t _ rows k v Eq).
  - intros k' v' (k0 & (v0 & [= -> ->] & _)%list_elem_of_fmap & Hin%elem_of_SortedKeys)%list_elem_of_bind.
    by apply Hv.
  - apply list_elem_of_bind. exists k. rewrite Hk. cbn. split.
    + apply list_elem_of_fmap. by exists v.
    + apply elem_of_SortedKeys. eauto.
Qed.

(** ** What each filter's conditions say *)
Section conditions.
  Context (t : LabelTables) (r : Z) (Ht : schema t).

Definition allHold (cs : list Cond) : Prop := Forall (λ c, holds t r c = true) cs.

Lemma allHold_app cs1 cs2 : allHold (cs1 ++ cs2) ↔ allHold cs1 ∧ allHold cs2.
Proof. apply Forall_app. Qed.

Lemma allHold_nil : allHold [].
Proof. by apply Forall_nil. Qed.

Lemma allHold_one c : allHold [c] ↔ holds t r c = true.
Proof. unfold allHold. rewrite Forall_cons, Forall_nil. tauto. Qed.

Lemma not_allHold_false cs : ¬ allHold (CFalse :: cs).
Proof. intros [Hf _]%Forall_cons. by rewrite holds_false in Hf. Qed.

Lemma hasLabel_id k v l : lt_labels t !! (k, v) = Some l → hasLabel t r k v ↔ (r, l) ∈ lt_resource t.
Proof.
  intros Hl. split; [|by exists l]. intros (l' & Hl' & Hin). congruence.
Qed.

Lemma hasLabel_unknown k v : lt_labels t !! (k, v) = None → ¬ hasLabel t r k v.
Proof. intros Hn (l & Hl & _). congruence. Qed.

Lemma elem_of_keyIDsOf k kid : lt_keys t !! k = Some kid → kid ∈ keyIDsOf t r ↔ hasKey t r k.
Proof.
  intros Hk. unfold keyIDsOf. rewrite list_elem_of_omap. split.
  - intros ([r' l] & Hin & Hl). destruct (Z.eqb_spec r' r) as [->|]; [|done].
    destruct (resource_has_label t Ht r l Hin) as (k' & v & Hkv).
    destruct (label_has_key t Ht k' v l Hkv) as (kid' & Hk' & Hl').
    rewrite Hl in Hl'. injection Hl' as <-.
    rewrite (keys_unique t Ht k k' kid Hk Hk'). exists v, l. done.
  - intros (v & l & Hl & Hin). destruct (label_has_key t Ht k v l Hl) as (kid' & Hk' & Hl').
    rewrite Hk in Hk'. injection Hk' as <-. exists (r, l). by rewrite Z.eqb_refl.
Qed.

Lemma hasKey_known k : hasKey t r k → is_Some (lt_keys t !! k).
Proof. intros (v & l & Hl & _). destruct (label_has_key t Ht k v l Hl) as (kid & -> & _). eauto. Qed.

Lemma elem_of_idsOf ids names id : id ∈ idsOf ids names ↔ ∃ n, n ∈ names ∧ ids !! n = Some id.
Proof. unfold idsOf. by rewrite list_elem_of_omap. Qed.

(** A guard before the conditions of a filter. *)
Lemma allHold_guard (b : bool) cs rest (P : Prop) :
  (P → b = true) → (b = true → allHold cs ↔ P) →
  allHold (if negb b then [CFalse] else cs ++ rest) ↔ P ∧ allHold rest.
Proof.
  intros Hf Ht'. destruct b; cbn.
  - rewrite allHold_app, Ht' by done. done.
  - split; [by intros ?%not_allHold_false|]. by intros [?%Hf _].
Qed.

Lemma existsResolved_spec keyIDs keys :
  existsResolved keyIDs keys = true ↔ ∀ k, k ∈ keys → is_Some (keyIDs !! k).
Proof.
  unfold existsResolved. rewrite forallb_forall. setoid_rewrite bool_decide_eq_true.
  by setoid_rewrite list_elem_of_In.
Qed.

Lemma applyExistsFilter_spec keyIDs keys rest :
  (∀ k, k ∈ keys → keyIDs !! k = lt_keys t !! k) →
  allHold (if negb (existsResolved keyIDs keys) then [CFalse]
           else applyExistsFilter keyIDs keys ++ rest) ↔
    (∀ k, k ∈ keys → hasKey t r k) ∧ allHold rest.
Proof.
  intros Hids. apply allHold_guard.
  - intros Hk. apply existsResolved_spec. intros k Hin. rewrite Hids by done.
    by apply hasKey_known, Hk.
  - rewrite existsResolved_spec. intros Hs. unfold allHold, applyExistsFilter.
    rewrite Forall_fmap, Forall_forall.
    assert (∀ k, k ∈ keys → (holds t r (CHasKey (default 0%Z (keyIDs !! k))) = true ↔ hasKey t r k)) as He.
    { intros k Hk. destruct (Hs k Hk) as [kid Hkid]. rewrite Hkid, holds_key.
      apply elem_of_keyIDsOf. by rewrite <-Hids. }
    split; intros Hall k Hk.
    + apply He; [done|]. apply (Hall k). by rewrite elem_of_SortStrings.
    + rewrite elem_of_SortStrings in Hk. cbn. by apply He, Hall.
Qed.

Lemma equalsResolved_spec labelIDs labels :
  equalsResolved labelIDs labels = true ↔
  ∀ k v, labels !! k = Some v → is_Some (labelIDs !! labelName k v).
Proof.
  unfold equalsResolved. rewrite forallb_forall. setoid_rewrite bool_decide_eq_true.
  setoid_rewrite <-list_elem_of_In. setoid_rewrite elem_of_SortedKeys. split.
  - intros Hall k v Hk. specialize (Hall k). rewrite Hk in Hall. eauto.
  - intros Hall k [v Hk]. rewrite Hk. by apply Hall.
Qed.

Lemma applyEqualsFilter_spec labelIDs labels rest :
  (∀ k v, labels !! k = Some v → labelIDs !! labelName k v = lt_labels t !! (k, v)) →
  allHold (if negb (equalsResolved labelIDs labels) then [CFalse]
           else applyEqualsFilter labelIDs labels ++ rest) ↔
    (∀ k v, labels !! k = Some v → hasLabel t r k v) ∧ allHold rest.
Proof.
  intros Hids. apply allHold_guard.
  - intros Hl. apply equalsResolved_spec. intros k v Hk. rewrite Hids by done.
    destruct (Hl k v Hk) as (l & -> & _). eauto.
  - rewrite equalsResolved_spec. intros Hs. unfold allHold, applyEqualsFilter.
    rewrite Forall_fmap, Forall_forall.
    assert (∀ k v, labels !! k = Some v →
      (holds t r (CHasLabel (default 0%Z (labelIDs !! labelName k v))) = true ↔ hasLabel t r k v)) as He.
    { intros k v Hk. destruct (Hs k v Hk) as [l Hl]. rewrite Hl, holds_label. symmetry.
      apply hasLabel_id. by rewrite <-Hids. }
    split.
    + intros Hall k v Hk. apply He; [done|]. specialize (Hall k). cbn in Hall. rewrite Hk in Hall.
      apply Hall. apply elem_of_SortedKeys. eauto.
    + intros Hall k Hk. apply elem_of_SortedKeys in Hk as [v Hk]. cbn. rewrite Hk. by apply He, Hall.
Qed.

Lemma inResolved_spec labelIDs labels :
  inResolved labelIDs labels = true ↔
  ∀ k vs, labels !! k = Some vs → ∃ v, v ∈ vs ∧ is_Some (labelIDs !! labelName k v).
Proof.
  unfold inResolved. rewrite forallb_forall. setoid_rewrite existsb_exists.
  setoid_rewrite bool_decide_eq_true. setoid_rewrite <-list_elem_of_In.
  setoid_rewrite elem_of_SortedKeys. split.
  - intros Hall k vs Hk. specialize (Hall k). rewrite Hk in Hall. eauto.
  - intros Hall k [vs Hk]. rewrite Hk. by apply Hall.
Qed.

Lemma applyInFilter_spec labelIDs labels rest :
  (∀ k vs v, labels !! k = Some vs → v ∈ vs → labelIDs !! labelName k v = lt_labels t !! (k, v)) →
  allHold (if negb (inResolved labelIDs labels) then [CFalse]
           else applyInFilter labelIDs labels ++ rest) ↔
    (∀ k vs, labels !! k = Some vs → ∃ v, v ∈ vs ∧ hasLabel t r k v) ∧ allHold rest.
Proof.
  intros Hids. apply allHold_guard.
  - intros Hl. apply inResolved_spec. intros k vs Hk. destruct (Hl k vs Hk) as (v & Hv & l & Hlv & _).
    exists v. split; [done|]. rewrite (Hids k vs) by done. eauto.
  - rewrite inResolved_spec. intros Hs. unfold allHold, applyInFilter.
    rewrite Forall_fmap, Forall_forall.
    assert (∀ k vs, labels !! k = Some vs →
      (holds t r (CHasLabelIn (idsOf labelIDs (labelName k <$> vs))) = true ↔
       ∃ v, v ∈ vs ∧ hasLabel t r k v)) as He.
    { intros k vs Hk. rewrite holds_label_in.
      - setoid_rewrite elem_of_idsOf. split.
        + intros (l & (n & (v & -> & Hv)%list_elem_of_fmap & Hl) & Hin).
          exists v. split; [done|]. exists l. split; [|done]. by rewrite <-(Hids k vs).
        + intros (v & Hv & l & Hl & Hin). exists l. split; [|done]. exists (labelName k v).
          split; [apply list_elem_of_fmap; by exists v|]. by rewrite (Hids k vs).
      - destruct (Hs k vs Hk) as (v & Hv & [l Hl]). intros Hnil.
        assert (l ∈ idsOf labelIDs (labelName k <$> vs)) as Hin; [|rewrite Hnil in Hin;
          by apply not_elem_of_nil in Hin].
        apply elem_of_idsOf. exists (labelName k v). split; [|done].
        apply list_elem_of_fmap. by exists v. }
    split.
    + intros Hall k vs Hk. apply He; [done|]. specialize (Hall k). cbn in Hall. rewrite Hk in Hall.
      apply Hall. apply elem_of_SortedKeys. eauto.
    + intros Hall k Hk. apply elem_of_SortedKeys in Hk as [vs Hk]. cbn. rewrite Hk. by apply He, Hall.
Qed.

(** A condition that is only written for a list that is not empty. *)
Lemma allHold_unless_empty (f : list Z → Cond) ids (P : Prop) :
  (ids ≠ [] → holds t r (f ids) = true ↔ P) → (ids = [] → P) →
  allHold (if (length ids =? 0)%nat then [] else [f ids]) ↔ P.
Proof.
  intros Hf He. destruct ids as [|id ids]; cbn.
  - split; [by intros _; apply He|intros _; apply allHold_nil].
  - rewrite allHold_one. by apply Hf.
Qed.

Lemma applyNotExistsFilter_spec keyIDs keys :
  (∀ k, k ∈ keys → keyIDs !! k = lt_keys t !! k) →
  allHold (applyNotExistsFilter keyIDs keys) ↔ ∀ k, k ∈ keys → ¬ hasKey t r k.
Proof.
  intros Hids. apply allHold_unless_empty.
  - intros Hne. rewrite holds_not_key_in by done. setoid_rewrite elem_of_idsOf. split.
    + intros Hn k Hk Hhas. destruct (hasKey_known k Hhas) as [kid Hkid]. apply Hn.
      exists kid. split; [exists k; by rewrite Hids|]. by apply (elem_of_keyIDsOf k).
    + intros Hn (kid & (k & Hk & Hkid) & Hin). apply (Hn k Hk).
      apply (elem_of_keyIDsOf k kid); [by rewrite <-Hids|done].
  - intros Hnil k Hk Hhas. destruct (hasKey_known k Hhas) as [kid Hkid].
    assert (kid ∈ idsOf keyIDs keys) as Hin by (apply elem_of_idsOf; exists k; by rewrite Hids).
    rewrite Hnil in Hin. by apply not_elem_of_nil in Hin.
Qed.

(** Excluding labels by their names. *)
Lemma notHasLabelIn_spec labelIDs (pairs : list (string * string)) :
  (∀ k v, (k, v) ∈ pairs → labelIDs !! labelName k v = lt_labels t !! (k, v)) →
  let ids := idsOf labelIDs ((λ '(k, v), labelName k v) <$> pairs) in
  (ids ≠ [] → holds t r (CNotHasLabelIn ids) = true ↔ ∀ k v, (k, v) ∈ pairs → ¬ hasLabel t r k v) ∧
  (ids = [] → ∀ k v, (k, v) ∈ pairs → ¬ hasLabel t r k v).
Proof.
  intros Hids ids.
  assert (∀ k v l, (k, v) ∈ pairs → lt_labels t !! (k, v) = Some l → l ∈ ids) as Hin.
  { intros k v l Hkv Hl. apply elem_of_idsOf. exists (labelName k v).
    split; [apply list_elem_of_fmap; by exists (k, v)|]. by rewrite Hids. }
  split.
  - intros Hne. rewrite holds_not_label_in by done. split.
    + intros Hn k v Hkv (l & Hl & Hr). apply Hn. exists l. split; [by apply (Hin k v)|done].
    + intros Hn (l & (n & ([k v] & -> & Hkv)%list_elem_of_fmap & Hl)%elem_of_idsOf & Hr).
      apply (Hn k v Hkv). exists l. by rewrite <-Hids.
  - intros Hnil k v Hkv (l & Hl & _). specialize (Hin k v l Hkv Hl). rewrite Hnil in Hin.
    by apply not_elem_of_nil in Hin.
Qed.

Lemma applyNotEqualsFilter_spec labelIDs labels :
  (∀ k v, labels !! k = Some v → labelIDs !! labelName k v = lt_labels t !! (k, v)) →
  allHold (applyNotEqualsFilter labelIDs labels) ↔ ∀ k v, labels !! k = Some v → ¬ hasLabel t r k v.
Proof.
  intros Hids. unfold applyNotEqualsFilter.
  set (pairs := (λ key, (key, default "" (labels !! key))) <$> SortedKeys labels).
  assert (∀ k v, (k, v) ∈ pairs ↔ labels !! k = Some v) as Hp.
  { intros k v. unfold pairs. rewrite list_elem_of_fmap. setoid_rewrite elem_of_SortedKeys. split.
    - intros (k' & [= -> ->] & [v' Hv']). by rewrite Hv'.
    - intros Hk. exists k. rewrite Hk. eauto. }
  replace ((λ key, labelName key (default "" (labels !! key))) <$> SortedKeys labels)
    with ((λ '(k, v), labelName k v) <$> pairs) by (unfold pairs; by rewrite <-list_fmap_compose).
  destruct (notHasLabelIn_spec labelIDs pairs) as [Hs He].
  { intros k v Hkv%Hp. by apply Hids. }
  setoid_rewrite <-Hp. by apply allHold_unless_empty.
Qed.

Lemma idsOf_resolved ids names :
  (∀ n, n ∈ names → is_Some (ids !! n)) →
  idsOf ids names = (λ n, default 0%Z (ids !! n)) <$> names.
Proof.
  intros Hs. induction names as [|n names IH]; [done|]. unfold idsOf in *. cbn.
  destruct (Hs n) as [id Hid]; [by left|]. rewrite Hid. cbn. f_equal. apply IH.
  intros n' Hn'. apply Hs. by right.
Qed.

Lemma countKeys_spec keyIDs keys :
  NoDup keys → keys ≠ [] → (∀ k, k ∈ keys → is_Some (keyIDs !! k)) →
  (∀ k, k ∈ keys → keyIDs !! k = lt_keys t !! k) →
  holds t r (CCountKeys (idsOf keyIDs keys) (length keys)) = true ↔ ∀ k, k ∈ keys → hasKey t r k.
Proof.
  intros Hnd Hne Hs Hids. set (ids := idsOf keyIDs keys).
  assert (ids = (λ n, default 0%Z (keyIDs !! n)) <$> keys) as Eids by (by apply idsOf_resolved).
  assert (length ids = length keys) as Hlen by (by rewrite Eids, length_fmap).
  assert (NoDup ids) as Hndi.
  { rewrite Eids. apply NoDup_fmap_2_strong; [|done]. intros k1 k2 H1 H2.
    destruct (Hs k1 H1) as [i1 E1], (Hs k2 H2) as [i2 E2]. rewrite E1, E2. cbn. intros <-.
    apply (keys_unique t Ht k1 k2 i1); [by rewrite <-Hids|by rewrite <-Hids]. }
  assert (length keys ≠ 0%nat) as Hlk by (by destruct keys).
  rewrite holds_count; [|by destruct ids|done].
  set (F := list_to_set (filter (λ id, id ∈ ids) (keyIDsOf t r)) : gset Z).
  assert (size (list_to_set ids : gset Z) = length keys) as Hsize by (by rewrite size_list_to_set).
  assert (F ⊆ list_to_set ids) as Hsub.
  { intros id. unfold F. rewrite !elem_of_list_to_set, list_elem_of_filter. tauto. }
  assert (∀ id, id ∈ F ↔ id ∈ ids ∧ id ∈ keyIDsOf t r) as HF.
  { intros id. unfold F. by rewrite elem_of_list_to_set, list_elem_of_filter. }
  split.
  - intros HsF k Hk. destruct (Hs k Hk) as [kid Hkid].
    apply (elem_of_keyIDsOf k kid); [by rewrite <-Hids|]. apply HF.
    rewrite (set_subseteq_size_eq F (list_to_set ids) Hsub) by lia.
    apply elem_of_list_to_set, elem_of_idsOf. by exists k.
  - intros Hall. rewrite <-Hsize. f_equal. apply set_eq. intros id.
    rewrite HF, elem_of_list_to_set. split; [tauto|]. intros Hid. split; [done|].
    apply elem_of_idsOf in Hid as (k & Hk & Hkid).
    apply (elem_of_keyIDsOf k id); [by rewrite <-Hids|by apply Hall].
Qed.

Lemma applyNotInFilter_spec keyIDs labelIDs labels :
  labels ≠ ∅ → (∀ k, k ∈ SortedKeys labels → is_Some (keyIDs !! k)) →
  (∀ k, k ∈ SortedKeys labels → keyIDs !! k = lt_keys t !! k) →
  (∀ k vs v, labels !! k = Some vs → v ∈ vs → labelIDs !! labelName k v = lt_labels t !! (k, v)) →
  allHold (applyNotInFilter keyIDs labelIDs labels) ↔
    ∀ k vs, labels !! k = Some vs → hasKey t r k ∧ ∀ v, v ∈ vs → ¬ hasLabel t r k v.
Proof.
  intros Hne Hs Hids Hl. unfold applyNotInFilter.
  set (pairs := SortedKeys labels ≫= λ key, pair key <$> default [] (labels !! key)).
  assert (∀ k v, (k, v) ∈ pairs ↔ ∃ vs, labels !! k = Some vs ∧ v ∈ vs) as Hp.
  { intros k v. unfold pairs. rewrite list_elem_of_bind. setoid_rewrite list_elem_of_fmap.
    setoid_rewrite elem_of_SortedKeys. split.
    - intros (k' & (v' & [= -> ->] & Hv) & [vs Hvs]). rewrite Hvs in Hv. by exists vs.
    - intros (vs & Hvs & Hv). exists k. rewrite Hvs. split; [by exists v|eauto]. }
  replace (SortedKeys labels ≫= λ key, labelName key <$> default [] (labels !! key))
    with ((λ '(k, v), labelName k v) <$> pairs).
  2: { unfold pairs. generalize (SortedKeys labels). intros l. induction l as [|k l IH]; [done|].
       cbn. rewrite fmap_app, <-list_fmap_compose. f_equal. apply IH. }
  destruct (notHasLabelIn_spec labelIDs pairs) as [Hin He].
  { intros k v (vs & Hvs & Hv)%Hp. by apply (Hl k vs). }
  change (CCountKeys ?a ?b :: ?l) with ([CCountKeys a b] ++ l).
  rewrite allHold_app, allHold_one, countKeys_spec; try done; [|by apply NoDup_SortedKeys|].
  2: { intros Hnil. apply Hne, map_empty. intros k. destruct (labels !! k) as [vs|] eqn:E; [|done].
       assert (k ∈ SortedKeys labels) as Hk by (apply elem_of_SortedKeys; eauto).
       rewrite Hnil in Hk. by apply not_elem_of_nil in Hk. }
  assert (allHold (if (0 <? length (idsOf labelIDs ((λ '(k, v), labelName k v) <$> pairs)))%nat
      then [CNotHasLabelIn (idsOf labelIDs ((λ '(k, v), labelName k v) <$> pairs))] else []) ↔
    ∀ k v, (k, v) ∈ pairs → ¬ hasLabel t r k v) as Hneg.
  { rewrite <-(allHold_unless_empty CNotHasLabelIn
      (idsOf labelIDs ((λ '(k, v), labelName k v) <$> pairs)) _ Hin He).
    by destruct (idsOf labelIDs _). }
  rewrite Hneg. setoid_rewrite Hp. setoid_rewrite elem_of_SortedKeys. split.
  - intros [H1 H2] k vs Hk. split; [by apply H1; eauto|]. intros v Hv. apply H2. eauto.
  - intros Hall. split; [intros k [vs Hk]; by apply (Hall k vs)|].
    intros k v (vs & Hk & Hv). by apply (Hall k vs).
Qed.
End conditions.

(** ** The filters together *)

Lemma lookup_copies (lf : LabelFilters) k :
  copyInto (copyInto ∅ (Equals lf)) (NotEquals lf) !! k =
  match NotEquals lf !! k with Some v => Some v | None => Equals lf !! k end.
Proof.
  unfold copyInto. rewrite lookup_union, (right_id_L ∅ (∪)).
  by destruct (NotEquals lf !! k), (Equals lf !! k).
Qed.

Lemma lookup_appended (dst src : gmap string (list string)) k :
  appendValues dst src !! k =
  match dst !! k, src !! k with
  | Some vs, Some ws => Some (vs ++ ws)
  | Some vs, None => Some vs
  | None, ws => ws
  end.
Proof. unfold appendValues. rewrite lookup_union_with. by destruct (dst !! k), (src !! k). Qed.

(** The identifiers [ApplyLabelFilters] works with. *)
Lemma ApplyLabelFilters_ids t lf cs :
  valid lf → ApplyLabelFilters t lf = Some cs →
  ∃ keyIDs labelIDs multiLabelIDs,
    (∀ k, k ∈ allKeys lf → keyIDs !! k = lt_keys t !! k) ∧
    resolveLabelIDs t (copyInto (copyInto ∅ (Equals lf)) (NotEquals lf)) = Some labelIDs ∧
    (∀ k vs v, In_ lf !! k = Some vs ∨ NotIn lf !! k = Some vs → v ∈ vs →
       multiLabelIDs !! labelName k v = lt_labels t !! (k, v)) ∧
    cs = if negb (existsResolved keyIDs (Exists_ lf)) then [CFalse]
         else
           applyExistsFilter keyIDs (Exists_ lf) ++
           (if negb (equalsResolved labelIDs (Equals lf)) then [CFalse]
            else
              applyEqualsFilter labelIDs (Equals lf) ++
              (if negb (inResolved multiLabelIDs (In_ lf)) then [CFalse]
               else applyInFilter multiLabelIDs (In_ lf) ++
                    negativeFilters keyIDs labelIDs multiLabelIDs lf)).
Proof.
  intros Hv. unfold ApplyLabelFilters.
  destruct (resolveKeyIDs _ _) as [keyIDs|] eqn:Ek; [|done].
  destruct (resolveLabelIDs _ _) as [labelIDs|] eqn:El; [|done].
  destruct (resolveLabelIDsMulti _ _) as [multi|] eqn:Em; [|done].
  cbn [mbind option_bind]. intros [= <-]. exists keyIDs, labelIDs, multi. split_and!; try done.
  - intros k Hk. apply (resolveKeyIDs_spec t _ keyIDs k Ek).
    by rewrite elem_of_SortStrings, elem_of_elements.
  - assert (valid_keys (appendValues (In_ lf) (NotIn lf))) as Hvk.
    { intros k. rewrite lookup_appended. intros Hk.
      destruct (In_ lf !! k) eqn:E1; [apply (valid_in lf Hv); eauto|].
      destruct (NotIn lf !! k) eqn:E2; [apply (valid_not_in lf Hv); eauto|by destruct Hk]. }
    intros k vs v Hk Hin.
    destruct (appendValues (In_ lf) (NotIn lf) !! k) as [us|] eqn:E.
    + apply (resolveLabelIDsMulti_spec t _ multi k us v Em Hvk E). rewrite lookup_appended in E.
      destruct Hk as [Hk|Hk]; rewrite Hk in E.
      * destruct (NotIn lf !! k); injection E as <-; [apply elem_of_app; by left|done].
      * destruct (In_ lf !! k); injection E as <-; [apply elem_of_app; by right|done].
    + rewrite lookup_appended in E.
      destruct Hk as [Hk|Hk]; rewrite Hk in E; [by destruct (NotIn lf !! k)|by destruct (In_ lf !! k)].
Qed.

Lemma copies_valid lf : valid lf → valid_keys (copyInto (copyInto ∅ (Equals lf)) (NotEquals lf)).
Proof.
  intros Hv k. rewrite lookup_copies. destruct (NotEquals lf !! k) eqn:E.
  - intros _. apply (valid_not_equals lf Hv). eauto.
  - intros Hk. by apply (valid_equals lf Hv).
Qed.

(** Unless a key is in both [Equals] and [NotEquals] with different values, the
    conditions of the label filters hold of a resource exactly when its labels are as
    [selected] says. *)
Lemma ApplyLabelFilters_selected (t : LabelTables) (lf : LabelFilters) (cs : list Cond) (r : Z)
    (Ht : schema t) (Hv : valid lf)
    (Hcompat : ∀ k v w, Equals lf !! k = Some v → NotEquals lf !! k = Some w → v = w)
    (Hcs : ApplyLabelFilters t lf = Some cs) :
  allHold t r cs ↔ selected t r lf.
Proof.
  destruct (ApplyLabelFilters_ids t lf cs Hv Hcs) as (keyIDs & labelIDs & multi & Hk & Hl & Hm & ->).
  assert (∀ k v, Equals lf !! k = Some v ∨ NotEquals lf !! k = Some v →
    labelIDs !! labelName k v = lt_labels t !! (k, v)) as Hl'.
  { intros k v Hkv. apply (resolveLabelIDs_spec t _ _ k v Hl (copies_valid lf Hv)).
    rewrite lookup_copies. destruct (NotEquals lf !! k) as [w|] eqn:E.
    - destruct Hkv as [He|He]; [by rewrite (Hcompat k v w)|done].
    - by destruct Hkv as [He|He]. }
  rewrite applyExistsFilter_spec, applyEqualsFilter_spec, applyInFilter_spec by
    (try done; intros; first [apply Hk; unfold allKeys; set_solver|apply Hl'; by left|eapply Hm; eauto]).
  unfold negativeFilters. rewrite !allHold_app.
  rewrite applyNotExistsFilter_spec, applyNotEqualsFilter_spec by
    (try done; intros; first [apply Hk; unfold allKeys; set_solver|apply Hl'; by right]).
  assert (allHold t r
    (if (0 <? size (NotIn lf))%nat then
       if existsResolved keyIDs (SortedKeys (NotIn lf))
       then applyNotInFilter keyIDs multi (NotIn lf) else [CFalse]
     else []) ↔
    ∀ k vs, NotIn lf !! k = Some vs → hasKey t r k ∧ ∀ v, v ∈ vs → ¬ hasLabel t r k v) as ->.
  { destruct (Nat.ltb_spec 0 (size (NotIn lf))) as [Hs|Hs].
    2: { assert (NotIn lf = ∅) as -> by (apply map_size_empty_inv; lia).
         split; [|intros _; apply allHold_nil]. intros _ k vs Hkv. done. }
    assert (∀ k, k ∈ SortedKeys (NotIn lf) → keyIDs !! k = lt_keys t !! k) as Hki.
    { intros k Hin%elem_of_SortedKeys. apply Hk. unfold allKeys. apply elem_of_union_r.
      by apply elem_of_dom. }
    destruct (existsResolved keyIDs (SortedKeys (NotIn lf))) eqn:Er.
    - apply applyNotInFilter_spec; try done.
      + intros Hnil. rewrite Hnil, map_size_empty in Hs. lia.
      + by apply existsResolved_spec.
      + intros k vs v Hkv Hin. apply (Hm k vs); [by right|done].
    - split; [by intros ?%not_allHold_false|]. intros Hall. exfalso.
      enough (existsResolved keyIDs (SortedKeys (NotIn lf)) = true) by congruence.
      apply existsResolved_spec. intros k Hin. rewrite Hki by done.
      apply elem_of_SortedKeys in Hin as [vs Hkv]. apply (hasKey_known t r Ht).
      by apply (Hall k vs). }
  split.
  - intros (? & ? & ? & ? & ? & ?). by constructor.
  - intros []. by split_and!.
Qed.

(** A key asked to equal one value and to differ from another matches no
    resource, whatever its labels: the second pair replaces the first among those
    resolved. *)
Theorem ApplyLabelFilters_conflict (t : LabelTables) (lf : LabelFilters) (cs : list Cond) (k v w : string)
    (Hv : valid lf) (He : Equals lf !! k = Some v) (Hn : NotEquals lf !! k = Some w) (Hne : v ≠ w)
    (Hcs : ApplyLabelFilters t lf = Some cs) :
  ∀ r, ¬ allHold t r cs.
Proof.
  intros r. destruct (ApplyLabelFilters_ids t lf cs Hv Hcs) as (keyIDs & labelIDs & multi & _ & Hl & _ & ->).
  destruct (existsResolved keyIDs (Exists_ lf)); cbn [negb]; [|apply not_allHold_false].
  rewrite allHold_app.
  assert (equalsResolved labelIDs (Equals lf) = false) as ->; [|by intros [_ ?%not_allHold_false]].
  apply not_true_iff_false. rewrite equalsResolved_spec. intros Hs.
  destruct (Hs k v He) as [id Hid]. unfold resolveLabelIDs in Hl.
  destruct (size _ =? 0)%nat; [by injection Hl as <-|].
  destruct (queryLabels t _) as [rows|] eqn:Eq; [|done]. injection Hl as <-.
  pose proof (copies_valid lf Hv) as Hcv.
  assert (∀ k' v', (k', v') ∈ (λ key, (key, default "" (copyInto (copyInto ∅ (Equals lf)) (NotEquals lf) !! key)))
    <$> SortedKeys (copyInto (copyInto ∅ (Equals lf)) (NotEquals lf)) →
    copyInto (copyInto ∅ (Equals lf)) (NotEquals lf) !! k' = Some v') as Hp.
  { intros k' v' (k0 & [= -> ->] & [v0 Hv0]%elem_of_SortedKeys)%list_elem_of_fmap. by rewrite Hv0. }
  apply labelRows_some in Hid as (k' & v' & Hnm & Hin).
  apply (queryLabels_rows t _ rows Eq) in Hin as [Hin%Hp _].
  apply labelName_inj in Hnm as [<- <-]; [|apply (valid_equals lf Hv); eauto|apply Hcv; eauto].
  rewrite lookup_copies, Hn in Hin. congruence.
Qed.

(** C24: the conditions of the label filters hold of a resource exactly when Kubernetes
    selects it by the same filters, and two more conditions hold, which neither Kubernetes
    nor the documents of the repository ask for: the resource has every key of a [notin],
    and no key has to be equal to a value and to differ from another one. *)
Theorem ApplyLabelFilters_correct (t : LabelTables) (lf : LabelFilters) (cs : list Cond) (r : Z)
    (Ht : schema t) (Hv : valid lf) (Hcs : ApplyLabelFilters t lf = Some cs) :
  allHold t r cs ↔
  kubernetesSelects t r lf ∧
  (∀ k, is_Some (NotIn lf !! k) → hasKey t r k) ∧
  (∀ k v w, Equals lf !! k = Some v → NotEquals lf !! k = Some w → v = w).
Proof.
  split.
  - intros Hall.
    assert (∀ k v w, Equals lf !! k = Some v → NotEquals lf !! k = Some w → v = w) as Hcompat.
    { intros k v w He Hn. destruct (decide (v = w)) as [|Hne]; [done|].
      by destruct (ApplyLabelFilters_conflict t lf cs k v w Hv He Hn Hne Hcs r). }
    apply (ApplyLabelFilters_selected t lf cs r Ht Hv Hcompat Hcs) in Hall as [].
    split_and!; [split; naive_solver| |done]. intros k [vs Hk]. naive_solver.
  - intros ([] & Hkeys & Hcompat).
    apply (ApplyLabelFilters_selected t lf cs r Ht Hv Hcompat Hcs). split; naive_solver.
Qed.

(** ** From requirements to filters *)

(** What a requirement asks of a resource; [notin] asks for the key as well. *)
Definition satisfies (t : LabelTables) (r : Z) (q : Requirement) : Prop :=
  match rq_operator q with
  | OpExists => hasKey t r (rq_key q)
  | OpDoesNotExist => ¬ hasKey t r (rq_key q)
  | OpEquals => ∃ v vs, rq_values q = v :: vs ∧ hasLabel t r (rq_key q) v
  | OpNotEquals => ∃ v vs, rq_values q = v :: vs ∧ ¬ hasLabel t r (rq_key q) v
  | OpIn => ∃ v, v ∈ rq_values q ∧ hasLabel t r (rq_key q) v
  | OpNotIn => hasKey t r (rq_key q) ∧ ∀ v, v ∈ rq_values q → ¬ hasLabel t r (rq_key q) v
  | _ => False
  end.

Definition supported (op : Operator) : bool :=
  match op with OpDoubleEquals | OpGreaterThan | OpLessThan => false | _ => true end.

(** The maps that already hold the key of a requirement. *)
Definition taken (lf : LabelFilters) (q : Requirement) : bool :=
  match rq_operator q with
  | OpEquals => bool_decide (is_Some (Equals lf !! rq_key q))
  | OpNotEquals => bool_decide (is_Some (NotEquals lf !! rq_key q))
  | OpIn => bool_decide (is_Some (In_ lf !! rq_key q))
  | OpNotIn => bool_decide (is_Some (NotIn lf !! rq_key q))
  | _ => false
  end.

Lemma selected_iff t r lf :
  selected t r lf ↔
  (∀ k, k ∈ Exists_ lf → hasKey t r k) ∧ (∀ k, k ∈ NotExists lf → ¬ hasKey t r k) ∧
  map_Forall (λ k v, hasLabel t r k v) (Equals lf) ∧
  map_Forall (λ k v, ¬ hasLabel t r k v) (NotEquals lf) ∧
  map_Forall (λ k vs, ∃ v, v ∈ vs ∧ hasLabel t r k v) (In_ lf) ∧
  map_Forall (λ k vs, hasKey t r k ∧ ∀ v, v ∈ vs → ¬ hasLabel t r k v) (NotIn lf).
Proof. split; [intros []; by split_and!|intros (? & ? & ? & ? & ? & ?); by constructor]. Qed.

Lemma not_taken {A} (m : gmap string A) k : bool_decide (is_Some (m !! k)) = false → m !! k = None.
Proof. rewrite bool_decide_eq_false. apply eq_None_not_Some. Qed.

Lemma index_head {E} (v : string) vs : index (E:=E) (v :: vs) 0 = Ok v.
Proof. done. Qed.

Lemma addRequirement_selected lf q :
  supported (rq_operator q) = true → rq_values q ≠ [] → taken lf q = false →
  ∃ lf', addRequirement lf q = Ok lf' ∧
    (∀ t r, selected t r lf' ↔ selected t r lf ∧ satisfies t r q) ∧
    (∀ q', taken lf' q' = true → taken lf q' = true ∨
       (rq_operator q' = rq_operator q ∧ rq_key q' = rq_key q)).
Proof.
  intros Hs Hv Ht. destruct q as [k op vs]. cbn [rq_operator rq_key rq_values] in *.
  unfold addRequirement, satisfies, taken in *. cbn [rq_operator rq_key rq_values] in *.
  destruct vs as [|v vs]; [done|].
  destruct op; try done; cbn [index mbind outcome_bind] in *; eexists; (split; [reflexivity|]);
    (split; [intros t r; rewrite !selected_iff; cbn [Exists_ NotExists Equals NotEquals In_ NotIn];
       rewrite ?map_Forall_insert by (by apply not_taken)
    |intros [k' op' vs']; cbn [rq_operator rq_key Exists_ NotExists Equals NotEquals In_ NotIn];
       destruct op'; first [by left|
       rewrite !bool_decide_eq_true, lookup_insert_is_Some; intros [<-|[_ ?]]; [by right|by left]]]).
  - setoid_rewrite elem_of_app. setoid_rewrite list_elem_of_singleton. split.
    + intros (? & H' & ?). split; [split_and!; try tauto; intros; apply H'; by left|apply H'; by right].
    + intros [(? & H' & ?) ?]. split_and!; try tauto. intros k' [?| ->]; [by apply H'|done].
  - split; [|intros [? (v' & vs' & Hvv & ?)]; injection Hvv as <- <-; tauto].
    intros (? & ? & (? & ?) & ?). split; [tauto|]. by exists v, vs.
  - split; tauto.
  - split; [|intros [? (v' & vs' & Hvv & ?)]; injection Hvv as <- <-; tauto].
    intros (? & ? & ? & (? & ?) & ?). split; [tauto|]. by exists v, vs.
  - split; tauto.
  - setoid_rewrite elem_of_app. setoid_rewrite list_elem_of_singleton. split.
    + intros (H' & ? & ?). split; [split_and!; try tauto; intros; apply H'; by left|apply H'; by right].
    + intros [(H' & ? & ?) ?]. split_and!; try tauto. intros k' [?| ->]; [by apply H'|done].
Qed.

Lemma addRequirements_app lf rs1 rs2 :
  addRequirements lf (rs1 ++ rs2) = lf ← addRequirements lf rs1; addRequirements lf rs2.
Proof.
  revert lf; induction rs1 as [|q rs1 IH]; intros lf; [done|]. cbn [addRequirements app].
  destruct (addRequirement lf q); cbn [mbind outcome_bind]; [apply IH|done|done].
Qed.

(** A selector of supported operators in which no operator is used twice with
    a key becomes filters that a resource satisfies exactly when it satisfies
    every requirement. *)
Theorem NewLabelFilters_selected (rs : list Requirement)
    (Hop : Forall (λ q, supported (rq_operator q) = true) rs)
    (Hvs : Forall (λ q, rq_values q ≠ []) rs)
    (Hnd : NoDup ((λ q, (rq_operator q, rq_key q)) <$> rs)) :
  ∃ lf, NewLabelFilters rs = Ok lf ∧ ∀ t r, selected t r lf ↔ Forall (satisfies t r) rs.
Proof.
  enough (∃ lf, NewLabelFilters rs = Ok lf ∧
    (∀ t r, selected t r lf ↔ Forall (satisfies t r) rs) ∧
    ∀ q', taken lf q' = true → (rq_operator q', rq_key q') ∈ (λ q, (rq_operator q, rq_key q)) <$> rs)
    as (lf & ? & ? & _) by (by exists lf).
  induction rs as [|q rs IH] using rev_ind.
  - exists noFilters. split; [done|]. split.
    + intros t r. rewrite selected_iff, Forall_nil. cbn [Exists_ NotExists Equals NotEquals In_ NotIn noFilters].
      split; [done|]. intros _. split_and!; try apply map_Forall_empty; intros k Hk; by apply not_elem_of_nil in Hk.
    + intros [k op vs]. unfold taken. cbn. by destruct op.
  - rewrite Forall_app, Forall_cons in Hop, Hvs. rewrite fmap_app, NoDup_app in Hnd.
    destruct Hop as (Hop & Hq & _), Hvs as (Hvs & Hqv & _), Hnd as (Hnd & Hnq & _).
    destruct (IH Hop Hvs Hnd) as (lf & Hlf & Hsel & Htk).
    destruct (addRequirement_selected lf q Hq Hqv) as (lf' & Hlf' & Hsel' & Htk').
    { apply not_true_iff_false. intros Hin%Htk. apply (Hnq _ Hin). by left. }
    exists lf'. split; [|split].
    + unfold NewLabelFilters in *. rewrite addRequirements_app, Hlf. cbn. by rewrite Hlf'.
    + intros t r. rewrite Hsel', Hsel, Forall_app, Forall_cons, Forall_nil. tauto.
    + intros q' [Hin|[-> ->]]%Htk'; rewrite fmap_app, elem_of_app; [left; by apply Htk|right; by left].
Qed.

(** Of two requirements with the same key and the same of the operators [=],
    [!=], [in] and [notin], the first one is dropped; an operator [==] is
    refused. *)
Theorem NewLabelFilters_drops (q q' : Requirement) (rs : list Requirement)
    (Hop : rq_operator q = rq_operator q') (Hkey : rq_key q = rq_key q')
    (Hmap : rq_operator q ∈ [OpEquals; OpNotEquals; OpIn; OpNotIn])
    (Hq : rq_values q ≠ []) (Hq' : rq_values q' ≠ []) :
  NewLabelFilters (rs ++ [q; q']) = NewLabelFilters (rs ++ [q']) ∧
  (∀ lf k vs, NewLabelFilters rs = Ok lf →
     NewLabelFilters (rs ++ [{| rq_key := k; rq_operator := OpDoubleEquals; rq_values := vs |}]) =
       Err OpDoubleEquals).
Proof.
  unfold NewLabelFilters. split.
  - rewrite !addRequirements_app. destruct (addRequirements noFilters rs) as [lf| |]; [|done|done].
    cbn [mbind outcome_bind addRequirements]. destruct q as [k op vs], q' as [k' op' vs'].
    cbn [rq_operator rq_key rq_values] in *. subst op' k'.
    destruct vs as [|v vs]; [done|]. destruct vs' as [|v' vs']; [done|].
    unfold addRequirement. cbn [rq_operator rq_key rq_values].
    rewrite !index_head. destruct op; try (exfalso; revert Hmap; set_solver);
      cbn [mbind outcome_bind Exists_ NotExists Equals NotEquals In_ NotIn];
      by rewrite insert_insert_eq.
  - intros lf k vs Hlf. by rewrite addRequirements_app, Hlf.
Qed.
End resolve.

(** ** A concrete engine, for the witnesses *)

Definition sample_holds (t : LabelTables) (r : Z) (c : Cond) : bool :=
  match c with
  | CFalse => false
  | CHasKey id => bool_decide (id ∈ keyIDsOf t r)
  | CHasLabel id => bool_decide ((r, id) ∈ lt_resource t)
  | CHasLabelIn ids => bool_decide (Exists (λ id, (r, id) ∈ lt_resource t) ids)
  | CNotHasKeyIn ids => bool_decide (¬ Exists (λ id, id ∈ keyIDsOf t r) ids)
  | CNotHasLabelIn ids => bool_decide (¬ Exists (λ id, (r, id) ∈ lt_resource t) ids)
  | CCountKeys ids n =>
      bool_decide (size (list_to_set (filter (λ id, id ∈ ids) (keyIDsOf t r)) : gset Z) = n)
  end.

#[export] Instance sample_engine : LabelEngine.
Proof.
  refine {|
    queryKeys := λ t keys, Some (omap (λ k, (λ id, (id, k)) <$> lt_keys t !! k) keys);
    queryLabels := λ t pairs,
      Some (omap (λ '(k, v), (λ id, (id, k, v)) <$> lt_labels t !! (k, v)) pairs);
    holds := sample_holds |};
    try (intros; unfold sample_holds; rewrite ?bool_decide_eq_true, ?Exists_exists; done).
  - intros t keys rows [= <-] id k. rewrite list_elem_of_omap. split.
    + intros (k' & Hk & He).
      destruct (lt_keys t !! k') eqn:E; [|done]. injection He as -> ->. done.
    + intros [Hk Hid]. exists k. by rewrite Hid.
  - intros t pairs rows [= <-] id k v. rewrite list_elem_of_omap. split.
    + intros ([k' v'] & Hk & He).
      destruct (lt_labels t !! (k', v')) eqn:E; [|done]. injection He as -> -> ->. done.
    + intros [Hk Hid]. exists (k, v). by rewrite Hid.
Defined.

Definition sample_tables : LabelTables := {|
  lt_keys := <["app" := 1%Z]> (<["env" := 2%Z]> ∅);
  lt_labels := <[("app", "a") := 10%Z]> (<[("app", "b") := 11%Z]> (<[("env", "p") := 20%Z]> ∅));
  lt_key_of := <[10%Z := 1%Z]> (<[11%Z := 1%Z]> (<[20%Z := 2%Z]> ∅));
  lt_resource := [(1%Z, 10%Z); (1%Z, 20%Z); (2%Z, 11%Z)];
|}.

Lemma sample_schema : schema sample_tables.
Proof.
  split; cbn.
  - intros k1 k2 id. rewrite !lookup_insert_Some, !lookup_empty. naive_solver.
  - intros p1 p2 id. rewrite !lookup_insert_Some, !lookup_empty. naive_solver.
  - intros k v l. rewrite !lookup_insert_Some, lookup_empty.
    intros [[[= <- <-] <-]|[_ [[[= <- <-] <-]|[_ [[[= <- <-] <-]|[_ ?]]]]]]; [..|done];
      eexists; split; reflexivity.
  - intros r l. rewrite !elem_of_cons, elem_of_nil.
    intros [[= -> ->]|[[= -> ->]|[[= -> ->]|?]]]; [..|done].
    + by exists "app", "a".
    + by exists "env", "p".
    + by exists "app", "b".
Qed.

(** [app=a,env notin (q)], and [app=a,app!=b]. *)
Definition sample_filters : LabelFilters :=
  {| Exists_ := []; NotExists := []; Equals := <["app" := "a"]> ∅; NotEquals := ∅; In_ := ∅;
     NotIn := <["env" := ["q"]]> ∅ |}.
Definition sample_conflict : LabelFilters :=
  {| Exists_ := []; NotExists := []; Equals := <["app" := "a"]> ∅; NotEquals := <["app" := "b"]> ∅;
     In_ := ∅; NotIn := ∅ |}.

Lemma sample_valid lf : lf = sample_filters ∨ lf = sample_conflict → valid lf.
Proof.
  assert (valid_keys (∅ : gmap string string) ∧ valid_keys (∅ : gmap string (list string))) as [H1 H2].
  { split; intros k [x Hx]; done. }
  assert (∀ A (k : string) (x : A), free_of "="%char k → valid_keys (<[k := x]> ∅)) as H3.
  { intros A k x Hk k' [y Hy]. apply lookup_insert_Some in Hy as [[-> _]|[_ Hy]]; done. }
  intros [-> | ->]; split; try done; by apply H3.
Qed.

Lemma ApplyLabelFilters_correct_witness :
  kubernetesSelects sample_tables 1 sample_filters ∧
  ¬ (kubernetesSelects sample_tables 2 sample_filters ∧
     (∀ k, is_Some (NotIn sample_filters !! k) → hasKey sample_tables 2 k) ∧
     (∀ k v w, Equals sample_filters !! k = Some v → NotEquals sample_filters !! k = Some w → v = w)).
Proof.
  pose proof (λ r, ApplyLabelFilters_correct sample_tables sample_filters
    [CHasLabel 10; CCountKeys [2%Z] 1] r sample_schema (sample_valid _ (or_introl eq_refl))) as Hc.
  assert (ApplyLabelFilters sample_tables sample_filters =
    Some [CHasLabel 10; CCountKeys [2%Z] 1]) as Ha by (vm_compute; reflexivity).
  split.
  - apply (Hc 1%Z Ha). apply (bool_decide_unpack _). vm_compute. reflexivity.
  - intros Hs. apply (Hc 2%Z Ha) in Hs. apply (bool_decide_pack _) in Hs. by vm_compute in Hs.
Defined.

Lemma ApplyLabelFilters_conflict_witness : ¬ allHold sample_tables 1 [CFalse].
Proof.
  apply (ApplyLabelFilters_conflict sample_tables sample_conflict [CFalse] "app" "a" "b"
    (sample_valid _ (or_intror eq_refl))); [reflexivity|reflexivity|done|vm_compute; reflexivity].
Defined.

Definition sample_requirements : list Requirement :=
  [{| rq_key := "app"; rq_operator := OpEquals; rq_values := ["a"] |};
   {| rq_key := "env"; rq_operator := OpNotIn; rq_values := ["q"] |}].

Lemma NewLabelFilters_selected_witness :
  ∃ lf, NewLabelFilters sample_requirements = Ok lf ∧
    ∀ t r, selected t r lf ↔ Forall (satisfies t r) sample_requirements.
Proof.
  apply NewLabelFilters_selected.
  - repeat constructor.
  - repeat constructor; discriminate.
  - cbn. apply NoDup_cons. split; [|apply NoDup_singleton].
    intros Hin. apply list_elem_of_singleton in Hin. discriminate.
Defined.

Lemma NewLabelFilters_drops_witness :
  let q v := {| rq_key := "app"; rq_operator := OpNotEquals; rq_values := [v] |} in
  NewLabelFilters [q "a"; q "b"] = NewLabelFilters [q "b"].
Proof.
  intros q. refine (proj1 (NewLabelFilters_drops (q "a") (q "b") [] eq_refl eq_refl _ _ _)).
  - right. left.
  - discriminate.
  - discriminate.
Defined.
