(* ===== verification/Pagination.v ===== *)
(** * [cmd/api/pagination], [pkg/database/sql/reader.go]: pages of resources

    A list request is limited; the last resource of a page becomes a token that
    the next request carries, and the query then asks for the resources after it.
    PostgreSQL is a parameter: its answer to a query of the file. *)
From S2P Require Import Prelude GoLib GoStrings LabelSql.

(** ** [time], [encoding/base64] *)

(** A time as Go has it: an instant and the zone it is shown in; [TimeParse] and
    [TimeFormat] are those of the layout RFC 3339, [TimeParseNano] that of its
    variant.  [EncodeToString] is the inverse of [DecodeString]. *)
Class GoText := {
  Time : Type;
  Instant : Time → Z;
  TimeParse : string → option Time;
  TimeParseNano : string → option Time;
  TimeFormat : Time → string;
  EncodeToString : string → string;
  DecodeString : string → option string;
  Decode_Encode s : DecodeString (EncodeToString s) = Some s;
  Encode_nonempty s : s ≠ "" → EncodeToString s ≠ "";
}.

Section pagination.
  Context `{GT : !GoText}.

(** ** [pagination.go] *)

Definition defaultLimit : string := "100".
Definition maxAllowedLimit : Z := 1000.
Definition minAllowedLimit : Z := 1.

Inductive PaginationError := ErrBadLimit | ErrBadContinue.

Definition CreateToken (uuid : Z) (date : string) : string :=
  let quote := String (Ascii.ascii_of_nat 34) EmptyString in
  let date := TrimSuffix (TrimPrefix date quote) quote in
  if String.eqb date "" && (uuid =? 0)%Z then ""
  else EncodeToString (FormatInt uuid +:+ String " "%char date).

(** What the middleware sets in the context. *)
Record PageValues := { pv_limit : Z; pv_id : string; pv_date : string }.

(** The identifier and the date of a token, empty without one. *)
Definition parseToken (continueToken : string) : option (string * string) :=
  if String.eqb continueToken "" then Some ("", "")
  else
    match DecodeString continueToken with
    | None => None
    | Some continueBytes =>
        match Split " "%char continueBytes with
        | [continueId; continueDate] =>
            match ParseInt continueId, TimeParse continueDate with
            | Some _, Some continueTimestamp => Some (continueId, TimeFormat continueTimestamp)
            | _, _ => None
            end
        | _ => None
        end
    end.

(** [Middleware]; [None] for a query without [limit]. *)
Definition Middleware (limit : option string) (continueToken : string)
    : outcome PaginationError PageValues :=
  match ParseInt (default defaultLimit limit) with
  | None => Err ErrBadLimit
  | Some limitInteger =>
      if (maxAllowedLimit <? limitInteger)%Z then Err ErrBadLimit
      else if (limitInteger <? minAllowedLimit)%Z then Err ErrBadLimit
      else
        match parseToken continueToken with
        | None => Err ErrBadContinue
        | Some (id, date) => Ok {| pv_limit := limitInteger; pv_id := id; pv_date := date |}
        end
  end.

(** ** [models.go], [reader.go] *)

Record Resource := { Date : string; Id : Z; Uuid : string; Data : string }.

(** The conditions of a query, in the order they are added. *)
Inductive Where :=
| KindApiVersionFilter (kind apiVersion : string)
| NamespaceFilter (namespace : string)
| NameFilter (name : string)
| NameWildcardFilter (pattern : string)
| CreationTSAndIDFilter (continueDate continueId : string)
| CreationTimestampAfterFilter (timestamp : string)
| CreationTimestampBeforeFilter (timestamp : string)
| LabelFilter (c : Cond)
| UuidFilter (uuid : string).

(** A select: [sel_sorted] when it orders by creation time and id, descending. *)
Record Select := { sel_where : list Where; sel_sorted : bool; sel_limit : option Z }.

(** The arguments of [QueryResources] and [StreamResources]. *)
Record QueryArgs := {
  qa_kind : string; qa_apiVersion : string; qa_namespace : string; qa_name : string;
  qa_continueId : string; qa_continueDate : string; qa_labelFilters : option LabelFilters;
  qa_after : option Time; qa_before : option Time; qa_limit : Z;
}.

(** What precedes the filters of a list. *)
Definition baseFilters (a : QueryArgs) : list Where :=
  [KindApiVersionFilter (qa_kind a) (qa_apiVersion a)] ++
  (if nonempty (qa_namespace a) then [NamespaceFilter (qa_namespace a)] else []) ++
  (if nonempty (qa_name a) then
     if ContainsByte (qa_name a) "*"%char
     then [NameWildcardFilter (ReplaceByte "*"%char "%"%char (qa_name a))]
     else [NameFilter (qa_name a)]
   else []).

Definition tokenFilter (a : QueryArgs) : list Where :=
  if nonempty (qa_continueId a) && nonempty (qa_continueDate a)
  then [CreationTSAndIDFilter (qa_continueDate a) (qa_continueId a)] else [].

Definition timeFilters (a : QueryArgs) : list Where :=
  match qa_after a with Some t => [CreationTimestampAfterFilter (TimeFormat t)] | None => [] end ++
  match qa_before a with Some t => [CreationTimestampBeforeFilter (TimeFormat t)] | None => [] end.

Definition isList (a : QueryArgs) : bool :=
  negb (nonempty (qa_name a)) || ContainsByte (qa_name a) "*"%char.

(** [buildResourceListQuery]: an error of the label queries is [Err]; a nil
    [labelFilters] is dereferenced. *)
Definition buildResourceListQuery `{!LabelEngine} (t : LabelTables) (a : QueryArgs)
    : outcome unit Select :=
  if isList a then
    match qa_labelFilters a with
    | None => Panic
    | Some lf =>
        labels ← (if IsEmpty lf then Ok []
                  else match ApplyLabelFilters t lf with
                       | Some cs => Ok (LabelFilter <$> cs)
                       | None => Err tt
                       end);
        Ok {| sel_where := baseFilters a ++ tokenFilter a ++ timeFilters a ++ labels;
              sel_sorted := true; sel_limit := Some (qa_limit a) |}
    end
  else Ok {| sel_where := baseFilters a; sel_sorted := false; sel_limit := None |}.
End pagination.

(** ** The engine *)

(** The order of the sorter and of the token: by creation time, a text compared in
    the collation of the database, then by id. *)
Class Collation := {
  text_lt : string → string → Prop;
  text_lt_irrefl s : ¬ text_lt s s;
  text_lt_trans a b c : text_lt a b → text_lt b c → text_lt a c;
}.

Definition before `{!Collation} (a b : Resource) : Prop :=
  text_lt (Date b) (Date a) ∨ Date b = Date a ∧ (Id b < Id a)%Z.

(** The rows of a select, and the error met after them, if any.  A sorted and
    limited select gives the first rows, in order, of those that satisfy its
    conditions; the condition of a token is on the order. *)
Class ResourceEngine `{!Collation} := {
  satisfiesWhere : Resource → Where → Prop;
  runSelect : list Resource → Select → list Resource * option string;
  runSelect_sorted t q n rows : NoDup (Id <$> t) → sel_sorted q = true → sel_limit q = Some n →
    runSelect t q = (rows, None) →
    ∃ all, (∀ r, r ∈ all ↔ r ∈ t ∧ Forall (satisfiesWhere r) (sel_where q)) ∧
      StronglySorted before all ∧ rows = take (Z.to_nat n) all;
  satisfies_token r date id i : ParseInt id = Some i →
    satisfiesWhere r (CreationTSAndIDFilter date id) ↔
    text_lt (Date r) date ∨ Date r = date ∧ (Id r < i)%Z;
}.

(** ** Tokens *)
Section tokens.
  Context `{GT : !GoText}.

(** A date as Kubernetes writes it. *)
Record normalDate (date : string) : Prop := {
  date_nonempty : date ≠ "";
  date_no_space : free_of " "%char date;
  date_no_quotes : let quote := String (Ascii.ascii_of_nat 34) EmptyString in
    HasPrefix date quote = false ∧ HasSuffix date quote = false;
  date_parses : ∃ t, TimeParse date = Some t ∧ TimeFormat t = date;
}.

Lemma CreateToken_normal id date :
  normalDate date → CreateToken id date = EncodeToString (FormatInt id +:+ String " "%char date).
Proof.
  intros Hd. unfold CreateToken, TrimPrefix, TrimSuffix.
  destruct (date_no_quotes date Hd) as [-> Hs]. rewrite Hs.
  case_eqb; [|done]. by destruct (date_nonempty date Hd).
Qed.

Lemma CreateToken_nonempty id date : normalDate date → CreateToken id date ≠ "".
Proof.
  intros Hd. rewrite CreateToken_normal by done. apply Encode_nonempty. intros He.
  apply (f_equal String.length) in He. rewrite string_length_app in He. cbn in He. lia.
Qed.

Lemma parseToken_CreateToken id date :
  normalDate date → int64_ok id → parseToken (CreateToken id date) = Some (FormatInt id, date).
Proof.
  intros Hd Hid. unfold parseToken.
  rewrite (proj2 (String.eqb_neq (CreateToken id date) "")) by (by apply CreateToken_nonempty).
  rewrite CreateToken_normal, Decode_Encode, Split_app by (done || apply FormatInt_no_space).
  rewrite Split_free by apply (date_no_space date Hd).
  destruct (date_parses date Hd) as (t & -> & Hf). by rewrite ParseInt_FormatInt, Hf.
Qed.

(** Pagination: a limit is accepted when it is an integer between 1 and 1000,
    100 when there is none, and the token of a resource gives back its id and its
    date; anything else is refused before any query. *)
Theorem Middleware_spec (limit : option string) (continueToken : string) :
  match Middleware limit continueToken with
  | Ok pv => (1 <= pv_limit pv <= 1000)%Z ∧
      (limit = None → pv_limit pv = 100%Z) ∧
      (∀ s, limit = Some s → ParseInt s = Some (pv_limit pv)) ∧
      (continueToken = "" → pv_id pv = "" ∧ pv_date pv = "") ∧
      (∀ id date, normalDate date → int64_ok id → continueToken = CreateToken id date →
         pv_id pv = FormatInt id ∧ pv_date pv = date)
  | Err ErrBadLimit => ∃ s, limit = Some s ∧
      match ParseInt s with Some n => ¬ (1 <= n <= 1000)%Z | None => True end
  | Err ErrBadContinue => continueToken ≠ "" ∧
      ∀ id date, normalDate date → int64_ok id → continueToken ≠ CreateToken id date
  | Panic => False
  end.
Proof.
  unfold Middleware. destruct (ParseInt (default defaultLimit limit)) as [n|] eqn:En.
  2: { destruct limit as [s|]; [exists s; cbn in En; by rewrite En|].
       by vm_compute in En. }
  destruct (Z.ltb_spec maxAllowedLimit n) as [Hmax|Hmax]; unfold maxAllowedLimit in Hmax.
  { destruct limit as [s|]; [exists s; cbn in En; rewrite En; split; [done|lia]|].
    vm_compute in En. injection En as <-. lia. }
  destruct (Z.ltb_spec n minAllowedLimit) as [Hmin|Hmin]; unfold minAllowedLimit in Hmin.
  { destruct limit as [s|]; [exists s; cbn in En; rewrite En; split; [done|lia]|].
    vm_compute in En. injection En as <-. lia. }
  destruct (parseToken continueToken) as [[id date]|] eqn:Et; cbn [pv_limit pv_id pv_date].
  - split_and!; [lia|lia| | | |].
    + intros ->. vm_compute in En. by injection En as <-.
    + intros s ->. done.
    + intros ->. cbn in Et. by injection Et as <- <-.
    + intros id' date' Hd Hid ->. rewrite parseToken_CreateToken in Et by done.
      by injection Et as <- <-.
  - split; [by intros ->|]. intros id date Hd Hid ->. by rewrite parseToken_CreateToken in Et.
Qed.
End tokens.

(** ** Following the tokens *)
Section walk.
  Context `{GT : !GoText, LE : !LabelEngine, CO : !Collation, RE : !ResourceEngine}.

(** What a list request answers: the resources of the page, and the token of the
    last one when there are more. *)
Definition pageOf (limit : Z) (rows : list Resource) : list Resource * string :=
  let page := take (Z.to_nat limit) rows in
  (page,
   match last page with
   | Some r => if (limit <? Z.of_nat (length rows))%Z then CreateToken (Id r) (Date r) else ""
   | None => ""
   end).

Definition withPage (a : QueryArgs) (id date : string) (limit : Z) : QueryArgs :=
  {| qa_kind := qa_kind a; qa_apiVersion := qa_apiVersion a; qa_namespace := qa_namespace a;
     qa_name := qa_name a; qa_continueId := id; qa_continueDate := date;
     qa_labelFilters := qa_labelFilters a; qa_after := qa_after a; qa_before := qa_before a;
     qa_limit := limit |}.

(** A client that asks page after page until it receives no token, in at most
    [fuel] requests. *)
Fixpoint walk (fuel : nat) (lt : LabelTables) (t : list Resource) (a : QueryArgs) (limit : Z)
    (token : string) : option (list Resource) :=
  match fuel with
  | 0%nat => None
  | S fuel =>
      match parseToken token with
      | None => None
      | Some (id, date) =>
          match buildResourceListQuery lt (withPage a id date (limit + 1)) with
          | Ok q =>
              match runSelect t q with
              | (rows, None) =>
                  let '(page, token) := pageOf limit rows in
                  if String.eqb token "" then Some page
                  else (page ++.) <$> walk fuel lt t a limit token
              | _ => None
              end
          | _ => None
          end
      end
  end.

(** What a list asks, whatever the page. *)
Definition otherFilters (a : QueryArgs) (labels : list Where) : list Where :=
  baseFilters a ++ timeFilters a ++ labels.

Lemma Forall_otherFilters (P : Where → Prop) a labels tok :
  Forall P (baseFilters a ++ tok ++ timeFilters a ++ labels) ↔
  Forall P (otherFilters a labels) ∧ Forall P tok.
Proof. unfold otherFilters. rewrite !Forall_app. tauto. Qed.

#[export] Instance before_trans : Transitive before.
Proof.
  intros x y z [Hxy|[Exy Hxy]] [Hyz|[Eyz Hyz]]; unfold before.
  - left. by eapply text_lt_trans.
  - left. by rewrite Eyz.
  - left. by rewrite <-Exy.
  - right. split; [congruence|lia].
Qed.

Lemma before_irrefl x : ¬ before x x.
Proof. intros [?%text_lt_irrefl|[_ ?]]; [done|lia]. Qed.

#[export] Instance before_antisymm : AntiSymm (=) before.
Proof. intros x y Hxy Hyx. by destruct (before_irrefl x (before_trans _ _ _ Hxy Hyx)). Qed.

Lemma StronglySorted_NoDup l : StronglySorted before l → NoDup l.
Proof.
  induction 1 as [|x l Hl IH Hx]; [apply NoDup_nil_2|]. apply NoDup_cons. split; [|done].
  intros Hin. rewrite Forall_forall in Hx. by apply (before_irrefl x), Hx.
Qed.

Lemma sorted_same l1 l2 :
  StronglySorted before l1 → StronglySorted before l2 → (∀ r, r ∈ l1 ↔ r ∈ l2) → l1 = l2.
Proof.
  intros H1 H2 He. apply (StronglySorted_unique before); [done|done|].
  apply NoDup_Permutation; [by apply StronglySorted_NoDup..|done].
Qed.

(** The rest of a sorted list after one of its elements. *)
Lemma sorted_after l1 x l2 r :
  StronglySorted before (l1 ++ x :: l2) → r ∈ l2 ↔ r ∈ l1 ++ x :: l2 ∧ before x r.
Proof.
  induction l1 as [|y l1 IH]; cbn [app]; intros Hs; apply StronglySorted_inv in Hs as [Hs Hx];
    rewrite Forall_forall in Hx.
  - rewrite elem_of_cons. split; [intros Hr; split; [by right|by apply Hx]|].
    intros [[->|Hr] Hb]; [by apply before_irrefl in Hb|done].
  - rewrite IH by done. rewrite elem_of_cons. split; [intros []; tauto|].
    intros [[->|Hr] Hb]; [|done]. exfalso.
    assert (before y x) as Hyx by (apply Hx; set_solver).
    by apply (before_irrefl x (before_trans _ _ _ Hb Hyx)).
Qed.

Lemma StronglySorted_suffix l1 l2 : StronglySorted before (l1 ++ l2) → StronglySorted before l2.
Proof. induction l1 as [|x l1 IH]; [done|]. by intros [? _]%StronglySorted_inv; apply IH. Qed.

Section table.
  Context (lt : LabelTables) (t : list Resource) (a : QueryArgs) (limit : Z) (lf : LabelFilters)
    (labels : list Where).
  Context (Hids : NoDup (Id <$> t)) (Hlimit : (1 <= limit)%Z) (Hlist : isList a = true).
  Context (Hdates : ∀ r, r ∈ t → normalDate (Date r) ∧ int64_ok (Id r)).
  Context (Hlf : qa_labelFilters a = Some lf).
  Context (Hlabels : (if IsEmpty lf then Ok [] else
    match ApplyLabelFilters lt lf with Some cs => Ok (LabelFilter <$> cs) | None => Err tt end) =
    Ok (E:=unit) labels).
  Context (Hruns : ∀ q, (runSelect t q).2 = None).

Lemma build_page id date :
  buildResourceListQuery lt (withPage a id date (limit + 1)) =
    Ok {| sel_where := baseFilters a ++
            (if nonempty id && nonempty date then [CreationTSAndIDFilter date id] else []) ++
            timeFilters a ++ labels;
          sel_sorted := true; sel_limit := Some (limit + 1)%Z |}.
Proof.
  unfold buildResourceListQuery. change (isList (withPage a id date (limit + 1))) with (isList a).
  rewrite Hlist. change (qa_labelFilters (withPage a id date (limit + 1))) with (qa_labelFilters a).
  rewrite Hlf, Hlabels. done.
Qed.

(** The resources a token leaves to see: all of them, or those after [x]. *)
Definition remaining (x : option Resource) (all : list Resource) : Prop :=
  StronglySorted before all ∧
  ∀ r, r ∈ all ↔ r ∈ t ∧ Forall (satisfiesWhere r) (otherFilters a labels) ∧
    match x with Some x => before x r | None => True end.

Definition tokenOf (x : option Resource) : string :=
  match x with Some x => CreateToken (Id x) (Date x) | None => "" end.

Lemma walk_step x all fuel :
  (∀ y, x = Some y → y ∈ t) → remaining x all →
  walk (S fuel) lt t a limit (tokenOf x) =
    let '(page, token) := pageOf limit all in
    if String.eqb token "" then Some page else (page ++.) <$> walk fuel lt t a limit token.
Proof.
  intros Hx [Hs Hall]. cbn [walk].
  assert (∃ id date, parseToken (tokenOf x) = Some (id, date) ∧
    ∀ r, Forall (satisfiesWhere r)
        (if nonempty id && nonempty date then [CreationTSAndIDFilter date id] else []) ↔
      match x with Some x => before x r | None => True end) as (id & date & -> & Htok).
  { destruct x as [y|]; cbn [tokenOf].
    - destruct (Hdates y (Hx y eq_refl)) as [Hd Hi].
      exists (FormatInt (Id y)), (Date y). split; [by apply parseToken_CreateToken|]. intros r.
      assert (nonempty (FormatInt (Id y)) && nonempty (Date y) = true) as ->.
      { unfold nonempty. apply andb_true_iff. split; apply negb_true_iff, String.eqb_neq.
        - intros He. pose proof (ParseInt_FormatInt _ Hi) as Hp. by rewrite He in Hp.
        - apply (date_nonempty _ Hd). }
      rewrite Forall_cons, Forall_nil, (satisfies_token r _ _ (Id y)) by (by apply ParseInt_FormatInt).
      unfold before. split; [intros [[?|[-> ?]] _]; tauto|]. intros [?|[? ?]]; tauto.
    - exists "", "". split; [done|]. intros r. cbn. rewrite Forall_nil. done. }
  rewrite build_page.
  match goal with |- context [runSelect t ?q] => set (q0 := q) end.
  destruct (runSelect t q0) as [rows err] eqn:Er.
  pose proof (Hruns q0) as Herr. rewrite Er in Herr. cbn in Herr. subst err.
  destruct (runSelect_sorted t q0 (limit + 1) rows Hids eq_refl eq_refl Er) as (all' & Hall' & Hs' & ->).
  assert (all' = all) as ->.
  { apply sorted_same; [done|done|]. intros r. rewrite Hall', Hall. subst q0. cbn [sel_where].
    rewrite Forall_otherFilters, Htok. tauto. }
  assert (pageOf limit (take (Z.to_nat (limit + 1)) all) = pageOf limit all) as ->; [|done].
  unfold pageOf. rewrite take_take. replace (Z.to_nat limit `min` Z.to_nat (limit + 1))%nat
    with (Z.to_nat limit) by lia. f_equal. destruct (last _); [|done]. rewrite length_take.
  destruct (Z.ltb_spec limit (Z.of_nat (length all))), (Z.ltb_spec limit
    (Z.of_nat (Z.to_nat (limit + 1) `min` length all))); (done || lia).
Qed.

Lemma walk_remaining fuel x all :
  (∀ y, x = Some y → y ∈ t) → remaining x all → (length all < fuel)%nat →
  walk fuel lt t a limit (tokenOf x) = Some all.
Proof.
  revert x all; induction fuel as [|fuel IH]; intros x all Hx Hr Hf; [lia|].
  rewrite walk_step with (all := all) by done. unfold pageOf.
  set (n := Z.to_nat limit). assert (0 < n)%nat as Hn by lia.
  destruct (Z.ltb_spec limit (Z.of_nat (length all))) as [Hmore|Hmore].
  - assert (take n all ++ drop n all = all) as Hsplit by apply take_drop.
    destruct (last (take n all)) as [y|] eqn:Ey.
    2: { apply last_None in Ey. apply (f_equal length) in Ey. rewrite length_take in Ey.
         cbn in Ey. lia. }
    apply last_Some in Ey as [l Hl]. destruct Hr as [Hs Hall].
    assert (all = l ++ y :: drop n all) as Eall.
    { rewrite <-Hsplit at 1. rewrite Hl, <-app_assoc. done. }
    assert (y ∈ t) as Hy by (apply Hall; rewrite Eall; set_solver).
    destruct (Hdates y Hy) as [Hd _].
    rewrite (proj2 (String.eqb_neq (CreateToken (Id y) (Date y)) "")) by (by apply CreateToken_nonempty).
    change (CreateToken (Id y) (Date y)) with (tokenOf (Some y)).
    rewrite (IH (Some y) (drop n all)); [cbn; by rewrite Hsplit|by intros ? [= <-]| |].
    + split.
      * apply (StronglySorted_suffix (take n all)). by rewrite Hsplit.
      * intros r. rewrite (sorted_after l y (drop n all)) by (by rewrite <-Eall).
        rewrite <-Eall, Hall. split; [tauto|]. intros (Ht & Ho & Hb). split_and!; try done.
        destruct x as [x|]; [|done]. transitivity y; [|done].
        apply (Hall y). rewrite Eall. set_solver.
    + rewrite length_drop. lia.
  - rewrite take_ge by lia. by destruct (last all).
Qed.
End table.

(** C25: a client that follows the tokens receives every resource that satisfies
    the filters of its list exactly once, in the order of the list, in at most one
    request more than there are resources. *)
Theorem walk_complete (lt : LabelTables) (t : list Resource) (a : QueryArgs) (limit : Z)
    (q : Select) (all : list Resource)
    (Hids : NoDup (Id <$> t)) (Hlimit : (1 <= limit)%Z) (Hlist : isList a = true)
    (Hdates : ∀ r, r ∈ t → normalDate (Date r) ∧ int64_ok (Id r))
    (Hruns : ∀ q, (runSelect t q).2 = None)
    (Hq : buildResourceListQuery lt (withPage a "" "" (limit + 1)) = Ok q)
    (Hall : ∀ r, r ∈ all ↔ r ∈ t ∧ Forall (satisfiesWhere r) (sel_where q))
    (Hsorted : StronglySorted before all) :
  ∀ fuel, (length all < fuel)%nat → walk fuel lt t a limit "" = Some all.
Proof.
  intros fuel Hf. assert (Hb := Hq). unfold buildResourceListQuery in Hb.
  change (isList (withPage a "" "" (limit + 1))) with (isList a) in Hb. rewrite Hlist in Hb.
  change (qa_labelFilters (withPage a "" "" (limit + 1))) with (qa_labelFilters a) in Hb.
  destruct (qa_labelFilters a) as [lf|] eqn:Hlf; [|done].
  destruct (if IsEmpty lf then _ else _) as [labels|[]|] eqn:Hlabels; [|done|done].
  assert (sel_where q = baseFilters a ++ [] ++ timeFilters a ++ labels) as Ew
    by (by injection Hb as <-).
  apply (walk_remaining lt t a limit lf labels Hids Hlimit Hlist Hdates Hlf Hlabels Hruns fuel None);
    [done| |done].
  split; [done|]. intros r. rewrite Hall, Ew, Forall_otherFilters, Forall_nil. tauto.
Qed.
End walk.

(** ** A concrete engine, for the witnesses *)

#[export] Instance sample_text : GoText.
Proof.
  refine {| Time := string; Instant := λ _, 0%Z; TimeParse := Some; TimeParseNano := Some;
            TimeFormat := id; EncodeToString := λ s, String "#"%char s;
            DecodeString := λ s, match s with String _ s => Some s | EmptyString => None end |}; done.
Defined.

#[export] Instance sample_collation : Collation.
Proof.
  refine {| text_lt := λ a b, (Compare a b < 0)%Z |}.
  - intros s. rewrite Compare_refl. lia.
  - intros a b c Hab Hbc.
    assert (String.le a c) as Hac.
    { transitivity b; apply Compare_le; lia. }
    apply Compare_le in Hac. assert (Compare a c ≠ 0%Z) as Hne; [|lia].
    intros ->%Compare_eq. rewrite Compare_opp in Hbc. lia.
Defined.

Definition sample_satisfies (r : Resource) (w : Where) : Prop :=
  match w with
  | CreationTSAndIDFilter date id =>
      match ParseInt id with
      | Some i => (Compare (Date r) date < 0)%Z ∨ Date r = date ∧ (Id r < i)%Z
      | None => False
      end
  | UuidFilter uuid => Uuid r = uuid
  | KindApiVersionFilter kind apiVersion =>
      (kind, apiVersion) = if String.eqb (Data r) "deployment" then ("Deployment", "apps/v1") else ("Pod", "v1")
  | NamespaceFilter namespace => namespace = "ns"
  | _ => True
  end.

#[export] Instance sample_satisfies_dec r w : Decision (sample_satisfies r w).
Proof. unfold sample_satisfies. destruct w; try apply _. destruct (ParseInt _); apply _. Defined.

(** [before], or the same place. *)
Definition sample_le (a b : Resource) : Prop :=
  (Compare (Date b) (Date a) < 0)%Z ∨ Date b = Date a ∧ (Id b <= Id a)%Z.

#[export] Instance sample_le_dec : RelDecision sample_le.
Proof. intros a b. unfold sample_le. apply _. Defined.

#[export] Instance sample_le_trans : Transitive sample_le.
Proof.
  intros x y z [Hxy|[Exy Hxy]] [Hyz|[Eyz Hyz]]; unfold sample_le.
  - left. exact (text_lt_trans _ _ _ Hyz Hxy).
  - left. by rewrite Eyz.
  - left. by rewrite <-Exy.
  - right. split; [congruence|lia].
Qed.

#[export] Instance sample_le_total : Total sample_le.
Proof.
  intros x y. unfold sample_le. rewrite (Compare_opp (Date x) (Date y)).
  destruct (Z.lt_trichotomy (Compare (Date x) (Date y)) 0) as [?|[E|?]].
  - right. left. lia.
  - apply Compare_eq in E. destruct (Z.le_ge_cases (Id y) (Id x)); [left; right|right; right]; done.
  - left. left. lia.
Qed.

Definition sample_select (t : list Resource) (q : Select) : list Resource * option string :=
  let sorted :=
    merge_sort sample_le (filter (λ r, Forall (sample_satisfies r) (sel_where q)) t) in
  (match sel_limit q with Some n => take (Z.to_nat n) sorted | None => sorted end, None).

Lemma sample_sorted_strict l :
  NoDup (Id <$> l) → StronglySorted sample_le l → StronglySorted before l.
Proof.
  intros Hnd Hs. induction Hs as [|x l Hl IH Hx]; [constructor|].
  cbn in Hnd. apply NoDup_cons in Hnd as [Hx' Hnd]. constructor; [by apply IH|].
  rewrite Forall_forall in Hx |- *. intros y Hy. destruct (Hx y Hy) as [?|[? ?]]; [by left|].
  right. split; [done|]. assert (Id y ≠ Id x) as Hne; [|lia].
  intros He. apply Hx'. rewrite <-He. by apply list_elem_of_fmap_2.
Qed.

#[export] Instance sample_resource_engine : ResourceEngine.
Proof.
  refine {| satisfiesWhere := sample_satisfies; runSelect := sample_select |}.
  - intros t q n rows Hnd _ Hn. unfold sample_select. rewrite Hn. intros [= <-].
    set (l := filter _ t). exists (merge_sort sample_le l). split_and!; [|apply sample_sorted_strict|done].
    + intros r. rewrite merge_sort_Permutation. unfold l. rewrite list_elem_of_filter. tauto.
    + rewrite merge_sort_Permutation. unfold l.
      apply (sublist_NoDup _ (Id <$> t)); [done|]. apply fmap_sublist, sublist_filter.
    + apply Sorted_StronglySorted; [apply _|]. apply Sorted_merge_sort, _.
  - intros r date id i Hi. unfold sample_satisfies. by rewrite Hi.
Defined.

Definition sample_resources : list Resource :=
  [{| Date := "2024"; Id := 1; Uuid := "a"; Data := "{1}" |};
   {| Date := "2025"; Id := 2; Uuid := "b"; Data := "{2}" |};
   {| Date := "2024"; Id := 3; Uuid := "c"; Data := "{3}" |}].

Definition sample_listed : list Resource :=
  [{| Date := "2025"; Id := 2; Uuid := "b"; Data := "{2}" |};
   {| Date := "2024"; Id := 3; Uuid := "c"; Data := "{3}" |};
   {| Date := "2024"; Id := 1; Uuid := "a"; Data := "{1}" |}].

Definition sample_args : QueryArgs :=
  {| qa_kind := "Pod"; qa_apiVersion := "v1"; qa_namespace := ""; qa_name := "";
     qa_continueId := ""; qa_continueDate := ""; qa_labelFilters := Some noFilters;
     qa_after := None; qa_before := None; qa_limit := 0 |}.

Lemma walk_complete_witness : walk 4 sample_tables sample_resources sample_args 1 "" = Some sample_listed.
Proof.
  apply (walk_complete sample_tables sample_resources sample_args 1
    {| sel_where := [KindApiVersionFilter "Pod" "v1"]; sel_sorted := true; sel_limit := Some 2%Z |}
    sample_listed).
  - apply (bool_decide_unpack _). vm_compute. reflexivity.
  - lia.
  - reflexivity.
  - intros r Hr. assert (normalDate "2024" ∧ normalDate "2025") as [H4 H5].
    { split; (split; [discriminate|reflexivity|split; reflexivity|eexists; split; reflexivity]). }
    unfold sample_resources in Hr. rewrite !elem_of_cons, elem_of_nil in Hr. unfold int64_ok.
    destruct Hr as [->|[->|[->|[]]]]; cbn; (split; [done|lia]).
  - intros q. reflexivity.
  - vm_compute. reflexivity.
  - intros r. cbn [sel_where]. unfold sample_listed, sample_resources.
    rewrite !elem_of_cons, elem_of_nil, Forall_cons, Forall_nil. split; [|tauto].
    intros [->|[->|[->|[]]]]; cbn; auto 8.
  - assert (StronglySorted sample_le sample_listed) as Hs.
    { apply (bool_decide_unpack _). vm_compute. reflexivity. }
    apply sample_sorted_strict; [|exact Hs]. apply (bool_decide_unpack _). vm_compute. reflexivity.
  - cbn. lia.
Defined.
