(* ===== verification/Auth.v ===== *)
(** * [cmd/api]: who may read, and what kind a resource is

    The middlewares that come before a handler of the API server, [auth/authn.go],
    [auth/impersonation.go], [auth/authz.go], [auth/sar.go] and
    [discovery/apiresources.go], share one [pkg/cache].  A request is served at
    one time; what the Kubernetes API answers at that time is a parameter. *)
From S2P Require Import Prelude GoLib.

(** ** [pkg/cache] *)

(** [user.DefaultInfo]. *)
Record UserInfo := {
  usr_Name : string; usr_UID : string; usr_Groups : list string;
  usr_Extra : gmap string (list string);
}.

(** The values of the cache: of type [any], these are the ones stored. *)
Inductive CacheValue := VBool (b : bool) | VKind (kind : string) | VUser (u : UserInfo).

Class Sha256 := { Sum256 : string → string }.

Notation Cache := (gmap string (CacheValue * Z)).

(** [Time.Unix], of a time in nanoseconds. *)
Definition Unix (t : Z) : Z := (t / 1000000000)%Z.

Definition cacheSet `{!Sha256} (now : Z) (key : string) (value : CacheValue) (duration : Z) (c : Cache)
    : Cache := <[Sum256 key := (value, Unix (now + duration))]> c.

Definition cacheGet `{!Sha256} (now : Z) (key : string) (c : Cache) : option CacheValue :=
  match c !! Sum256 key with
  | Some (value, expiration) => if (expiration <? Unix now)%Z then None else Some value
  | None => None
  end.

(** ** The Kubernetes API and the libraries *)

Record ResourceAttributes := {
  ra_Namespace : string; ra_Verb : string; ra_Group : string; ra_Version : string;
  ra_Resource : string; ra_Subresource : string; ra_Name : string;
}.

Record SubjectAccessReviewSpec := { sar_User : UserInfo; sar_Attributes : ResourceAttributes }.

Inductive TokenReviewResult := TRError | TRUnauthenticated | TRAuthenticated (u : UserInfo).

(** The answer to a discovery: an error and its status, a body that is not a list,
    or the names and kinds of the list. *)
Inductive DiscoveryResult :=
| DiscoveryError (status : Z)
| DiscoveryMalformed
| DiscoveryList (resources : list (string * string)).

Class KubeAPI := {
  TokenReview : Z → string → TokenReviewResult;
  SubjectAccessReview : Z → SubjectAccessReviewSpec → option bool;
  Discover : Z → string → DiscoveryResult;
  SpecString : SubjectAccessReviewSpec → string;
  SplitUsername : string → option (string * string);
  MakeGroupNames : string → list string;
  PathUnescape : string → option string;
}.

(** [CacheExpirations]. *)
Record Expirations := { Authorized : Z; Unauthorized : Z }.

(** ** Requests and the context of a request *)

Record ApiRequest := {
  ar_now : Z;
  ar_headers : gmap string (list string);
  ar_path : string;
  ar_group : string; ar_version : string; ar_namespace : string; ar_resourceType : string;
  ar_name : string;
}.

(** [http.Header.Get]. *)
Definition header (r : ApiRequest) (key : string) : string :=
  match ar_headers r !! key with Some (v :: _) => v | _ => "" end.

(** The values of the context the middlewares set, and the status of an abort. *)
Record Context := {
  cx_user : option CacheValue; cx_kind : option CacheValue; cx_aborted : option Z;
}.

Definition newContext : Context := {| cx_user := None; cx_kind := None; cx_aborted := None |}.

Definition abort (status : Z) (cx : Context) : Context :=
  {| cx_user := cx_user cx; cx_kind := cx_kind cx; cx_aborted := Some status |}.
Definition setUser (u : CacheValue) (cx : Context) : Context :=
  {| cx_user := Some u; cx_kind := cx_kind cx; cx_aborted := cx_aborted cx |}.
Definition setKind (k : CacheValue) (cx : Context) : Context :=
  {| cx_user := cx_user cx; cx_kind := Some k; cx_aborted := cx_aborted cx |}.

Section auth.
  Context `{SH : !Sha256, KA : !KubeAPI, MR : !MapRange}.

Definition middleware : Type := ApiRequest → Context * Cache → Context * Cache.

(** ** [authn.go] *)

Definition extractBearerToken (h : string) : option string :=
  if String.eqb h "" then None
  else match Split " "%char h with
       | [_; token] => Some token
       | _ => None
       end.

Definition Authentication (e : Expirations) : middleware := λ r '(cx, c),
  match extractBearerToken (header r "Authorization") with
  | None => (abort 400 cx, c)
  | Some token =>
      match cacheGet (ar_now r) token c with
      | Some (VBool false) => (abort 401 cx, c)
      | Some userInfo => (setUser userInfo cx, c)
      | None =>
          match TokenReview (ar_now r) token with
          | TRError => (abort 500 cx, c)
          | TRUnauthenticated =>
              (abort 401 cx, cacheSet (ar_now r) token (VBool false) (Unauthorized e) c)
          | TRAuthenticated u =>
              (setUser (VUser u) cx, cacheSet (ar_now r) token (VUser u) (Authorized e) c)
          end
      end
  end.

(** ** [sar.go] *)

Inductive SarError := errUnauth | SarFailed.

(** [doSarRequests]: [None] when every review allows. *)
Fixpoint doSarRequests (now : Z) (e : Expirations) (user : UserInfo)
    (attributes : list ResourceAttributes) (c : Cache) : option SarError * Cache :=
  match attributes with
  | [] => (None, c)
  | a :: attributes =>
      let sarSpec := {| sar_User := user; sar_Attributes := a |} in
      match cacheGet now (SpecString sarSpec) c with
      | Some (VBool true) => doSarRequests now e user attributes c
      | Some _ => (Some errUnauth, c)
      | None =>
          match SubjectAccessReview now sarSpec with
          | None => (Some SarFailed, c)
          | Some allowed =>
              let c := cacheSet now (SpecString sarSpec) (VBool allowed) (Authorized e) c in
              if allowed then doSarRequests now e user attributes c
              else (Some errUnauth,
                    cacheSet now (SpecString sarSpec) (VBool allowed) (Unauthorized e) c)
          end
      end
  end.

(** ** [impersonation.go] *)

Definition attribute (namespace verb group resource subresource name : string) : ResourceAttributes :=
  {| ra_Namespace := namespace; ra_Verb := verb; ra_Group := group; ra_Version := "";
     ra_Resource := resource; ra_Subresource := subresource; ra_Name := name |}.

(** The attributes, the user and its namespace when it is a service account. *)
Definition parseUser (r : ApiRequest) : list ResourceAttributes * string * string :=
  let impersonatedUser := header r "Impersonate-User" in
  if String.eqb impersonatedUser "" then ([], "", "")
  else
    match SplitUsername impersonatedUser with
    | Some (namespace, _) =>
        ([attribute namespace "impersonate" "" "serviceaccounts" "" impersonatedUser],
         impersonatedUser, namespace)
    | None => ([attribute "" "impersonate" "" "users" "" impersonatedUser], impersonatedUser, "")
    end.

Definition parseGroups (r : ApiRequest) : list ResourceAttributes * list string :=
  let groups := default [] (ar_headers r !! "Impersonate-Group") in
  ((λ group, attribute "" "impersonate" "" "groups" "" group) <$> groups, groups).

Definition authnGroup : string := "authentication.k8s.io".

Definition parseUID (r : ApiRequest) : list ResourceAttributes * string :=
  let uid := header r "Impersonate-Uid" in
  if String.eqb uid "" then ([], "")
  else ([attribute "" "impersonate" authnGroup "uids" "" uid], uid).

(** The body of the loop of [parseExtras], over the headers. *)
Definition addExtra (acc : list ResourceAttributes * gmap string (list string))
    (h : string * list string) : list ResourceAttributes * gmap string (list string) :=
  let '(atts, extras) := acc in
  let '(headerKey, headerValues) := h in
  if HasPrefix headerKey "Impersonate-Extra-" then
    let encodedKey := TrimPrefix headerKey "Impersonate-Extra-" in
    let key := default encodedKey (PathUnescape encodedKey) in
    (atts ++ ((λ value, attribute "" "impersonate" authnGroup "userextras" key value) <$> headerValues),
     match headerValues with
     | [] => extras
     | _ => <[key := default [] (extras !! key) ++ headerValues]> extras
     end)
  else (atts, extras).

Definition parseExtras (r : ApiRequest) : list ResourceAttributes * gmap string (list string) :=
  foldl addExtra ([], ∅) (range (map_to_list (ar_headers r))).

Inductive ImpersonationError := HeaderRequired | ErrNoImpersonationData.

Definition contains (s : string) (l : list string) : bool := bool_decide (s ∈ l).

Definition newImpersonatedData (r : ApiRequest)
    : outcome ImpersonationError (list ResourceAttributes * UserInfo) :=
  let '(userAtts, impersonatedUser, namespace) := parseUser r in
  let '(groupAtts, groups) := parseGroups r in
  let '(uidAtts, uid) := parseUID r in
  let '(extraAtts, extras) := parseExtras r in
  if String.eqb impersonatedUser "" then
    if (0 <? length groups)%nat || negb (String.eqb uid "") || (0 <? size extras)%nat
    then Err HeaderRequired else Err ErrNoImpersonationData
  else
    let base :=
      if (0 <? length groups)%nat then groups
      else if negb (String.eqb namespace "") then MakeGroupNames namespace else [] in
    let implied :=
      if negb (String.eqb impersonatedUser "system:anonymous")
      then "system:authenticated" else "system:unauthenticated" in
    Ok (userAtts ++ groupAtts ++ uidAtts ++ extraAtts,
        {| usr_Name := impersonatedUser; usr_UID := uid;
           usr_Groups := if contains implied groups then base else base ++ [implied];
           usr_Extra := extras |}).

(** [enabled]: the environment variable of the flag is ["true"]. *)
Definition Impersonation (enabled : bool) (e : Expirations) : middleware := λ r '(cx, c),
  if negb enabled then (cx, c)
  else
    match newImpersonatedData r with
    | Err ErrNoImpersonationData => (cx, c)
    | Err HeaderRequired | Panic => (abort 400 cx, c)
    | Ok (attributes, userInfo) =>
        match cx_user cx with
        | Some (VUser requester) =>
            match doSarRequests (ar_now r) e requester attributes c with
            | (Some _, c) => (abort 401 cx, c)
            | (None, c) => (setUser (VUser userInfo) cx, c)
            end
        | _ => (abort 500 cx, c)
        end
    end.

(** ** [apiresources.go] *)

(** Ten minutes. *)
Definition cacheExpirationTime : Z := (600 * 1000000000)%Z.

Definition getDiscoveryURL (group version : string) : string :=
  if negb (String.eqb group "") then "/apis/" +:+ group +:+ "/" +:+ version
  else "/api/" +:+ version.

Definition GetAPIResource : middleware := λ r '(cx, c),
  match cacheGet (ar_now r) (ar_resourceType r) c with
  | Some kind => (setKind kind cx, c)
  | None =>
      match Discover (ar_now r) (getDiscoveryURL (ar_group r) (ar_version r)) with
      | DiscoveryError status => (abort status cx, c)
      | DiscoveryMalformed => (abort 500 cx, c)
      | DiscoveryList resources =>
          match list_find (λ nk, nk.1 = ar_resourceType r) resources with
          | Some (_, (_, kind)) =>
              (setKind (VKind kind) cx,
               cacheSet (ar_now r) (ar_resourceType r) (VKind kind) cacheExpirationTime c)
          | None => (abort 404 cx, c)
          end
      end
  end.

(** [GetAPIResourceKind]: [GetString] of a value that is not a text is empty. *)
Definition GetAPIResourceKind (cx : Context) : option string :=
  match cx_kind cx with
  | Some (VKind kind) => if String.eqb kind "" then None else Some kind
  | _ => None
  end.

(** ** [authz.go] *)

Definition accessAttributes (r : ApiRequest) : list ResourceAttributes :=
  {| ra_Namespace := ar_namespace r;
     ra_Verb := if negb (String.eqb (ar_name r) "") then "get" else "list";
     ra_Group := ar_group r; ra_Version := ar_version r; ra_Resource := ar_resourceType r;
     ra_Subresource := ""; ra_Name := ar_name r |} ::
  (if HasSuffix (ar_path r) "/log" then
     [{| ra_Namespace := ar_namespace r; ra_Verb := "get"; ra_Group := ""; ra_Version := "v1";
         ra_Resource := "pods/log"; ra_Subresource := ""; ra_Name := "" |}]
   else []).

Definition RBACAuthorization (e : Expirations) : middleware := λ r '(cx, c),
  match cx_user cx with
  | Some (VUser userInfo) =>
      match doSarRequests (ar_now r) e userInfo (accessAttributes r) c with
      | (Some errUnauth, c) => (abort 401 cx, c)
      | (Some SarFailed, c) => (abort 500 cx, c)
      | (None, c) => (cx, c)
      end
  | _ => (abort 500 cx, c)
  end.

(** ** [main.go]: the order of the middlewares *)

(** A middleware runs unless one before it aborted. *)
Definition andThen (s : Context * Cache) (r : ApiRequest) (m : middleware) : Context * Cache :=
  match cx_aborted s.1 with
  | Some _ => s
  | None => m r s
  end.

Definition chain (enabled : bool) (e : Expirations) (r : ApiRequest) (c : Cache) : Context * Cache :=
  foldl (λ s m, andThen s r m) (newContext, c)
    [Authentication e; Impersonation enabled e; GetAPIResource; RBACAuthorization e].

(** The cache after a sequence of requests. *)
Definition serve (enabled : bool) (e : Expirations) (c : Cache) (rs : list ApiRequest) : Cache :=
  foldl (λ c r, (chain enabled e r c).2) c rs.

(** ** What the cache knows *)
Section soundness.
  Context (e : Expirations) (Hauth : (0 <= Authorized e)%Z).

(** A token was found to be of a user at one of the times, not too long ago. *)
Definition authenticated (times : list Z) (now : Z) (token : string) (u : UserInfo) : Prop :=
  ∃ t token', t ∈ times ∧ Sum256 token' = Sum256 token ∧
    TokenReview t token' = TRAuthenticated u ∧ (Unix now <= Unix (t + Authorized e))%Z.

(** An access was allowed at one of the times, not too long ago; what was reviewed
    is the same up to its text and its hash. *)
Definition allowed (times : list Z) (now : Z) (u : UserInfo) (a : ResourceAttributes) : Prop :=
  ∃ t spec, t ∈ times ∧
    Sum256 (SpecString spec) = Sum256 (SpecString {| sar_User := u; sar_Attributes := a |}) ∧
    SubjectAccessReview t spec = Some true ∧ (Unix now <= Unix (t + Authorized e))%Z.

(** Each positive entry of the cache comes from an answer of the API. *)
Definition sound (times : list Z) (c : Cache) : Prop :=
  map_Forall (λ h vx,
    match vx.1 with
    | VUser u => ∃ t token, t ∈ times ∧ Sum256 token = h ∧
        TokenReview t token = TRAuthenticated u ∧ vx.2 = Unix (t + Authorized e)
    | VBool true => ∃ t spec, t ∈ times ∧ Sum256 (SpecString spec) = h ∧
        SubjectAccessReview t spec = Some true ∧ vx.2 = Unix (t + Authorized e)
    | _ => True
    end) c.

Lemma sound_mono times times' c : times ⊆ times' → sound times c → sound times' c.
Proof.
  intros Hsub Hs h [v x] Hc. specialize (Hs h (v, x) Hc). cbn in *.
  destruct v as [[]| |]; try done; destruct Hs as (t & y & Ht & ?); exists t, y; split; auto.
Qed.

Lemma sound_set times now key v d c :
  match v with VUser _ | VBool true => False | _ => True end →
  sound times c → sound times (cacheSet now key v d c).
Proof.
  intros Hv Hs h vx. unfold cacheSet. intros [[<- <-]|[_ Hc]]%lookup_insert_Some; [|by apply Hs].
  cbn. by destruct v as [[]| |].
Qed.

Lemma sound_set_user times now token u c :
  now ∈ times → TokenReview now token = TRAuthenticated u → sound times c →
  sound times (cacheSet now token (VUser u) (Authorized e) c).
Proof.
  intros Hn Ht Hs h vx. unfold cacheSet. intros [[<- <-]|[_ Hc]]%lookup_insert_Some; [|by apply Hs].
  by exists now, token.
Qed.

Lemma sound_set_allowed times now spec c :
  now ∈ times → SubjectAccessReview now spec = Some true → sound times c →
  sound times (cacheSet now (SpecString spec) (VBool true) (Authorized e) c).
Proof.
  intros Hn Ht Hs h vx. unfold cacheSet. intros [[<- <-]|[_ Hc]]%lookup_insert_Some; [|by apply Hs].
  by exists now, spec.
Qed.

Lemma cacheGet_Some now key c v :
  cacheGet now key c = Some v → ∃ x, c !! Sum256 key = Some (v, x) ∧ (Unix now <= x)%Z.
Proof.
  unfold cacheGet. destruct (c !! Sum256 key) as [[v' x]|]; [|done].
  destruct (Z.ltb_spec x (Unix now)); [done|]. intros [= ->]. by exists x.
Qed.

Lemma Unix_mono a b : (a <= b)%Z → (Unix a <= Unix b)%Z.
Proof. intros Hab. by apply Z.div_le_mono. Qed.

Lemma Authentication_sound times r cx c cx' c' :
  ar_now r ∈ times → sound times c → cx_aborted cx = None →
  Authentication e r (cx, c) = (cx', c') →
  sound times c' ∧
  (cx_aborted cx' = None → ∃ token v, extractBearerToken (header r "Authorization") = Some token ∧
     cx_user cx' = Some v ∧ ∀ u, v = VUser u → authenticated times (ar_now r) token u).
Proof.
  intros Hn Hs Hcx. unfold Authentication.
  destruct (extractBearerToken _) as [token|]; [|by intros [= <- <-]].
  destruct (cacheGet (ar_now r) token c) as [v|] eqn:Eg.
  - assert ((if v is VBool false then (abort 401 cx, c) else (setUser v cx, c)) = (cx', c') →
      sound times c' ∧ (cx_aborted cx' = None → cx_user cx' = Some v)) as Hc.
    { destruct v as [[]| |]; intros [= <- <-]; (split; [done|]); done. }
    destruct (cacheGet_Some _ _ _ _ Eg) as (x & Hx & Hle).
    intros He. destruct Hc as [Hs' Hu]; [by destruct v as [[]| |]|]. split; [done|].
    intros Ha. exists token, v. split_and!; [done|by apply Hu|]. intros u ->.
    destruct (Hs _ _ Hx) as (t & token' & Ht & Hh & Hr & Hxe). cbn in Hxe. subst x.
    by exists t, token'.
  - destruct (TokenReview (ar_now r) token) as [| |u] eqn:Et; intros [= <- <-].
    + done.
    + split; [by apply sound_set|done].
    + split; [by apply sound_set_user|]. intros _. exists token, (VUser u). split_and!; try done.
      intros ? [= <-]. exists (ar_now r), token. split_and!; try done. apply Unix_mono. lia.
Qed.

Lemma doSarRequests_sound times now user atts c err c' :
  now ∈ times → sound times c → doSarRequests now e user atts c = (err, c') →
  sound times c' ∧ (err = None → Forall (allowed times now user) atts).
Proof.
  intros Hn. revert c; induction atts as [|a atts IH]; intros c Hs; cbn [doSarRequests].
  { intros [= <- <-]. done. }
  set (spec := {| sar_User := user; sar_Attributes := a |}).
  destruct (cacheGet now (SpecString spec) c) as [v|] eqn:Eg.
  - destruct v as [[]| |]; try (intros [= <- <-]; done).
    intros [Hs' Hf]%IH; [|done]. split; [done|]. intros He. apply Forall_cons. split; [|by apply Hf].
    destruct (cacheGet_Some _ _ _ _ Eg) as (x & Hx & Hle).
    destruct (Hs _ _ Hx) as (t & spec' & Ht & Hh & Hr & Hxe). exists t, spec'.
    cbn in Hxe. subst x. done.
  - destruct (SubjectAccessReview now spec) as [[]|] eqn:Er; try (intros [= <- <-]; done).
    + intros [Hs' Hf]%IH; [|by apply sound_set_allowed]. split; [done|]. intros He.
      apply Forall_cons. split; [|by apply Hf]. exists now, spec. split_and!; try done.
      apply Unix_mono. lia.
    + intros [= <- <-]. split; [|done]. by repeat apply sound_set.
Qed.

(** The user a request acts for, given the one its token is of. *)
Definition effective (enabled : bool) (times : list Z) (r : ApiRequest) (u u' : UserInfo) : Prop :=
  if enabled then
    match newImpersonatedData r with
    | Ok (atts, imp) => u' = imp ∧ Forall (allowed times (ar_now r) u) atts
    | Err ErrNoImpersonationData => u' = u
    | _ => False
    end
  else u' = u.

Lemma Impersonation_sound enabled times r cx c cx' c' :
  ar_now r ∈ times → sound times c → Impersonation enabled e r (cx, c) = (cx', c') →
  sound times c' ∧
  (cx_aborted cx' = None → cx_aborted cx = None ∧ ∀ u', cx_user cx' = Some (VUser u') →
     ∃ u, cx_user cx = Some (VUser u) ∧ effective enabled times r u u').
Proof.
  intros Hn Hs. unfold Impersonation, effective. destruct enabled; cbn [negb].
  2: { intros [= <- <-]. split; [done|]. intros Ha. split; [done|]. intros u' ->. by exists u'. }
  destruct (newImpersonatedData r) as [[atts imp]|[]|]; try (intros [= <- <-]; done).
  - destruct (cx_user cx) as [[]|] eqn:Eu; try (intros [= <- <-]; done).
    destruct (doSarRequests _ _ _ _ _) as [err c''] eqn:Ed.
    destruct (doSarRequests_sound times _ _ _ _ _ _ Hn Hs Ed) as [Hs' Hf].
    destruct err; intros [= <- <-]; (split; [done|]); [done|].
    intros Ha. split; [done|]. intros u' [= <-]. exists u. split; [done|]. split; [done|by apply Hf].
  - intros [= <- <-]. split; [done|]. intros Ha. split; [done|]. intros u' ->. by exists u'.
Qed.

Lemma GetAPIResource_sound times r cx c cx' c' :
  sound times c → GetAPIResource r (cx, c) = (cx', c') →
  sound times c' ∧ cx_user cx' = cx_user cx ∧ (cx_aborted cx' = None → cx_aborted cx = None).
Proof.
  intros Hs. unfold GetAPIResource. destruct (cacheGet _ _ _); [by intros [= <- <-]|].
  destruct (Discover _ _); [by intros [= <- <-]..|].
  destruct (list_find _ _) as [[i [n k]]|]; intros [= <- <-]; [|done].
  split; [by apply sound_set|done].
Qed.

Lemma RBACAuthorization_sound times r cx c cx' c' :
  ar_now r ∈ times → sound times c → RBACAuthorization e r (cx, c) = (cx', c') →
  sound times c' ∧
  (cx_aborted cx' = None → cx_aborted cx = None ∧ ∃ u, cx_user cx = Some (VUser u) ∧
     Forall (allowed times (ar_now r) u) (accessAttributes r)).
Proof.
  intros Hn Hs. unfold RBACAuthorization.
  destruct (cx_user cx) as [[]|] eqn:Eu; try (intros [= <- <-]; done).
  destruct (doSarRequests _ _ _ _ _) as [err c''] eqn:Ed.
  destruct (doSarRequests_sound times _ _ _ _ _ _ Hn Hs Ed) as [Hs' Hf].
  destruct err as [[]|]; intros [= <- <-]; (split; [done|]); [done|done|].
  intros Ha. split; [done|]. exists u. split; [done|by apply Hf].
Qed.

Lemma chain_sound enabled times r c cx' c' :
  ar_now r ∈ times → sound times c → chain enabled e r c = (cx', c') →
  sound times c' ∧
  (cx_aborted cx' = None → ∃ token u u',
     extractBearerToken (header r "Authorization") = Some token ∧
     authenticated times (ar_now r) token u ∧ effective enabled times r u u' ∧
     Forall (allowed times (ar_now r) u') (accessAttributes r)).
Proof.
  intros Hn Hs. unfold chain. cbn [foldl]. unfold andThen at 4. cbn [fst newContext cx_aborted].
  destruct (Authentication e r (newContext, c)) as [cx1 c1] eqn:E1.
  destruct (Authentication_sound times r newContext c cx1 c1 Hn Hs eq_refl E1) as [Hs1 Hu1].
  unfold andThen at 3. cbn [fst]. destruct (cx_aborted cx1) as [s1|] eqn:A1.
  { unfold andThen. cbn [fst]. rewrite A1. cbn [fst]. rewrite A1. intros [= <- <-].
    split; [done|]. by rewrite A1. }
  destruct (Impersonation enabled e r (cx1, c1)) as [cx2 c2] eqn:E2.
  destruct (Impersonation_sound enabled times _ _ _ _ _ Hn Hs1 E2) as [Hs2 Hu2].
  unfold andThen at 2. cbn [fst]. destruct (cx_aborted cx2) as [s2|] eqn:A2.
  { unfold andThen. cbn [fst]. rewrite A2. intros [= <- <-]. split; [done|]. by rewrite A2. }
  destruct (GetAPIResource r (cx2, c2)) as [cx3 c3] eqn:E3.
  destruct (GetAPIResource_sound times _ _ _ _ _ Hs2 E3) as (Hs3 & Hu3 & _).
  unfold andThen. cbn [fst]. destruct (cx_aborted cx3) as [s3|] eqn:A3.
  { intros [= <- <-]. split; [done|]. by rewrite A3. }
  intros E4. destruct (RBACAuthorization_sound times _ _ _ _ _ Hn Hs3 E4) as [Hs4 Hu4].
  split; [done|]. intros A4. destruct (Hu4 A4) as (_ & u' & Eu' & Hall).
  destruct (Hu2 eq_refl) as [_ Himp]. rewrite Hu3 in Eu'. destruct (Himp u' Eu') as (u & Eu & Heff).
  destruct (Hu1 eq_refl) as (token & v & Htok & Ev & Hv). rewrite Eu in Ev. injection Ev as <-.
  exists token, u, u'. split_and!; [done|by apply Hv|done|done].
Qed.

Lemma serve_sound enabled rs : sound (ar_now <$> rs) (serve enabled e ∅ rs).
Proof.
  induction rs as [|r rs IH] using rev_ind; [apply map_Forall_empty|].
  unfold serve. rewrite foldl_snoc. fold (serve enabled e ∅ rs).
  destruct (chain enabled e r (serve enabled e ∅ rs)) as [cx c] eqn:Ec. cbn [snd].
  refine (proj1 (chain_sound enabled _ r _ cx c _ _ Ec)).
  - rewrite fmap_app. set_solver.
  - apply (sound_mono (ar_now <$> rs)); [rewrite fmap_app; set_solver|done].
Qed.
End soundness.

(** Whatever requests came before and filled the shared cache, a request that
    reaches a handler carries a token that a review found to be of a user, that
    user was allowed every impersonation it asks for, and the user it acts for
    every access it needs, each at a time whose expiration has not passed. *)
Theorem chain_authorized (enabled : bool) (e : Expirations) (rs : list ApiRequest) (r : ApiRequest)
    (cx : Context) (c : Cache)
    (Hauth : (0 <= Authorized e)%Z)
    (Hchain : chain enabled e r (serve enabled e ∅ rs) = (cx, c))
    (Hok : cx_aborted cx = None) :
  let times := ar_now <$> (rs ++ [r]) in
  ∃ token u u',
    extractBearerToken (header r "Authorization") = Some token ∧
    authenticated e times (ar_now r) token u ∧ effective e enabled times r u u' ∧
    Forall (allowed e times (ar_now r) u') (accessAttributes r).
Proof.
  intros times. refine (proj2 (chain_sound e Hauth enabled times r _ cx c _ _ Hchain) Hok).
  - unfold times. rewrite fmap_app. set_solver.
  - apply (sound_mono e (ar_now <$> rs)); [unfold times; rewrite fmap_app; set_solver|].
    by apply serve_sound.
Qed.

(** Reviews of accesses leave the keys of other texts alone. *)
Lemma doSarRequests_keeps now e user atts c token :
  (∀ spec, Sum256 (SpecString spec) ≠ Sum256 token) →
  (doSarRequests now e user atts c).2 !! Sum256 token = c !! Sum256 token.
Proof.
  intros Hkeys. revert c; induction atts as [|a atts IH]; intros c; [done|]. cbn [doSarRequests].
  destruct (cacheGet _ _ _) as [[[]| |]|]; [apply IH|done..|].
  destruct (SubjectAccessReview _ _) as [[]|]; cbn [snd]; [rewrite IH| |done];
    unfold cacheSet; by rewrite !lookup_insert_ne by apply Hkeys.
Qed.

Lemma Impersonation_keeps enabled e r cx c cx' c' token :
  (∀ spec, Sum256 (SpecString spec) ≠ Sum256 token) →
  Impersonation enabled e r (cx, c) = (cx', c') → c' !! Sum256 token = c !! Sum256 token.
Proof.
  intros Hkeys. unfold Impersonation. destruct enabled; cbn [negb]; [|by intros [= _ <-]].
  destruct (newImpersonatedData r) as [[atts imp]|[]|]; try (by intros [= _ <-]).
  destruct (cx_user cx) as [[]|]; try (by intros [= _ <-]).
  pose proof (doSarRequests_keeps (ar_now r) e u atts c token Hkeys) as Hd.
  destruct (doSarRequests _ _ _ _ _) as [[]  c'']; intros [= _ <-]; exact Hd.
Qed.

(** The cache is shared: a rejected token that is the name of a resource
    takes the place of the kind of that resource, and until it expires no request
    for the resource gets past its handler's first check, whoever sends it. *)
Theorem token_blocks_resource (enabled : bool) (e : Expirations) (r r' : ApiRequest) (c : Cache)
    (token : string)
    (Htoken : extractBearerToken (header r "Authorization") = Some token)
    (Hnew : cacheGet (ar_now r) token c = None)
    (Hrejected : TokenReview (ar_now r) token = TRUnauthenticated)
    (Hresource : ar_resourceType r' = token)
    (Hlive : (Unix (ar_now r') <= Unix (ar_now r + Unauthorized e))%Z)
    (Hkeys : ∀ spec, Sum256 (SpecString spec) ≠ Sum256 token) :
  let c1 := (chain enabled e r c).2 in
  let cx := (chain enabled e r' c1).1 in
  is_Some (cx_aborted cx) ∨ GetAPIResourceKind cx = None.
Proof.
  intros c1.
  assert (c1 = cacheSet (ar_now r) token (VBool false) (Unauthorized e) c) as ->.
  { unfold c1, chain. cbn [foldl]. unfold andThen at 4. cbn [fst newContext cx_aborted].
    unfold Authentication. by rewrite Htoken, Hnew, Hrejected. }
  set (c2 := cacheSet _ _ _ _ _).
  assert (∀ c', c' !! Sum256 token = c2 !! Sum256 token →
    cacheGet (ar_now r') token c' = Some (VBool false)) as Hget.
  { intros c' Hc'. unfold cacheGet. rewrite Hc'. unfold c2, cacheSet. rewrite lookup_insert_eq.
    by rewrite (proj2 (Z.ltb_ge _ _)). }
  destruct (chain enabled e r' c2) as [cx c5] eqn:Ec. cbn [fst]. revert Ec.
  unfold chain. cbn [foldl]. unfold andThen at 4. cbn [fst newContext cx_aborted].
  destruct (Authentication e r' (newContext, c2)) as [cx1 c3] eqn:E1.
  assert (is_Some (cx_aborted cx1) ∨ c3 !! Sum256 token = c2 !! Sum256 token) as H1.
  { unfold Authentication in E1. destruct (extractBearerToken (header r' _)) as [tok|];
      [|injection E1 as <- _; left; by eexists].
    destruct (decide (Sum256 tok = Sum256 token)) as [Heq|Hne].
    - assert (cacheGet (ar_now r') tok c2 = cacheGet (ar_now r') token c2) as Eg
        by (unfold cacheGet; by rewrite Heq).
      rewrite Eg, (Hget c2 eq_refl) in E1. injection E1 as <- _. left. by eexists.
    - destruct (cacheGet (ar_now r') tok c2) as [[[]| |]|];
        [| | | |destruct (TokenReview (ar_now r') tok)];
        injection E1 as <- <-; try (left; by eexists); right; try done;
        unfold cacheSet; by rewrite lookup_insert_ne. }
  unfold andThen at 3. cbn [fst]. destruct (cx_aborted cx1) as [s1|] eqn:A1.
  { unfold andThen. cbn [fst]. rewrite A1. cbn [fst]. rewrite A1. intros [= <- _]. left.
    rewrite A1. by eexists. }
  destruct H1 as [[? ?]|H1]; [done|].
  destruct (Impersonation enabled e r' (cx1, c3)) as [cx2 c4] eqn:E2.
  assert (c4 !! Sum256 token = c2 !! Sum256 token) as H2.
  { rewrite <-H1. apply (Impersonation_keeps enabled e r' cx1 c3 cx2 c4 token Hkeys E2). }
  unfold andThen at 2. cbn [fst]. destruct (cx_aborted cx2) as [s2|] eqn:A2.
  { unfold andThen. cbn [fst]. rewrite A2. intros [= <- _]. left. rewrite A2. by eexists. }
  assert (GetAPIResource r' (cx2, c4) = (setKind (VBool false) cx2, c4)) as ->
    by (unfold GetAPIResource; by rewrite Hresource, (Hget c4 H2)).
  unfold andThen. cbn [fst setKind cx_aborted]. rewrite A2.
  intros Ec. right. unfold GetAPIResourceKind.
  assert (cx_kind cx = Some (VBool false)) as ->; [|done].
  apply (f_equal (λ s, cx_kind s.1)) in Ec. cbn [fst] in Ec. rewrite <-Ec.
  unfold RBACAuthorization. cbn [setKind cx_user]. destruct (cx_user cx2) as [[]|]; try done.
  by destruct (doSarRequests _ _ _ _ _) as [[[]|] ?].
Qed.
End auth.

(** ** Witnesses *)

#[local] Instance sample_sha : Sha256 := {| Sum256 := λ s, s |}.
#[local] Instance sample_range_id : MapRange := {|
  range := λ A l, l; range_perm := λ A l, Permutation_refl l |}.

Definition sample_user : UserInfo :=
  {| usr_Name := "alice"; usr_UID := "1"; usr_Groups := []; usr_Extra := ∅ |}.

#[local] Instance sample_kube : KubeAPI := {|
  TokenReview := λ _ token,
    if String.eqb token "good" then TRAuthenticated sample_user else TRUnauthenticated;
  SubjectAccessReview := λ _ _, Some true;
  Discover := λ _ _, DiscoveryList [("pods", "Pod")];
  SpecString := λ spec, "&" +:+ usr_Name (sar_User spec) +:+ ra_Verb (sar_Attributes spec);
  SplitUsername := λ _, None;
  MakeGroupNames := λ _, [];
  PathUnescape := Some;
|}.

Definition sample_expirations : Expirations :=
  {| Authorized := 60000000000; Unauthorized := 60000000000 |}.

Definition sample_headers (token : string) : gmap string (list string) :=
  <["Authorization" := ["Bearer " +:+ token]]> ∅.

Definition sample_get (token : string) : ApiRequest :=
  {| ar_now := 1000000000; ar_headers := sample_headers token; ar_path := "/api/v1/pods";
     ar_group := ""; ar_version := "v1"; ar_namespace := ""; ar_resourceType := "pods";
     ar_name := "" |}.

Lemma chain_authorized_witness :
  (chain false sample_expirations (sample_get "good") ∅).1 =
    {| cx_user := Some (VUser sample_user); cx_kind := Some (VKind "Pod"); cx_aborted := None |} ∧
  ∃ token u u',
    extractBearerToken (header (sample_get "good") "Authorization") = Some token ∧
    authenticated sample_expirations [1000000000%Z] 1000000000 token u ∧
    effective sample_expirations false [1000000000%Z] (sample_get "good") u u' ∧
    Forall (allowed sample_expirations [1000000000%Z] 1000000000 u')
      (accessAttributes (sample_get "good")).
Proof.
  destruct (chain false sample_expirations (sample_get "good") ∅) as [cx c] eqn:Ec.
  assert (cx = {| cx_user := Some (VUser sample_user); cx_kind := Some (VKind "Pod");
                  cx_aborted := None |}) as ->.
  { apply (f_equal fst) in Ec. vm_compute in Ec. by rewrite <-Ec. }
  split; [done|].
  refine (chain_authorized false sample_expirations [] (sample_get "good") _ c _ Ec eq_refl).
  cbn. lia.
Defined.

Lemma token_blocks_resource_witness :
  let c1 := (chain false sample_expirations (sample_get "pods") ∅).2 in
  let cx := (chain false sample_expirations (sample_get "good") c1).1 in
  is_Some (cx_aborted cx) ∨ GetAPIResourceKind cx = None.
Proof.
  apply (token_blocks_resource false sample_expirations (sample_get "pods") (sample_get "good") ∅ "pods").
  - reflexivity.
  - reflexivity.
  - reflexivity.
  - reflexivity.
  - vm_compute. discriminate.
  - intros spec. cbn [Sum256 sample_sha SpecString sample_kube]. rewrite string_app_cons. discriminate.
Defined.
