(* ===== verification/ApiRouter.v ===== *)
(** * [cmd/api/routers]: answering a list of resources

    [GetResources] after the middlewares: its checks, the answer for a name and the
    streamed answer for a list.  What is written to the client is a value; an
    answer keeps the first status it is given, and later writes are appended. *)
From S2P Require Import Prelude GoLib GoStrings LabelSql Pagination.

(** ** Libraries *)

(** The errors the handler answers with; their JSON text is the library's. *)
Inductive ApiError :=
| KindNotFound | WildcardInPath | BothNames | BadSelector (e : string)
| UnsupportedLabelFilter (op : Operator) | GroupNotFound | BadTimestamp (param value : string)
| BadTimeRange | DatabaseError (e : string) | LabelQueryError | ResourceNotFound
| MoreThanOneResource.

Class ApiLib := {
  MessageJSON : ApiError → string;
  ParseSelector : string → string + list Requirement;
}.

(** ** Answers *)

Record Reply := { rp_status : option Z; rp_body : string }.

Definition emptyReply : Reply := {| rp_status := None; rp_body := "" |}.

Definition emit (status : Z) (s : string) (rp : Reply) : Reply :=
  {| rp_status := Some (default status (rp_status rp)); rp_body := rp_body rp +:+ s |}.

(** ** A request, after the middlewares *)
Record ListRequest := {
  lr_kind : option string;
  lr_limit : Z; lr_id : string; lr_date : string;
  lr_path : string;
  lr_group : string; lr_version : string; lr_namespace : string; lr_name : string;
  lr_queryName : string; lr_labelSelector : string; lr_after : string; lr_before : string;
}.

(** Single quotes of a text stand for double ones. *)
Definition quoted (s : string) : string := ReplaceByte "'"%char (Ascii.ascii_of_nat 34) s.

Definition listHeader : string := quoted "{'kind': 'List', 'apiVersion': 'v1', 'items': [".

Definition listFooter (continueToken : string) : string :=
  quoted "], 'metadata': {'continue': '" +:+ continueToken +:+ quoted "'}}".

Section router.
  Context `{GT : !GoText, LE : !LabelEngine, CO : !Collation, RE : !ResourceEngine, AL : !ApiLib}.

(** [abort.Abort]. *)
Definition abortWith (status : Z) (err : ApiError) (rp : Reply) : Reply :=
  emit status (MessageJSON err) rp.

(** [parseTimestampQuery]; [None] is the error. *)
Definition parseTimestampQuery (value : string) : option (option Time) :=
  if String.eqb value "" then Some None
  else match TimeParse value with
       | Some timestamp => Some (Some timestamp)
       | None => match TimeParseNano value with
                 | Some timestamp => Some (Some timestamp)
                 | None => None
                 end
       end.

(** ** The database calls *)

(** [QueryResources]. *)
Definition QueryResources (lt : LabelTables) (t : list Resource) (a : QueryArgs)
    : outcome ApiError (list Resource) :=
  match buildResourceListQuery lt a with
  | Panic => Panic
  | Err _ => Err LabelQueryError
  | Ok q => match runSelect t q with
            | (rows, None) => Ok rows
            | (_, Some e) => Err (DatabaseError e)
            end
  end.

(** [StreamResources]: the rows the callback is called with, and the error. *)
Definition StreamResources (lt : LabelTables) (t : list Resource) (a : QueryArgs)
    : outcome Empty_set (list Resource * option ApiError) :=
  match buildResourceListQuery lt a with
  | Panic => Panic
  | Err _ => Ok ([], Some LabelQueryError)
  | Ok q => let '(rows, err) := runSelect t q in Ok (rows, DatabaseError <$> err)
  end.

(** ** The callback of the stream *)

(** The variables the callback assigns. *)
Record StreamState := {
  ss_count : Z; ss_lastWritten : Resource; ss_hasMore : bool; ss_headerWritten : bool;
  ss_reply : Reply;
}.

Definition zeroResource : Resource := {| Date := ""; Id := 0; Uuid := ""; Data := "" |}.

Definition streamStart (rp : Reply) : StreamState :=
  {| ss_count := 0; ss_lastWritten := zeroResource; ss_hasMore := false;
     ss_headerWritten := false; ss_reply := rp |}.

Definition onResource (limit : Z) (st : StreamState) (resource : Resource) : StreamState :=
  let count := (ss_count st + 1)%Z in
  if (limit <? count)%Z then
    {| ss_count := count; ss_lastWritten := ss_lastWritten st; ss_hasMore := true;
       ss_headerWritten := ss_headerWritten st; ss_reply := ss_reply st |}
  else
    let before := if ss_headerWritten st then "," else listHeader in
    {| ss_count := count; ss_lastWritten := resource; ss_hasMore := ss_hasMore st;
       ss_headerWritten := true;
       ss_reply := emit 200 (Data resource) (emit 200 before (ss_reply st)) |}.

(** The end of [GetResources] for a list. *)
Definition streamList (lt : LabelTables) (t : list Resource) (limit : Z) (a : QueryArgs) (rp : Reply)
    : outcome Empty_set Reply :=
  match StreamResources lt t a with
  | Panic => Panic
  | Err e => Err e
  | Ok (rows, err) =>
      let st := foldl (onResource limit) (streamStart rp) rows in
      match err with
      | Some err =>
          if ss_headerWritten st then Ok (ss_reply st)
          else Ok (abortWith 500 err (ss_reply st))
      | None =>
          let rp := if ss_headerWritten st then ss_reply st
                    else emit 200 listHeader (ss_reply st) in
          let continueToken :=
            if ss_hasMore st
            then CreateToken (Id (ss_lastWritten st)) (Date (ss_lastWritten st)) else "" in
          Ok (emit 200 (listFooter continueToken) rp)
      end
  end.

(** The end of [GetResources] for a name. *)
Definition getByName (lt : LabelTables) (t : list Resource) (a : QueryArgs) (rp : Reply)
    : outcome Empty_set Reply :=
  match QueryResources lt t a with
  | Panic => Panic
  | Err err => Ok (abortWith 500 err rp)
  | Ok [] => Ok (abortWith 404 ResourceNotFound rp)
  | Ok [resource] => Ok (emit 200 (Data resource) rp)
  | Ok (_ :: _ :: _) => Ok (abortWith 500 MoreThanOneResource rp)
  end.

(** The arguments of the database call. *)
Definition queryArgs (r : ListRequest) (kind name : string) (labelFilters : option LabelFilters)
    (after before : option Time) (limit : Z) : QueryArgs :=
  {| qa_kind := kind;
     qa_apiVersion :=
       if negb (String.eqb (lr_group r) "") then lr_group r +:+ "/" +:+ lr_version r
       else lr_version r;
     qa_namespace := lr_namespace r; qa_name := name;
     qa_continueId := lr_id r; qa_continueDate := lr_date r; qa_labelFilters := labelFilters;
     qa_after := after; qa_before := before; qa_limit := limit |}.

(** [GetResources] once the label filters are made; [rp] is what was already
    written. *)
Definition afterSelector (lt : LabelTables) (t : list Resource) (r : ListRequest) (kind name : string)
    (labelFilters : option LabelFilters) (rp : Reply) : outcome Empty_set Reply :=
  if HasPrefix (lr_path r) "/apis/" && String.eqb (lr_group r) "" then
    Ok (abortWith 404 GroupNotFound rp)
  else
    match parseTimestampQuery (lr_after r) with
    | None => Ok (abortWith 400 (BadTimestamp "creationTimestampAfter" (lr_after r)) rp)
    | Some after =>
        match parseTimestampQuery (lr_before r) with
        | None => Ok (abortWith 400 (BadTimestamp "creationTimestampBefore" (lr_before r)) rp)
        | Some before =>
            let badRange :=
              match after, before with
              | Some a, Some b => (Instant b <=? Instant a)%Z
              | _, _ => false
              end in
            if badRange then Ok (abortWith 400 BadTimeRange rp)
            else
              let args := queryArgs r kind name labelFilters after before in
              if negb (String.eqb name "") && negb (ContainsByte name "*"%char)
              then getByName lt t (args 2%Z) rp
              else streamList lt t (lr_limit r) (args (lr_limit r + 1)%Z) rp
        end
    end.

(** [GetResources].  When a requirement is not supported the answer is given but
    the handler goes on, with nil filters. *)
Definition GetResources (lt : LabelTables) (t : list Resource) (r : ListRequest)
    : outcome Empty_set Reply :=
  let rp := emptyReply in
  match lr_kind r with
  | None => Ok (abortWith 500 KindNotFound rp)
  | Some kind =>
      if negb (String.eqb (lr_name r) "") && ContainsByte (lr_name r) "*"%char then
        Ok (abortWith 400 WildcardInPath rp)
      else if negb (String.eqb (lr_name r) "") && negb (String.eqb (lr_queryName r) "") then
        Ok (abortWith 400 BothNames rp)
      else
        let name := if negb (String.eqb (lr_queryName r) "") then lr_queryName r else lr_name r in
        match ParseSelector (lr_labelSelector r) with
        | inl parserErr => Ok (abortWith 400 (BadSelector parserErr) rp)
        | inr reqs =>
            match NewLabelFilters reqs with
            | Panic => Panic
            | Ok labelFilters => afterSelector lt t r kind name (Some labelFilters) rp
            | Err op =>
                afterSelector lt t r kind name None
                  (abortWith 400 (UnsupportedLabelFilter op) rp)
            end
        end
  end.

(** ** The stream *)

Lemma emit_emit s1 s2 c1 c2 rp : emit c2 s2 (emit c1 s1 rp) = emit c1 (s1 +:+ s2) rp.
Proof. unfold emit. cbn. f_equal. apply string_app_assoc. Qed.

(** The texts of the items of a page, with their commas. *)
Definition itemsText (page : list Resource) : string := Join ","%char (Data <$> page).

Lemma itemsText_snoc page r :
  itemsText (page ++ [r]) =
  (if page is [] then Data r else itemsText page +:+ "," +:+ Data r).
Proof.
  unfold itemsText. induction page as [|x page IH]; [done|]. rewrite <-app_comm_cons, fmap_cons.
  destruct page as [|y page].
  - cbn [app fmap list_fmap]. rewrite Join_cons. done.
  - change (Data <$> (y :: page) ++ [r]) with (Data <$> y :: (page ++ [r])).
    rewrite fmap_cons, Join_cons. rewrite <-fmap_cons, app_comm_cons, IH, !fmap_cons, Join_cons.
    rewrite string_app_assoc, string_app_cons. done.
Qed.

(** The state after some rows, when the limit is not passed, and when it is. *)
Lemma onResource_rows limit rp rows :
  (1 <= limit)%Z →
  let st := foldl (onResource limit) (streamStart rp) rows in
  let page := take (Z.to_nat limit) rows in
  ss_count st = Z.of_nat (length rows) ∧
  ss_hasMore st = (limit <? Z.of_nat (length rows))%Z ∧
  ss_headerWritten st = negb (bool_decide (rows = [])) ∧
  (rows ≠ [] → ss_reply st = emit 200 (listHeader +:+ itemsText page) rp ∧
     last page = Some (ss_lastWritten st)) ∧
  (rows = [] → ss_reply st = rp).
Proof.
  intros Hl. induction rows as [|r rows IH] using rev_ind.
  - cbn. split_and!; try done. symmetry. apply Z.ltb_ge. lia.
  - cbn zeta in *. rewrite foldl_snoc. destruct IH as (Hc & Hm & Hh & Hr & Hn).
    set (st := foldl (onResource limit) (streamStart rp) rows) in *.
    assert (rows ++ [r] ≠ []) as Hne by (by destruct rows).
    rewrite length_app. cbn [length]. unfold onResource. rewrite Hc.
    destruct (Z.ltb_spec limit (Z.of_nat (length rows) + 1)) as [Hlt|Hlt];
      cbn [ss_count ss_hasMore ss_headerWritten ss_reply ss_lastWritten].
    + assert (rows ≠ []) as Hrows by (intros ->; cbn in Hlt; lia).
      rewrite take_app_le by lia. split_and!; [lia| | | |done].
      * symmetry. apply Z.ltb_lt. lia.
      * rewrite Hh. by rewrite !bool_decide_eq_false_2.
      * intros _. by apply Hr.
    + rewrite take_ge by (rewrite length_app; cbn; lia). split_and!; [lia| | | |done].
      * rewrite Hm. transitivity false; [|symmetry]; apply Z.ltb_ge; lia.
      * by rewrite bool_decide_eq_false_2.
      * intros _. split; [|by rewrite last_snoc]. rewrite itemsText_snoc.
        destruct rows as [|x rows]; cbn [bool_decide negb] in *.
        -- rewrite Hh, (Hn eq_refl). rewrite bool_decide_eq_true_2 by done. cbn [negb].
           by rewrite emit_emit.
        -- rewrite Hh, bool_decide_eq_false_2 by done. cbn [negb].
           destruct (Hr ltac:(done)) as [-> _]. rewrite take_ge by lia.
           by rewrite !emit_emit, ?string_app_assoc.
Qed.

(** The answer to a list whose query succeeds is one JSON list: the first
    resources of the query, as many as the limit, in order, and the token of the
    last one when the query had more, which is the page that [walk] follows. *)
Theorem streamList_answers (lt : LabelTables) (t : list Resource) (limit : Z) (a : QueryArgs)
    (q : Select) (rows : list Resource)
    (Hlimit : (1 <= limit)%Z)
    (Hq : buildResourceListQuery lt a = Ok q) (Hrows : runSelect t q = (rows, None)) :
  streamList lt t limit a emptyReply =
    Ok {| rp_status := Some 200%Z;
          rp_body := listHeader +:+ itemsText (pageOf limit rows).1 +:+
                     listFooter (pageOf limit rows).2 |}.
Proof.
  unfold streamList, StreamResources. rewrite Hq, Hrows. cbn [fmap option_fmap option_map].
  destruct (onResource_rows limit emptyReply rows Hlimit) as (_ & Hm & Hh & Hr & Hn).
  set (st := foldl (onResource limit) (streamStart emptyReply) rows) in *.
  rewrite Hm, Hh. unfold pageOf. cbn [fst snd]. destruct rows as [|x rows].
  - rewrite (Hn eq_refl), bool_decide_eq_true_2 by done. cbn [negb].
    rewrite (proj2 (Z.ltb_ge _ _)) by (cbn; lia). rewrite take_nil. cbn [last].
    rewrite emit_emit. done.
  - rewrite bool_decide_eq_false_2 by done. cbn [negb].
    destruct (Hr ltac:(done)) as [-> ->]. rewrite emit_emit, string_app_assoc. done.
Qed.

(** A selector with an operator that is not supported makes the handler
    answer 400 and then go on: a list dereferences nil filters and panics, and a
    name gets the resource appended to the error. *)
Theorem GetResources_unsupported (lt : LabelTables) (t : list Resource) (r : ListRequest)
    (kind : string) (reqs : list Requirement) (op : Operator) (resource : Resource)
    (Hkind : lr_kind r = Some kind) (Hname : lr_name r = "")
    (Hreqs : ParseSelector (lr_labelSelector r) = inr reqs) (Hop : NewLabelFilters reqs = Err op)
    (Hpath : HasPrefix (lr_path r) "/apis/" = false)
    (Hafter : lr_after r = "") (Hbefore : lr_before r = "")
    (Hrun : runSelect t {| sel_where := baseFilters (queryArgs r kind (lr_queryName r) None None None 2);
                           sel_sorted := false; sel_limit := None |} = ([resource], None)) :
  (lr_queryName r = "" ∨ ContainsByte (lr_queryName r) "*"%char = true →
   GetResources lt t r = Panic) ∧
  (lr_queryName r ≠ "" → ContainsByte (lr_queryName r) "*"%char = false →
   GetResources lt t r =
     Ok {| rp_status := Some 400%Z;
           rp_body := MessageJSON (UnsupportedLabelFilter op) +:+ Data resource |}).
Proof.
  unfold GetResources. rewrite Hkind, Hname, Hreqs, Hop. cbn [String.eqb negb andb].
  unfold afterSelector. rewrite Hpath, Hafter, Hbefore. cbn [andb parseTimestampQuery String.eqb].
  split.
  - intros Hq. assert (negb (String.eqb (if negb (String.eqb (lr_queryName r) "")
        then lr_queryName r else "") "") && negb (ContainsByte (if negb (String.eqb (lr_queryName r) "")
        then lr_queryName r else "") "*"%char) = false) as ->.
    { destruct (String.eqb_spec (lr_queryName r) "") as [E|E]; [done|]. cbn.
      destruct Hq as [?| ->]; [done|]. by rewrite andb_false_r. }
    unfold streamList, StreamResources, buildResourceListQuery, isList, nonempty.
    cbn [queryArgs qa_name qa_labelFilters].
    destruct (String.eqb_spec (lr_queryName r) "") as [E|E]; [done|]. cbn [negb].
    destruct Hq as [?| ->]; [done|]. by rewrite orb_true_r.
  - intros Hne Hc. rewrite (proj2 (String.eqb_neq _ _) Hne). cbn [negb].
    rewrite (proj2 (String.eqb_neq _ _) Hne), Hc. cbn [negb andb].
    unfold getByName, QueryResources, buildResourceListQuery.
    assert (isList (queryArgs r kind (lr_queryName r) None None None 2) = false) as ->.
    { unfold isList, nonempty. cbn [queryArgs qa_name].
      by rewrite (proj2 (String.eqb_neq _ _) Hne), Hc. }
    by rewrite Hrun.
Qed.
End router.

(** ** Witnesses *)

#[local] Instance sample_apilib : ApiLib := {|
  MessageJSON := λ _, "error";
  ParseSelector := λ s,
    if String.eqb s "a==b" then inr [{| rq_key := "a"; rq_operator := OpDoubleEquals; rq_values := ["b"] |}]
    else inr [];
|}.

Definition sample_select_all : Select :=
  {| sel_where := [KindApiVersionFilter "Pod" "v1"]; sel_sorted := true; sel_limit := Some 3%Z |}.

Definition sample_args2 : QueryArgs := withPage sample_args "" "" 3.

Lemma streamList_answers_witness :
  streamList sample_tables sample_resources 2 sample_args2 emptyReply =
    Ok {| rp_status := Some 200%Z;
          rp_body := listHeader +:+ itemsText (take 2 sample_listed) +:+ listFooter "#3 2024" |}.
Proof.
  apply (streamList_answers sample_tables sample_resources 2 sample_args2 sample_select_all
    sample_listed); [lia|vm_compute; reflexivity|vm_compute; reflexivity].
Defined.

Definition sample_byname : ListRequest :=
  {| lr_kind := Some "Pod"; lr_limit := 100; lr_id := ""; lr_date := ""; lr_path := "/api/v1/pods";
     lr_group := ""; lr_version := "v1"; lr_namespace := ""; lr_name := ""; lr_queryName := "x";
     lr_labelSelector := "a==b"; lr_after := ""; lr_before := "" |}.

Definition sample_found : Resource := {| Date := "2024"; Id := 1; Uuid := "a"; Data := "{1}" |}.
Definition sample_reqs : list Requirement :=
  [{| rq_key := "a"; rq_operator := OpDoubleEquals; rq_values := ["b"] |}].

Lemma GetResources_unsupported_witness :
  GetResources sample_tables [sample_found] sample_byname =
    Ok {| rp_status := Some 400%Z; rp_body := "error{1}" |}.
Proof.
  assert (ParseSelector (lr_labelSelector sample_byname) = inr sample_reqs) as Hreqs by reflexivity.
  assert (runSelect [sample_found]
    {| sel_where := baseFilters (queryArgs sample_byname "Pod" "x" None None None 2);
       sel_sorted := false; sel_limit := None |} = ([sample_found], None)) as Hrun
    by (vm_compute; reflexivity).
  apply (proj2 (GetResources_unsupported sample_tables [sample_found] sample_byname "Pod" sample_reqs
    OpDoubleEquals sample_found eq_refl eq_refl Hreqs eq_refl eq_refl eq_refl eq_refl Hrun));
    [discriminate|reflexivity].
Defined.
