(* ===== verification/Owned.v ===== *)
(** * [pkg/database/sql/reader.go]: the Pods a resource owns

    To find the logs of a resource that is not a Pod, the reader follows owner
    references from it down to Pods.  The engine answers which resources are owned
    by some of a list of uuids. *)
From S2P Require Import Prelude GoLib.

Record uuidKindDate := { ukd_Uuid : string; ukd_Kind : string; ukd_Date : string }.

#[export] Instance uuidKindDate_eq_dec : EqDecision uuidKindDate.
Proof. solve_decision. Defined.

(** [owns o row]: an owner reference of the resource of [row] has the uid [o].
    The query of [OwnerFilter] gives the rows with such a reference to one of the
    owners, or fails. *)
Class OwnerEngine := {
  owns : string → uuidKindDate → Prop;
  queryOwned : list string → option (list uuidKindDate);
  queryOwned_rows owners rows : queryOwned owners = Some rows →
    ∀ row, row ∈ rows ↔ ∃ o, o ∈ owners ∧ owns o row;
}.

Section owned.
  Context `{OE : !OwnerEngine}.

Definition isPod (row : uuidKindDate) : bool := String.eqb (ukd_Kind row) "Pod".

(** [getOwnedPodsUuids]: the recursion is on the owners found, which nothing
    bounds; [None] when [fuel] queries did not end it, [Err] when a query failed. *)
Fixpoint getOwnedPodsUuids (fuel : nat) (ownersUuids : list string) (podUuids : list uuidKindDate)
    : option (outcome unit (list uuidKindDate)) :=
  match ownersUuids with
  | [] => Some (Ok podUuids)
  | _ =>
      match fuel with
      | 0%nat => None
      | S fuel =>
          match queryOwned ownersUuids with
          | None => Some (Err tt)
          | Some parsedRows =>
              getOwnedPodsUuids fuel
                (ukd_Uuid <$> filter (λ row, isPod row = false) parsedRows)
                (podUuids ++ filter (λ row, isPod row = true) parsedRows)
          end
      end
  end.

(** A Pod below [o]: owned by it, or by a resource that is not a Pod below it. *)
Inductive podBelow (o : string) (pod : uuidKindDate) : Prop :=
| below_owned : owns o pod → isPod pod = true → podBelow o pod
| below_through mid : owns o mid → isPod mid = false → podBelow (ukd_Uuid mid) pod → podBelow o pod.

Lemma podBelow_rows owners rows pod :
  queryOwned owners = Some rows →
  (∃ o, o ∈ owners ∧ podBelow o pod) ↔
  (pod ∈ filter (λ row, isPod row = true) rows) ∨
  (∃ o, o ∈ ukd_Uuid <$> filter (λ row, isPod row = false) rows ∧ podBelow o pod).
Proof.
  intros Hq. pose proof (queryOwned_rows owners rows Hq) as Hrows.
  setoid_rewrite list_elem_of_fmap. setoid_rewrite list_elem_of_filter. setoid_rewrite Hrows. split.
  - intros (o & Ho & [Hown Hp|mid Hown Hp Hb]); [left; eauto|]. right. eauto 10.
  - intros [(Hp & o & Ho & Hown)|(u & (mid & -> & Hp & o & Ho & Hown) & Hb)].
    + exists o. split; [done|]. by apply below_owned.
    + exists o. split; [done|]. by apply (below_through o pod mid).
Qed.

(** C39: when ownership has no cycle and no query fails, the search ends within as many
    queries as the longest chain of owners, and its result is exactly the Pods below the
    owners it started from, after those it was given. *)
Theorem getOwnedPodsUuids_acyclic (depth : string → nat) (k fuel : nat) (owners : list string)
    (pods : list uuidKindDate)
    (Hacyclic : ∀ o row, owns o row → isPod row = false → depth (ukd_Uuid row) < depth o)
    (Hruns : ∀ owners, is_Some (queryOwned owners))
    (Hk : ∀ o, o ∈ owners → depth o < k) (Hfuel : k ≤ fuel) :
  ∃ found, getOwnedPodsUuids fuel owners pods = Some (Ok (pods ++ found)) ∧
    ∀ pod, pod ∈ found ↔ ∃ o, o ∈ owners ∧ podBelow o pod.
Proof.
  revert k owners pods Hk Hfuel; induction fuel as [|fuel IH]; intros k owners pods Hk Hfuel.
  { destruct owners as [|o owners]; [|specialize (Hk o ltac:(by left)); lia].
    exists []. rewrite app_nil_r. split; [done|]. intros pod. split; [by intros ?%not_elem_of_nil|].
    by intros (o & ?%not_elem_of_nil & _). }
  destruct owners as [|o owners].
  { exists []. rewrite app_nil_r. split; [done|]. intros pod. split; [by intros ?%not_elem_of_nil|].
    by intros (o & ?%not_elem_of_nil & _). }
  set (os := o :: owners) in *. cbn [getOwnedPodsUuids]. unfold os at 1.
  destruct (Hruns os) as [rows Hq]. fold os. rewrite Hq.
  destruct (IH (pred k) (ukd_Uuid <$> filter (λ row, isPod row = false) rows)
    (pods ++ filter (λ row, isPod row = true) rows)) as (found & Hf & Hfound).
  - intros u (mid & -> & [Hp Hin]%list_elem_of_filter)%list_elem_of_fmap.
    apply (queryOwned_rows os rows Hq) in Hin as (o' & Ho' & Hown).
    specialize (Hacyclic o' mid Hown Hp). specialize (Hk o' Ho'). lia.
  - assert (o ∈ os) as Ho by (by left). specialize (Hk o Ho). lia.
  - exists (filter (λ row, isPod row = true) rows ++ found). rewrite Hf, <-app_assoc.
    split; [done|]. intros pod. by rewrite elem_of_app, Hfound, (podBelow_rows os rows pod Hq).
Qed.

(** Below a cycle of owners the search never ends, whatever number of queries
    is allowed. *)
Theorem getOwnedPodsUuids_cyclic (cycle : list string) (fuel : nat) (owners : list string)
    (pods : list uuidKindDate) (u : string)
    (Hcycle : ∀ o, o ∈ cycle → ∃ row, owns o row ∧ isPod row = false ∧ ukd_Uuid row ∈ cycle)
    (Hruns : ∀ owners, is_Some (queryOwned owners))
    (Hu : u ∈ owners) (Hin : u ∈ cycle) :
  getOwnedPodsUuids fuel owners pods = None.
Proof.
  revert u owners pods Hu Hin; induction fuel as [|fuel IH]; intros u owners pods Hu Hin;
    destruct owners as [|o owners]; try (by apply not_elem_of_nil in Hu); [done|].
  set (os := o :: owners) in *. cbn [getOwnedPodsUuids]. unfold os at 1. fold os.
  destruct (Hruns os) as [rows Hq]. rewrite Hq.
  destruct (Hcycle u Hin) as (row & Hown & Hp & Hrow). apply (IH (ukd_Uuid row)); [|done].
  apply list_elem_of_fmap. exists row. split; [done|]. apply list_elem_of_filter. split; [done|].
  apply (queryOwned_rows os rows Hq). by exists u.
Qed.

(** Whatever the shape of ownership, a search that ends found exactly the Pods below. *)
Lemma getOwnedPodsUuids_found fuel owners pods found :
  getOwnedPodsUuids fuel owners pods = Some (Ok found) →
  ∀ pod, pod ∈ found ↔ pod ∈ pods ∨ ∃ o, o ∈ owners ∧ podBelow o pod.
Proof.
  revert owners pods; induction fuel as [|fuel IH]; intros owners pods; destruct owners as [|o owners];
    try done; try (intros [= <-] pod; set_solver).
  set (os := o :: owners) in *. cbn [getOwnedPodsUuids]. unfold os at 1. fold os.
  destruct (queryOwned os) as [rows|] eqn:Hq; [|done].
  intros Hf pod. rewrite (IH _ _ Hf), elem_of_app, (podBelow_rows os rows pod Hq). tauto.
Qed.
End owned.

(** ** Witnesses *)

(** Pairs of an owner and a row, the answer being those of the owners. *)
Definition sample_owner_engine (refs : list (string * uuidKindDate)) : OwnerEngine.
Proof.
  refine {| owns := λ o row, (o, row) ∈ refs;
            queryOwned := λ owners, Some (snd <$> filter (λ p, p.1 ∈ owners) refs) |}.
  intros owners rows [= <-] row. rewrite list_elem_of_fmap. setoid_rewrite list_elem_of_filter.
  split.
  - intros ([o row'] & -> & Ho & Hr). by exists o.
  - intros (o & Ho & Hr). by exists (o, row).
Defined.

Definition sample_row (uuid kind : string) : uuidKindDate :=
  {| ukd_Uuid := uuid; ukd_Kind := kind; ukd_Date := "2025" |}.

(** A Deployment, its ReplicaSet and a Pod; two Jobs that own each other. *)
Definition sample_refs : list (string * uuidKindDate) :=
  [("d", sample_row "r" "ReplicaSet"); ("r", sample_row "p" "Pod")].
Definition sample_loop : list (string * uuidKindDate) :=
  [("a", sample_row "b" "Job"); ("b", sample_row "a" "Job")].

Definition sample_depth (o : string) : nat := if String.eqb o "d" then 1%nat else 0%nat.

Lemma getOwnedPodsUuids_acyclic_witness :
  ∃ found, getOwnedPodsUuids (OE := sample_owner_engine sample_refs) 2 ["d"] [] = Some (Ok ([] ++ found)) ∧
    ∀ pod, pod ∈ found ↔ ∃ o, o ∈ ["d"] ∧ podBelow (OE := sample_owner_engine sample_refs) o pod.
Proof.
  apply (getOwnedPodsUuids_acyclic (OE := sample_owner_engine sample_refs) sample_depth 2 2 ["d"] []).
  - intros o row Hown. cbn [owns sample_owner_engine] in Hown. unfold sample_refs in Hown.
    rewrite !elem_of_cons, elem_of_nil in Hown.
    destruct Hown as [[= -> ->]|[[= -> ->]|[]]]; [|done]. intros _. vm_compute. lia.
  - intros owners. eexists. reflexivity.
  - intros o Ho. apply list_elem_of_singleton in Ho as ->. vm_compute. lia.
  - lia.
Defined.

Lemma getOwnedPodsUuids_cyclic_witness :
  getOwnedPodsUuids (OE := sample_owner_engine sample_loop) 7 ["a"] [] = None.
Proof.
  apply (getOwnedPodsUuids_cyclic (OE := sample_owner_engine sample_loop) ["a"; "b"] 7 ["a"] [] "a").
  - intros o Ho. cbn [owns sample_owner_engine]. unfold sample_loop.
    rewrite !elem_of_cons, elem_of_nil in Ho. destruct Ho as [->|[->|[]]].
    + exists (sample_row "b" "Job"). split_and!; [by left|done|right; by left].
    + exists (sample_row "a" "Job"). split_and!; [right; by left|done|by left].
  - intros owners. eexists. reflexivity.
  - by left.
  - by left.
Defined.
