(* ===== verification/RouteType.v ===== *)
(** * [pkg/k8sclient/transport.go]: the route of a request to the cluster

    The client counts its requests by the type of their route, a text made of the
    path.  A route names the group and the resource of the path, but neither the
    namespace nor the object: the number of routes stays low. *)
From S2P Require Import Prelude GoLib GoStrings.

(** [strings.Index]. *)
Fixpoint Index (s sub : string) : option nat :=
  if HasPrefix s sub then Some 0%nat
  else match s with
       | EmptyString => None
       | String _ s => S <$> Index s sub
       end.

(** [path[idx+len(prefix):]] for the first [prefix] in [path]. *)
Definition remaining (path prefix : string) : option string :=
  idx ← Index path prefix; Some (sdrop (idx + String.length prefix) path).

(** ** [extractResourceFromPath] *)
Definition extractResourceFromPath (path prefix : string) : string :=
  match remaining path prefix with
  | Some rest =>
      let parts := Split "/" rest in
      if Contains prefix "namespaces/" then default "" (parts !! 1%nat)
      else default "" (parts !! 0%nat)
  | None => ""
  end.

(** ** [extractGroupAndKind] *)
Definition extractGroupAndKind (path : string) : string * string :=
  match remaining path "/apis/" with
  | Some rest =>
      let parts := Split "/" rest in
      let kindAt := if Contains path "/namespaces/" then 4%nat else 2%nat in
      match parts !! 0%nat, parts !! kindAt with
      | Some group, Some kind => (group, kind)
      | _, _ => ("", "")
      end
  | None => ("", "")
  end.

(** ** [ExtractKubernetesRouteType]

    A step of it that answers nothing is left for the next one. *)
Definition discoveryRoute (path : string) : option string :=
  if String.eqb path "/api" || String.eqb path "/apis" then Some "discovery.api_groups"
  else if String.eqb path "/api/v1" then Some "discovery.core_resources"
  else if HasPrefix path "/apis/" && Nat.eqb (CountByte "/" path) 3 then Some "discovery.group_resources"
  else None.

Definition coreRoute (scope path prefix : string) : option string :=
  let kind := extractResourceFromPath path prefix in
  if nonempty kind then Some (scope +:+ "core." +:+ kind) else None.

Definition groupRoute (scope path : string) : option string :=
  let '(group, kind) := extractGroupAndKind path in
  if nonempty group && nonempty kind then Some (scope +:+ group +:+ "." +:+ kind) else None.

Definition when {A} (b : bool) (o : option A) : option A := if b then o else None.

Definition orElse {A} (o1 o2 : option A) : option A := match o1 with Some a => Some a | None => o2 end.

Definition ExtractKubernetesRouteType (path : string) : string :=
  if Contains path "/api" || Contains path "/apis" then
    default "discovery.other"
      (orElse (discoveryRoute path)
      (orElse (when (Contains path "/api/v1/namespaces/")
                 (coreRoute "namespaced." path "/api/v1/namespaces/"))
      (orElse (when (HasPrefix path "/api/v1/" && negb (Contains path "namespaces"))
                 (coreRoute "cluster." path "/api/v1/"))
      (orElse (when (Contains path "/apis/" && Contains path "/namespaces/") (groupRoute "namespaced." path))
              (when (HasPrefix path "/apis/" && negb (Contains path "/namespaces/"))
                 (groupRoute "cluster." path))))))
  else "unknown".

(** ** Paths as lists of segments *)
Fixpoint slashed (l : list string) : string :=
  match l with
  | [] => ""
  | a :: l => String "/" (a +:+ slashed l)
  end.

(** The path a client of Kubernetes asks for; a group without a name is the core. *)
Definition requestSegments (group version : string) (namespace : option string)
    (kind : string) (name : option string) : list string :=
  (if nonempty group then ["apis"; group; version] else ["api"; version]) ++
  match namespace with Some ns => ["namespaces"; ns] | None => [] end ++
  kind :: match name with Some n => [n] | None => [] end.

Definition requestPath (group version : string) (namespace : option string)
    (kind : string) (name : option string) : string :=
  slashed (requestSegments group version namespace kind name).

(** The route of a resource. *)
Definition routeOf (group : string) (namespace : option string) (kind : string) : string :=
  match namespace with Some _ => "namespaced." | None => "cluster." end +:+
  (if nonempty group then group else "core") +:+ "." +:+ kind.

(** [l] begins with [m], and goes on. *)
Fixpoint startsWith (l m : list string) : bool :=
  match m, l with
  | [], [] => false
  | [], _ :: _ => true
  | b :: m, a :: l => String.eqb a b && startsWith l m
  | _ :: _, [] => false
  end.

Fixpoint hasRun (l m : list string) : bool :=
  startsWith l m || match l with [] => false | _ :: l => hasRun l m end.

Lemma HasPrefix_slash t p : HasPrefix (String "/" t) (String "/" p) = HasPrefix t p.
Proof. by rewrite HasPrefix_cons. Qed.

Lemma HasPrefix_nil t : HasPrefix t "" = true.
Proof. by destruct t. Qed.

Lemma Contains_cons c s sub : Contains (String c s) sub = HasPrefix (String c s) sub || Contains s sub.
Proof. done. Qed.

(** A slash occurs in no segment. *)
Lemma HasPrefix_skip a t b p :
  free_of "/" a → free_of "/" b → t = "" ∨ HasPrefix t "/" = true →
  HasPrefix (a +:+ t) (b +:+ String "/" p) = String.eqb a b && HasPrefix t (String "/" p).
Proof.
  intros Ha Hb Ht. revert b Hb. induction a as [|c a IH]; intros [|d b] Hb; rewrite ?string_app_nil, ?string_app_cons.
  - done.
  - destruct Ht as [->|(t' & ->)%HasPrefix_spec]; [done|]. rewrite string_app_cons, HasPrefix_cons.
    apply free_of_cons in Hb as [Hd _]. by rewrite (proj2 (Ascii.eqb_neq "/" d)) by congruence.
  - apply free_of_cons in Ha as [Hc _]. rewrite HasPrefix_cons. by rewrite (proj2 (Ascii.eqb_neq c "/")).
  - apply free_of_cons in Ha as [Hc Ha], Hb as [Hd Hb]. rewrite HasPrefix_cons. cbn [String.eqb].
    destruct (Ascii.eqb c d); [by apply IH|done].
Qed.

Lemma Contains_skip a t p : free_of "/" a → Contains (a +:+ t) (String "/" p) = Contains t (String "/" p).
Proof.
  induction a as [|c a IH]; [done|]. intros [Hc Ha]%free_of_cons.
  rewrite string_app_cons, Contains_cons, HasPrefix_cons, (proj2 (Ascii.eqb_neq c "/")) by done. by apply IH.
Qed.

Lemma slashed_head l : slashed l = "" ∨ HasPrefix (slashed l) "/" = true.
Proof. destruct l; [by left|right]. cbn [slashed]. by rewrite HasPrefix_cons, HasPrefix_nil. Qed.

Lemma HasPrefix_slashed l m :
  Forall (free_of "/") l → Forall (free_of "/") m → HasPrefix (slashed l) (slashed (m ++ [""])) = startsWith l m.
Proof.
  intros Hl Hm. revert m Hm. induction Hl as [|a l Ha Hl IH]; intros m Hm; destruct Hm as [|b m Hb Hm].
  1-2: done.
  - cbn [app slashed startsWith]. by rewrite HasPrefix_slash, string_app_nil, HasPrefix_nil.
  - cbn [slashed app startsWith]. rewrite HasPrefix_slash, <-(IH m) by done.
    destruct m as [|b' m]; cbn [app slashed]; apply HasPrefix_skip; auto using slashed_head.
Qed.

Lemma Contains_slashed l m :
  Forall (free_of "/") l → Forall (free_of "/") m → Contains (slashed l) (slashed (m ++ [""])) = hasRun l m.
Proof.
  intros Hl Hm. pose proof (HasPrefix_slashed l m Hl Hm) as Hp. revert Hp.
  induction Hl as [|a l Ha Hl IH]; intros Hp.
  - cbn [hasRun]. rewrite <-Hp. cbn [slashed Contains]. done.
  - cbn [hasRun]. rewrite <-Hp. cbn [slashed]. rewrite Contains_cons. f_equal.
    rewrite <-IH by (by apply HasPrefix_slashed).
    destruct m; cbn [app slashed]; by apply Contains_skip.
Qed.

Lemma Split_segments a l : Forall (free_of "/") (a :: l) → Split "/" (a +:+ slashed l) = a :: l.
Proof.
  revert a; induction l as [|b l IH]; intros a Hl; apply Forall_cons in Hl as [Ha Hl]; cbn [slashed].
  - rewrite string_app_nil_r. by apply Split_free.
  - rewrite Split_app by done. by rewrite IH.
Qed.

Lemma CountByte_slashed l : Forall (free_of "/") l → CountByte "/" (slashed l) = length l.
Proof.
  induction 1 as [|a l Ha Hl IH]; [done|]. cbn. f_equal. rewrite <-IH. clear -Ha.
  induction a as [|c a IH]; [done|]. apply free_of_cons in Ha as [Hc Ha].
  rewrite string_app_cons. cbn. rewrite (proj2 (Ascii.eqb_neq c "/")) by done. by apply IH.
Qed.

(** A text without a slash lies within one segment. *)
Lemma HasPrefix_within a t p :
  p ≠ "" → free_of "/" p → HasPrefix (a +:+ String "/" t) p = HasPrefix a p.
Proof.
  intros Hne. revert p Hne. induction a as [|c a IH]; intros [|d p] Hne Hp; try done.
  - apply free_of_cons in Hp as [Hd _]. rewrite string_app_nil, HasPrefix_cons.
    by rewrite (proj2 (Ascii.eqb_neq "/" d)) by congruence.
  - rewrite string_app_cons, !HasPrefix_cons. destruct (Ascii.eqb c d); [|done].
    destruct p as [|e p]; [by rewrite !HasPrefix_nil|]. apply IH; [done|]. by apply free_of_cons in Hp as [_ Hp].
Qed.

Lemma Contains_within a t p :
  p ≠ "" → free_of "/" p → Contains (a +:+ String "/" t) p = Contains a p || Contains t p.
Proof.
  intros Hne Hp. induction a as [|c a IH].
  - rewrite string_app_nil, Contains_cons. change (String "/" t) with ("" +:+ String "/" t) at 1.
    rewrite HasPrefix_within by done. cbn [Contains]. by rewrite orb_false_r.
  - rewrite string_app_cons, !Contains_cons, <-string_app_cons, HasPrefix_within, IH by done. by rewrite orb_assoc.
Qed.

(** ** The route of a request *)

(** The segments of a request: not empty, no slash, not the word that separates. *)
Definition segment (s : string) : Prop := s ≠ "" ∧ free_of "/" s ∧ s ≠ "namespaces".

(** A resource of a cluster, of the core or of a group with a name. *)
Record resourceOk (group version kind : string) : Prop := {
  version_ok : segment version;
  kind_ok : segment kind;
  group_ok : group = "" ∧ version = "v1" ∨ segment group ∧ group ≠ "api";
}.

Definition nameOk (name : option string) : Prop := match name with Some n => free_of "/" n | None => True end.

(** A cluster-wide resource of the core whose path has the word nowhere. *)
Definition coreNameOk (group kind : string) (namespace name : option string) : Prop :=
  group = "" → namespace = None → Contains kind "namespaces" = false ∧ Contains (default "" name) "namespaces" = false.

Lemma requestSegments_free group version namespace kind name :
  resourceOk group version kind → nameOk namespace → nameOk name →
  Forall (free_of "/") (requestSegments group version namespace kind name).
Proof.
  intros [(_ & ? & _) (_ & ? & _) Hg] Hns Hn. unfold requestSegments.
  repeat (apply Forall_app; split); [|destruct namespace|]; repeat constructor; try done.
  - destruct Hg as [[-> _]|[(Hne & ? & _) _]]; [by repeat constructor|].
    unfold nonempty. destruct (String.eqb group ""); by repeat constructor.
  - destruct name; by repeat constructor.
Qed.

Ltac free_segments :=
  repeat match goal with H : Forall _ (_ :: _) |- _ => apply Forall_cons in H as [? H] end;
  repeat apply Forall_cons_2; try apply Forall_nil_2; first [done|assumption].

(** The bytes that are known are compared, the unknown segments are told apart. *)
Ltac eqb_segments :=
  cbn [hasRun startsWith app]; repeat match goal with
  | H : ?a ≠ ?b |- context [String.eqb ?a ?b] => rewrite (proj2 (String.eqb_neq a b) H)
  end; cbn; rewrite ?andb_false_r, ?orb_true_r; cbn.

Lemma nonempty_true s : s ≠ "" → nonempty s = true.
Proof. intros H. unfold nonempty. by rewrite (proj2 (String.eqb_neq s "")). Qed.

(** A segment is followed by at most the name of an object. *)
Definition nameSegment (name : option string) : list string := match name with Some n => [n] | None => [] end.

Lemma remaining_prefix p t : remaining (p +:+ t) p = Some t.
Proof.
  unfold remaining. assert (Index (p +:+ t) p = Some 0%nat) as ->.
  { pose proof (HasPrefix_app p t) as Hp. destruct (p +:+ t); cbn [Index]; by rewrite Hp. }
  cbn. by rewrite sdrop_app.
Qed.

Lemma Contains_prefix p t : Contains (p +:+ t) p = true.
Proof. pose proof (HasPrefix_app p t) as Hp. destruct (p +:+ t); cbn [Contains]; by rewrite Hp. Qed.

Lemma namespaced_core_route ns kind l :
  Forall (free_of "/") (ns :: kind :: l) → kind ≠ "" →
  ExtractKubernetesRouteType (slashed (["api"; "v1"; "namespaces"; ns; kind] ++ l)) = "namespaced.core." +:+ kind.
Proof.
  intros Hf Hk. set (path := slashed _).
  change path with ("/api/v1/namespaces/" +:+ (ns +:+ slashed (kind :: l))). clear path.
  unfold ExtractKubernetesRouteType, coreRoute, extractResourceFromPath.
  rewrite Contains_prefix, remaining_prefix, Split_segments by done.
  cbn. by rewrite nonempty_true.
Qed.

Lemma cluster_core_route kind name :
  segment kind → nameOk name → Contains kind "namespaces" = false → Contains (default "" name) "namespaces" = false →
  ExtractKubernetesRouteType (slashed (["api"; "v1"; kind] ++ nameSegment name)) = "cluster.core." +:+ kind.
Proof.
  intros (Hne & Hf & Hns) Hname Hk Hn. set (l := nameSegment name).
  assert (Forall (free_of "/") (kind :: l)) as Hl by (destruct name; by repeat constructor).
  assert (Contains (slashed (["api"; "v1"; kind] ++ l)) "/api/v1/namespaces/" = false) as Hcore.
  { change "/api/v1/namespaces/" with (slashed (["api"; "v1"; "namespaces"] ++ [""])).
    rewrite Contains_slashed by free_segments. destruct name; by eqb_segments. }
  assert (Contains (slashed (["api"; "v1"; kind] ++ l)) "namespaces" = false) as Hword.
  { change (slashed _) with ("" +:+ String "/" ("api" +:+ String "/" ("v1" +:+ String "/" (kind +:+ slashed l)))).
    rewrite !Contains_within by done. destruct name as [n|]; cbn [slashed l nameSegment default] in *.
    - change (id n) with n in Hn. rewrite Contains_within by done. by rewrite Hk, string_app_nil_r, Hn.
    - by rewrite string_app_nil_r, Hk. }
  change (slashed _) with ("/api/v1/" +:+ (kind +:+ slashed l)) in *.
  unfold ExtractKubernetesRouteType. rewrite Hcore, Hword, HasPrefix_app.
  unfold coreRoute, extractResourceFromPath. rewrite remaining_prefix, Split_segments by done.
  cbn. by rewrite nonempty_true.
Qed.

Lemma groupRoute_segments scope g l k kindAt :
  Forall (free_of "/") (g :: l) → g ≠ "" → k ≠ "" →
  kindAt = (if Contains (slashed ("apis" :: g :: l)) "/namespaces/" then 4%nat else 2%nat) →
  (g :: l) !! kindAt = Some k →
  groupRoute scope (slashed ("apis" :: g :: l)) = Some (scope +:+ g +:+ "." +:+ k).
Proof.
  intros Hf Hg Hk Hat Hl. unfold groupRoute, extractGroupAndKind.
  change (remaining (slashed _) _) with (remaining ("/apis/" +:+ (g +:+ slashed l)) "/apis/").
  rewrite remaining_prefix, Split_segments by done. cbv zeta. rewrite <-Hat, Hl. cbn.
  by rewrite !nonempty_true.
Qed.

(** What is asked first of the path of a group. *)
Lemma group_discovery g l :
  Forall (free_of "/") (g :: l) → length l ≠ 1%nat → discoveryRoute (slashed ("apis" :: g :: l)) = None.
Proof.
  intros Hf Hl. unfold discoveryRoute. rewrite CountByte_slashed by free_segments.
  replace (Nat.eqb _ 3) with false; [by rewrite andb_false_r|].
  symmetry. apply Nat.eqb_neq. cbn. lia.
Qed.

Lemma group_prefixes g l :
  let path := slashed ("apis" :: g :: l) in
  Contains path "/api" || Contains path "/apis" = true ∧ HasPrefix path "/api/v1/" = false ∧
  HasPrefix path "/apis/" = true ∧ Contains path "/apis/" = true.
Proof.
  cbv zeta. change (slashed ("apis" :: g :: l)) with ("/apis/" +:+ (g +:+ slashed l)).
  rewrite HasPrefix_app, Contains_prefix. done.
Qed.

Lemma namespaced_group_route g v ns kind name :
  segment g → segment v → segment kind → free_of "/" ns → nameOk name → g ≠ "api" →
  ExtractKubernetesRouteType (slashed (["apis"; g; v; "namespaces"; ns; kind] ++ nameSegment name)) =
  "namespaced." +:+ g +:+ "." +:+ kind.
Proof.
  intros (Hg & ? & _) (Hv & ? & _) (Hk & ? & _) Hns Hname Hapi. set (l := nameSegment name).
  assert (Forall (free_of "/") l) as Hl by (destruct name; by repeat constructor).
  set (m := v :: "namespaces" :: ns :: kind :: l).
  assert (Forall (free_of "/") (g :: m)) as Hm by (repeat constructor; done).
  assert (Contains (slashed ("apis" :: g :: m)) "/api/v1/namespaces/" = false) as Hcore.
  { change "/api/v1/namespaces/" with (slashed (["api"; "v1"; "namespaces"] ++ [""])).
    rewrite Contains_slashed by free_segments. subst m l. destruct name; by eqb_segments. }
  assert (Contains (slashed ("apis" :: g :: m)) "/namespaces/" = true) as Hword.
  { change "/namespaces/" with (slashed (["namespaces"] ++ [""])).
    rewrite Contains_slashed by free_segments. subst m l. by eqb_segments. }
  change (slashed _) with (slashed ("apis" :: g :: m)).
  destruct (group_prefixes g m) as (Ha & Hb & Hc & Hd).
  unfold ExtractKubernetesRouteType. rewrite Ha, Hb, Hc, Hd, Hcore, Hword, group_discovery by done.
  by rewrite (groupRoute_segments "namespaced." g m kind 4) by (done || by rewrite Hword).
Qed.

Lemma cluster_group_route g v kind name :
  segment g → segment v → segment kind → nameOk name → g ≠ "api" →
  ExtractKubernetesRouteType (slashed (["apis"; g; v; kind] ++ nameSegment name)) =
  "cluster." +:+ g +:+ "." +:+ kind.
Proof.
  intros (Hg & ? & ?) (Hv & ? & ?) (Hk & ? & ?) Hname Hapi. set (l := nameSegment name).
  assert (Forall (free_of "/") l) as Hl by (destruct name; by repeat constructor).
  set (m := v :: kind :: l).
  assert (Forall (free_of "/") (g :: m)) as Hm by (repeat constructor; done).
  assert (Contains (slashed ("apis" :: g :: m)) "/api/v1/namespaces/" = false) as Hcore.
  { change "/api/v1/namespaces/" with (slashed (["api"; "v1"; "namespaces"] ++ [""])).
    rewrite Contains_slashed by free_segments. subst m l. destruct name; by eqb_segments. }
  assert (Contains (slashed ("apis" :: g :: m)) "/namespaces/" = false) as Hword.
  { change "/namespaces/" with (slashed (["namespaces"] ++ [""])).
    rewrite Contains_slashed by free_segments. subst m l. destruct name; by eqb_segments. }
  change (slashed _) with (slashed ("apis" :: g :: m)).
  destruct (group_prefixes g m) as (Ha & Hb & Hc & Hd).
  unfold ExtractKubernetesRouteType. rewrite Ha, Hb, Hc, Hd, Hcore, Hword, group_discovery by done.
  by rewrite (groupRoute_segments "cluster." g m kind 2) by (done || by rewrite Hword).
Qed.

(** The route of a request names its group, its resource and whether it has a
    namespace, and depends neither on the namespace nor on the object. *)
Theorem route_of_request group version namespace kind name :
  resourceOk group version kind → nameOk namespace → nameOk name → coreNameOk group kind namespace name →
  ExtractKubernetesRouteType (requestPath group version namespace kind name) = routeOf group namespace kind.
Proof.
  intros Hr Hns Hn Hc. pose proof (requestSegments_free _ _ _ _ _ Hr Hns Hn) as Hf.
  destruct Hr as [Hv Hk [[-> ->]|[Hg Hapi]]].
  - destruct namespace as [ns|]; [|by destruct (Hc eq_refl eq_refl); apply cluster_core_route].
    unfold requestPath. cbn in Hf |- *. apply namespaced_core_route; [by free_segments|by destruct Hk].
  - unfold requestPath, requestSegments, routeOf. rewrite nonempty_true by by destruct Hg.
    destruct namespace as [ns|]; [by apply namespaced_group_route|by apply cluster_group_route].
Qed.

Lemma route_of_request_witness :
  resourceOk "apps" "v1" "deployments" ∧
  ExtractKubernetesRouteType "/apis/apps/v1/namespaces/production/deployments/web-app" = "namespaced.apps.deployments".
Proof.
  assert (resourceOk "apps" "v1" "deployments") as Hr.
  { split; [done..|]. by right. }
  split; [exact Hr|].
  apply (route_of_request "apps" "v1" (Some "production") "deployments" (Some "web-app") Hr); [done..|].
  by intros [=].
Defined.

(** A namespace itself is taken for a discovery, and so is a node whose name has the word. *)
Theorem namespace_route ns :
  free_of "/" ns → ExtractKubernetesRouteType ("/api/v1/namespaces/" +:+ ns) = "discovery.other".
Proof.
  intros Hns. unfold ExtractKubernetesRouteType, coreRoute, groupRoute, extractResourceFromPath, extractGroupAndKind.
  rewrite Contains_prefix, remaining_prefix, Split_free by done.
  assert (Contains ("/api/v1/namespaces/" +:+ ns) "/apis/" = false) as Hcore.
  { change (_ +:+ ns) with (slashed ["api"; "v1"; "namespaces"] +:+ String "/" ns).
    replace (_ +:+ String "/" ns) with (slashed ["api"; "v1"; "namespaces"; ns])
      by (cbn; by rewrite string_app_nil_r).
    change "/apis/" with (slashed (["apis"] ++ [""])). rewrite Contains_slashed by free_segments.
    by eqb_segments. }
  rewrite Hcore. done.
Qed.
