(* ===== verification/Database.v ===== *)
(** * [pkg/database]: the connection to the database

    The variables of the environment, the connection strings, the attempts to connect,
    and the test of the version of the schema, once per process.  The drivers and the
    library that repeats the attempts are parameters. *)
From S2P Require Import Prelude GoLib GoStrings.

(** ** [env/environment.go] *)

Definition DbKindEnvVar : string := "DATABASE_KIND".
Definition DbNameEnvVar : string := "DATABASE_DB".
Definition DbUserEnvVar : string := "DATABASE_USER".
Definition DbPasswordEnvVar : string := "DATABASE_PASSWORD".
Definition DbHostEnvVar : string := "DATABASE_URL".
Definition DbPortEnvVar : string := "DATABASE_PORT".

Definition DbEnvVars : list string :=
  [DbKindEnvVar; DbNameEnvVar; DbUserEnvVar; DbPasswordEnvVar; DbHostEnvVar; DbPortEnvVar].

(** One variable: the map so far and the names that are not set. *)
Definition readVariable (environ : gmap string string) (st : gmap string string * list string)
    (name : string) : gmap string string * list string :=
  let '(env, missing) := st in
  match environ !! name with
  | Some value => (<[name := value]> env, missing)
  | None => (env, missing ++ [name])
  end.

(** The variables, or the names of those that are not set. *)
Definition NewDatabaseEnvironment (environ : gmap string string)
    : gmap string string + list string :=
  let '(env, missing) := foldl (readVariable environ) (∅, []) DbEnvVars in
  match missing with
  | [] => inl env
  | _ => inr missing
  end.

(** ** [sql/postgresql.go], [sql/mariadb.go]: the creators *)

Inductive DatabaseKind := PostgreSQL | MariaDB.

Definition GetDriverName (k : DatabaseKind) : string :=
  match k with PostgreSQL => "postgres" | MariaDB => "mysql" end.

(** A variable of the map, empty when it is not there. *)
Definition variable (e : gmap string string) (name : string) : string := default "" (e !! name).

Definition GetConnectionString (k : DatabaseKind) (e : gmap string string) : string :=
  match k with
  | PostgreSQL =>
      "user=" +:+ variable e DbUserEnvVar +:+ " password=" +:+ variable e DbPasswordEnvVar +:+
      " dbname=" +:+ variable e DbNameEnvVar +:+ " host=" +:+ variable e DbHostEnvVar +:+
      " port=" +:+ variable e DbPortEnvVar +:+ " sslmode=require"
  | MariaDB =>
      variable e DbUserEnvVar +:+ ":" +:+ variable e DbPasswordEnvVar +:+ "@tcp(" +:+
      variable e DbHostEnvVar +:+ ":" +:+ variable e DbPortEnvVar +:+ ")/" +:+ variable e DbNameEnvVar
  end.

(** ** [sql/connection.go] *)

(** A driver: the error of opening and pinging at an attempt, the error of the metrics,
    and the version in the table of migrations, or the error of the query. *)
Class SqlDriver := {
  OpenPing : string → string → nat → option string;
  RegisterDBStatsMetrics : string → string → option string;
  VersionSelector : string → string → string + string;
}.

(** [retry-go]: the function is called until it succeeds, [n] times at most. *)
Class RetryLib := {
  RetryDo : nat → (nat → option string) → option string;
  RetryDo_succeeds n f : RetryDo n f = None ↔ ∃ k, (k < n)%nat ∧ f k = None;
}.

(** A connection is known by its driver and its string; [inr] is an error. *)
Definition establishConnection `{!SqlDriver, !RetryLib} (driver connectionString : string)
    : (string * string) + string :=
  match RetryDo 10 (OpenPing driver connectionString) with
  | Some e => inr e
  | None =>
      match RegisterDBStatsMetrics driver connectionString with
      | Some e => inr e
      | None => inl (driver, connectionString)
      end
  end.

Record connectionInfo := {
  ci_host : string; ci_port : string; ci_database : string; ci_user : string; ci_sslMode : string;
}.

(** The field of a key; the other keys are ignored. *)
Definition setInfo (info : connectionInfo) (key value : string) : connectionInfo :=
  let pick k old := if String.eqb key k then value else old in
  {| ci_host := pick "host" (ci_host info); ci_port := pick "port" (ci_port info);
     ci_database := pick "dbname" (ci_database info); ci_user := pick "user" (ci_user info);
     ci_sslMode := pick "sslmode" (ci_sslMode info) |}.

Definition readInfo (info : connectionInfo) (part : string) : connectionInfo :=
  match Cut "=" part with
  | (key, Some value) => setInfo info key value
  | (_, None) => info
  end.

Definition orDefault (d s : string) : string := if String.eqb s "" then d else s.

Definition extractConnectionInfo (driver connectionString : string) : connectionInfo :=
  let zero := {| ci_host := ""; ci_port := ""; ci_database := ""; ci_user := ""; ci_sslMode := "" |} in
  let info :=
    if String.eqb driver "postgres" then foldl readInfo zero (Split " " connectionString) else zero in
  {| ci_host := orDefault "unknown" (ci_host info); ci_port := orDefault "default" (ci_port info);
     ci_database := orDefault "unknown" (ci_database info);
     ci_user := orDefault "unknown" (ci_user info);
     ci_sslMode := orDefault "unknown" (ci_sslMode info) |}.

(** ** [database.go] *)

Record SchemaVersionRange := { Min : Z; Max : Z }.

Definition DatabaseSchemaVersions : gmap string SchemaVersionRange :=
  {["postgresql" := {| Min := 10; Max := 13 |}; "mariadb" := {| Min := 1; Max := 1 |}]}.

Definition RegisteredDatabases : gmap string DatabaseKind :=
  {["postgresql" := PostgreSQL; "mariadb" := MariaDB]}.

Inductive DatabaseFailure :=
| EnvironmentIncomplete (missing : list string) | NotRegistered (dbType : string)
| InitFailed (e : string) | VersionQueryFailed (e : string) | NoVersionRange (dbType : string)
| VersionNotInteger (version : string) | VersionOutOfRange (version : Z).

(** A database that is initialised: its kind and its connection. *)
Record Connected := { db_Kind : DatabaseKind; db_Conn : string * string }.

(** The variables of the package. *)
Record DatabaseState := { ds_once : bool; ds_db : option Connected }.

Definition freshDatabase : DatabaseState := {| ds_once := false; ds_db := None |}.

Section database.
  Context `{!SqlDriver, !RetryLib}.

Definition Init (k : DatabaseKind) (e : gmap string string) : Connected + string :=
  match establishConnection (GetDriverName k) (GetConnectionString k e) with
  | inl conn => inl {| db_Kind := k; db_Conn := conn |}
  | inr e => inr e
  end.

Definition QueryDatabaseSchemaVersion (db : Connected) : string + string :=
  VersionSelector (db_Conn db).1 (db_Conn db).2.

(** The test of the version of the schema. *)
Definition checkVersion (dbType : string) (db : Connected) : option DatabaseFailure :=
  match QueryDatabaseSchemaVersion db with
  | inr e => Some (VersionQueryFailed e)
  | inl dbVersion =>
      match DatabaseSchemaVersions !! dbType with
      | None => Some (NoVersionRange dbType)
      | Some versionRange =>
          match ParseInt dbVersion with
          | None => Some (VersionNotInteger dbVersion)
          | Some dbVersionInt =>
              if (dbVersionInt <? Min versionRange)%Z || (Max versionRange <? dbVersionInt)%Z
              then Some (VersionOutOfRange dbVersionInt) else None
          end
      end
  end.

(** The function given to [once.Do]: the value of [db] after it, and the error. *)
Definition initialise (environ : gmap string string) (db : option Connected)
    : option Connected * option DatabaseFailure :=
  match NewDatabaseEnvironment environ with
  | inr missing => (db, Some (EnvironmentIncomplete missing))
  | inl e =>
      let dbType := variable e DbKindEnvVar in
      match RegisteredDatabases !! dbType with
      | None => (db, Some (NotRegistered dbType))
      | Some k =>
          match Init k e with
          | inr err => (db, Some (InitFailed err))
          | inl regDB => (Some regDB, checkVersion dbType regDB)
          end
      end
  end.

(** [newDatabase], [NewReader] and [NewWriter]. *)
Definition newDatabase (environ : gmap string string) (st : DatabaseState)
    : option Connected * option DatabaseFailure * DatabaseState :=
  if ds_once st then (ds_db st, None, st)
  else
    let '(db, err) := initialise environ (ds_db st) in
    (db, err, {| ds_once := true; ds_db := db |}).
End database.

(** ** What is opened *)

Lemma readVariables environ names env missing env' missing' :
  foldl (readVariable environ) (env, missing) names = (env', missing') →
  missing' = missing ++ filter (λ name, environ !! name = None) names ∧
  ∀ k, env' !! k = if decide (k ∈ names ∧ is_Some (environ !! k)) then environ !! k else env !! k.
Proof.
  revert env missing. induction names as [|n names IH]; intros env missing; cbn [foldl readVariable].
  { intros [= <- <-]. rewrite filter_nil, app_nil_r. split; [done|]. intros k.
    rewrite decide_False; [done|]. by intros [[]%not_elem_of_nil _]. }
  destruct (environ !! n) as [v|] eqn:En; intros [Hm He]%IH; rewrite filter_cons, En.
  - rewrite decide_False by done. split; [done|]. intros k. rewrite He. clear He IH.
    destruct (decide (k = n)) as [->|Hne]; [|rewrite lookup_insert_ne by done; do 2 case_decide; set_solver].
    rewrite lookup_insert_eq, En. do 2 case_decide; set_solver.
  - rewrite decide_True by done. rewrite Hm, <-app_assoc. split; [done|]. intros k. rewrite He.
    destruct (decide (k = n)) as [->|Hne]; [|do 2 case_decide; set_solver].
    rewrite En, !decide_False; [done| |]; by intros [_ []].
Qed.

(** The environment is read when every variable is set; the missing ones are named. *)
Lemma NewDatabaseEnvironment_spec environ :
  match NewDatabaseEnvironment environ with
  | inl e => (∀ name, name ∈ DbEnvVars → is_Some (environ !! name)) ∧
             (∀ name, name ∈ DbEnvVars → e !! name = environ !! name)
  | inr missing => missing ≠ [] ∧
      missing = filter (λ name, environ !! name = None) DbEnvVars
  end.
Proof.
  unfold NewDatabaseEnvironment. destruct (foldl _ _ _) as [e missing] eqn:E.
  apply readVariables in E as [Hm He]. cbn [app] in Hm.
  destruct missing as [|m missing]; [|by rewrite <-Hm].
  assert (∀ name, name ∈ DbEnvVars → is_Some (environ !! name)) as Hall.
  { intros name Hin. destruct (environ !! name) eqn:En; [by eexists|].
    assert (name ∈ filter (λ name, environ !! name = None) DbEnvVars) as Hx by (by apply list_elem_of_filter).
    rewrite <-Hm in Hx. by apply not_elem_of_nil in Hx. }
  split; [done|]. intros name Hin. rewrite He, decide_True; [done|]. split; [done|]. by apply Hall.
Qed.

Lemma GetConnectionString_ext k e e' :
  (∀ name, name ∈ DbEnvVars → e !! name = e' !! name) →
  GetConnectionString k e = GetConnectionString k e'.
Proof.
  intros He. unfold GetConnectionString, variable.
  rewrite !He by (by apply (bool_decide_unpack _)). done.
Qed.

(** The tests a database passes before it is used: the variables are all set, the kind is
    known, one of ten attempts connects, and the version of the schema is an integer of
    the range of the kind. *)
Section opened.
  Context `{!SqlDriver, !RetryLib}.

Record opens (environ : gmap string string) (dbType : string) (c : Connected) : Prop := {
  opens_environ name : name ∈ DbEnvVars → is_Some (environ !! name);
  opens_type : environ !! DbKindEnvVar = Some dbType;
  opens_kind : RegisteredDatabases !! dbType = Some (db_Kind c);
  opens_conn : db_Conn c = (GetDriverName (db_Kind c), GetConnectionString (db_Kind c) environ);
  opens_attempt : ∃ attempt, (attempt < 10)%nat ∧ OpenPing (db_Conn c).1 (db_Conn c).2 attempt = None;
  opens_metrics : RegisterDBStatsMetrics (db_Conn c).1 (db_Conn c).2 = None;
}.

Definition versionAccepted (dbType : string) (c : Connected) : Prop :=
  ∃ text v r, QueryDatabaseSchemaVersion c = inl text ∧ ParseInt text = Some v ∧
    DatabaseSchemaVersions !! dbType = Some r ∧ (Min r <= v <= Max r)%Z.

Lemma establishConnection_spec driver text conn :
  establishConnection driver text = inl conn ↔
  conn = (driver, text) ∧ RegisterDBStatsMetrics driver text = None ∧
  ∃ attempt, (attempt < 10)%nat ∧ OpenPing driver text attempt = None.
Proof.
  unfold establishConnection. rewrite <-RetryDo_succeeds.
  destruct (RetryDo 10 _); [by split; [|intros (_ & _ & ?)]|].
  destruct (RegisterDBStatsMetrics _ _); [by split; [|intros (_ & ? & _)]|].
  split; [by intros [= <-]|by intros (-> & _ & _)].
Qed.

Lemma checkVersion_accepts dbType c : checkVersion dbType c = None ↔ versionAccepted dbType c.
Proof.
  unfold checkVersion, versionAccepted. destruct (QueryDatabaseSchemaVersion c) as [text|e].
  2:{ split; [done|]. by intros (? & ? & ? & ? & _). }
  destruct (DatabaseSchemaVersions !! dbType) as [r|].
  2:{ split; [done|]. by intros (? & ? & ? & _ & _ & ? & _). }
  destruct (ParseInt text) as [v|] eqn:Ev.
  2:{ split; [done|]. intros (? & ? & ? & [= <-] & ? & _). congruence. }
  destruct (Z.ltb_spec v (Min r)), (Z.ltb_spec (Max r) v); cbn [orb]; split;
    try done; try (intros (? & ? & ? & [= <-] & ? & [= <-] & ?); simplify_eq; lia).
  intros _. exists text, v, r. auto.
Qed.

Lemma initialise_opens environ c err :
  initialise environ None = (Some c, err) ↔
  ∃ dbType, opens environ dbType c ∧ err = checkVersion dbType c.
Proof.
  unfold initialise. pose proof (NewDatabaseEnvironment_spec environ) as Hspec.
  destruct (NewDatabaseEnvironment environ) as [e|missing].
  2:{ destruct Hspec as [Hne ->]. split; [by intros [=]|]. intros (dbType & Ho & _). exfalso. apply Hne.
      apply filter_none. intros name Hin Hx. apply (opens_environ _ _ _ Ho) in Hin as [v Hv]. congruence. }
  destruct Hspec as [Hall He]. unfold variable. rewrite He by (by apply (bool_decide_unpack _)).
  destruct (Hall DbKindEnvVar) as [dbType Ht]; [by apply (bool_decide_unpack _)|]. rewrite Ht. change (default "" (Some dbType)) with dbType.
  assert (∀ d, opens environ d c → d = dbType) as Huniq by (intros d Ho; pose proof (opens_type _ _ _ Ho); congruence).
  destruct (RegisteredDatabases !! dbType) as [k|] eqn:Ek.
  2:{ split; [by intros [=]|]. intros (d & Ho & _). pose proof (Huniq d Ho) as ->. apply opens_kind in Ho. congruence. }
  unfold Init. rewrite (GetConnectionString_ext k e environ He).
  destruct (establishConnection _ _) as [conn|err'] eqn:Ec.
  - apply establishConnection_spec in Ec as (-> & Hm & Ha). split.
    + intros [= <- <-]. exists dbType. by split; [split|].
    + intros (d & Ho & ->). pose proof (Huniq d Ho) as ->. destruct c as [k' conn]. pose proof (opens_conn _ _ _ Ho) as Hc.
      apply opens_kind in Ho. cbn in *. congruence.
  - split; [by intros [=]|]. intros (d & Ho & _). exfalso. pose proof (Huniq d Ho) as ->.
    assert (db_Kind c = k) as Hk by (apply opens_kind in Ho; congruence).
    pose proof (opens_conn _ _ _ Ho) as Hc. pose proof (opens_metrics _ _ _ Ho) as Hm. pose proof (opens_attempt _ _ _ Ho) as Ha.
    rewrite Hc, Hk in Hm, Ha. cbn in Hm, Ha.
    rewrite (proj2 (establishConnection_spec _ _ _) (conj eq_refl (conj Hm Ha))) in Ec. done.
Qed.

(** The first call gives a database without an error exactly when it passed every test;
    it is then the one later calls give. *)
Theorem newDatabase_opens environ c st :
  newDatabase environ freshDatabase = (Some c, None, st) ↔
  st = {| ds_once := true; ds_db := Some c |} ∧
  ∃ dbType, opens environ dbType c ∧ versionAccepted dbType c.
Proof.
  unfold newDatabase. cbn [ds_once ds_db freshDatabase].
  destruct (initialise environ None) as [db err] eqn:Ei. split.
  - intros [= -> -> <-]. split; [done|]. apply initialise_opens in Ei as (d & Ho & Hv).
    exists d. by rewrite <-checkVersion_accepts.
  - intros (-> & d & Ho & Hv%checkVersion_accepts).
    enough ((db, err) = (Some c, None)) as [= -> ->] by done.
    rewrite <-Ei. apply initialise_opens. by exists d.
Qed.

(** After the first call the others never give an error, whatever the first one gave. *)
Lemma newDatabase_again environ environ' :
  let '(db, _, st) := newDatabase environ freshDatabase in
  newDatabase environ' st = (db, None, st).
Proof.
  unfold newDatabase. cbn [ds_once freshDatabase]. by destruct (initialise _ _) as [db err].
Qed.
End opened.

(** ** What is logged of a connection *)

(** The variables of a connection string, without spaces. *)
Definition plainVariables (e : gmap string string) : Prop :=
  Forall (λ name, free_of " " (variable e name)) DbEnvVars.

Lemma connectionString_parts e :
  plainVariables e →
  Split " " (GetConnectionString PostgreSQL e) =
  ["user=" +:+ variable e DbUserEnvVar; "password=" +:+ variable e DbPasswordEnvVar;
   "dbname=" +:+ variable e DbNameEnvVar; "host=" +:+ variable e DbHostEnvVar;
   "port=" +:+ variable e DbPortEnvVar; "sslmode=require"].
Proof.
  intros Hp. unfold plainVariables in Hp. rewrite Forall_forall in Hp.
  rewrite <-(Split_Join " "); [f_equal; cbn [GetConnectionString Join]; by rewrite ?string_app_assoc|done|].
  repeat constructor; cbn [String.append]; repeat (apply free_of_cons; split; [done|]);
    try (apply Hp; by apply (bool_decide_unpack _)); done.
Qed.

(** What is logged of a PostgreSQL connection is what the variables say, the password
    left out, when no variable holds a space. *)
Theorem extractConnectionInfo_roundtrip e (Hplain : plainVariables e) :
  extractConnectionInfo (GetDriverName PostgreSQL) (GetConnectionString PostgreSQL e) =
  {| ci_host := orDefault "unknown" (variable e DbHostEnvVar);
     ci_port := orDefault "default" (variable e DbPortEnvVar);
     ci_database := orDefault "unknown" (variable e DbNameEnvVar);
     ci_user := orDefault "unknown" (variable e DbUserEnvVar);
     ci_sslMode := "require" |}.
Proof. unfold extractConnectionInfo. by rewrite connectionString_parts. Qed.

(** ** Samples *)

Definition sample_environ : gmap string string :=
  {["DATABASE_KIND" := "postgresql"; "DATABASE_DB" := "kubearchive"; "DATABASE_USER" := "ka";
    "DATABASE_PASSWORD" := "pass=word"; "DATABASE_URL" := "db.example"; "DATABASE_PORT" := "5432"]}.

Lemma extractConnectionInfo_roundtrip_witness :
  extractConnectionInfo "postgres" (GetConnectionString PostgreSQL sample_environ) =
  {| ci_host := "db.example"; ci_port := "5432"; ci_database := "kubearchive"; ci_user := "ka";
     ci_sslMode := "require" |}.
Proof. apply (extractConnectionInfo_roundtrip sample_environ). repeat constructor. Defined.

(** A password with spaces is read as other settings, and a part of it is logged. *)
Lemma password_with_space :
  ci_user (extractConnectionInfo "postgres"
    (GetConnectionString PostgreSQL (<["DATABASE_PASSWORD" := "a user=secret"]> sample_environ))) = "secret".
Proof. vm_compute. reflexivity. Qed.

#[local] Instance sample_retry : RetryLib.
Proof.
  refine {| RetryDo n f := foldr (λ k r, match f k with None => None | Some e => r end) (Some "all attempts fail")
                             (seq 0 n) |}.
  intros n f. transitivity (∃ k, k ∈ seq 0 n ∧ f k = None).
  - induction (seq 0 n) as [|k ks IH]; cbn; [set_solver|].
    destruct (f k) eqn:Ek; [rewrite IH|]; set_solver.
  - apply exist_proper. intros k. rewrite elem_of_seq. naive_solver lia.
Defined.

(** A server that starts at the third attempt, with a version of its schema. *)
Definition sample_driver (version : string) : SqlDriver :=
  {| OpenPing := λ _ _ n, if (n <? 2)%nat then Some "connection refused" else None;
     RegisterDBStatsMetrics := λ _ _, None; VersionSelector := λ _ _, inl version |}.

Definition sample_connected : Connected :=
  {| db_Kind := PostgreSQL; db_Conn := ("postgres", GetConnectionString PostgreSQL sample_environ) |}.

Example sample_opens :
  newDatabase (H := sample_driver "12") sample_environ freshDatabase =
  (Some sample_connected, None, {| ds_once := true; ds_db := Some sample_connected |}).
Proof. vm_compute. reflexivity. Qed.

(** A database whose schema is too old is refused once, and given the next time. *)
Lemma refused_once :
  let '(_, err, st) := newDatabase (H := sample_driver "9") sample_environ freshDatabase in
  err = Some (VersionOutOfRange 9) ∧
  newDatabase (H := sample_driver "9") sample_environ st = (Some sample_connected, None, st).
Proof. vm_compute. by split. Qed.
