(* ===== verification/SqlText.v ===== *)
(** * [pkg/database/sql], [pkg/database/sql/facade]: the text of the queries

    [Pagination] and [LogQuery] have the queries of the reader as values.  Here they
    are the texts the code builds, for both databases: columns, filters and orders
    of [facade], [postgresql.go] and [mariadb.go], put together by [reader.go].  The
    library that builds them is a parameter: a text is a list of pieces, and a value
    it is given becomes a piece that stands for it. *)
From S2P Require Import Prelude GoLib GoStrings LabelSql Pagination Database.

(** ** [go-sqlbuilder] *)

(** A text with placeholders: [Arg i] stands for the [i]-th value. *)
Inductive Piece := Lit (s : string) | Arg (i : nat).
Notation Text := (list Piece).

(** The values the code passes: a text, an integer, [pq.Array], [sqlbuilder.List],
    and a text with placeholders taken for a value. *)
Inductive SqlValue :=
| VString (s : string)
| VInt (z : Z)
| VArray (l : list string)
| VList (l : list string)
| VText (t : Text).

(** The values a builder holds, as a state. *)
Definition Builder (A : Type) : Type := list SqlValue → A * list SqlValue.

#[export] Instance Builder_ret : MRet Builder := λ A a args, (a, args).
#[export] Instance Builder_bind : MBind Builder := λ A B f m args, let '(a, args) := m args in f a args.

Definition places (t : Text) : list nat := omap (λ p, match p with Arg i => Some i | Lit _ => None end) t.

(** A builder that adds values, with a placeholder for each, in order. *)
Definition adds (m : Builder Text) (vs : list SqlValue) : Prop :=
  ∀ args, (m args).2 = args ++ vs ∧ places (m args).1 = seq (length args) (length vs).

(** How many placeholders a value becomes; the text depends on nothing else of it. *)
Definition width (v : SqlValue) : option nat := match v with VList l => Some (length l) | _ => None end.

(** Two builders of the same text: they differ in values only. *)
Definition alike {A} (m m' : Builder A) : Prop :=
  ∀ args args', width <$> args = width <$> args' →
    (m args).1 = (m' args').1 ∧ width <$> (m args).2 = width <$> (m' args').2.

(** [sqlbuilder.SelectBuilder], as far as the code fills it. *)
Record SqlSelect := {
  sq_Select : list string; sq_From : string; sq_Join : list (string * string);
  sq_Where : list Text; sq_OrderByDesc : list string; sq_Limit : option Z; sq_Args : list SqlValue;
}.

(** The values of the placeholders of the conditions, in the order of the text. *)
Definition placed (sb : SqlSelect) (vs : list SqlValue) : Prop :=
  (λ i, sq_Args sb !! i) <$> concat (places <$> sq_Where sb) = Some <$> vs.

Definition sameStructure (sb sb' : SqlSelect) : Prop :=
  sq_Select sb = sq_Select sb' ∧ sq_From sb = sq_From sb' ∧ sq_Join sb = sq_Join sb' ∧
  sq_Where sb = sq_Where sb' ∧ sq_OrderByDesc sb = sq_OrderByDesc sb' ∧ sq_Limit sb = sq_Limit sb' ∧
  width <$> sq_Args sb = width <$> sq_Args sb'.

(** A list of values has a placeholder for each. *)
Definition flatten (v : SqlValue) : list SqlValue :=
  match v with VList l => VString <$> l | _ => [v] end.

(** The library: [Var] and the conditions add their values, and their text does not
    depend on them; a query is built as a text, which its structure determines, and
    the values of its placeholders in order, those of the limit last. *)
Class SqlBuilder := {
  As : string → string → string;
  Var : SqlValue → Builder Text;
  Equal : string → SqlValue → Builder Text;
  Like : string → SqlValue → Builder Text;
  In : string → list SqlValue → Builder Text;
  And : list Text → Text;
  Or : list Text → Text;
  BuildWithFlavor : DatabaseKind → SqlSelect → string * list SqlValue;
  limitValues : option Z → list SqlValue;
  Var_adds v : adds (Var v) [v];
  Equal_adds f v : adds (Equal f v) [v];
  Like_adds f v : adds (Like f v) [v];
  In_adds f vs : adds (In f vs) vs;
  Var_text v v' : width v = width v' → alike (Var v) (Var v');
  Equal_text f v v' : width v = width v' → alike (Equal f v) (Equal f v');
  Like_text f v v' : width v = width v' → alike (Like f v) (Like f v');
  In_text f vs vs' : width <$> vs = width <$> vs' → alike (In f vs) (In f vs');
  And_places ts : places (And ts) = concat (places <$> ts);
  Or_places ts : places (Or ts) = concat (places <$> ts);
  Build_text k sb sb' : sameStructure sb sb' → (BuildWithFlavor k sb).1 = (BuildWithFlavor k sb').1;
  Build_values k sb vs : placed sb vs →
    (BuildWithFlavor k sb).2 = (vs ≫= flatten) ++ limitValues (sq_Limit sb);
}.

(** The layout [2006-01-02 15:04:05]. *)
Class DateTimeLayout `{!GoText} := { TimeFormatDateTime : Time → string }.

Section queries.
  Context `{SB : !SqlBuilder, GT : !GoText, DT : !DateTimeLayout}.

Definition quoted (s : string) : string :=
  let quote := String (Ascii.ascii_of_nat 34) EmptyString in quote +:+ s +:+ quote.

(** [fmt.Sprintf] of a text around another. *)
Definition around (before : string) (t : Text) (after : string) : Text := Lit before :: t ++ [Lit after].

(** ** [facade/selector.go], and the selectors of the databases *)
Definition newSelect (columns : list string) (table : string) : SqlSelect :=
  {| sq_Select := columns; sq_From := table; sq_Join := []; sq_Where := []; sq_OrderByDesc := [];
     sq_Limit := None; sq_Args := [] |}.

Definition UUIDResourceSelector : SqlSelect := newSelect ["uuid"] "resource".

Definition UrlFromResourceSelector : SqlSelect :=
  {| sq_Select := ["log.url"; "log.query"; "log.start"; "log." +:+ quoted "end"];
     sq_From := "log_url log"; sq_Join := [("resource res", "log.uuid = res.uuid")];
     sq_Where := []; sq_OrderByDesc := []; sq_Limit := None; sq_Args := [] |}.

Definition UrlSelector : SqlSelect := newSelect ["url"; "query"; "start"; quoted "end"] "log_url".

Definition VersionSelector : SqlSelect := newSelect ["version"] "schema_migrations".

Definition resourceSelector (k : DatabaseKind) : SqlSelect :=
  match k with
  | PostgreSQL =>
      newSelect [As "resource.data->'metadata'->>'creationTimestamp'" "created_at"; "resource.id";
                 "resource.uuid"; "resource.data"] "resource"
  | MariaDB =>
      newSelect [As "JSON_VALUE(data, '$.metadata.creationTimestamp')" "created_at"; "id"; "data"] "resource"
  end.

Definition OwnedResourceSelector (k : DatabaseKind) : SqlSelect :=
  match k with
  | PostgreSQL =>
      newSelect ["uuid"; "kind"; As "data->'metadata'->>'creationTimestamp'" "created_at"] "resource"
  | MariaDB =>
      newSelect ["uuid"; "kind"; As "JSON_VALUE(data, '$.metadata.creationTimestamp')" "created_at"] "resource"
  end.

(** ** [CreationTSAndIDSorter] *)
Definition CreationTSAndIDSorter (k : DatabaseKind) (sb : SqlSelect) : SqlSelect :=
  let columns :=
    match k with
    | PostgreSQL => ["resource.data->'metadata'->>'creationTimestamp'"; "resource.id"]
    | MariaDB => ["CONVERT(JSON_VALUE(data, '$.metadata.creationTimestamp'), datetime)"; "id"]
    end in
  {| sq_Select := sq_Select sb; sq_From := sq_From sb; sq_Join := sq_Join sb; sq_Where := sq_Where sb;
     sq_OrderByDesc := sq_OrderByDesc sb ++ columns; sq_Limit := sq_Limit sb; sq_Args := sq_Args sb |}.

(** [sb.Where(condition)], the condition built on the values of [sb]. *)
Definition where_ (m : Builder Text) (sb : SqlSelect) : SqlSelect :=
  {| sq_Select := sq_Select sb; sq_From := sq_From sb; sq_Join := sq_Join sb;
     sq_Where := sq_Where sb ++ [(m (sq_Args sb)).1]; sq_OrderByDesc := sq_OrderByDesc sb;
     sq_Limit := sq_Limit sb; sq_Args := (m (sq_Args sb)).2 |}.

Definition wheres (ms : list (Builder Text)) (sb : SqlSelect) : SqlSelect := foldl (λ sb m, where_ m sb) sb ms.

Definition limit_ (n : Z) (sb : SqlSelect) : SqlSelect :=
  {| sq_Select := sq_Select sb; sq_From := sq_From sb; sq_Join := sq_Join sb; sq_Where := sq_Where sb;
     sq_OrderByDesc := sq_OrderByDesc sb; sq_Limit := Some n; sq_Args := sq_Args sb |}.

(** ** [facade/filter.go] *)
Definition kindApiVersionText (kind apiVersion : string) : Builder Text :=
  k ← Equal "kind" (VString kind); v ← Equal "api_version" (VString apiVersion); mret (And [k; v]).

Definition namespaceText (ns : string) : Builder Text := Equal "namespace" (VString ns).
Definition nameText (name : string) : Builder Text := Equal "name" (VString name).
Definition uuidsText (uuids : list string) : Builder Text := In "uuid" (VString <$> uuids).
Definition uuidText (uuid : string) : Builder Text := Equal "uuid" (VString uuid).
Definition containerNameText (name : string) : Builder Text := Equal "container_name" (VString name).

(** The default of the interface gives [Like] a placeholder for its value, and
    PostgreSQL has its own. *)
Definition nameWildcardText (k : DatabaseKind) (pattern : string) : Builder Text :=
  match k with
  | PostgreSQL => t ← Var (VString pattern); mret (around "name ILIKE " t "")
  | MariaDB => t ← Var (VString pattern); Like "LOWER(name)" (VText t)
  end.

(** ** The filters of the databases *)
Definition creationTSAndIDText (k : DatabaseKind) (continueDate continueId : string) : Builder Text :=
  d ← Var (VString continueDate); i ← Var (VString continueId);
  mret (around match k with
        | PostgreSQL => "(resource.data->'metadata'->>'creationTimestamp', resource.id) < ("
        | MariaDB => "(CONVERT(JSON_VALUE(data, '$.metadata.creationTimestamp'), datetime), uuid) < ("
        end (d ++ Lit ", " :: i) ")").

Definition creationTimestamp (k : DatabaseKind) : string :=
  match k with
  | PostgreSQL => "resource.data->'metadata'->>'creationTimestamp'"
  | MariaDB => "CONVERT(JSON_VALUE(data, '$.metadata.creationTimestamp'), datetime)"
  end.

Definition timestampText (k : DatabaseKind) (t : Time) : string :=
  match k with PostgreSQL => TimeFormat t | MariaDB => TimeFormatDateTime t end.

(** A comparison of the creation time, [op] being [" > "] or [" < "]. *)
Definition comparedTime (k : DatabaseKind) (op timestamp : string) : Builder Text :=
  t ← Var (VString timestamp); mret (around (creationTimestamp k +:+ op) t "").

Definition creationTimestampAfterText (k : DatabaseKind) (timestamp : Time) : Builder Text :=
  comparedTime k " > " (timestampText k timestamp).

Definition creationTimestampBeforeText (k : DatabaseKind) (timestamp : Time) : Builder Text :=
  comparedTime k " < " (timestampText k timestamp).

(** The JSON the owners of PostgreSQL are compared with. *)
Definition ownerJSON (owner : string) : string :=
  "[{" +:+ quoted "uid" +:+ ":" +:+ quoted owner +:+ "}]".

Definition ownerText (k : DatabaseKind) (uuids : list string) : Builder Text :=
  match k with
  | PostgreSQL =>
      t ← Var (VArray (ownerJSON <$> uuids));
      mret (around "(resource.data->'metadata'->'ownerReferences') @> ANY(" t "::jsonb[])")
  | MariaDB =>
      t ← Var (VList uuids);
      mret (around "JSON_OVERLAPS(JSON_EXTRACT(data, '$.metadata.ownerReferences.**.uid'), JSON_ARRAY(" t "))")
  end.

(** ** Label filters *)

(** A placeholder for each identifier, and [strings.Join] of them. *)
Fixpoint vars (ids : list Z) : Builder (list Text) :=
  match ids with
  | [] => mret []
  | id :: ids => t ← Var (VInt id); ts ← vars ids; mret (t :: ts)
  end.

Fixpoint joined (ts : list Text) : Text :=
  match ts with
  | [] => []
  | [t] => t
  | t :: ts => t ++ Lit ", " :: joined ts
  end.

Definition idList (before : string) (ids : list Z) (after : string) : Builder Text :=
  ts ← vars ids; mret (around before (joined ts) after).

Definition ofLabels : string :=
  "EXISTS (SELECT 1 FROM resource_label rl WHERE rl.resource_id = resource.id AND rl.label_id ".

Definition ofKeys : string :=
  "EXISTS (SELECT 1 FROM resource_label rl JOIN label_key_value lkv ON lkv.id = rl.label_id " +:+
  "WHERE rl.resource_id = resource.id AND lkv.key_id ".

(** The conditions of PostgreSQL, which [ApplyLabelFilters] gives as values. *)
Definition condText (c : Cond) : Builder Text :=
  match c with
  | CFalse => mret [Lit "1=0"]
  | CHasKey keyID => t ← Var (VInt keyID); mret (around (ofKeys +:+ "= ") t ")")
  | CHasLabel labelID => t ← Var (VInt labelID); mret (around (ofLabels +:+ "= ") t ")")
  | CHasLabelIn labelIDs => idList (ofLabels +:+ "IN (") labelIDs "))"
  | CNotHasKeyIn keyIDs => idList ("NOT " +:+ ofKeys +:+ "IN (") keyIDs "))"
  | CNotHasLabelIn labelIDs => idList ("NOT " +:+ ofLabels +:+ "IN (") labelIDs "))"
  | CCountKeys keyIDs n =>
      idList (ofKeys +:+ "IN (") keyIDs
        (") GROUP BY rl.resource_id HAVING COUNT(DISTINCT lkv.key_id) = " +:+ FormatInt (Z.of_nat n) +:+ ")")
  end.

(** [mariaDBFilter.ApplyLabelFilters]: each of its six conditions, stubs, is the
    empty text.  A group of filters is nil exactly when it has none. *)
Definition stubFilter : Builder Text := mret [].

Definition mariaDBApplyLabelFilters (lf : LabelFilters) : list (Builder Text) :=
  let group (n : nat) := if (0 <? n)%nat then [stubFilter] else [] in
  group (length (Exists_ lf)) ++ group (length (NotExists lf)) ++ group (size (Equals lf)) ++
  group (size (NotEquals lf)) ++ group (size (In_ lf)) ++ group (size (NotIn lf)).

(** ** [reader.go] *)
Definition baseTexts (k : DatabaseKind) (a : QueryArgs) : list (Builder Text) :=
  [kindApiVersionText (qa_kind a) (qa_apiVersion a)] ++
  (if nonempty (qa_namespace a) then [namespaceText (qa_namespace a)] else []) ++
  (if nonempty (qa_name a) then
     if ContainsByte (qa_name a) "*"%char
     then [nameWildcardText k (ReplaceByte "*"%char "%"%char (qa_name a))]
     else [nameText (qa_name a)]
   else []).

Definition tokenTexts (k : DatabaseKind) (a : QueryArgs) : list (Builder Text) :=
  if nonempty (qa_continueId a) && nonempty (qa_continueDate a)
  then [creationTSAndIDText k (qa_continueDate a) (qa_continueId a)] else [].

Definition timeTexts (k : DatabaseKind) (a : QueryArgs) : list (Builder Text) :=
  match qa_after a with Some t => [creationTimestampAfterText k t] | None => [] end ++
  match qa_before a with Some t => [creationTimestampBeforeText k t] | None => [] end.

Definition labelTexts `{!LabelEngine} (k : DatabaseKind) (t : LabelTables) (lf : LabelFilters)
    : outcome unit (list (Builder Text)) :=
  if IsEmpty lf then Ok []
  else match k with
       | PostgreSQL =>
           match ApplyLabelFilters t lf with Some cs => Ok (condText <$> cs) | None => Err tt end
       | MariaDB => Ok (mariaDBApplyLabelFilters lf)
       end.

(** [buildResourceListQuery]. *)
Definition listQuery `{!LabelEngine} (k : DatabaseKind) (t : LabelTables) (a : QueryArgs)
    : outcome unit SqlSelect :=
  let sb := wheres (baseTexts k a) (resourceSelector k) in
  if isList a then
    match qa_labelFilters a with
    | None => Panic
    | Some lf =>
        labels ← labelTexts k t lf;
        Ok (limit_ (qa_limit a) (CreationTSAndIDSorter k
              (wheres (tokenTexts k a ++ timeTexts k a ++ labels) sb)))
    end
  else Ok sb.

(** The queries of the reader, and of the label filters of PostgreSQL. *)
Inductive Query :=
| ResourceList (a : QueryArgs)
| ResourceByUID (kind apiVersion namespace uid : string)
| ResourceOfLog (pod useUID : bool) (kind apiVersion namespace identifier : string)
| PodByUID (uid : string)
| URLsOfPod (uuid containerName : string)
| OwnedBy (uuids : list string)
| LabelKeys (keys : list string)
| LabelPairs (pairs : list (string * string))
| SchemaVersion.

Definition identifierTexts (useUID : bool) (kind apiVersion namespace identifier : string)
    : list (Builder Text) :=
  [kindApiVersionText kind apiVersion; namespaceText namespace;
   if useUID then uuidText identifier else nameText identifier].

(** [sb.Or] of a condition for each pair. *)
Fixpoint pairTexts (pairs : list (string * string)) : Builder (list Text) :=
  match pairs with
  | [] => mret []
  | (key, value) :: pairs =>
      k ← Equal "lk.key" (VString key); v ← Equal "lv.value" (VString value);
      ts ← pairTexts pairs; mret (And [k; v] :: ts)
  end.

Definition anyPair (pairs : list (string * string)) : Builder Text :=
  ts ← pairTexts pairs; mret (Or ts).

Definition labelSelector : SqlSelect :=
  {| sq_Select := ["lkv.id"; "lk.key"; "lv.value"]; sq_From := "label_key_value lkv";
     sq_Join := [("label_key lk", "lk.id = lkv.key_id"); ("label_value lv", "lv.id = lkv.value_id")];
     sq_Where := []; sq_OrderByDesc := []; sq_Limit := None; sq_Args := [] |}.

Definition buildQuery `{!LabelEngine} (k : DatabaseKind) (t : LabelTables) (q : Query) : outcome unit SqlSelect :=
  match q with
  | ResourceList a => listQuery k t a
  | ResourceByUID kind apiVersion namespace uid =>
      Ok (wheres (identifierTexts true kind apiVersion namespace uid) (resourceSelector k))
  | ResourceOfLog pod useUID kind apiVersion namespace identifier =>
      Ok (wheres (identifierTexts useUID kind apiVersion namespace identifier)
            (CreationTSAndIDSorter k (if pod then resourceSelector k else UUIDResourceSelector)))
  | PodByUID uid => Ok (where_ (uuidText uid) (resourceSelector k))
  | URLsOfPod uuid containerName => Ok (wheres [uuidText uuid; containerNameText containerName] UrlSelector)
  | OwnedBy uuids => Ok (where_ (ownerText k uuids) (OwnedResourceSelector k))
  | LabelKeys keys => Ok (where_ (In "key" (VString <$> keys)) (newSelect ["id"; "key"] "label_key"))
  | LabelPairs pairs => Ok (where_ (anyPair pairs) labelSelector)
  | SchemaVersion => Ok VersionSelector
  end.

End queries.
