(* ===== verification/SqlFacts.v ===== *)
(** * What the texts of the queries hold, and their values

    The theory of [SqlText]: which builders have the same text, which values they
    add, and what this says of the queries of the reader. *)
From S2P Require Import Prelude GoLib GoStrings LabelSql Pagination Database SqlText.

Section facts.
  Context `{SB : !SqlBuilder, GT : !GoText, DT : !DateTimeLayout}.

(** ** Texts *)

Lemma ret_alike {A} (a : A) : alike (mret a) (mret a).
Proof. by intros args args' Hw. Qed.

(** One builder after another. *)
Lemma bind_alike {A B} (m m' : Builder A) (f f' : A → Builder B) :
  alike m m' → (∀ a, alike (f a) (f' a)) → alike (m ≫= f) (m' ≫= f').
Proof.
  intros Hm Hf args args' Hw. destruct (Hm _ _ Hw) as [Ha Hw']. unfold mbind, Builder_bind.
  destruct (m args) as [a args1], (m' args') as [a' args1']. cbn in Ha, Hw'. subst a'. by apply Hf.
Qed.

Lemma where_alike m m' sb sb' :
  alike m m' → sameStructure sb sb' → sameStructure (where_ m sb) (where_ m' sb').
Proof.
  intros Hm (? & ? & ? & Hw & ? & ? & Ha). destruct (Hm _ _ Ha) as [Ht Ha'].
  split_and!; try done. cbn. by rewrite Hw, Ht.
Qed.

Lemma wheres_alike ms ms' sb sb' :
  Forall2 alike ms ms' → sameStructure sb sb' → sameStructure (wheres ms sb) (wheres ms' sb').
Proof.
  intros Hms. revert sb sb'; induction Hms as [|m m' ms ms' Hm _ IH]; intros sb sb' Hs; [done|].
  cbn [wheres foldl]. apply IH. by apply where_alike.
Qed.

Lemma sorter_alike k sb sb' :
  sameStructure sb sb' → sameStructure (CreationTSAndIDSorter k sb) (CreationTSAndIDSorter k sb').
Proof. intros (? & ? & ? & ? & Ho & ? & ?). split_and!; try done. cbn. by rewrite Ho. Qed.

Lemma limit_alike n sb sb' : sameStructure sb sb' → sameStructure (limit_ n sb) (limit_ n sb').
Proof. intros (? & ? & ? & ? & ? & ? & ?). by split_and!. Qed.

Lemma same_refl sb : sameStructure sb sb.
Proof. by split_and!. Qed.

(** The values of a builder change, and its text does not. *)
Ltac values_only :=
  repeat first
    [ apply bind_alike; [|intros ?]
    | apply ret_alike
    | apply Var_text; done
    | apply Equal_text; done
    | apply Like_text; done ].

Lemma kindApiVersionText_alike k v k' v' : alike (kindApiVersionText k v) (kindApiVersionText k' v').
Proof. unfold kindApiVersionText. values_only. Qed.

Lemma nameWildcardText_alike k p p' : alike (nameWildcardText k p) (nameWildcardText k p').
Proof. destruct k; unfold nameWildcardText; values_only. Qed.

Lemma creationTSAndIDText_alike k d i d' i' :
  alike (creationTSAndIDText k d i) (creationTSAndIDText k d' i').
Proof. unfold creationTSAndIDText. values_only. Qed.

Lemma comparedTime_alike k op t t' : alike (comparedTime k op t) (comparedTime k op t').
Proof. unfold comparedTime. values_only. Qed.

Lemma ownerText_alike k us us' : length us = length us' → alike (ownerText k us) (ownerText k us').
Proof. intros Hl. destruct k; unfold ownerText; values_only. apply Var_text. cbn. by rewrite Hl. Qed.

Lemma vars_alike ids ids' : length ids = length ids' → alike (vars ids) (vars ids').
Proof.
  revert ids'; induction ids as [|id ids IH]; intros [|id' ids'] Hl; try done; cbn [vars]; values_only.
  apply IH. by injection Hl.
Qed.

Lemma idList_alike before after ids ids' :
  length ids = length ids' → alike (idList before ids after) (idList before ids' after).
Proof. intros Hl. unfold idList. values_only. by apply vars_alike. Qed.

Lemma pairTexts_alike ps ps' : length ps = length ps' → alike (pairTexts ps) (pairTexts ps').
Proof.
  revert ps'; induction ps as [|[k v] ps IH]; intros [|[k' v'] ps'] Hl; try done; cbn [pairTexts];
    values_only.
  apply IH. by injection Hl.
Qed.

(** A condition on labels without its identifiers. *)
Definition condShape (c : Cond) : Cond :=
  match c with
  | CFalse => CFalse
  | CHasKey _ => CHasKey 0
  | CHasLabel _ => CHasLabel 0
  | CHasLabelIn ids => CHasLabelIn (replicate (length ids) 0%Z)
  | CNotHasKeyIn ids => CNotHasKeyIn (replicate (length ids) 0%Z)
  | CNotHasLabelIn ids => CNotHasLabelIn (replicate (length ids) 0%Z)
  | CCountKeys ids n => CCountKeys (replicate (length ids) 0%Z) n
  end.

Lemma replicate_length {A} (x : A) n m : replicate n x = replicate m x → n = m.
Proof. intros H%(f_equal length). by rewrite !length_replicate in H. Qed.

Lemma condText_alike c c' : condShape c = condShape c' → alike (condText c) (condText c').
Proof.
  destruct c, c'; intros [=]; cbn [condText]; subst; first
    [ by apply idList_alike; eapply replicate_length | values_only ].
Qed.

(** What the label filters of a query add, without its values. *)
Definition labelShape `{!LabelEngine} (k : DatabaseKind) (t : LabelTables) (lf : LabelFilters)
    : outcome unit (list Cond) :=
  if IsEmpty lf then Ok []
  else match k with
       | PostgreSQL =>
           match ApplyLabelFilters t lf with Some cs => Ok (condShape <$> cs) | None => Err tt end
       | MariaDB => Ok ((λ _, CFalse) <$> mariaDBApplyLabelFilters lf)
       end.

Lemma labelTexts_alike `{!LabelEngine} k t lf lf' ms ms' :
  labelShape k t lf = labelShape k t lf' → labelTexts k t lf = Ok ms → labelTexts k t lf' = Ok ms' →
  Forall2 alike ms ms'.
Proof.
  unfold labelShape, labelTexts.
  assert (∀ cs cs', condShape <$> cs = condShape <$> cs' → Forall2 alike (condText <$> cs) (condText <$> cs'))
    as Hc.
  { intros cs cs' Hs. rewrite Forall2_fmap. apply list_eq_Forall2 in Hs. rewrite Forall2_fmap in Hs.
    eapply Forall2_impl; [exact Hs|]. apply condText_alike. }
  assert (∀ lf, Forall (eq stubFilter) (mariaDBApplyLabelFilters lf)) as Hstub.
  { intros l. unfold mariaDBApplyLabelFilters.
    repeat (apply Forall_app; split); destruct (0 <? _)%nat; by repeat constructor. }
  assert (∀ lf lf', (λ _, CFalse) <$> mariaDBApplyLabelFilters lf = (λ _, CFalse) <$> mariaDBApplyLabelFilters lf' →
    Forall2 alike (mariaDBApplyLabelFilters lf) (mariaDBApplyLabelFilters lf')) as Hm.
  { intros l l' Hl%(f_equal length). rewrite !length_fmap in Hl.
    apply Forall2_same_length_lookup_2; [done|]. intros i m m' Hi Hi'.
    pose proof (Hstub l) as H1. pose proof (Hstub l') as H2. rewrite Forall_lookup in H1, H2.
    rewrite <-(H1 _ _ Hi), <-(H2 _ _ Hi'). apply ret_alike. }
  destruct (IsEmpty lf), (IsEmpty lf'), k; intros Hs;
    repeat match goal with |- context [ApplyLabelFilters ?a ?b] => destruct (ApplyLabelFilters a b) end;
    intros [= <-] [= <-]; try done; injection Hs as Hs.
  all: first [by apply Hc | by apply Hm | by apply (Hc []) | by apply (Hc _ [])
    | by apply fmap_nil_inv in Hs as -> | by symmetry in Hs; apply fmap_nil_inv in Hs as ->].
Qed.

(** Conditions, one by one. *)
Ltac each := repeat first [apply List.Forall2_nil | apply List.Forall2_cons].

(** Two requests for a list that ask for the same conditions, of other values. *)
Record sameList `{!LabelEngine} (k : DatabaseKind) (t : LabelTables) (a a' : QueryArgs) : Prop := {
  same_namespace : nonempty (qa_namespace a) = nonempty (qa_namespace a');
  same_name : nonempty (qa_name a) = nonempty (qa_name a');
  same_wildcard : ContainsByte (qa_name a) "*"%char = ContainsByte (qa_name a') "*"%char;
  same_token : nonempty (qa_continueId a) && nonempty (qa_continueDate a) =
    nonempty (qa_continueId a') && nonempty (qa_continueDate a');
  same_after : is_Some (qa_after a) ↔ is_Some (qa_after a');
  same_before : is_Some (qa_before a) ↔ is_Some (qa_before a');
  same_limit : qa_limit a = qa_limit a';
  same_labels : ∀ lf lf', qa_labelFilters a = Some lf → qa_labelFilters a' = Some lf' →
    labelShape k t lf = labelShape k t lf';
}.

(** Two queries of the same kind, of other values. *)
Definition sameShape `{!LabelEngine} (k : DatabaseKind) (t : LabelTables) (q q' : Query) : Prop :=
  match q, q' with
  | ResourceList a, ResourceList a' => sameList k t a a'
  | ResourceByUID _ _ _ _, ResourceByUID _ _ _ _ | PodByUID _, PodByUID _
  | URLsOfPod _ _, URLsOfPod _ _ | SchemaVersion, SchemaVersion => True
  | ResourceOfLog pod useUID _ _ _ _, ResourceOfLog pod' useUID' _ _ _ _ => pod = pod' ∧ useUID = useUID'
  | OwnedBy uuids, OwnedBy uuids' => length uuids = length uuids'
  | LabelKeys keys, LabelKeys keys' => length keys = length keys'
  | LabelPairs pairs, LabelPairs pairs' => length pairs = length pairs'
  | _, _ => False
  end.

Lemma baseTexts_alike `{!LabelEngine} k t a a' :
  sameList k t a a' → Forall2 alike (baseTexts k a) (baseTexts k a').
Proof.
  intros [Hns Hn Hw _ _ _ _ _]. unfold baseTexts. rewrite Hns, Hn, Hw.
  repeat apply Forall2_app; repeat (destruct (nonempty _) || destruct (ContainsByte _ _));
    each; first [apply kindApiVersionText_alike|apply nameWildcardText_alike|by apply Equal_text].
Qed.

Lemma pageTexts_alike `{!LabelEngine} k t a a' :
  sameList k t a a' → Forall2 alike (tokenTexts k a ++ timeTexts k a) (tokenTexts k a' ++ timeTexts k a').
Proof.
  intros [_ _ _ Ht Ha Hb _ _]. unfold tokenTexts, timeTexts. rewrite Ht.
  apply Forall2_app; [case_match; each; apply creationTSAndIDText_alike|]. clear Ht.
  apply Forall2_app.
  - destruct (qa_after a), (qa_after a'); each; try apply comparedTime_alike;
      (destruct Ha as [H1 H2]; first [by destruct (H1 ltac:(by eexists))|by destruct (H2 ltac:(by eexists))]).
  - destruct (qa_before a), (qa_before a'); each; try apply comparedTime_alike;
      (destruct Hb as [H1 H2]; first [by destruct (H1 ltac:(by eexists))|by destruct (H2 ltac:(by eexists))]).
Qed.

Lemma listQuery_alike `{!LabelEngine} k t a a' sb sb' :
  sameList k t a a' → listQuery k t a = Ok sb → listQuery k t a' = Ok sb' → sameStructure sb sb'.
Proof.
  intros Hs. unfold listQuery, isList. rewrite <-(same_name _ _ _ _ Hs), <-(same_wildcard _ _ _ _ Hs).
  assert (sameStructure (wheres (baseTexts k a) (resourceSelector k))
    (wheres (baseTexts k a') (resourceSelector k))) as Hbase.
  { apply wheres_alike; [by eapply baseTexts_alike|apply same_refl]. }
  destruct (negb _ || _); [|by intros [= <-] [= <-]].
  destruct (qa_labelFilters a) as [lf|] eqn:El; [|done].
  destruct (qa_labelFilters a') as [lf'|] eqn:El'; [|done].
  pose proof (same_labels _ _ _ _ Hs _ _ El El') as Hsh.
  destruct (labelTexts k t lf) as [ms| |] eqn:Em; [|done..].
  destruct (labelTexts k t lf') as [ms'| |] eqn:Em'; [|done..].
  cbn [mbind outcome_bind]. intros [= <-] [= <-]. rewrite (same_limit _ _ _ _ Hs).
  apply limit_alike, sorter_alike, wheres_alike; [|done]. rewrite !app_assoc. apply Forall2_app.
  - by eapply pageTexts_alike.
  - by eapply labelTexts_alike.
Qed.

Lemma Ok_inj {E A} (a b : A) : @Ok E A a = Ok b → a = b.
Proof. by intros [=]. Qed.

(** C8: no value of a request is ever in the text of a query: whatever database,
    two queries of the same kind, with the same conditions of other values, have the
    same text, and the values reach the database as arguments.  Only a number of
    values, a number of keys and the limit of a page shape the text. *)
Theorem request_never_in_text `{!LabelEngine} (k : DatabaseKind) (t : LabelTables) (q q' : Query)
    (sb sb' : SqlSelect) :
  sameShape k t q q' → buildQuery k t q = Ok sb → buildQuery k t q' = Ok sb' →
  (BuildWithFlavor k sb).1 = (BuildWithFlavor k sb').1.
Proof.
  intros Hs Hq Hq'. apply Build_text.
  destruct q, q'; try done; cbn [sameShape buildQuery] in *;
    [by eapply listQuery_alike|apply Ok_inj in Hq as <-; apply Ok_inj in Hq' as <-..].
  - apply wheres_alike; [|apply same_refl].
    each; [apply kindApiVersionText_alike|by apply Equal_text..].
  - destruct Hs as [-> ->]. apply wheres_alike; [|apply sorter_alike, same_refl].
    each; [apply kindApiVersionText_alike|by apply Equal_text|].
    case_match; by apply Equal_text.
  - apply where_alike; [by apply Equal_text|apply same_refl].
  - apply wheres_alike; [each; by apply Equal_text|apply same_refl].
  - apply where_alike; [by apply ownerText_alike|apply same_refl].
  - apply where_alike; [|apply same_refl]. apply In_text. rewrite <-!list_fmap_compose.
    revert keys0 Hs; induction keys as [|x keys IH]; intros [|y keys'] Hl; try done.
    cbn. f_equal. apply IH. by injection Hl.
  - apply where_alike; [|apply same_refl]. unfold anyPair. values_only. by apply pairTexts_alike.
  - apply same_refl.
Qed.

(** ** Values *)

(** A builder whose placeholders stand, in order, for [vs args] after the values [args]. *)
Definition emits (m : Builder Text) (vs : list SqlValue → list SqlValue) : Prop :=
  ∀ args, ∃ new, (m args).2 = args ++ new ∧
    (λ i, (args ++ new) !! i) <$> places (m args).1 = Some <$> vs args.

Lemma places_app t1 t2 : places (t1 ++ t2) = places t1 ++ places t2.
Proof. apply omap_app. Qed.

Lemma places_around before t after : places (around before t after) = places t.
Proof. unfold around. cbn. rewrite places_app. cbn. by rewrite app_nil_r. Qed.

Lemma lookup_seq_suffix {A} (args vs : list A) :
  (λ i, (args ++ vs) !! i) <$> seq (length args) (length vs) = Some <$> vs.
Proof.
  apply list_eq. intros i. rewrite !list_lookup_fmap.
  destruct (decide (i < length vs)%nat) as [Hi|Hi].
  - rewrite lookup_seq_lt by done. cbn. rewrite lookup_app_r by lia.
    replace (length args + i - length args)%nat with i by lia.
    destruct (lookup_lt_is_Some_2 vs i Hi) as [v ->]. done.
  - rewrite lookup_seq_ge, (lookup_ge_None_2 vs) by lia. done.
Qed.

Lemma adds_emits m vs : adds m vs → emits m (λ _, vs).
Proof.
  intros Hm args. destruct (Hm args) as [Ha Hp]. exists vs. split; [done|].
  rewrite Hp. apply lookup_seq_suffix.
Qed.

(** A condition added to a query emits its values after the others. *)
Lemma where_placed m ws sb vs :
  placed sb vs → emits m ws → placed (where_ m sb) (vs ++ ws (sq_Args sb)).
Proof.
  intros Hp Hm. destruct (Hm (sq_Args sb)) as (new & Ha & Hnew). unfold placed in *. cbn.
  rewrite Ha, fmap_app, concat_app, !fmap_app. cbn. rewrite app_nil_r, Hnew. f_equal.
  rewrite <-Hp. apply list_fmap_ext. intros i n Hn.
  assert (is_Some (sq_Args sb !! n)) as [v Hv].
  { apply (f_equal (λ l, l !! i)) in Hp. rewrite !list_lookup_fmap, Hn in Hp. cbn in Hp.
    destruct (vs !! i); [|done]. injection Hp as Hp. by eexists. }
  rewrite Hv. by apply lookup_app_l_Some.
Qed.

Lemma wheres_placed ms vss sb vs :
  Forall2 adds ms vss → placed sb vs → placed (wheres ms sb) (vs ++ concat vss).
Proof.
  intros Hms. revert sb vs; induction Hms as [|m ws ms vss Hm _ IH]; intros sb vs Hp; cbn [wheres foldl concat].
  - by rewrite app_nil_r.
  - rewrite app_assoc. apply IH. apply (where_placed m (λ _, ws)); [done|by apply adds_emits].
Qed.

(** A builder that adds [vs] after the placeholders [p] of what was built before. *)
Definition addsFrom {A} (p : list nat) (pl : A → list nat) (m : Builder A) (vs : list SqlValue) : Prop :=
  ∀ args, (m args).2 = args ++ vs ∧ pl (m args).1 = p ++ seq (length args) (length vs).

Lemma addsFrom_bind {A B} p (pl : A → list nat) (pl' : B → list nat) (m : Builder A) (f : A → Builder B) vs ws :
  addsFrom p pl m vs → (∀ a, addsFrom (pl a) pl' (f a) ws) → addsFrom p pl' (m ≫= f) (vs ++ ws).
Proof.
  intros Hm Hf args. destruct (Hm args) as [Ha Hp]. unfold mbind, Builder_bind.
  destruct (m args) as [a args1]. cbn in Ha, Hp. subst args1.
  destruct (Hf a (args ++ vs)) as [Ha' Hp']. split; [by rewrite Ha', app_assoc|].
  rewrite Hp', Hp, length_app, length_app, seq_app, app_assoc. done.
Qed.

Lemma addsFrom_ret {A} p (pl : A → list nat) (a : A) : pl a = p → addsFrom p pl (mret a) [].
Proof. intros Hp args. cbn. by rewrite Hp, !app_nil_r. Qed.

Lemma adds_after p m vs : adds m vs → addsFrom p (λ t, p ++ places t) m vs.
Proof. intros Hm args. destruct (Hm args) as [Ha Hp]. by rewrite Hp. Qed.

Lemma adds_from m vs : addsFrom [] places m vs → adds m vs.
Proof. done. Qed.

(** Placeholders one after another, then a text that has them in order. *)
Ltac placing :=
  repeat first
    [ eapply (addsFrom_bind _ _ _ _ _ [_]); [apply adds_after; first [apply Var_adds|apply Equal_adds]|intros ?]
    | apply addsFrom_ret ];
  rewrite ?And_places, ?places_around, ?places_app; cbn; rewrite ?app_nil_r, ?app_assoc; try done.

Lemma kindApiVersionText_adds k v : adds (kindApiVersionText k v) [VString k; VString v].
Proof. apply adds_from. change [?a; ?b] with ([a] ++ [b] ++ []). unfold kindApiVersionText. placing. Qed.

Lemma creationTSAndIDText_adds k d i : adds (creationTSAndIDText k d i) [VString d; VString i].
Proof. apply adds_from. change [?a; ?b] with ([a] ++ [b] ++ []). unfold creationTSAndIDText. placing. Qed.

Lemma comparedTime_adds k op t : adds (comparedTime k op t) [VString t].
Proof. apply adds_from. change [?a] with ([a] ++ []). unfold comparedTime. placing. Qed.

Lemma vars_adds p ids : addsFrom p (λ ts, p ++ concat (places <$> ts)) (vars ids) (VInt <$> ids).
Proof.
  revert p; induction ids as [|id ids IH]; intros p; cbn [vars].
  - apply addsFrom_ret. cbn. by rewrite app_nil_r.
  - change (VInt <$> id :: ids) with ([VInt id] ++ (VInt <$> ids)).
    eapply addsFrom_bind; [apply adds_after, Var_adds|intros t].
    rewrite <-(app_nil_r (VInt <$> ids)). eapply addsFrom_bind; [apply IH|intros ts].
    apply addsFrom_ret. cbn. by rewrite app_assoc.
Qed.

Lemma places_joined ts : places (joined ts) = concat (places <$> ts).
Proof.
  induction ts as [|t [|t' ts] IH]; [done|cbn; by rewrite app_nil_r|].
  change (joined (t :: t' :: ts)) with (t ++ Lit ", " :: joined (t' :: ts)).
  change (concat (places <$> t :: t' :: ts)) with (places t ++ concat (places <$> t' :: ts)).
  rewrite <-IH, places_app. done.
Qed.

Lemma idList_adds before after ids : adds (idList before ids after) (VInt <$> ids).
Proof.
  apply adds_from. rewrite <-(app_nil_r (VInt <$> ids)). unfold idList.
  eapply addsFrom_bind; [apply (vars_adds [])|intros ts]. apply addsFrom_ret.
  by rewrite places_around, places_joined.
Qed.

(** The identifiers of a condition on labels. *)
Definition condValues (c : Cond) : list SqlValue :=
  VInt <$> match c with
           | CFalse => []
           | CHasKey id | CHasLabel id => [id]
           | CHasLabelIn ids | CNotHasKeyIn ids | CNotHasLabelIn ids | CCountKeys ids _ => ids
           end.

Lemma condText_adds c : adds (condText c) (condValues c).
Proof.
  destruct c; try apply idList_adds; apply adds_from; cbn [condText condValues fmap list_fmap];
    try (change [?a] with ([a] ++ [])); placing.
Qed.

(** MariaDB's wildcard: the value of the comparison is the placeholder of the pattern. *)
Lemma nameWildcardText_emits k pattern :
  emits (nameWildcardText k pattern) (λ args,
    match k with PostgreSQL => [VString pattern] | MariaDB => [VText (Var (VString pattern) args).1] end).
Proof.
  destruct k; cbn [nameWildcardText].
  - apply adds_emits, adds_from. change [?a] with ([a] ++ []). placing.
  - intros args. unfold mbind, Builder_bind.
    pose proof (Var_adds (VString pattern) args) as [Ha Hp].
    destruct (Var (VString pattern) args) as [t args1]. cbn in Ha, Hp. subst args1.
    destruct (Like_adds "LOWER(name)" (VText t) (args ++ [VString pattern])) as [Ha' Hp'].
    exists [VString pattern; VText t].
    assert (args ++ [VString pattern; VText t] = (args ++ [VString pattern]) ++ [VText t]) as ->
      by by rewrite <-app_assoc.
    rewrite Ha', Hp'. split; [done|]. apply lookup_seq_suffix.
Qed.

(** *** The values of a list *)
Definition namespaceValues (a : QueryArgs) : list SqlValue :=
  if nonempty (qa_namespace a) then [VString (qa_namespace a)] else [].

(** The values before the name. *)
Definition selectorValues (a : QueryArgs) : list SqlValue :=
  [VString (qa_kind a); VString (qa_apiVersion a)] ++ namespaceValues a.

Definition patternOf (a : QueryArgs) : string := ReplaceByte "*"%char "%"%char (qa_name a).

Definition nameValues (k : DatabaseKind) (a : QueryArgs) : list SqlValue :=
  if nonempty (qa_name a) then
    if ContainsByte (qa_name a) "*"%char then
      match k with
      | PostgreSQL => [VString (patternOf a)]
      | MariaDB => [VText (Var (VString (patternOf a)) (selectorValues a)).1]
      end
    else [VString (qa_name a)]
  else [].

Definition tokenValues (a : QueryArgs) : list SqlValue :=
  if nonempty (qa_continueId a) && nonempty (qa_continueDate a)
  then [VString (qa_continueDate a); VString (qa_continueId a)] else [].

Definition timeValues (k : DatabaseKind) (a : QueryArgs) : list SqlValue :=
  match qa_after a with Some t => [VString (timestampText k t)] | None => [] end ++
  match qa_before a with Some t => [VString (timestampText k t)] | None => [] end.

(** The identifiers of the label filters; MariaDB has none. *)
Definition labelValues `{!LabelEngine} (k : DatabaseKind) (t : LabelTables) (lf : LabelFilters) : list SqlValue :=
  match k with
  | PostgreSQL => if IsEmpty lf then [] else default [] (ApplyLabelFilters t lf) ≫= condValues
  | MariaDB => []
  end.

Definition listValues `{!LabelEngine} (k : DatabaseKind) (t : LabelTables) (a : QueryArgs) : list SqlValue :=
  selectorValues a ++ nameValues k a ++
  (if isList a then
     tokenValues a ++ timeValues k a ++
     match qa_labelFilters a with Some lf => labelValues k t lf | None => [] end
   else []).

Lemma where_args m vs sb : adds m vs → sq_Args (where_ m sb) = sq_Args sb ++ vs.
Proof. intros Hm. by destruct (Hm (sq_Args sb)) as [? _]. Qed.

Lemma placed_new columns table : placed (newSelect columns table) [].
Proof. done. Qed.

Lemma base_placed k a : placed (wheres (baseTexts k a) (resourceSelector k)) (selectorValues a ++ nameValues k a).
Proof.
  assert (placed (wheres [kindApiVersionText (qa_kind a) (qa_apiVersion a)] (resourceSelector k))
    [VString (qa_kind a); VString (qa_apiVersion a)]) as H1.
  { change [?x; ?y] with ([] ++ concat [[x; y]]).
    apply wheres_placed; [|by destruct k]. each. apply kindApiVersionText_adds. }
  unfold baseTexts, wheres, selectorValues, nameValues, patternOf. rewrite !foldl_app.
  fold (wheres [kindApiVersionText (qa_kind a) (qa_apiVersion a)] (resourceSelector k)).
  set (sb1 := wheres _ _) in *.
  set (sb2 := foldl _ sb1 _).
  assert (placed sb2 ([VString (qa_kind a); VString (qa_apiVersion a)] ++ namespaceValues a)) as H2.
  { unfold sb2, namespaceValues. destruct (nonempty (qa_namespace a)); [|by rewrite app_nil_r].
    apply (where_placed _ (λ _, _)); [done|]. apply adds_emits, Equal_adds. }
  assert (sq_Args sb2 = [VString (qa_kind a); VString (qa_apiVersion a)] ++ namespaceValues a) as H3.
  { unfold sb2, namespaceValues.
    assert (sq_Args sb1 = [VString (qa_kind a); VString (qa_apiVersion a)]) as E1.
    { unfold sb1. cbn [wheres foldl]. rewrite (where_args _ _ _ (kindApiVersionText_adds _ _)). by destruct k. }
    destruct (nonempty (qa_namespace a)); cbn [foldl]; [|by rewrite app_nil_r].
    unfold namespaceText. by rewrite (where_args _ _ _ (Equal_adds _ _)), E1. }
  destruct (nonempty (qa_name a)); [|by rewrite app_nil_r].
  destruct (ContainsByte (qa_name a) "*"); cbn [foldl].
  - pose proof (where_placed _ _ sb2 _ H2
      (nameWildcardText_emits k (ReplaceByte "*" "%" (qa_name a)))) as Hw.
    cbn beta in Hw. rewrite H3 in Hw. by rewrite <-app_assoc in Hw |- *.
  - apply (where_placed _ (λ _, _)); [done|]. apply adds_emits, Equal_adds.
Qed.

Lemma limit_placed n k sb vs : placed sb vs → placed (limit_ n (CreationTSAndIDSorter k sb)) vs.
Proof. done. Qed.

Lemma stubs_adds lf : Forall2 adds (mariaDBApplyLabelFilters lf) ((λ _, []) <$> mariaDBApplyLabelFilters lf).
Proof.
  assert (∀ n : nat, Forall2 adds (if (0 <? n)%nat then [stubFilter] else [])
    ((λ _ : Builder Text, @nil SqlValue) <$> (if (0 <? n)%nat then [stubFilter] else []))) as Hg.
  { intros n. destruct (0 <? n)%nat; each. intros args. by rewrite app_nil_r. }
  unfold mariaDBApplyLabelFilters. rewrite !fmap_app. by repeat apply Forall2_app.
Qed.

Lemma concat_fmap {A B} (f : A → list B) l : concat (f <$> l) = l ≫= f.
Proof. induction l as [|x l IH]; [done|]. cbn. by rewrite <-IH. Qed.

Lemma labels_adds `{!LabelEngine} k t lf ms :
  labelTexts k t lf = Ok ms → ∃ vss, Forall2 adds ms vss ∧ concat vss = labelValues k t lf.
Proof.
  unfold labelTexts, labelValues. destruct (IsEmpty lf).
  { intros [= <-]. exists []. split; [each|by destruct k]. }
  destruct k.
  - destruct (ApplyLabelFilters t lf) as [cs|]; [|done]. intros [= <-]. exists (condValues <$> cs).
    split; [|apply concat_fmap]. rewrite Forall2_fmap. apply Forall_Forall2_diag.
    apply Forall_forall. intros c _. apply condText_adds.
  - intros [= <-]. eexists. split; [apply stubs_adds|].
    induction (mariaDBApplyLabelFilters lf); [done|]. done.
Qed.

Lemma listQuery_placed `{!LabelEngine} k t a sb :
  listQuery k t a = Ok sb → placed sb (listValues k t a).
Proof.
  unfold listQuery, listValues. rewrite (app_assoc (selectorValues a)).
  destruct (isList a); [|intros [= <-]; rewrite app_nil_r; apply base_placed].
  destruct (qa_labelFilters a) as [lf|]; [|done].
  destruct (labelTexts k t lf) as [ms| |] eqn:Em; [|done..]. cbn [mbind outcome_bind]. intros [= <-].
  destruct (labels_adds k t lf ms Em) as (vss & Hms & <-). apply limit_placed.
  set (vs := concat vss). 
  assert (∃ tss, Forall2 adds (tokenTexts k a ++ timeTexts k a) tss ∧
    concat tss = tokenValues a ++ timeValues k a) as (tss & Ht & Hc).
  { unfold tokenTexts, tokenValues, timeTexts, timeValues.
    exists ((if nonempty (qa_continueId a) && nonempty (qa_continueDate a)
        then [[VString (qa_continueDate a); VString (qa_continueId a)]] else []) ++
      match qa_after a with Some t => [[VString (timestampText k t)]] | None => [] end ++
      match qa_before a with Some t => [[VString (timestampText k t)]] | None => [] end).
    split; [|by destruct (_ && _), (qa_after a), (qa_before a)].
    repeat apply Forall2_app; case_match; each;
      first [apply creationTSAndIDText_adds|apply comparedTime_adds]. }
  rewrite (app_assoc (tokenValues a)), <-Hc. unfold vs. rewrite <-concat_app. apply wheres_placed.
  - rewrite (app_assoc (tokenTexts k a)). by apply Forall2_app.
  - apply base_placed.
Qed.

(** No value of a list is a list itself. *)
Lemma listValues_flat `{!LabelEngine} k t a : listValues k t a ≫= flatten = listValues k t a.
Proof.
  assert (Forall (λ v, flatten v = [v]) (listValues k t a)) as Hf.
  { unfold listValues, selectorValues, namespaceValues, nameValues, tokenValues, timeValues, labelValues.
    repeat first [apply Forall_app; split | case_match]; try by repeat constructor.
    all: apply Forall_bind, Forall_forall. intros c _. unfold condValues. apply Forall_fmap, Forall_forall. done. }
  induction Hf as [|v vs Hv _ IH]; [done|]. cbn. by rewrite Hv, IH.
Qed.

(** The arguments of the query of a list are what the request asks for, in the
    order of the conditions: the kind, the namespace, the name, the token, the
    times, and the identifiers of the labels; with MariaDB, the name of a wildcard
    is a placeholder instead, and labels have none. *)
Theorem list_values `{!LabelEngine} (k : DatabaseKind) (t : LabelTables) (a : QueryArgs) (sb : SqlSelect) :
  buildQuery k t (ResourceList a) = Ok sb →
  (BuildWithFlavor k sb).2 = listValues k t a ++ limitValues (sq_Limit sb).
Proof.
  intros Hq. by rewrite (Build_values k sb _ (listQuery_placed k t a sb Hq)), listValues_flat.
Qed.

(** ** MariaDB *)

(** The same request with another name and other label filters. *)
Definition asking (name : string) (lf : LabelFilters) (a : QueryArgs) : QueryArgs :=
  {| qa_kind := qa_kind a; qa_apiVersion := qa_apiVersion a; qa_namespace := qa_namespace a; qa_name := name;
     qa_continueId := qa_continueId a; qa_continueDate := qa_continueDate a;
     qa_labelFilters := Some lf; qa_after := qa_after a; qa_before := qa_before a; qa_limit := qa_limit a |}.

Lemma ContainsByte_nonempty s c : ContainsByte s c = true → nonempty s = true.
Proof. by destruct s. Qed.

(** C38: with MariaDB the query of a list with a wildcard does not depend on the
    wildcard, nor on what the label filters say: text and arguments are those of any
    other name with a wildcard and any other filters of the same groups.  The
    condition on the name compares it with a placeholder, which the library is given
    for a value, and the filters are stubs. *)
Theorem mariadb_pattern_lost `{!LabelEngine} (t : LabelTables) (a : QueryArgs) (name : string)
    (lf lf' : LabelFilters) (sb sb' : SqlSelect) :
  qa_labelFilters a = Some lf → labelShape MariaDB t lf = labelShape MariaDB t lf' →
  ContainsByte (qa_name a) "*"%char = true → ContainsByte name "*"%char = true →
  buildQuery MariaDB t (ResourceList a) = Ok sb →
  buildQuery MariaDB t (ResourceList (asking name lf' a)) = Ok sb' →
  BuildWithFlavor MariaDB sb = BuildWithFlavor MariaDB sb'.
Proof.
  intros Hlf Hsh Hn Hn' Hq Hq'. pose proof (ContainsByte_nonempty _ _ Hn) as He.
  pose proof (ContainsByte_nonempty _ _ Hn') as He'.
  assert (sameList MariaDB t a (asking name lf' a)) as Hs.
  { split; cbn; try done; [congruence|congruence|]. intros l l' Hl [= <-]. by rewrite Hlf in Hl; injection Hl as <-. }
  pose proof (listQuery_alike MariaDB t a _ sb sb' Hs Hq Hq') as Hst.
  apply injective_projections; [by apply Build_text|].
  rewrite (Build_values _ _ _ (listQuery_placed _ _ _ _ Hq)), (Build_values _ _ _ (listQuery_placed _ _ _ _ Hq')).
  destruct Hst as (_ & _ & _ & _ & _ & -> & _). do 2 f_equal.
  unfold listValues, isList, nameValues. cbn [asking qa_name qa_labelFilters]. rewrite Hlf, Hn, Hn', He, He'.
  change (selectorValues (asking name lf' a)) with (selectorValues a).
  change (tokenValues (asking name lf' a)) with (tokenValues a).
  change (timeValues MariaDB (asking name lf' a)) with (timeValues MariaDB a).
  destruct (Var_text (VString (patternOf a)) (VString (patternOf (asking name lf' a))) eq_refl
    (selectorValues a) (selectorValues a) eq_refl) as [-> _]. done.
Qed.

(** ** The queries of [Pagination] as texts *)

(** The text of a condition of PostgreSQL. *)
Definition whereText (w : Where) : Builder Text :=
  match w with
  | KindApiVersionFilter kind apiVersion => kindApiVersionText kind apiVersion
  | NamespaceFilter namespace => namespaceText namespace
  | NameFilter name => nameText name
  | NameWildcardFilter pattern => nameWildcardText PostgreSQL pattern
  | CreationTSAndIDFilter continueDate continueId => creationTSAndIDText PostgreSQL continueDate continueId
  | CreationTimestampAfterFilter timestamp => comparedTime PostgreSQL " > " timestamp
  | CreationTimestampBeforeFilter timestamp => comparedTime PostgreSQL " < " timestamp
  | LabelFilter c => condText c
  | UuidFilter uuid => uuidText uuid
  end.

Definition render (q : Pagination.Select) : SqlSelect :=
  let sb := wheres (whereText <$> sel_where q) (resourceSelector PostgreSQL) in
  let sb := if sel_sorted q then CreationTSAndIDSorter PostgreSQL sb else sb in
  match sel_limit q with Some n => limit_ n sb | None => sb end.

(** For PostgreSQL the query the reader builds is the text of the query the
    other theorems speak of, condition by condition, and fails when it fails. *)
Theorem listQuery_refines `{!LabelEngine} (t : LabelTables) (a : QueryArgs) :
  buildQuery PostgreSQL t (ResourceList a) = render <$> buildResourceListQuery t a.
Proof.
  assert (baseTexts PostgreSQL a = whereText <$> baseFilters a) as Hb.
  { unfold baseTexts, baseFilters. rewrite !fmap_app. f_equal. f_equal; repeat case_match; done. }
  assert (tokenTexts PostgreSQL a ++ timeTexts PostgreSQL a =
    whereText <$> tokenFilter a ++ timeFilters a) as Hp.
  { unfold tokenTexts, timeTexts, tokenFilter, timeFilters. rewrite !fmap_app.
    f_equal; [by case_match|]. by f_equal; case_match. }
  cbn [buildQuery]. unfold listQuery, buildResourceListQuery, labelTexts.
  destruct (isList a).
  2: { cbn [fmap outcome_fmap]. unfold render. cbn [sel_where sel_sorted sel_limit]. by rewrite Hb. }
  destruct (qa_labelFilters a) as [lf|]; [|done].
  assert (∀ ms cs, ms = whereText <$> cs →
    limit_ (qa_limit a) (CreationTSAndIDSorter PostgreSQL (wheres
      (tokenTexts PostgreSQL a ++ timeTexts PostgreSQL a ++ ms)
      (wheres (baseTexts PostgreSQL a) (resourceSelector PostgreSQL)))) =
    render {| sel_where := baseFilters a ++ tokenFilter a ++ timeFilters a ++ cs;
              sel_sorted := true; sel_limit := Some (qa_limit a) |}) as Hr.
  { intros ms cs ->. unfold render. cbn [sel_where sel_sorted sel_limit]. do 2 f_equal.
    unfold wheres. rewrite <-foldl_app. f_equal.
    rewrite Hb, (app_assoc (tokenTexts _ _)), Hp, !fmap_app. by rewrite <-app_assoc. }
  destruct (IsEmpty lf).
  - cbn [mbind outcome_bind fmap outcome_fmap]. by rewrite (Hr [] []).
  - destruct (ApplyLabelFilters t lf) as [cs|]; [|done].
    cbn [mbind outcome_bind fmap outcome_fmap].
    by rewrite (Hr _ (LabelFilter <$> cs)) by by rewrite <-list_fmap_compose.
Qed.
End facts.

(** ** A concrete builder, for the witnesses *)
Module SqlSamples.

Definition var (v : SqlValue) : Builder Text := λ args, ([Arg (length args)], args ++ [v]).

(** A condition is its field, an operator and the placeholders of its values. *)
Definition condition (field op : string) (vs : list SqlValue) : Builder Text :=
  λ args, (Lit (field +:+ op) :: (Arg <$> seq (length args) (length vs)), args ++ vs).

Definition between (sep : string) (ts : list Text) : Text :=
  Lit "(" :: concat ((λ t, t ++ [Lit sep]) <$> ts) ++ [Lit ")"].

Definition piece (widths : list (option nat)) (p : Piece) : string :=
  match p with
  | Lit s => s
  | Arg i => match widths !! i with
             | Some (Some n) => String.concat ", " (replicate n "?")
             | _ => "?"
             end
  end.

Definition build (sb : SqlSelect) : string :=
  "SELECT " +:+ String.concat ", " (sq_Select sb) +:+ " FROM " +:+ sq_From sb +:+
  String.concat "" ((λ '(t, c), " JOIN " +:+ t +:+ " ON " +:+ c) <$> sq_Join sb) +:+ " WHERE " +:+
  String.concat " AND " ((λ t, String.concat "" (piece (width <$> sq_Args sb) <$> t)) <$> sq_Where sb) +:+
  " ORDER BY " +:+ String.concat ", " (sq_OrderByDesc sb) +:+
  match sq_Limit sb with Some n => " LIMIT " +:+ FormatInt n | None => "" end.

Definition values (sb : SqlSelect) : list SqlValue :=
  omap (λ i, sq_Args sb !! i) (concat (places <$> sq_Where sb)) ≫= flatten.

Lemma condition_adds f op vs : adds (condition f op vs) vs.
Proof.
  intros args. split; [done|]. cbn. generalize (length args).
  induction vs as [|v vs IH]; intros n; [done|]. cbn. f_equal. apply IH.
Qed.

Lemma condition_text f op vs vs' : width <$> vs = width <$> vs' → alike (condition f op vs) (condition f op vs').
Proof.
  intros Hv args args' Ha. pose proof (f_equal length Hv) as Hl. pose proof (f_equal length Ha) as Hl'.
  rewrite !length_fmap in Hl, Hl'. cbn. by rewrite !fmap_app, Hl, Hl', Hv, Ha.
Qed.

Lemma between_places sep ts : places (between sep ts) = concat (places <$> ts).
Proof.
  unfold between. cbn. rewrite places_app. cbn. rewrite app_nil_r.
  induction ts as [|t ts IH]; [done|]. cbn. rewrite !places_app. cbn. by rewrite app_nil_r, IH.
Qed.

#[export] Instance builder : SqlBuilder.
Proof.
  refine {| As := λ e a, e +:+ " AS " +:+ a; Var := var;
            Equal := λ f v, condition f " = " [v]; Like := λ f v, condition f " LIKE " [v];
            In := λ f vs, condition f " IN " vs; And := between " AND "; Or := between " OR ";
            BuildWithFlavor := λ _ sb, (build sb, values sb); limitValues := λ _, [] |}.
  - done.
  - intros. apply condition_adds.
  - intros. apply condition_adds.
  - intros. apply condition_adds.
  - intros v v' Hv args args' Ha. pose proof (f_equal length Ha) as Hl. rewrite !length_fmap in Hl.
    cbn. by rewrite !fmap_app, Hl, Ha; cbn; rewrite Hv.
  - intros f v v' Hv. apply condition_text. cbn. by rewrite Hv.
  - intros f v v' Hv. apply condition_text. cbn. by rewrite Hv.
  - intros. by apply condition_text.
  - apply between_places.
  - apply between_places.
  - intros _ sb sb' (H1 & H2 & H3 & H4 & H5 & H6 & H7). cbn. unfold build.
    by rewrite H1, H2, H3, H4, H5, H6, H7.
  - intros _ sb vs Hp. cbn. unfold values. rewrite app_nil_r. f_equal. unfold placed in Hp.
    revert vs Hp. induction (concat _) as [|i l IH]; intros [|v vs] Hp; try done.
    cbn in Hp |- *. injection Hp as -> Hp. f_equal. by apply IH.
Defined.

#[export] Instance layout : DateTimeLayout := {| TimeFormatDateTime := id |}.

Definition request (name : string) : QueryArgs :=
  {| qa_kind := "Pod"; qa_apiVersion := "v1"; qa_namespace := "ns"; qa_name := name;
     qa_continueId := ""; qa_continueDate := ""; qa_labelFilters := Some noFilters;
     qa_after := None; qa_before := None; qa_limit := 100 |}.

Definition empty : LabelTables := {| lt_keys := ∅; lt_labels := ∅; lt_key_of := ∅; lt_resource := [] |}.

(** The query of a request, if it has one. *)
Definition queryOf (k : DatabaseKind) (name : string) : SqlSelect :=
  match buildQuery k empty (ResourceList (request name)) with Ok sb => sb | _ => VersionSelector end.

End SqlSamples.
Import SqlSamples.

Example wildcard_of_postgres :
  (BuildWithFlavor PostgreSQL (queryOf PostgreSQL "a*")).2 =
  [VString "Pod"; VString "v1"; VString "ns"; VString "a%"].
Proof. vm_compute. reflexivity. Qed.

Lemma request_never_in_text_witness :
  (BuildWithFlavor PostgreSQL (queryOf PostgreSQL "a*")).1 =
  (BuildWithFlavor PostgreSQL (queryOf PostgreSQL "'; DROP TABLE resource --*")).1.
Proof.
  apply (request_never_in_text PostgreSQL SqlSamples.empty (ResourceList (request "a*"))
    (ResourceList (request "'; DROP TABLE resource --*"))).
  - split; try reflexivity. intros lf lf' [= <-] [= <-]. reflexivity.
  - vm_compute. reflexivity.
  - vm_compute. reflexivity.
Defined.

Lemma list_values_witness :
  (BuildWithFlavor MariaDB (queryOf MariaDB "a*")).2 =
  listValues MariaDB SqlSamples.empty (request "a*") ++ limitValues (sq_Limit (queryOf MariaDB "a*")).
Proof. apply (list_values MariaDB SqlSamples.empty (request "a*")). vm_compute. reflexivity. Defined.

Lemma mariadb_pattern_lost_witness :
  BuildWithFlavor MariaDB (queryOf MariaDB "a*") = BuildWithFlavor MariaDB (queryOf MariaDB "b*").
Proof.
  apply (mariadb_pattern_lost SqlSamples.empty (request "a*") "b*" noFilters noFilters); vm_compute; reflexivity.
Defined.
