(* ===== verification/Migrations.v ===== *)
(** * [integrations/database/postgresql/main.go]: the migrations of the schema

    The scripts of a directory are run after the migrations they are named after.  The
    library that migrates, [golang-migrate], and the shell are parameters: a trace tells
    what was done. *)
From S2P Require Import Prelude GoLib GoStrings.
From Stdlib Require DecimalString.
From stdpp Require Import sorting.

(** ** Scripts *)

Record scriptEntry := { se_afterVersion : Z; se_name : string; se_path : string }.

(** [strconv.ParseUint] in base 10 on 32 bits. *)
Definition ParseUint32 (s : string) : option Z :=
  match DecimalString.NilZero.uint_of_string s with
  | Some d => if (Z.of_uint d <? 2 ^ 32)%Z then Some (Z.of_uint d) else None
  | None => None
  end.

Definition IsDigit (c : ascii) : bool :=
  let n := nat_of_ascii c in ((48 <=? n) && (n <=? 57))%nat.

(** The digits a text starts with, and the rest. *)
Fixpoint digits (s : string) : string * string :=
  match s with
  | EmptyString => ("", "")
  | String c t => if IsDigit c then let '(d, r) := digits t in (String c d, r) else ("", s)
  end.

(** The digits before an underscore, and what follows it; some digits are needed. *)
Definition digitsField (s : string) : option (string * string) :=
  match digits s with
  | ("", _) => None
  | (d, String "_" r) => Some (d, r)
  | _ => None
  end.

(** [scriptPattern]: two fields of digits and a name in [.sh], on one line. *)
Definition scriptPattern (name : string) : option string :=
  match digitsField name with
  | None => None
  | Some (after, r) =>
      match digitsField r with
      | None => None
      | Some (_, r) =>
          let base := TrimSuffix r ".sh" in
          if HasSuffix r ".sh" && nonempty base && negb (ContainsByte base "010"%char)
          then Some after else None
      end
  end.

(** The script of an entry of the directory. *)
Definition scriptOf (migrationsDir : string) (entry : string * bool) : option scriptEntry :=
  let '(name, isDir) := entry in
  if isDir then None
  else
    match scriptPattern name with
    | None => None
    | Some after =>
        (λ v, {| se_afterVersion := v; se_name := name; se_path := migrationsDir +:+ "/" +:+ name |})
        <$> ParseUint32 after
    end.

(** The order of the scripts. *)
Definition scriptLe (a b : scriptEntry) : Prop :=
  (se_afterVersion a < se_afterVersion b)%Z ∨
  se_afterVersion a = se_afterVersion b ∧ String.le (se_name a) (se_name b).

#[export] Instance scriptLe_dec : RelDecision scriptLe.
Proof. intros a b. unfold scriptLe. apply _. Defined.

(** [discoverScripts]; [None] is the error of the directory. *)
Definition discoverScripts (entries : option (list (string * bool))) (migrationsDir : string)
    : option (list scriptEntry) :=
  (λ es, merge_sort scriptLe (omap (scriptOf migrationsDir) es)) <$> entries.

(** ** The library *)

Inductive MigrateResult := Migrated | NoChange | NotExist | MigrateError (e : string).

(** The versions above one, of the versions in a directory. *)
Definition above (source : list Z) (v : Z) : list Z := filter (λ w, (v < w)%Z) source.

(** A database under migration: its version, 0 when there is none, the reading of it, which
    fails when there is none and may fail otherwise, a step up, a migration to a version and
    one to the last; what they do when they succeed or have nothing to do.  A step has
    nothing to do at the end of the source, and when the source has not the version of the
    database. *)
Class MigrateLib := {
  MigrateState : Type;
  source : list Z;
  dbVersion : MigrateState → Z;
  Version : MigrateState → MigrateState * option Z;
  Steps : MigrateState → MigrateState * MigrateResult;
  MigrateTo : Z → MigrateState → MigrateState * MigrateResult;
  Up : MigrateState → MigrateState * MigrateResult;
  source_sorted : StronglySorted Z.lt source;
  source_positive : Forall (λ v, 0 < v)%Z source;
  Version_state s s' r : Version s = (s', r) → dbVersion s' = dbVersion s;
  Version_read s s' v : Version s = (s', Some v) → v = dbVersion s;
  Steps_migrated s s' : Steps s = (s', Migrated) → head (above source (dbVersion s)) = Some (dbVersion s');
  Steps_nothing s s' r : Steps s = (s', r) → r = NoChange ∨ r = NotExist →
    dbVersion s' = dbVersion s ∧
    (above source (dbVersion s) = [] ∨ dbVersion s ≠ 0%Z ∧ dbVersion s ∉ source);
}.

(** The shell: the error of a script, at its place among those run. *)
Class Shell := { executeScript : nat → string → option string }.

(** ** Runs *)

Inductive Event := ScriptRun (path : string) | Stepped (version : Z) | MigratedTo (version : option Z).

(** What made the process panic. *)
Inductive Panicked :=
| BadScripts | BadTarget (s : string) | ScriptFailed (name e : string) | MigrationFailed (r : MigrateResult).

Section migrations.
  Context `{!MigrateLib, !Shell}.

(** [runScriptsForVersion], over the scripts of the version: the scripts that were run
    with success, and the panic of the first that failed. *)
Fixpoint runScripts (n : nat) (scripts : list scriptEntry) : list Event * option Panicked :=
  match scripts with
  | [] => ([], None)
  | s :: scripts =>
      match executeScript n (se_path s) with
      | Some e => ([], Some (ScriptFailed (se_name s) e))
      | None => let '(trace, p) := runScripts (S n) scripts in (ScriptRun (se_path s) :: trace, p)
      end
  end.

Definition scriptsFor (scripts : list scriptEntry) (version : Z) : list scriptEntry :=
  filter (λ s, se_afterVersion s = version) scripts.

Definition runScriptsForVersion (n : nat) (scripts : list scriptEntry) (version : Z)
    : list Event * option Panicked := runScripts n (scriptsFor scripts version).

(** The migrations of a directory without scripts. *)
Definition runMigrations (target : option string) (s : MigrateState)
    : list Event * option Panicked * MigrateState :=
  let finish ev (sr : MigrateState * MigrateResult) :=
    match sr.2 with
    | Migrated => ([ev], None, sr.1)
    | NoChange => ([], None, sr.1)
    | r => ([], Some (MigrationFailed r), sr.1)
    end in
  match target with
  | Some t =>
      match ParseUint32 t with
      | None => ([], Some (BadTarget t), s)
      | Some v => finish (MigratedTo (Some v)) (MigrateTo v s)
      end
  | None => finish (MigratedTo None) (Up s)
  end.

(** [m.Version()] with its error dropped: a version that cannot be read is zero. *)
Definition seenVersion (s : MigrateState) : Z * MigrateState :=
  let '(s, v) := Version s in (default 0%Z v, s).

(** The test of the target at the top of the loop, which reads the version if there is one. *)
Definition atTarget (target : option Z) (s : MigrateState) : bool * MigrateState :=
  match target with
  | None => (false, s)
  | Some t => let '(v, s) := seenVersion s in ((t <=? v)%Z, s)
  end.

(** The loop of [main]; [None] when [fuel] steps did not end it. *)
Fixpoint stepLoop (fuel n : nat) (scripts : list scriptEntry) (target : option Z) (s : MigrateState)
    : option (list Event * option Panicked * MigrateState) :=
  match fuel with
  | O => None
  | S fuel =>
      let '(reached, s) := atTarget target s in
      if reached then Some ([], None, s)
      else
        match Steps s with
        | (s, NoChange) | (s, NotExist) => Some ([], None, s)
        | (s, MigrateError e) => Some ([], Some (MigrationFailed (MigrateError e)), s)
        | (s, Migrated) =>
            let '(newVersion, s) := seenVersion s in
            let '(ran, p) := runScriptsForVersion n scripts newVersion in
            match p with
            | Some p => Some (Stepped newVersion :: ran, Some p, s)
            | None =>
                '(trace, p, s) ← stepLoop fuel (n + length ran) scripts target s;
                Some (Stepped newVersion :: ran ++ trace, p, s)
            end
        end
  end.

(** [main] with some scripts, once the target is known. *)
Definition migrateWithScripts (fuel : nat) (scripts : list scriptEntry) (target : option Z) (s : MigrateState)
    : option (list Event * option Panicked * MigrateState) :=
  let '(currentVersion, s) := seenVersion s in
  let '(ran, p) :=
    if (currentVersion =? 0)%Z then ([], None) else runScriptsForVersion 0 scripts currentVersion in
  match p with
  | Some p => Some (ran, Some p, s)
  | None =>
      match target with
      | Some t =>
          if (t <? currentVersion)%Z then
            match MigrateTo t s with
            | (s, Migrated) => Some (ran ++ [MigratedTo (Some t)], None, s)
            | (s, NoChange) => Some (ran, None, s)
            | (s, r) => Some (ran, Some (MigrationFailed r), s)
            end
          else '(trace, p, s) ← stepLoop fuel (length ran) scripts target s; Some (ran ++ trace, p, s)
      | None => '(trace, p, s) ← stepLoop fuel (length ran) scripts target s; Some (ran ++ trace, p, s)
      end
  end.

(** [main] after the database is opened: [target] is [MIGRATION_VERSION], when it is set
    and not empty. *)
Definition migrateMain (fuel : nat) (entries : option (list (string * bool))) (migrationsDir : string)
    (target : option string) (s : MigrateState) : option (list Event * option Panicked * MigrateState) :=
  match discoverScripts entries migrationsDir with
  | None => Some ([], Some BadScripts, s)
  | Some [] => Some (runMigrations target s)
  | Some scripts =>
      match target with
      | None => migrateWithScripts fuel scripts None s
      | Some t =>
          match ParseUint32 t with
          | None => Some ([], Some (BadTarget t), s)
          | Some v => migrateWithScripts fuel scripts (Some v) s
          end
      end
  end.
End migrations.

(** ** What a run does *)

Section runs.
  Context `{!MigrateLib, !Shell}.

Lemma above_step v w : head (above source v) = Some w → above source v = w :: above source w.
Proof.
  intros Hh. pose proof (StronglySorted_filter Z.lt (λ x, (v < x)%Z) _ source_sorted) as Hs.
  assert (above source w = above (above source v) w) as ->.
  { unfold above. rewrite list_filter_filter_l; [done|].
    assert (w ∈ above source v) as Hw by (destruct (above source v); [done|injection Hh as ->; by left]).
    apply list_elem_of_filter in Hw as [Hw _]. intros x Hx. lia. }
  unfold above in *. destruct (filter _ source) as [|x l]; [done|]. injection Hh as ->.
  apply StronglySorted_inv in Hs as [Hs Hx]. rewrite filter_cons_False by lia. f_equal. symmetry.
  apply filter_all. intros y Hy. rewrite Forall_forall in Hx. by apply Hx.
Qed.

Definition scriptEvents (scripts : list scriptEntry) (v : Z) : list Event :=
  (ScriptRun ∘ se_path) <$> scriptsFor scripts v.

Lemma runScripts_prefix n scripts trace p :
  runScripts n scripts = (trace, p) →
  trace `prefix_of` ((ScriptRun ∘ se_path) <$> scripts) ∧
  (p = None → trace = (ScriptRun ∘ se_path) <$> scripts).
Proof.
  revert n trace p. induction scripts as [|s scripts IH]; intros n trace p; cbn [runScripts].
  { by intros [= <- <-]. }
  destruct (executeScript n (se_path s)) as [e|]; [intros [= <- <-]; split; [apply prefix_nil|done]|].
  destruct (runScripts (S n) scripts) as [trace' p'] eqn:E. intros [= <- <-].
  destruct (IH (S n) trace' p' E) as [Hp He]. split; [by apply prefix_cons|].
  intros Hn. by rewrite (He Hn).
Qed.

(** Whether a version is the target or beyond. *)
Definition reached (target : option Z) (v : Z) : bool :=
  match target with Some t => (t <=? v)%Z | None => false end.

(** The versions a run goes through: up to the first that reaches the target. *)
Fixpoint upTo (target : option Z) (versions : list Z) : list Z :=
  match versions with
  | [] => []
  | v :: versions => v :: (if reached target v then [] else upTo target versions)
  end.

Definition upgrades (target : option Z) (v : Z) : list Z :=
  if reached target v then [] else upTo target (above source v).

(** Each version and, after it, its scripts. *)
Definition upgradeEvents (scripts : list scriptEntry) (versions : list Z) : list Event :=
  versions ≫= λ v, Stepped v :: scriptEvents scripts v.

Lemma upgrades_step target v w :
  reached target v = false → head (above source v) = Some w → upgrades target v = w :: upgrades target w.
Proof. intros Hr Hh. unfold upgrades. rewrite Hr, (above_step v w Hh). done. Qed.

(** Some of the events of a run were done, in order, and all when it did not panic. *)
Definition followed (expected : list Event) (final : Z) (r : list Event * option Panicked * MigrateState) : Prop :=
  r.1.1 `prefix_of` expected ∧ (r.1.2 = None → r.1.1 = expected ∧ dbVersion r.2 = final).

(** The versions of a directory that are above another. *)
Definition pending (s : MigrateState) : nat := length (above source (dbVersion s)).

Lemma seenVersion_state s v s' : seenVersion s = (v, s') → dbVersion s' = dbVersion s.
Proof.
  unfold seenVersion. destruct (Version s) as [s1 r] eqn:E. intros [= _ <-]. by eapply Version_state.
Qed.

Lemma atTarget_state target s b s' : atTarget target s = (b, s') → dbVersion s' = dbVersion s.
Proof.
  destruct target as [t|]; cbn; [|by intros [= _ <-]].
  destruct (seenVersion s) as [v s1] eqn:E. intros [= _ <-]. by eapply seenVersion_state.
Qed.

(** Whatever is read, the loop ends: a step that migrates leaves one version less above. *)
Lemma stepLoop_ends fuel n scripts target s :
  (pending s < fuel)%nat → is_Some (stepLoop fuel n scripts target s).
Proof.
  unfold pending. revert n s. induction fuel as [|fuel IH]; intros n s Hf; [lia|]. cbn [stepLoop].
  destruct (atTarget target s) as [reached s1] eqn:Et. apply atTarget_state in Et.
  destruct reached; [done|]. destruct (Steps s1) as [s2 []] eqn:Es; [|done..].
  apply Steps_migrated, above_step in Es. rewrite Et in Es. rewrite Es in Hf. cbn in Hf.
  destruct (seenVersion s2) as [v s3] eqn:Ev. apply seenVersion_state in Ev.
  destruct (runScriptsForVersion n scripts v) as [ran [p|]]; [done|].
  destruct (IH (n + length ran)%nat s3) as [[[trace p] s4] ->]; [rewrite Ev; lia|done].
Qed.

(** The readings of the version succeed. *)
Definition reading : Prop := ∀ s, (seenVersion s).1 = dbVersion s.

(** The directory has the version of the database. *)
Definition knownVersion (v : Z) : Prop := v = 0%Z ∨ v ∈ source.

Lemma head_above_known v w : head (above source v) = Some w → knownVersion w.
Proof. intros Hh%head_Some_elem_of%list_elem_of_filter. right. by destruct Hh. Qed.

Lemma Steps_end s s' r : Steps s = (s', r) → r = NoChange ∨ r = NotExist → knownVersion (dbVersion s) →
  above source (dbVersion s) = [] ∧ dbVersion s' = dbVersion s.
Proof.
  intros Es Hr Hk. destruct (Steps_nothing _ _ _ Es Hr) as [Hv [Ha|[Hz Hs]]]; [by split|].
  by destruct Hk.
Qed.

Lemma stepLoop_follows (Hread : reading) fuel n scripts target s r :
  knownVersion (dbVersion s) → stepLoop fuel n scripts target s = Some r →
  followed (upgradeEvents scripts (upgrades target (dbVersion s)))
    (default (dbVersion s) (last (upgrades target (dbVersion s)))) r.
Proof.
  revert n s r. induction fuel as [|fuel IH]; intros n s r Hk; [done|]. cbn [stepLoop].
  destruct (atTarget target s) as [b s1] eqn:Et.
  assert (b = reached target (dbVersion s) ∧ dbVersion s1 = dbVersion s) as [-> Hs1].
  { split; [|by eapply atTarget_state]. destruct target as [t|]; cbn in *; [|by injection Et].
    specialize (Hread s). destruct (seenVersion s) as [v s']. cbn in Hread. injection Et as <- _. by subst v. }
  destruct (reached target (dbVersion s)) eqn:Hr.
  { intros [= <-]. unfold upgrades. rewrite Hr. split; [done|]. by intros _. }
  rewrite <-Hs1 in Hk, Hr |- *. clear Hs1 Et s.
  destruct (Steps s1) as [s2 []] eqn:Es.
  - pose proof (Steps_migrated _ _ Es) as Hh. rewrite (upgrades_step target _ _ Hr Hh).
    destruct (seenVersion s2) as [v s3] eqn:Ev.
    assert (v = dbVersion s2) as -> by (specialize (Hread s2); by rewrite Ev in Hread).
    apply seenVersion_state in Ev.
    destruct (runScriptsForVersion n scripts (dbVersion s2)) as [ran p] eqn:Ep.
    apply runScripts_prefix in Ep as [Hpre Hall].
    change (upgradeEvents scripts (dbVersion s2 :: ?l)) with
      (Stepped (dbVersion s2) :: scriptEvents scripts (dbVersion s2) ++ upgradeEvents scripts l).
    destruct p as [p|].
    + intros [= <-]. split; [|done]. cbn. apply prefix_cons. by apply prefix_app_r.
    + specialize (Hall eq_refl). fold (scriptEvents scripts (dbVersion s2)) in Hall. subst ran.
      destruct (stepLoop _ _ _ _ s3) as [[[trace p] s4]|] eqn:El; [|done]. cbn. intros [= <-].
      apply IH in El as [Hp Hd]; [|rewrite Ev; by eapply head_above_known]. rewrite Ev in Hp, Hd.
      unfold followed. cbn [fst snd] in Hp, Hd |- *. split; [apply prefix_cons, prefix_app, Hp|].
      intros Hn. destruct (Hd Hn) as [-> ->]. split; [done|].
      rewrite last_cons. by destruct (last (upgrades target (dbVersion s2))).
  - intros [= <-]. destruct (Steps_end _ _ _ Es) as [Ha Hv]; [by left|done|].
    unfold upgrades. rewrite Hr, Ha. split; [done|]. by rewrite <-Hv.
  - intros [= <-]. destruct (Steps_end _ _ _ Es) as [Ha Hv]; [by right|done|].
    unfold upgrades. rewrite Hr, Ha. split; [done|]. by rewrite <-Hv.
  - intros [= <-]. split; [apply prefix_nil|done].
Qed.

Lemma migrateWithScripts_ends scripts target s :
  is_Some (migrateWithScripts (S (pending s)) scripts target s).
Proof.
  unfold migrateWithScripts. destruct (seenVersion s) as [v s1] eqn:Ev. apply seenVersion_state in Ev.
  destruct (if (v =? 0)%Z then _ else _) as [ran [p|]]; [done|].
  destruct (stepLoop_ends (S (pending s)) (length ran) scripts target s1) as [[[trace p] s2] ->];
    [unfold pending; rewrite Ev; lia|].
  destruct target as [t|]; [|done]. destruct (t <? v)%Z; [|done]. by destruct (MigrateTo t s1) as [? []].
Qed.

(** C35: a run with scripts ends, after at most one step more than there are versions above,
    even if readings of the version fail.  When they succeed, the directory has the version
    of the database and the target is not below it, the run goes through the versions above
    in order, up to the first that reaches the target, the scripts of each run after it and
    before the next migration, those of the version it starts at before the first; when a
    migration or a script fails, what was done before is the beginning of that. *)
Theorem migrateMain_upgrades entries dir scripts target t s
    (Hscripts : discoverScripts entries dir = Some scripts) (Hsome : scripts ≠ [])
    (Ht : match target with Some x => ParseUint32 x = t ∧ is_Some t | None => t = None end) :
  ∃ r, migrateMain (S (pending s)) entries dir target s = Some r ∧
    (reading → knownVersion (dbVersion s) →
     match t with Some v => (dbVersion s <= v)%Z | None => True end →
     followed ((if (dbVersion s =? 0)%Z then [] else scriptEvents scripts (dbVersion s)) ++
               upgradeEvents scripts (upgrades t (dbVersion s)))
       (default (dbVersion s) (last (upgrades t (dbVersion s)))) r).
Proof.
  assert (migrateMain (S (pending s)) entries dir target s = migrateWithScripts (S (pending s)) scripts t s) as ->.
  { unfold migrateMain. rewrite Hscripts. destruct scripts as [|x l]; [done|].
    destruct target as [x'|]; [|by subst t]. by destruct Ht as [-> [v ->]]. }
  destruct (migrateWithScripts_ends scripts t s) as [r Hrun]. exists r. split; [done|].
  intros Hread Hk Hup. revert Hrun. generalize (S (pending s)) as fuel. intros fuel. unfold migrateWithScripts.
  destruct (seenVersion s) as [v s1] eqn:Ev.
  assert (v = dbVersion s) as -> by (specialize (Hread s); by rewrite Ev in Hread).
  apply seenVersion_state in Ev.
  destruct (if (dbVersion s =? 0)%Z then _ else _) as [ran p] eqn:Ep.
  set (first := if (dbVersion s =? 0)%Z then [] else scriptEvents scripts (dbVersion s)).
  assert (ran `prefix_of` first ∧ (p = None → ran = first)) as [Hpre Hall].
  { unfold first. destruct (dbVersion s =? 0)%Z; [by injection Ep as <- <-|]. by apply runScripts_prefix in Ep. }
  destruct p as [p|].
  { intros [= <-]. split; [by apply prefix_app_r|done]. }
  rewrite (Hall eq_refl). intros Hrun.
  assert (('(trace, p, s) ← stepLoop fuel (length first) scripts t s1; Some (first ++ trace, p, s))
    = Some r) as Hloop.
  { destruct t as [v|]; [rewrite (proj2 (Z.ltb_ge _ _)) in Hrun by done|]; done. }
  destruct (stepLoop _ _ _ _ s1) as [[[trace p] s2]|] eqn:El; [|done]. injection Hloop as <-.
  apply stepLoop_follows in El as [Hp Hd]; [|done|by rewrite Ev]. rewrite Ev in Hp, Hd.
  cbn [fst snd] in Hp, Hd. unfold followed. cbn [fst snd]. split; [by apply prefix_app|].
  intros Hn. by destruct (Hd Hn) as [-> ->].
Qed.
End runs.

(** ** The scripts of a directory *)

Lemma scriptLe_total a b : scriptLe a b ∨ scriptLe b a.
Proof.
  unfold scriptLe. destruct (Z.lt_trichotomy (se_afterVersion a) (se_afterVersion b)) as [|[|]]; [auto| |auto].
  destruct (total String.le (se_name a) (se_name b)); auto.
Qed.

(** The scripts are those of the entries whose name is of the pattern, in their order. *)
Lemma discoverScripts_spec es dir :
  ∃ scripts, discoverScripts (Some es) dir = Some scripts ∧ Sorted scriptLe scripts ∧
    ∀ s, s ∈ scripts ↔ ∃ e, e ∈ es ∧ scriptOf dir e = Some s.
Proof.
  eexists. split; [reflexivity|]. split.
  - apply Sorted_merge_sort. intros a b. apply scriptLe_total.
  - intros s. by rewrite merge_sort_Permutation, list_elem_of_omap.
Qed.

(** ** Samples *)

(** A database and whether its last migration failed, at one of the versions. *)
Definition sample_steps (broken : option Z) (s : Z * bool) : Z * bool * MigrateResult :=
  if s.2 then (s, MigrateError "dirty")
  else match head (above [1; 2; 5]%Z s.1) with
       | None => (s, NotExist)
       | Some v => if bool_decide (broken = Some v) then (v, true, MigrateError "syntax error")
                   else (v, false, Migrated)
       end.

Definition sample_migrate (broken : option Z) (unread : bool) : MigrateLib.
Proof.
  refine {| MigrateState := Z * bool; source := [1; 2; 5]%Z; dbVersion := fst;
            Version := λ s, (s, if unread || (s.1 =? 0)%Z then None else Some s.1); Steps := sample_steps broken;
            MigrateTo := λ v _, (v, false, Migrated); Up := λ s, (s, NoChange) |}.
  - repeat constructor; lia.
  - repeat constructor; lia.
  - by intros s s' r [= <- _].
  - intros s s' v. destruct (unread || _); by intros [= _ <-].
  - intros [v d] [v' d']. unfold sample_steps. cbn [fst snd]. destruct d; [done|].
    destruct (head _) as [w|]; [|done]. case_bool_decide; [done|]. by intros [= <- _].
  - intros [v d] [v' d'] r. unfold sample_steps. cbn [fst snd]. destruct d; [by intros [= _ _ <-] []|].
    destruct (above _ v) as [|w l] eqn:E; cbn [head]; [intros [= <- _ _] _; by auto|].
    case_bool_decide; by intros [= _ _ <-] [].
Defined.

#[local] Instance sample_shell : Shell := {| executeScript := λ _ _, None |}.

Definition sample_directory : option (list (string * bool)) :=
  Some [("02_05_names.sh", false); ("000001_init.up.sql", false); ("2_5_backfill.sh", false);
        ("02_05_archive.sh", true)].

Definition sample_scripts : list scriptEntry :=
  [{| se_afterVersion := 2; se_name := "02_05_names.sh"; se_path := "m/02_05_names.sh" |};
   {| se_afterVersion := 2; se_name := "2_5_backfill.sh"; se_path := "m/2_5_backfill.sh" |}].

Definition sample_migrateMain (broken : option Z) (unread : bool) (target : option string) (s : Z * bool) :
    option (list Event * option Panicked * (Z * bool)) :=
  @migrateMain (sample_migrate broken unread) sample_shell 4 sample_directory "m" target s.

Lemma migrateMain_upgrades_witness :
  ∃ r, sample_migrateMain None false (Some "5") (0%Z, false) = Some r ∧
    @followed (sample_migrate None false)
      [Stepped 1; Stepped 2; ScriptRun "m/02_05_names.sh"; ScriptRun "m/2_5_backfill.sh"; Stepped 5] 5%Z r.
Proof.
  destruct (@migrateMain_upgrades (sample_migrate None false) sample_shell sample_directory "m" sample_scripts
           (Some "5") (Some 5%Z) (0%Z, false)) as (r & Hr & Hf).
  - vm_compute. reflexivity.
  - discriminate.
  - split; [reflexivity|by eexists].
  - exists r. split; [exact Hr|]. apply Hf; [|by left|cbn; lia].
    intros [v d]. unfold seenVersion. cbn. by destruct (Z.eqb_spec v 0).
Defined.

(** A target between two versions is passed. *)
Lemma target_passed :
  sample_migrateMain None false (Some "3") (2%Z, false) =
  Some ([ScriptRun "m/02_05_names.sh"; ScriptRun "m/2_5_backfill.sh"; Stepped 5], None, (5%Z, false)).
Proof. vm_compute. reflexivity. Qed.

(** After a migration that failed, the next run runs the scripts of its version. *)
Lemma failed_migration_scripts :
  sample_migrateMain (Some 2%Z) false None (1%Z, false) =
    Some ([], Some (MigrationFailed (MigrateError "syntax error")), (2%Z, true)) ∧
  sample_migrateMain (Some 2%Z) false None (2%Z, true) =
    Some ([ScriptRun "m/02_05_names.sh"; ScriptRun "m/2_5_backfill.sh"],
          Some (MigrationFailed (MigrateError "dirty")), (2%Z, true)).
Proof. vm_compute. by split. Qed.

(** When the version cannot be read, the target is passed and no script is run. *)
Lemma unread_version_passes_target :
  sample_migrateMain None true (Some "2") (1%Z, false) =
  Some ([Stepped 0; Stepped 0], None, (5%Z, false)).
Proof. vm_compute. reflexivity. Qed.

(** A database whose version is not in the directory is left as it is. *)
Lemma unknown_version_kept (L : MigrateLib) (S : Shell) n scripts s s' :
  Steps s = (s', NotExist) → stepLoop 1 n scripts None s = Some ([], None, s').
Proof. intros Es. cbn. by rewrite Es. Qed.
