(* ===== verification/Installer.v ===== *)
(** * [cmd/installer]: the controller of installations

    A version of KubeArchive is downloaded and applied, what was applied is kept in the
    status, and deleted with the installation.  The world is the installation, the objects
    of the cluster, the deletions that were asked for and the faults of the calls to come;
    the release server, YAML and what the cluster makes of a deletion are parameters. *)
From S2P Require Import Prelude GoLib GoStrings.

Definition resourceFinalizerName : string := "kubearchive.org/installer-finalizer".

(** [Manifest]: how an object is known. *)
Record Manifest := { mf_APIVersion : string; mf_Kind : string; mf_Name : string; mf_Namespace : string }.

#[export] Instance Manifest_eq_dec : EqDecision Manifest.
Proof. solve_decision. Defined.
#[export] Instance Manifest_countable : Countable Manifest.
Proof.
  refine (inj_countable' (λ m, (mf_APIVersion m, mf_Kind m, mf_Name m, mf_Namespace m))
            (λ '(a, k, n, s), {| mf_APIVersion := a; mf_Kind := k; mf_Name := n; mf_Namespace := s |}) _).
  by intros [].
Defined.

(** [KubeArchiveInstallation]: [in_Deleting] is its deletion timestamp. *)
Record Installation := {
  in_Finalizers : list string; in_Deleting : bool; in_Version : string; in_Manifests : list Manifest;
}.

Definition withFinalizers (fs : list string) (i : Installation) : Installation :=
  {| in_Finalizers := fs; in_Deleting := in_Deleting i; in_Version := in_Version i;
     in_Manifests := in_Manifests i |}.
Definition withManifests (ms : list Manifest) (i : Installation) : Installation :=
  {| in_Finalizers := in_Finalizers i; in_Deleting := in_Deleting i; in_Version := in_Version i;
     in_Manifests := ms |}.

Record World := {
  w_installation : option Installation; w_objects : gset Manifest;
  w_deletions : list (Manifest * bool); w_faults : list bool;
}.

(** The answer of the release server, a status and a body, and a document of YAML: [None]
    is an error, and [Some None] a document that holds nothing.  The objects that are left
    when a deletion is answered: the object itself may stay while it terminates, as the
    namespace and the definitions of a release do, and others may go with it. *)
Class InstallLib := {
  HttpGet : string → option (Z * option string);
  UnmarshalDocument : string → option (option Manifest);
  afterDelete : Manifest → gset Manifest → gset Manifest;
}.

(** ** The client *)

(** Whether a call fails, and the world after it. *)
Definition callFails (w : World) : bool * World :=
  match w_faults w with
  | [] => (false, w)
  | f :: fs => (f, {| w_installation := w_installation w; w_objects := w_objects w;
                      w_deletions := w_deletions w; w_faults := fs |})
  end.

Definition setInstallation (i : option Installation) (w : World) : World :=
  {| w_installation := i; w_objects := w_objects w; w_deletions := w_deletions w; w_faults := w_faults w |}.
Definition setObjects (o : gset Manifest) (w : World) : World :=
  {| w_installation := w_installation w; w_objects := o; w_deletions := w_deletions w; w_faults := w_faults w |}.
(** A deletion that was asked for, and whether it was answered without an error. *)
Definition recordDeletion (m : Manifest) (answered : bool) (w : World) : World :=
  {| w_installation := w_installation w; w_objects := w_objects w;
     w_deletions := w_deletions w ++ [(m, answered)]; w_faults := w_faults w |}.

(** A call, [None] when it fails. *)
Definition Call (A : Type) : Type := World → option A * World.

Definition guarded {A} (act : World → A * World) : Call A := λ w,
  match callFails w with
  | (true, w) => (None, w)
  | (false, w) => let '(a, w) := act w in (Some a, w)
  end.

(** [Update]: an installation that is being deleted goes away with its last finalizer; the
    status is not written. *)
Definition updateInstallation (i : Installation) : Call () :=
  guarded (λ w,
    let stored := withManifests (default [] (in_Manifests <$> w_installation w)) i in
    ((), setInstallation (if in_Deleting i && bool_decide (in_Finalizers i = []) then None else Some stored) w)).

(** [Status().Update]. *)
Definition updateStatus (i : Installation) : Call () :=
  guarded (λ w, ((), setInstallation (withManifests (in_Manifests i) <$> w_installation w) w)).

(** [Delete], without an error when there is nothing; it is answered before the object is
    gone. *)
Definition deleteObject `{!InstallLib} (m : Manifest) : Call () := λ w,
  let '(r, w) := guarded (λ w, ((), setObjects (afterDelete m (w_objects w)) w)) w in
  (r, recordDeletion m (bool_decide (is_Some r)) w).

(** [Patch] with [Apply]. *)
Definition applyObject (m : Manifest) : Call () :=
  guarded (λ w, ((), setObjects ({[m]} ∪ w_objects w) w)).

(** Calls one after the other, up to the first that fails. *)
Fixpoint forEach {A} (call : A → Call ()) (l : list A) : Call () := λ w,
  match l with
  | [] => (Some (), w)
  | a :: l =>
      match call a w with
      | (None, w) => (None, w)
      | (Some _, w) => forEach call l w
      end
  end.

(** ** The manifests of a version *)

(** [strings.SplitSeq]; [skip] bytes of a separator are still to be dropped, and [part] is
    the part being read. *)
Fixpoint splitFrom (skip : nat) (sep part s : string) : list string :=
  match s with
  | EmptyString => [part]
  | String c t =>
      match skip with
      | S skip => splitFrom skip sep part t
      | 0%nat =>
          if HasPrefix s sep then part :: splitFrom (pred (String.length sep)) sep "" t
          else splitFrom 0 sep (part +:+ String c "") t
      end
  end.

(** [io.LimitReader]. *)
Fixpoint limited (n : Z) (s : string) : string :=
  match s with
  | EmptyString => EmptyString
  | String c t => if (n <=? 0)%Z then EmptyString else String c (limited (n - 1) t)
  end.

Definition bodyLimit : Z := Z.shiftl 10 20.

Definition downloadURL (version : string) : string :=
  "https://github.com/kubearchive/kubearchive/releases/download/" +:+ version +:+ "/kubearchive.yaml".

Section installer.
  Context `{!InstallLib}.

(** The documents of a text that hold something, in order. *)
Fixpoint parseDocuments (documents : list string) : option (list Manifest) :=
  match documents with
  | [] => Some []
  | d :: documents =>
      match UnmarshalDocument d with
      | None => None
      | Some res =>
          (λ resources, match res with Some r => r :: resources | None => resources end)
          <$> parseDocuments documents
      end
  end.

(** What is downloaded for a version; [None] is an error. *)
Definition resourcesOf (version : string) : option (list Manifest) :=
  match HttpGet (downloadURL version) with
  | None => None
  | Some (status, body) =>
      if negb (status =? 200)%Z then None
      else
        match body with
        | None => None
        | Some body => parseDocuments (splitFrom 0 "---" "" (limited bodyLimit body))
        end
  end.

(** ** [Reconcile] *)

(** The end of a deletion: what the status holds is deleted, then the finalizer is
    removed. *)
Definition cleanUp (i : Installation) : Call () := λ w,
  match forEach deleteObject (in_Manifests i) w with
  | (None, w) => (None, w)
  | (Some _, w) =>
      updateInstallation
        (withFinalizers (filter (λ f, f ≠ resourceFinalizerName) (in_Finalizers i)) i) w
  end.

(** The installation of the version of the specification. *)
Definition install (i : Installation) : Call () := λ w,
  match resourcesOf (in_Version i) with
  | None => (None, w)
  | Some resources =>
      match forEach applyObject resources w with
      | (None, w) => (None, w)
      | (Some _, w) =>
          if bool_decide (in_Manifests i = resources) then (Some (), w)
          else updateStatus (withManifests resources i) w
      end
  end.

(** [Reconcile]: [None] is an error; an installation that is not there is none. *)
Definition Reconcile : Call () := λ w,
  match callFails w with
  | (true, w) => (None, w)
  | (false, w) =>
      match w_installation w with
      | None => (Some (), w)
      | Some i =>
          let has := bool_decide (resourceFinalizerName ∈ in_Finalizers i) in
          if negb (in_Deleting i) && negb has then
            let i := withFinalizers (in_Finalizers i ++ [resourceFinalizerName]) i in
            match updateInstallation i w with
            | (None, w) => (None, w)
            | (Some _, w) => install i w
            end
          else if in_Deleting i && has then cleanUp i w
          else install i w
      end
  end.

(** ** [kubearchiveinstallation_webhook.go]

    The webhook accepts every installation and changes none; [None] is an object of
    another type. *)
Definition DefaultInstallation (obj : option Installation) : outcome string Installation :=
  match obj with
  | None => Err "expected an KubeArchiveInstallation object"
  | Some kubearchiveinstallation => Ok kubearchiveinstallation
  end.

Definition expectInstallation (message : string) (obj : option Installation) : option string :=
  match obj with None => Some message | Some _ => None end.

Definition ValidateCreateInstallation : option Installation → option string :=
  expectInstallation "expected a KubeArchiveInstallation object".

Definition ValidateUpdateInstallation (oldObj newObj : option Installation) : option string :=
  expectInstallation "expected a KubeArchiveInstallation object for the newObj" newObj.

Definition ValidateDeleteInstallation : option Installation → option string :=
  expectInstallation "expected a KubeArchiveInstallation object".
End installer.

(** ** What is left in the cluster *)

Section facts.
  Context `{!InstallLib}.

Lemma guarded_result {A} (act : World → A * World) w r w' :
  guarded act w = (r, w') →
  w' = (callFails w).2 ∧ r = None ∨
  ∃ a, r = Some a ∧ (callFails w).1 = false ∧ act (callFails w).2 = (a, w').
Proof.
  unfold guarded. destruct (callFails w) as [[] w1]; [intros [= <- <-]; by left|].
  destruct (act w1) as [a w2] eqn:E. intros [= <- <-]. right. by exists a.
Qed.

Lemma callFails_keeps w :
  w_installation (callFails w).2 = w_installation w ∧ w_objects (callFails w).2 = w_objects w.
Proof. unfold callFails. by destruct (w_faults w). Qed.

Lemma callFails_deletions w : w_deletions (callFails w).2 = w_deletions w.
Proof. unfold callFails. by destruct (w_faults w). Qed.

(** The requests of a list of deletions, all answered. *)
Definition answered (ms : list Manifest) : list (Manifest * bool) := (λ m, (m, true)) <$> ms.

(** The objects left after deletions. *)
Definition afterDeletions (ms : list Manifest) (objects : gset Manifest) : gset Manifest :=
  foldl (λ o m, afterDelete m o) objects ms.

Lemma deleteObject_result m w r w' :
  deleteObject m w = (r, w') →
  w_installation w' = w_installation w ∧
  w_deletions w' = w_deletions w ++ [(m, bool_decide (is_Some r))] ∧
  (r = Some () ∧ w_objects w' = afterDelete m (w_objects w) ∨ r = None ∧ w_objects w' = w_objects w) ∧
  (w_faults w = [] → r = Some () ∧ w_faults w' = []).
Proof.
  unfold deleteObject, guarded, callFails.
  destruct (w_faults w) as [|[] fs] eqn:Ef; intros [= <- <-]; cbn; naive_solver.
Qed.

(** Deletions of a list leave the installation alone, and are asked for in its order up to
    the first that fails. *)
Lemma deleteAll ms w r w' :
  forEach deleteObject ms w = (r, w') →
  w_installation w' = w_installation w ∧
  (∃ done, done `prefix_of` ms ∧ w_objects w' = afterDeletions done (w_objects w) ∧
     (r = Some () ∧ done = ms ∧ w_deletions w' = w_deletions w ++ answered ms ∨
      r = None ∧ ∃ m, done ++ [m] `prefix_of` ms ∧
        w_deletions w' = w_deletions w ++ answered done ++ [(m, false)])) ∧
  (w_faults w = [] → r = Some () ∧ w_faults w' = []).
Proof.
  revert w. induction ms as [|m ms IH]; intros w; cbn [forEach].
  { intros [= <- <-]. split_and!; [done| |done]. exists []. split_and!; [done..|]. left. by rewrite app_nil_r. }
  destruct (deleteObject m w) as [[[]|] w1] eqn:Ed;
    apply deleteObject_result in Ed as (Hi & Hd & [[? Ho]|[? Ho]] & Hf); try done.
  - intros (Hi' & (l & Hp & Ho' & Hl) & Hf')%IH. split; [by rewrite Hi', Hi|]. split; [|naive_solver].
    exists (m :: l). split; [by apply prefix_cons|]. split; [by rewrite Ho', Ho|].
    rewrite Hd in Hl. destruct Hl as [(-> & -> & ->)|(-> & m' & Hp' & ->)].
    + left. split_and!; [done..|]. by rewrite <-app_assoc.
    + right. split; [done|]. exists m'. split; [by apply prefix_cons|]. by rewrite <-app_assoc.
  - intros [= <- <-]. split; [done|]. split.
    + exists []. split_and!; [apply prefix_nil|done|]. right. split; [done|]. exists m.
      split; [by apply prefix_cons, prefix_nil|done].
    + intros Hw. by destruct (Hf Hw).
Qed.

(** The finalizer is gone from an installation: with it, when it is the only one. *)
Definition released (i : Installation) (stored : option Installation) : Prop :=
  match stored with
  | Some i' => resourceFinalizerName ∉ in_Finalizers i'
  | None => ∀ f, f ∈ in_Finalizers i → f = resourceFinalizerName
  end.

Lemma dropFinalizer_result i w r w' :
  in_Deleting i = true → w_installation w = Some i →
  updateInstallation (withFinalizers (filter (λ f, f ≠ resourceFinalizerName) (in_Finalizers i)) i) w = (r, w') →
  w_objects w' = w_objects w ∧ w_deletions w' = w_deletions w ∧
  (r = None ∧ w_installation w' = Some i ∨ r = Some () ∧ released i (w_installation w')) ∧
  (w_faults w = [] → r = Some ()).
Proof.
  intros Hdel Hi. destruct (callFails_keeps w) as [Hk Ho]. pose proof (callFails_deletions w) as Hd.
  assert (w_faults w = [] → (callFails w).1 = false) as Hf by (intros Hf; unfold callFails; by rewrite Hf).
  unfold updateInstallation, guarded. destruct (callFails w) as [[] w1]; cbn [fst snd] in *.
  { intros [= <- <-]. rewrite Ho, Hd, Hk. split_and!; [done..|by left|by intros ?%Hf]. }
  intros [= <- <-]. cbn. rewrite Ho, Hd. split_and!; [done..| |done]. right. split; [done|].
  unfold released. rewrite Hdel. cbn [andb]. case_bool_decide as He.
  - intros f Hx. destruct (decide (f = resourceFinalizerName)) as [|Hne]; [done|].
    assert (f ∈ filter (λ f, f ≠ resourceFinalizerName) (in_Finalizers i)) as Hin by (by apply list_elem_of_filter).
    rewrite He in Hin. by apply not_elem_of_nil in Hin.
  - cbn. rewrite list_elem_of_filter. by intros [? _].
Qed.

(** C36: whatever fails, the deletions that the reconciliation of an installation being
    deleted asks for are those of the objects of its status, in order, and it keeps its
    finalizer until each of them was answered; nothing is applied, the objects change by
    those deletions only.  Without faults all are asked for and the finalizer is removed: the
    reconciliation does not wait for the objects to be gone. *)
Theorem deletion_safe w i r w'
    (Hi : w_installation w = Some i) (Hdel : in_Deleting i = true)
    (Hfin : resourceFinalizerName ∈ in_Finalizers i) (Hrun : Reconcile w = (r, w')) :
  (∃ done failed, w_deletions w' = w_deletions w ++ answered done ++ failed ∧
    done ++ failed.*1 `prefix_of` in_Manifests i ∧
    w_objects w' = afterDeletions done (w_objects w) ∧
    (w_installation w' = Some i ∨
     done = in_Manifests i ∧ failed = [] ∧ released i (w_installation w'))) ∧
  (w_faults w = [] → r = Some () ∧ w_installation w' ≠ Some i ∧
    w_deletions w' = w_deletions w ++ answered (in_Manifests i)).
Proof.
  destruct (callFails_keeps w) as [Hk Ho]. pose proof (callFails_deletions w) as Hd.
  assert (w_faults w = [] → callFails w = (false, w)) as Hnone by (intros Hf; unfold callFails; by rewrite Hf).
  unfold Reconcile in Hrun. destruct (callFails w) as [[] w1]; cbn [snd] in *.
  { injection Hrun as <- <-. split; [|by intros ?%Hnone]. exists [], [].
    rewrite Ho, Hk, Hi, Hd, app_nil_r. split_and!; [done|apply prefix_nil|done|by left]. }
  assert (w_faults w = [] → w1 = w) as Hsame by (intros Hf; by injection (Hnone Hf)).
  rewrite Hk, Hi, Hdel, bool_decide_true in Hrun by done. cbn [negb andb] in Hrun. unfold cleanUp in Hrun.
  destruct (forEach deleteObject (in_Manifests i) w1) as [r1 w2] eqn:Ef.
  apply deleteAll in Ef as (Hi2 & (l & Hp & Ho2 & Hl) & Hf2). rewrite Hd, Hk, Ho in *.
  destruct Hl as [(-> & -> & Hd2)|(-> & m & Hp' & Hd2)].
  2:{ injection Hrun as <- <-. split; [|intros Hf; rewrite (Hsame Hf) in Hf2; by destruct (Hf2 Hf)].
      exists l, [(m, false)]. rewrite Hi2, Hi. split_and!; [done..|by left]. }
  apply dropFinalizer_result in Hrun as (Ho3 & Hd3 & Hr & Hf3); [|done|by rewrite Hi2].
  rewrite Ho2 in Ho3. rewrite Hd2 in Hd3. split.
  - exists (in_Manifests i), []. rewrite !app_nil_r. split_and!; [done..|].
    destruct Hr as [[_ ?]|[_ ?]]; [by left|by right].
  - intros Hf. rewrite (Hsame Hf) in Hf2. destruct (Hf2 Hf) as [_ Hw2]. rewrite (Hf3 Hw2) in Hr |- *.
    split_and!; [done| |done]. destruct Hr as [[? _]|[_ Hgone]]; [done|]. intros He. by rewrite He in Hgone.
Qed.

(** ** Without faults *)

Lemma guarded_ok {A} (act : World → A * World) w :
  w_faults w = [] → guarded act w = (Some (act w).1, (act w).2).
Proof. intros Hf. unfold guarded, callFails. rewrite Hf. by destruct (act w). Qed.

Lemma applyAll ms w :
  w_faults w = [] → forEach applyObject ms w = (Some (), setObjects (list_to_set ms ∪ w_objects w) w).
Proof.
  revert w. induction ms as [|m ms IH]; intros w Hf; cbn [forEach list_to_set].
  { f_equal. unfold setObjects. destruct w. cbn. f_equal. set_solver. }
  unfold applyObject. rewrite guarded_ok by done. cbn [fst snd]. rewrite IH by done. f_equal.
  unfold setObjects. cbn. f_equal. set_solver.
Qed.

(** An installation brings what is downloaded, and the status tells it. *)
Lemma install_ok i resources w :
  w_faults w = [] → resourcesOf (in_Version i) = Some resources → w_installation w = Some i →
  install i w = (Some (),
    {| w_installation := Some (withManifests resources i);
       w_objects := list_to_set resources ∪ w_objects w;
       w_deletions := w_deletions w; w_faults := [] |}).
Proof.
  intros Hf Hr Hi. unfold install. rewrite Hr, applyAll by done. unfold updateStatus.
  case_bool_decide as He.
  - f_equal. unfold setObjects. rewrite Hi, Hf. f_equal. f_equal. destruct i. cbn in He. by subst.
  - rewrite guarded_ok by done. cbn. rewrite Hi. unfold setInstallation. cbn. by rewrite Hf.
Qed.

Lemma Reconcile_faultless w i :
  w_faults w = [] → w_installation w = Some i →
  Reconcile w =
    (let has := bool_decide (resourceFinalizerName ∈ in_Finalizers i) in
     if negb (in_Deleting i) && negb has then
       let i := withFinalizers (in_Finalizers i ++ [resourceFinalizerName]) i in
       match updateInstallation i w with
       | (None, w) => (None, w)
       | (Some _, w) => install i w
       end
     else if in_Deleting i && has then cleanUp i w
     else install i w).
Proof. intros Hf Hi. unfold Reconcile, callFails. by rewrite Hf, Hi. Qed.

(** The installation marked as being deleted. *)
Definition markDeleted (w : World) : World :=
  setInstallation ((λ i, {| in_Finalizers := in_Finalizers i; in_Deleting := true;
                            in_Version := in_Version i; in_Manifests := in_Manifests i |})
                   <$> w_installation w) w.

Lemma Reconcile_installs w i resources :
  w_faults w = [] → w_installation w = Some i → in_Deleting i = false →
  resourceFinalizerName ∈ in_Finalizers i → resourcesOf (in_Version i) = Some resources →
  Reconcile w = (Some (),
    {| w_installation := Some (withManifests resources i);
       w_objects := list_to_set resources ∪ w_objects w;
       w_deletions := w_deletions w; w_faults := [] |}).
Proof.
  intros Hf Hi Hd Hfin Hr. rewrite (Reconcile_faultless w i Hf Hi), Hd, bool_decide_true by done.
  by apply install_ok.
Qed.

(** The objects of the version before that are not in the new one are forgotten by an
    upgrade: when the installation is deleted later, the deletions asked for are those of the
    objects of the last version. *)
Theorem upgrade_leaks w i resources
    (Hf : w_faults w = []) (Hi : w_installation w = Some i) (Hdel : in_Deleting i = false)
    (Hfin : in_Finalizers i = [resourceFinalizerName])
    (Hr : resourcesOf (in_Version i) = Some resources) :
  let upgraded := (Reconcile w).2 in
  let deleted := (Reconcile (markDeleted upgraded)).2 in
  w_installation deleted = None ∧ w_deletions deleted = w_deletions w ++ answered resources ∧
  ∀ m, m ∈ in_Manifests i → m ∉ resources → m ∉ (w_deletions w).*1 → m ∉ (w_deletions deleted).*1.
Proof.
  intros upgraded deleted. unfold deleted, upgraded.
  rewrite (Reconcile_installs w i resources) by (done || (rewrite Hfin; by left)). cbn [snd].
  assert (resourceFinalizerName ∈ in_Finalizers i) as Hin by (rewrite Hfin; by left).
  erewrite Reconcile_faultless by reflexivity.
  cbn [in_Deleting in_Finalizers withManifests negb andb]. rewrite bool_decide_true by done.
  unfold cleanUp. cbn [in_Manifests withManifests].
  destruct (forEach deleteObject resources _) as [r w1] eqn:E.
  apply deleteAll in E as (Hi1 & (l & _ & _ & Hl) & Hf1). destruct (Hf1 eq_refl) as [-> Hw1].
  destruct Hl as [(_ & -> & Hd1)|[? _]]; [|done]. cbn in Hd1.
  unfold updateInstallation. rewrite guarded_ok by done. cbn [snd in_Deleting in_Finalizers withFinalizers withManifests].
  rewrite Hfin, bool_decide_true by done. cbn. rewrite Hd1. split_and!; [done..|].
  intros m _ Hm Hw. rewrite fmap_app, elem_of_app. unfold answered. rewrite <-list_fmap_compose.
  change (fst ∘ _) with (@id Manifest). rewrite list_fmap_id. by intros [].
Qed.

(** While it is being deleted, but for another finalizer, KubeArchive is installed again. *)
Lemma reinstalls_while_deleted w i resources :
  w_faults w = [] → w_installation w = Some i → in_Deleting i = true →
  resourceFinalizerName ∉ in_Finalizers i → resourcesOf (in_Version i) = Some resources →
  list_to_set resources ⊆ w_objects (Reconcile w).2.
Proof.
  intros Hf Hi Hd Hfin Hr. rewrite (Reconcile_faultless w i Hf Hi), Hd, bool_decide_false by done.
  cbn [negb andb]. rewrite (install_ok i resources) by done. cbn. set_solver.
Qed.
End facts.

(** ** Samples *)

Definition sample_manifest (name : string) : Manifest :=
  {| mf_APIVersion := "v1"; mf_Kind := "Service"; mf_Name := name; mf_Namespace := "kubearchive" |}.

(** A document is the name of a service. *)
#[local] Instance sample_install : InstallLib := {|
  HttpGet := λ url,
    Some (200%Z, Some (if String.eqb url (downloadURL "v1") then "api---sink---api-v0" else "api---sink"));
  UnmarshalDocument := λ d, Some (if String.eqb d "" then None else Some (sample_manifest d));
  afterDelete := λ m objects, if String.eqb (mf_Kind m) "Namespace" then objects else objects ∖ {[m]};
|}.

Definition sample_installation (deleting : bool) : Installation :=
  {| in_Finalizers := [resourceFinalizerName]; in_Deleting := deleting; in_Version := "v2";
     in_Manifests := [sample_manifest "api"; sample_manifest "sink"; sample_manifest "api-v0"] |}.

Definition sample_world (deleting : bool) (faults : list bool) : World :=
  {| w_installation := Some (sample_installation deleting);
     w_objects := list_to_set (in_Manifests (sample_installation deleting));
     w_deletions := []; w_faults := faults |}.

Lemma upgrade_leaks_witness :
  let deleted := (Reconcile (markDeleted (Reconcile (sample_world false [])).2)).2 in
  w_installation deleted = None ∧ sample_manifest "api-v0" ∉ (w_deletions deleted).*1 ∧
  sample_manifest "api-v0" ∈ w_objects deleted.
Proof.
  destruct (upgrade_leaks (sample_world false []) (sample_installation false)
              [sample_manifest "api"; sample_manifest "sink"]) as (Hi & _ & Hm);
    [reflexivity|reflexivity|reflexivity|reflexivity|vm_compute; reflexivity|].
  split; [exact Hi|]. split.
  - apply Hm; apply (bool_decide_unpack _); vm_compute; exact I.
  - apply (bool_decide_unpack _). vm_compute. exact I.
Defined.

(** The second deletion of three fails. *)
Lemma deletion_safe_witness :
  ∃ r w', Reconcile (sample_world true [false; false; true]) = (r, w') ∧
    w_installation w' = Some (sample_installation true) ∧
    w_deletions w' = [(sample_manifest "api", true); (sample_manifest "sink", false)] ∧
    ∃ done failed, w_deletions w' = answered done ++ failed ∧
      done ++ failed.*1 `prefix_of` in_Manifests (sample_installation true).
Proof.
  destruct (Reconcile (sample_world true [false; false; true])) as [r w'] eqn:E.
  exists r, w'. split; [done|]. split; [vm_compute in E; by injection E as _ <-|].
  split; [vm_compute in E; by injection E as _ <-|].
  destruct (deletion_safe (sample_world true [false; false; true]) (sample_installation true) r w')
    as [(l & failed & Hd & Hp & _) _];
    [reflexivity|reflexivity|by left|exact E|]. by exists l, failed.
Defined.

Definition sample_namespace : Manifest :=
  {| mf_APIVersion := "v1"; mf_Kind := "Namespace"; mf_Name := "kubearchive"; mf_Namespace := "" |}.

(** The installation is gone although the namespace, whose deletion was asked for, is not. *)
Lemma deletion_not_awaited :
  let w := {| w_installation := Some (withManifests [sample_namespace] (sample_installation true));
              w_objects := {[sample_namespace]}; w_deletions := []; w_faults := [] |} in
  w_installation (Reconcile w).2 = None ∧ sample_namespace ∈ w_objects (Reconcile w).2.
Proof. split; [reflexivity|]. apply (bool_decide_unpack _). vm_compute. exact I. Qed.
