(* ===== verification/LogBackend.v ===== *)
(** * [cmd/api/logging/logging.go]: the log backends and the requests to them

    The configuration of the backends, the substitution of the record's values, and
    the request of an endpoint.  [net/url], YAML and JSON encoders are parameters. *)
From S2P Require Import Prelude GoLib GoStrings LogUrls.

(** ** Libraries *)

(** [net/url].  A URL is what [Parse] gives, its query replaced or not; only a
    documented fact is used: the text of a URL is read back with the same host, which
    does not depend on the query. *)
Class URLLib := {
  Url : Type;
  ParseURL : string → option Url;
  Scheme : Url → string;
  Host : Url → string;
  RawQuery : Url → string;
  URLString : Url → string;
  Query : Url → gmap string (list string);
  WithRawQuery : Url → string → Url;
  Encode : gmap string (list string) → string;
  QueryEscape : string → string;
  QueryUnescape : string → option string;
  Host_WithRawQuery u q : Host (WithRawQuery u q) = Host u;
  RawQuery_WithRawQuery u q : RawQuery (WithRawQuery u q) = q;
  Parse_URLString u u' : ParseURL (URLString u) = Some u' → Host u' = Host u;
}.

(** A value of the YAML configuration: a text, or another one with its [%v] text. *)
Inductive ParamValue := VString (s : string) | VOther (sprint : string).

Definition SprintParam (v : ParamValue) : string := match v with VString s | VOther s => s end.

(** [time.ParseDuration] in nanoseconds, [encoding/json] of a body, the methods
    [http.NewRequestWithContext] accepts, and the form [http.Header] gives to a key. *)
Class RequestLib := {
  ParseDuration : string → option Z;
  MarshalBody : gmap string ParamValue → option string;
  ValidMethod : string → bool;
  CanonicalHeaderKey : string → string;
}.

(** ** Data *)

(** [interfaces.LogRecord]. *)
Record LogRecord := {
  lr_Namespace : string; lr_PodName : string; lr_PodUUID : string; lr_ContainerName : string;
  lr_URL : string; lr_Query : string; lr_Start : string; lr_End : string;
}.

Definition withURL (u : string) (r : LogRecord) : LogRecord :=
  {| lr_Namespace := lr_Namespace r; lr_PodName := lr_PodName r; lr_PodUUID := lr_PodUUID r;
     lr_ContainerName := lr_ContainerName r; lr_URL := u; lr_Query := lr_Query r;
     lr_Start := lr_Start r; lr_End := lr_End r |}.

Record PaginationConfig := { NextCursor : string; Param : string; CursorIncrement : Z }.

Record ApiEndpoint := {
  Reverse : bool; Path : string; Method : string; Params : gmap string ParamValue;
  Body : gmap string ParamValue; JsonPath : string; Pagination : option PaginationConfig;
  Timeout : string;
}.

Record ProviderConfig := { Tail : option ApiEndpoint; Full : option ApiEndpoint }.

(** A request: its headers are set later. *)
Record Request `{!URLLib} := {
  rq_Method : string; rq_URL : Url; rq_Body : string; rq_Headers : gmap string string;
}.

(** The documents of the configuration. *)
Class LoggingYaml := {
  UnmarshalHeaders : string → option (gmap string (gmap string string));
  UnmarshalProviders : string → option (gmap string ProviderConfig);
}.

Section backend.
  Context `{!URLLib, !RequestLib}.

(** ** Configuration *)

Definition defaultRequestTimeout : Z := 60000000000.

Definition requestTimeout (e : ApiEndpoint) : Z :=
  if String.eqb (Timeout e) "" then defaultRequestTimeout
  else default defaultRequestTimeout (ParseDuration (Timeout e)).

(** [validate]: the endpoint with its defaults, [None] is an error. *)
Definition validate (e : ApiEndpoint) : option ApiEndpoint :=
  if String.eqb (Path e) "" then None
  else
    let e :=
      {| Reverse := Reverse e; Path := Path e;
         Method := if String.eqb (Method e) "" then "GET" else Method e;
         Params := Params e; Body := Body e;
         JsonPath := if String.eqb (JsonPath e) "" then "$." else JsonPath e;
         Pagination := Pagination e; Timeout := Timeout e |} in
    if nonempty (Timeout e) && negb (bool_decide (is_Some (ParseDuration (Timeout e)))) then None
    else
      match Pagination e with
      | Some p => if String.eqb (NextCursor p) "" || String.eqb (Param p) "" then None else Some e
      | None => Some e
      end.

(** An endpoint that is not there is not checked. *)
Definition validateOpt (e : option ApiEndpoint) : option (option ApiEndpoint) :=
  match e with
  | None => Some None
  | Some e => Some <$> validate e
  end.

Definition validateProvider (p : ProviderConfig) : option ProviderConfig :=
  match validateOpt (Full p) with
  | None => None
  | Some full => (λ tail, {| Tail := tail; Full := full |}) <$> validateOpt (Tail p)
  end.

(** The entries of the two documents, empty for none; a provider that does not check
    discards both. *)
Definition parseDocuments `{!LoggingYaml} (loggingConf : gmap string string)
    : gmap string (gmap string string) * gmap string ProviderConfig :=
  let document {A} (key : string) (unmarshal : string → option (gmap string A)) : gmap string A :=
    match loggingConf !! key with
    | Some yaml => if nonempty yaml then default ∅ (unmarshal yaml) else ∅
    | None => ∅
    end in
  let headers := document "HEADERS" UnmarshalHeaders in
  let providers := document "LOG_PROVIDERS" UnmarshalProviders in
  let validated := validateProvider <$> providers in
  if bool_decide (map_Forall (λ _ (p : option ProviderConfig), is_Some p) validated)
  then (headers, omap id validated) else (∅, ∅).

(** [parseLoggingConfig]: [loggingDir] is the variable of the environment. *)
Definition parseLoggingConfig `{!LoggingYaml, !FileSystem} (loggingDir : option string)
    : gmap string (gmap string string) * gmap string ProviderConfig :=
  match loggingDir with
  | None => (∅, ∅)
  | Some dir =>
      match FilesInDir dir with
      | None => (∅, ∅)
      | Some configFiles =>
          if bool_decide (configFiles = ∅) then (∅, ∅)
          else match LoggingConfigFromFiles configFiles with
               | None => (∅, ∅)
               | Some loggingConf => parseDocuments loggingConf
               end
      end
  end.

(** ** Requests *)

(** The name of a variable in a text. *)
Definition placeholder (name : string) : string := "${" +:+ name +:+ "}".

(** [extraVars] has one entry, [TAIL_LINES]. *)
Definition substituteVars (s : string) (record : LogRecord) (tailLines : string) : string :=
  let s := ReplaceAll s (placeholder "NAMESPACE") (lr_Namespace record) in
  let s := ReplaceAll s (placeholder "QUERY") (lr_Query record) in
  let s := ReplaceAll s (placeholder "START") (lr_Start record) in
  let s := ReplaceAll s (placeholder "END") (lr_End record) in
  ReplaceAll s (placeholder "TAIL_LINES") tailLines.

Definition substituteVarsInMap (m : gmap string ParamValue) (record : LogRecord) (tailLines : string)
    : gmap string ParamValue :=
  (λ v, match v with
        | VString s => VString (substituteVars s record tailLines)
        | VOther s => VOther s
        end) <$> m.

Definition NewRequest (method url body : string) : option Request :=
  if ValidMethod method
  then (λ u, {| rq_Method := method; rq_URL := u; rq_Body := body; rq_Headers := ∅ |}) <$> ParseURL url
  else None.

(** One parameter: [u.RawQuery] and the map [q]. *)
Definition addParam (st : string * gmap string (list string)) (kv : string * ParamValue)
    : string * gmap string (list string) :=
  let '(raw, q) := st in
  let '(k, v) := kv in
  let val := SprintParam v in
  match QueryUnescape val with
  | Some decoded =>
      if String.eqb decoded val then (raw, <[k := [val]]> q)
      else ((if nonempty raw then raw +:+ "&" else raw) +:+ QueryEscape k +:+ "=" +:+ val, q)
  | None => (raw, <[k := [val]]> q)
  end.

(** The query of a GET, over the parameters in the order of the run. *)
Definition paramsQuery `{!MapRange} (u : Url) (params : gmap string ParamValue) : string :=
  let '(raw, q) := foldl addParam (RawQuery u, Query u) (range (map_to_list params)) in
  if bool_decide (q = ∅) then raw
  else if nonempty raw then raw +:+ "&" +:+ Encode q else Encode q.

(** [buildProviderRequest]; [None] is an error. *)
Definition buildProviderRequest `{!MapRange} (endpoint : ApiEndpoint) (record : LogRecord)
    (tailLines : string) : option Request :=
  let path := substituteVars (Path endpoint) record tailLines in
  match ParseURL (lr_URL record), ParseURL (lr_URL record +:+ path) with
  | Some baseURL, Some parsedURL =>
      if negb (String.eqb (Host parsedURL) (Host baseURL)) then None
      else
        let requestURL := URLString parsedURL in
        let method := ToUpper (Method endpoint) in
        if String.eqb method "GET" then
          if bool_decide (Params endpoint = ∅) then NewRequest method requestURL ""
          else
            let params := substituteVarsInMap (Params endpoint) record tailLines in
            match ParseURL requestURL with
            | None => None
            | Some u => NewRequest method (URLString (WithRawQuery u (paramsQuery u params))) ""
            end
        else
          match MarshalBody (substituteVarsInMap (Body endpoint) record tailLines) with
          | None => None
          | Some bodyBytes =>
              (λ rq, {| rq_Method := rq_Method rq; rq_URL := rq_URL rq; rq_Body := rq_Body rq;
                        rq_Headers := <["Content-Type" := "application/json"]> (rq_Headers rq) |})
              <$> NewRequest method requestURL bodyBytes
          end
  | _, _ => None
  end.

(** The headers of the provider. *)
Definition setHeaders `{!MapRange} (headers : gmap string string) (rq : Request) : Request :=
  {| rq_Method := rq_Method rq; rq_URL := rq_URL rq; rq_Body := rq_Body rq;
     rq_Headers := foldl (λ m (kv : string * string), <[CanonicalHeaderKey kv.1 := kv.2]> m)
                         (rq_Headers rq) (range (map_to_list headers)) |}.

(** [extractBaseURL]. *)
Definition extractBaseURL (rawURL : string) : option string :=
  match ParseURL rawURL with
  | None => None
  | Some parsed =>
      if String.eqb (Host parsed) "" then None
      else Some (Scheme parsed +:+ "://" +:+ Host parsed)
  end.
End backend.
