(* ===== verification/Observability.v ===== *)
(** * [pkg/observability], and the metrics of the work queues

    Starting OpenTelemetry as a sequence of calls that may fail, each leaving
    what the previous ones configured; the samplers of its modes; and the
    instruments of [workqueue_metrics.go]. *)
From S2P Require Import Prelude GoLib GoStrings LogBackend.

(** [os.Getenv]. *)
Definition getenv (environ : gmap string string) (name : string) : string := default "" (environ !! name).

(** ** OpenTelemetry

    [strconv.ParseFloat], and whether a rate samples the trace of an identifier. *)
Class FloatLib := {
  Float : Type;
  ParseFloat : string → option Float;
  ratioSamples : Float → string → bool;
}.

(** The calls of [Start] to libraries that may fail. *)
Inductive TelemetryCall :=
| NewResource | NewTraceExporter | NewMetricExporter | HostStart | RuntimeStart | NewLogExporter.

#[export] Instance TelemetryCall_eq_dec : EqDecision TelemetryCall.
Proof. solve_decision. Defined.

Inductive StartError :=
| CallFailed (c : TelemetryCall)
| ModeNotValid (mode : string)
| IntervalNotParsed (text : string).

Record Resource := { rs_ServiceName : string; rs_K8SPodName : string }.

Section telemetry.
  Context `{FL : !FloatLib}.

(** [trace.AlwaysSample], [trace.TraceIDRatioBased] and [trace.ParentBased]. *)
Inductive Sampler :=
| AlwaysSample
| TraceIDRatioBased (fraction : Float)
| ParentBased (root : Sampler).

(** Whether a span is sampled: the flag of its parent, if it has one, and the
    identifier of its trace. *)
Fixpoint ShouldSample (s : Sampler) (parentSampled : option bool) (traceID : string) : bool :=
  match s with
  | AlwaysSample => true
  | TraceIDRatioBased fraction => ratioSamples fraction traceID
  | ParentBased root =>
      match parentSampled with Some sampled => sampled | None => ShouldSample root None traceID end
  end.

Record TracerProvider := { tr_Resource : Resource; tr_Sampler : Sampler }.
Record MeterProvider := { mt_Resource : Resource; mt_Interval : Z }.

(** What the default logger of [log/slog] is: the one of [slog] itself, the handler of
    [ConfigureLogging] with its level, or the bridge to OpenTelemetry. *)
Inductive DefaultLogger := SlogDefault | ContextLogger (level : Z) | OtelLogger.

(** The variables of the process [Start] sets. *)
Record Globals := {
  gl_tp : option TracerProvider;
  gl_TracerProvider : option TracerProvider;
  gl_MeterProvider : option MeterProvider;
  gl_Propagator : bool;
  gl_Logger : DefaultLogger;
  gl_LoggerProvider : option Resource;
}.

Definition withTracer (tp : TracerProvider) (g : Globals) : Globals :=
  {| gl_tp := Some tp; gl_TracerProvider := Some tp; gl_MeterProvider := gl_MeterProvider g;
     gl_Propagator := gl_Propagator g; gl_Logger := gl_Logger g; gl_LoggerProvider := gl_LoggerProvider g |}.

Definition withMeter (mp : MeterProvider) (g : Globals) : Globals :=
  {| gl_tp := gl_tp g; gl_TracerProvider := gl_TracerProvider g; gl_MeterProvider := Some mp;
     gl_Propagator := gl_Propagator g; gl_Logger := gl_Logger g; gl_LoggerProvider := gl_LoggerProvider g |}.

Definition withPropagator (g : Globals) : Globals :=
  {| gl_tp := gl_tp g; gl_TracerProvider := gl_TracerProvider g; gl_MeterProvider := gl_MeterProvider g;
     gl_Propagator := true; gl_Logger := gl_Logger g; gl_LoggerProvider := gl_LoggerProvider g |}.

Definition withLogger (l : DefaultLogger) (g : Globals) : Globals :=
  {| gl_tp := gl_tp g; gl_TracerProvider := gl_TracerProvider g; gl_MeterProvider := gl_MeterProvider g;
     gl_Propagator := gl_Propagator g; gl_Logger := l; gl_LoggerProvider := gl_LoggerProvider g |}.

Definition withLoggerProvider (r : Resource) (g : Globals) : Globals :=
  {| gl_tp := gl_tp g; gl_TracerProvider := gl_TracerProvider g; gl_MeterProvider := gl_MeterProvider g;
     gl_Propagator := gl_Propagator g; gl_Logger := gl_Logger g; gl_LoggerProvider := Some r |}.

(** ** Code that sets the variables and may return early *)
Definition Setup (A : Type) : Type := Globals → (StartError + A) * Globals.

#[export] Instance Setup_ret : MRet Setup := λ A a g, (inr a, g).
#[export] Instance Setup_bind : MBind Setup := λ A B f m g,
  match m g with
  | (inl e, g) => (inl e, g)
  | (inr a, g) => f a g
  end.

Definition fails {A} (e : StartError) : Setup A := λ g, (inl e, g).
Definition sets (f : Globals → Globals) : Setup unit := λ g, (inr tt, f g).

Definition OtelStartEnvVar : string := "KUBEARCHIVE_OTEL_MODE".
Definition OtelMetricsInterval : string := "KUBEARCHIVE_METRICS_INTERVAL".
Definition OtelLogsEnvVar : string := "KUBEARCHIVE_OTLP_SEND_LOGS".
Definition OtelSamplingRateEnvVar : string := "OTEL_TRACES_SAMPLER_ARG".
Definition EnablePprofEnvVar : string := "KUBEARCHIVE_ENABLE_PPROF".

Section start.
  Context `{RL : !RequestLib} (faults : TelemetryCall → bool) (environ : gmap string string).

Definition call (c : TelemetryCall) : Setup unit := if faults c then fails (CallFailed c) else mret tt.

Definition canSkipInit : bool := String.eqb (ToLower (getenv environ OtelStartEnvVar)) "disabled".

Definition newResource (serviceName : string) : Resource :=
  {| rs_ServiceName := serviceName; rs_K8SPodName := getenv environ "POD_NAME" |}.

(** The sampler of root spans; a rate that is not a number is logged. *)
Definition rootSampler : Sampler :=
  match environ !! OtelSamplingRateEnvVar with
  | None => AlwaysSample
  | Some sampleRateRaw =>
      match ParseFloat sampleRateRaw with
      | None => AlwaysSample
      | Some sampleRate => TraceIDRatioBased sampleRate
      end
  end.

Definition samplerOption : Setup Sampler :=
  let otelMode := getenv environ OtelStartEnvVar in
  if String.eqb otelMode "enabled" then mret rootSampler
  else if String.eqb otelMode "delegated" then mret (ParentBased rootSampler)
  else fails (ModeNotValid otelMode).

(** Nanoseconds. *)
Definition metricsInterval : Setup Z :=
  let metricsIntervalRaw := getenv environ OtelMetricsInterval in
  if nonempty metricsIntervalRaw then
    match ParseDuration metricsIntervalRaw with
    | Some interval => mret interval
    | None => fails (IntervalNotParsed metricsIntervalRaw)
    end
  else mret 60000000000%Z.

(** The logger is replaced before the exporter is known to exist. *)
Definition startLogs (res : Resource) : Setup unit :=
  if String.eqb (getenv environ OtelLogsEnvVar) "true" then
    _ ← sets (withLogger OtelLogger);
    _ ← call NewLogExporter;
    sets (withLoggerProvider res)
  else mret tt.

Definition startMetrics (res : Resource) : Setup unit :=
  _ ← call NewMetricExporter;
  interval ← metricsInterval;
  _ ← sets (withMeter {| mt_Resource := res; mt_Interval := interval |});
  _ ← call HostStart;
  call RuntimeStart.

Definition startTraces (res : Resource) : Setup unit :=
  _ ← call NewTraceExporter;
  sampler ← samplerOption;
  sets (withTracer {| tr_Resource := res; tr_Sampler := sampler |}).

Definition Start (serviceName : string) : Setup unit :=
  if canSkipInit then mret tt
  else
    _ ← call NewResource;
    let res := newResource serviceName in
    _ ← startTraces res;
    _ ← startMetrics res;
    _ ← sets withPropagator;
    startLogs res.

Definition Status : string :=
  let observabilityConfig := getenv environ OtelStartEnvVar in
  if String.eqb observabilityConfig "" then "disabled" else observabilityConfig.

(** [FlushSpanBuffer] and [Shutdown]: [None] without a provider, otherwise whether the
    calls to it succeeded, and the calls made. *)
Inductive ProviderCall := ForceFlush | ProviderShutdown.

Definition FlushSpanBuffer (ok : ProviderCall → bool) (g : Globals) : option bool * list ProviderCall :=
  match gl_tp g with
  | Some _ => (Some (ok ForceFlush), [ForceFlush])
  | None => (None, [])
  end.

Definition Shutdown (ok : ProviderCall → bool) (g : Globals) : option bool * list ProviderCall :=
  match gl_tp g with
  | Some _ =>
      match FlushSpanBuffer ok g with
      | (Some true, calls) => (Some (ok ProviderShutdown), calls ++ [ProviderShutdown])
      | failed => failed
      end
  | None => (None, [])
  end.

(** ** What [Start] leaves *)

Definition sendsLogs : bool := String.eqb (getenv environ OtelLogsEnvVar) "true".

(** The mode, the interval and the libraries [Start] needs to configure all it can. *)
Record startable (sampler : Sampler) (interval : Z) : Prop := {
  sa_mode : getenv environ OtelStartEnvVar = "enabled" ∧ sampler = rootSampler ∨
            getenv environ OtelStartEnvVar = "delegated" ∧ sampler = ParentBased rootSampler;
  sa_interval : let raw := getenv environ OtelMetricsInterval in
                raw = "" ∧ interval = 60000000000%Z ∨ raw ≠ "" ∧ ParseDuration raw = Some interval;
  sa_calls c : c ≠ NewLogExporter ∨ sendsLogs = true → faults c = false;
}.

Definition configured (serviceName : string) (sampler : Sampler) (interval : Z) (g : Globals) : Globals :=
  let res := newResource serviceName in
  let tp := {| tr_Resource := res; tr_Sampler := sampler |} in
  {| gl_tp := Some tp; gl_TracerProvider := Some tp;
     gl_MeterProvider := Some {| mt_Resource := res; mt_Interval := interval |}; gl_Propagator := true;
     gl_Logger := if sendsLogs then OtelLogger else gl_Logger g;
     gl_LoggerProvider := if sendsLogs then Some res else gl_LoggerProvider g |}.

Lemma bind_inr {A B} (m : Setup A) (f : A → Setup B) g b g' :
  (m ≫= f) g = (inr b, g') ↔ ∃ a g1, m g = (inr a, g1) ∧ f a g1 = (inr b, g').
Proof.
  unfold mbind, Setup_bind. destruct (m g) as [[e|a] g1]; [split; [done|by intros (?&?&?&?)]|].
  split; [by eexists _, _|]. by intros (a' & g2 & [= <- <-] & Hf).
Qed.

Lemma call_inr c g u g' : call c g = (inr u, g') ↔ faults c = false ∧ g' = g.
Proof. unfold call, fails, mret, Setup_ret. destruct u, (faults c); naive_solver. Qed.

Lemma samplerOption_inr g s g' :
  samplerOption g = (inr s, g') ↔
  g' = g ∧ (getenv environ OtelStartEnvVar = "enabled" ∧ s = rootSampler ∨
            getenv environ OtelStartEnvVar = "delegated" ∧ s = ParentBased rootSampler).
Proof.
  unfold samplerOption. case_eqb; [|case_eqb]; split.
  - intros [= <- <-]. auto.
  - rewrite E. by intros [-> [[_ ->]|[? _]]].
  - intros [= <- <-]. auto.
  - rewrite E0. by intros [-> [[? _]|[_ ->]]].
  - done.
  - by intros [_ [[? _]|[? _]]].
Qed.

Lemma metricsInterval_inr g i g' :
  metricsInterval g = (inr i, g') ↔
  g' = g ∧ let raw := getenv environ OtelMetricsInterval in
           raw = "" ∧ i = 60000000000%Z ∨ raw ≠ "" ∧ ParseDuration raw = Some i.
Proof.
  unfold metricsInterval, nonempty. cbv zeta. case_eqb; cbn [negb]; [|destruct (ParseDuration _) as [d|] eqn:Ed]; split.
  - intros [= <- <-]. auto.
  - by intros [-> [[_ ->]|[? _]]].
  - intros [= <- <-]. auto.
  - by intros [-> [[? _]|[_ [= ->]]]].
  - done.
  - by intros [_ [[? _]|[_ ?]]].
Qed.

Lemma startLogs_inr res g u g' :
  startLogs res g = (inr u, g') ↔
  (sendsLogs = true → faults NewLogExporter = false) ∧
  g' = if sendsLogs then withLoggerProvider res (withLogger OtelLogger g) else g.
Proof.
  unfold startLogs. fold sendsLogs. destruct u, sendsLogs.
  - rewrite bind_inr. split.
    + intros (? & g1 & [= <- <-] & (? & g2 & [Hf ->]%call_inr & [= <-])%bind_inr). by split.
    + intros [Hf ->]. eexists _, _. split; [done|]. apply bind_inr. eexists tt, _.
      by split; [apply call_inr; split; [apply Hf|]|].
  - split; [by intros [= <-]|by intros [_ ->]].
Qed.

(** OpenTelemetry starts without an error exactly when it is disabled, and then
    nothing changes, or when the mode is [enabled] or [delegated], the interval of the
    metrics is absent or a duration, and no library fails; then traces, metrics, the
    propagation of contexts and, when asked for, logs are all configured, with the
    name of the service and its Pod. *)
Lemma Start_spec (serviceName : string) (g g' : Globals) :
  Start serviceName g = (inr tt, g') ↔
  canSkipInit = true ∧ g' = g ∨
  ∃ sampler interval, startable sampler interval ∧ g' = configured serviceName sampler interval g.
Proof.
  assert (∀ s i, startable s i → canSkipInit = false) as Hskip.
  { intros s i [[[Hm _]|[Hm _]] _ _]; unfold canSkipInit; by rewrite Hm. }
  unfold Start. destruct canSkipInit eqn:Es.
  { split; [intros [= <-]; by left|]. intros [[_ ->]|(s & i & Hs & _)]; [done|].
    by discriminate (Hskip _ _ Hs). }
  split.
  - intros (? & ? & [Hr ->]%call_inr & (? & ? & Ht & (? & ? & Hm & (? & ? & [= <- <-] & Hl)%bind_inr)%bind_inr)%bind_inr)%bind_inr.
    right. apply bind_inr in Ht as (? & ? & [Hte ->]%call_inr & (s & ? & [-> Hs]%samplerOption_inr & [= <- <-])%bind_inr).
    apply bind_inr in Hm as (? & ? & [Hme ->]%call_inr & (i & ? & [-> Hi]%metricsInterval_inr &
      (? & ? & [= <- <-] & (? & ? & [Hh ->]%call_inr & [Hrt ->]%call_inr)%bind_inr)%bind_inr)%bind_inr).
    apply startLogs_inr in Hl as [Hle ->]. exists s, i. split.
    + split; [done|done|]. intros [] [?|?]; auto; by exfalso.
    + unfold configured. by destruct sendsLogs.
  - intros [[? _]|(s & i & [Hs Hi Hc] & ->)]; [done|].
    assert (∀ c, c ≠ NewLogExporter → faults c = false) as Hn by auto.
    apply bind_inr. eexists tt, g. split; [by apply call_inr; split; [apply Hn|]|].
    apply bind_inr. eexists tt, _. split.
    { apply bind_inr. eexists tt, g. split; [by apply call_inr; split; [apply Hn|]|].
      apply bind_inr. eexists s, g. by split; [apply samplerOption_inr|]. }
    apply bind_inr. eexists tt, _. split.
    { apply bind_inr. eexists tt, _. split; [by apply call_inr; split; [apply Hn|]|].
      apply bind_inr. eexists i, _. split; [by apply metricsInterval_inr|].
      apply bind_inr. eexists tt, _. split; [done|].
      apply bind_inr. eexists tt, _. split; apply call_inr; split; try apply Hn; done. }
    apply bind_inr. eexists tt, _. split; [done|]. apply startLogs_inr. split; [auto|].
    unfold configured. by destruct sendsLogs.
Qed.

(** Once OpenTelemetry has started, the spans of the mode [enabled] are sampled at
    the rate, whatever their parent; in the mode [delegated] a span is sampled as its
    parent is, and at the rate when it has none.  Without a rate, or with one that is
    not a number, root spans are all sampled. *)
Theorem Start_samples (serviceName : string) (g g' : Globals) (tp : TracerProvider)
    (parent : option bool) (traceID : string) :
  Start serviceName g = (inr tt, g') → canSkipInit = false → gl_TracerProvider g' = Some tp →
  let rooted := match environ !! OtelSamplingRateEnvVar ≫= ParseFloat with
                | Some rate => ratioSamples rate traceID
                | None => true
                end in
  ShouldSample (tr_Sampler tp) parent traceID =
  if String.eqb (getenv environ OtelStartEnvVar) "enabled" then rooted else default rooted parent.
Proof.
  intros [[? _]|(s & i & [Hm _ _] & ->)]%Start_spec Hskip; [congruence|].
  intros [= <-]. cbn [tr_Sampler].
  assert (∀ p, ShouldSample rootSampler p traceID =
    match environ !! OtelSamplingRateEnvVar ≫= ParseFloat with
    | Some rate => ratioSamples rate traceID
    | None => true
    end) as Hroot.
  { intros p. unfold rootSampler. destruct (environ !! _) as [raw|]; [|done].
    cbn [mbind option_bind]. by destruct (ParseFloat raw). }
  destruct Hm as [[-> ->]|[-> ->]]; cbn [String.eqb ShouldSample Ascii.eqb Bool.eqb]; [apply Hroot|].
  destruct parent; [done|apply Hroot].
Qed.

(** Any other mode is refused, and so is the absence of one, which the status of the
    probes calls disabled. *)
Lemma mode_refused serviceName g :
  canSkipInit = false → getenv environ OtelStartEnvVar ≠ "enabled" →
  getenv environ OtelStartEnvVar ≠ "delegated" → ∃ e, Start serviceName g = (inl e, g).
Proof.
  intros Hs He Hd. unfold Start. rewrite Hs. unfold startTraces, call, mbind, Setup_bind, samplerOption.
  destruct (faults NewResource); [by eexists|]. cbn. destruct (faults NewTraceExporter); [by eexists|]. cbn.
  apply String.eqb_neq in He, Hd. rewrite He, Hd. by eexists.
Qed.

Lemma unset_mode_refused serviceName g :
  environ !! OtelStartEnvVar = None → Status = "disabled" ∧ ∃ e, Start serviceName g = (inl e, g).
Proof.
  intros Hn. assert (getenv environ OtelStartEnvVar = "") as Hg by (unfold getenv; by rewrite Hn).
  split; [unfold Status; by rewrite Hg|]. apply mode_refused; [unfold canSkipInit| |]; by rewrite Hg.
Qed.

(** ** What a failure leaves *)

Lemma bind_inl {A B} (m : Setup A) (f : A → Setup B) g e g' :
  (m ≫= f) g = (inl e, g') ↔
  m g = (inl e, g') ∨ ∃ a g1, m g = (inr a, g1) ∧ f a g1 = (inl e, g').
Proof.
  unfold mbind, Setup_bind. destruct (m g) as [[e'|a] g1]; split.
  - intros [= -> ->]. by left.
  - by intros [[= -> ->]|(?&?&?&?)].
  - intros Hf. right. by eexists _, _.
  - by intros [?|(a' & g2 & [= <- <-] & Hf)].
Qed.

Lemma call_inl c g e g' : call c g = (inl e, g') ↔ faults c = true ∧ e = CallFailed c ∧ g' = g.
Proof. unfold call, fails, mret, Setup_ret. destruct (faults c); naive_solver. Qed.

Lemma startTraces_inl res g e g' :
  startTraces res g = (inl e, g') →
  g' = g ∧ (e = CallFailed NewTraceExporter ∨ ∃ mode, e = ModeNotValid mode).
Proof.
  intros [(_ & -> & ->)%call_inl|(? & ? & [_ ->]%call_inr & [Hs|(? & ? & _ & [=])]%bind_inl)]%bind_inl; [auto|].
  unfold samplerOption in Hs. repeat case_match; try done. injection Hs as <- <-. eauto.
Qed.

Lemma startMetrics_inl res g e g' :
  startMetrics res g = (inl e, g') →
  g' = g ∧ (e = CallFailed NewMetricExporter ∨ ∃ text, e = IntervalNotParsed text) ∨
  (∃ mp, g' = withMeter mp g) ∧ (e = CallFailed HostStart ∨ e = CallFailed RuntimeStart).
Proof.
  intros [(_ & -> & ->)%call_inl|(? & ? & [_ ->]%call_inr & [Hi|(i & ? & [-> _]%metricsInterval_inr & Hm)]%bind_inl)]%bind_inl;
    [auto|left|right].
  - unfold metricsInterval in Hi. cbv zeta in Hi. destruct (nonempty _); [|done].
    destruct (ParseDuration _); [done|]. injection Hi as <- <-. eauto.
  - apply bind_inl in Hm as [[=]|(? & ? & [= <- <-] & [(_ & -> & ->)%call_inl|(? & ? & [_ ->]%call_inr & (_ & -> & ->)%call_inl)]%bind_inl)]; eauto.
Qed.

(** An error of the start tells what is configured: nothing when the resource, the
    exporter of traces or the mode is to blame; traces alone when it is the metrics'
    exporter or interval; and when it is the exporter of logs, all but logs, whose
    default logger is nevertheless replaced by a bridge without a provider. *)
Theorem Start_fails (serviceName : string) (g g' : Globals) (e : StartError) :
  Start serviceName g = (inl e, g') →
  match e with
  | CallFailed NewResource | CallFailed NewTraceExporter | ModeNotValid _ => g' = g
  | CallFailed NewMetricExporter | IntervalNotParsed _ => ∃ tp, g' = withTracer tp g
  | CallFailed HostStart | CallFailed RuntimeStart => ∃ tp mp, g' = withMeter mp (withTracer tp g)
  | CallFailed NewLogExporter =>
      ∃ tp mp, g' = withLogger OtelLogger (withPropagator (withMeter mp (withTracer tp g))) ∧
        gl_LoggerProvider g' = gl_LoggerProvider g
  end.
Proof.
  unfold Start. destruct canSkipInit; [done|].
  intros [(_ & -> & ->)%call_inl|(? & ? & [_ ->]%call_inr & Hs)]%bind_inl; [done|].
  apply bind_inl in Hs as [[-> [->|[? ->]]]%startTraces_inl|(? & g1 & Ht & Hs)]; [done..|].
  apply bind_inr in Ht as (? & ? & [_ ->]%call_inr & (s & ? & [-> _]%samplerOption_inr & [= _ <-])%bind_inr).
  apply bind_inl in Hs as [[[-> [->|[? ->]]]|[[mp ->] [->| ->]]]%startMetrics_inl|(? & g2 & Hm & Hs)]; [by eauto..|].
  apply bind_inr in Hm as (? & ? & [_ ->]%call_inr & (i & ? & [-> _]%metricsInterval_inr &
    (? & ? & [= <- <-] & (? & ? & [_ ->]%call_inr & [_ ->]%call_inr)%bind_inr)%bind_inr)%bind_inr).
  apply bind_inl in Hs as [[=]|(? & ? & [= <- <-] & Hl)]. unfold startLogs in Hl.
  destruct (String.eqb _ _); [|done].
  apply bind_inl in Hl as [[=]|(? & ? & [= <- <-] & [(_ & -> & ->)%call_inl|(? & ? & _ & [=])]%bind_inl)].
  by eexists _, _.
Qed.
End start.
End telemetry.

(** ** [workqueue_metrics.go]

    The adapters between the work queues of Kubernetes and OpenTelemetry: a metric
    is an instrument of the meter and the name of its queue, which every measurement
    carries.  Queues share the instruments. *)
Section workqueue.
  Context {Value : Type} (meterFails : string → bool).

Inductive InstrumentKind := Int64UpDownCounter | Int64Counter | Float64Histogram | Float64Gauge.

Record Instrument := { in_Name : string; in_Kind : InstrumentKind }.

Record QueueMetric := { qm_Instrument : Instrument; qm_name : string }.

Inductive Measured := Added (incr : Z) | Recorded (value : Value).

Record Measurement := { ms_Instrument : string; ms_queue : string; ms_Measured : Measured }.

Definition measure (m : QueueMetric) (v : Measured) (log : list Measurement) : list Measurement :=
  log ++ [{| ms_Instrument := in_Name (qm_Instrument m); ms_queue := qm_name m; ms_Measured := v |}].

Definition Gauge_Inc (g : QueueMetric) := measure g (Added 1).
Definition Gauge_Dec (g : QueueMetric) := measure g (Added (-1)).
Definition Counter_Inc (c : QueueMetric) := measure c (Added 1).
Definition HistogramMetric_Observe (h : QueueMetric) (value : Value) := measure h (Recorded value).
Definition SettableGauge_Set (s : QueueMetric) (value : Value) := measure s (Recorded value).

(** The panic of a constructor whose instrument the meter refuses. *)
Definition newMetric (kind : InstrumentKind) (instrument name : string) : outcome unit QueueMetric :=
  if meterFails instrument then Panic
  else Ok {| qm_Instrument := {| in_Name := instrument; in_Kind := kind |}; qm_name := name |}.

Definition NewDepthMetric := newMetric Int64UpDownCounter "workqueue.depth".
Definition NewAddsMetric := newMetric Int64Counter "workqueue.adds".
Definition NewLatencyMetric := newMetric Float64Histogram "workqueue.latency".
Definition NewWorkDurationMetric := newMetric Float64Histogram "workqueue.duration".
Definition NewUnfinishedWorkSecondsMetric := newMetric Float64Gauge "workqueue.unifinished_work".
Definition NewLongestRunningProcessorSecondsMetric := newMetric Float64Gauge "workqueue.longest_running".
Definition NewRetriesMetric := newMetric Int64Counter "workqueue.retries".

(** What a queue does with its metrics. *)
Inductive QueueCall :=
| DepthInc | DepthDec | AddsInc | RetriesInc
| LatencyObserve (v : Value) | WorkDurationObserve (v : Value)
| UnfinishedSet (v : Value) | LongestRunningSet (v : Value).

#[local] Notation on mk f := (m ← mk; Ok (f m)).

Definition queueCall (name : string) (c : QueueCall) : outcome unit (list Measurement → list Measurement) :=
  match c with
  | DepthInc => on (NewDepthMetric name) Gauge_Inc
  | DepthDec => on (NewDepthMetric name) Gauge_Dec
  | AddsInc => on (NewAddsMetric name) Counter_Inc
  | RetriesInc => on (NewRetriesMetric name) Counter_Inc
  | LatencyObserve v => on (NewLatencyMetric name) (λ m, HistogramMetric_Observe m v)
  | WorkDurationObserve v => on (NewWorkDurationMetric name) (λ m, HistogramMetric_Observe m v)
  | UnfinishedSet v => on (NewUnfinishedWorkSecondsMetric name) (λ m, SettableGauge_Set m v)
  | LongestRunningSet v => on (NewLongestRunningProcessorSecondsMetric name) (λ m, SettableGauge_Set m v)
  end.

Fixpoint queueCalls (calls : list (string * QueueCall)) (log : list Measurement) : outcome unit (list Measurement) :=
  match calls with
  | [] => Ok log
  | (name, c) :: calls => f ← queueCall name c; queueCalls calls (f log)
  end.

(** The sum of an instrument for a queue. *)
Definition added (instrument queue : string) (m : Measurement) : Z :=
  match ms_Measured m with
  | Added n => if String.eqb (ms_Instrument m) instrument && String.eqb (ms_queue m) queue then n else 0
  | Recorded _ => 0
  end%Z.

Definition total (instrument queue : string) (log : list Measurement) : Z :=
  foldr (λ m acc, added instrument queue m + acc)%Z 0%Z log.

Definition depthChange (queue : string) (c : string * QueueCall) : Z :=
  if String.eqb (c.1) queue then match c.2 with DepthInc => 1 | DepthDec => -1 | _ => 0 end%Z else 0%Z.

Lemma total_app i q l l' : total i q (l ++ l') = (total i q l + total i q l')%Z.
Proof. unfold total. induction l as [|m l IH]; cbn; [done|]. lia. Qed.

Lemma on_metric kind instrument name (f : QueueMetric → list Measurement → list Measurement) g :
  on (newMetric kind instrument name) f = Ok g →
  g = f {| qm_Instrument := {| in_Name := instrument; in_Kind := kind |}; qm_name := name |}.
Proof. unfold newMetric. destruct (meterFails instrument); [done|]. by intros [= <-]. Qed.

(** The depth reported for a queue is what it added less what it took, whatever the
    other queues and the other metrics of the same meter record in between. *)
Lemma depth_of_queue (calls : list (string * QueueCall)) (log log' : list Measurement) (queue : string) :
  queueCalls calls log = Ok log' →
  total "workqueue.depth" queue log' =
  (total "workqueue.depth" queue log + foldr (λ c acc, depthChange queue c + acc) 0 calls)%Z.
Proof.
  revert log; induction calls as [|[name c] calls IH]; intros log; cbn [queueCalls foldr].
  { intros [= <-]. lia. }
  destruct (queueCall name c) as [f|[]|] eqn:Ec; cbn; [|done..]. intros Hq%IH. rewrite Hq.
  unfold depthChange. cbn [fst snd].
  destruct c; apply on_metric in Ec as ->;
    unfold Gauge_Inc, Gauge_Dec, Counter_Inc, HistogramMetric_Observe, SettableGauge_Set, measure;
    rewrite total_app; unfold total, added; cbn; destruct (String.eqb name queue); lia.
Qed.
End workqueue.

(** ** Samples *)

#[local] Instance sample_floats : FloatLib := {|
  Float := Z; ParseFloat := ParseInt; ratioSamples := λ r id, (Z.of_nat (String.length id) <? r)%Z;
|}.

#[local] Instance sample_durations : RequestLib := {|
  ParseDuration := ParseInt; MarshalBody := λ _, None; ValidMethod := λ _, true; CanonicalHeaderKey := id;
|}.

Definition sample_mode (mode : string) : gmap string string :=
  <[OtelStartEnvVar := mode]> (<[OtelSamplingRateEnvVar := "4"]> (<[OtelLogsEnvVar := "true"]> ∅)).

Definition sample_globals : Globals :=
  {| gl_tp := None; gl_TracerProvider := None; gl_MeterProvider := None; gl_Propagator := false;
     gl_Logger := ContextLogger 0; gl_LoggerProvider := None |}.

Lemma Start_samples_witness :
  let tp := {| tr_Resource := {| rs_ServiceName := "sink"; rs_K8SPodName := "" |};
               tr_Sampler := ParentBased (TraceIDRatioBased 4%Z) |} in
  ShouldSample (tr_Sampler tp) (Some false) "abc" = false.
Proof.
  exact (Start_samples (λ _, false) (sample_mode "delegated") "sink" sample_globals
    (configured (sample_mode "delegated") "sink" (ParentBased (TraceIDRatioBased 4%Z)) 60000000000 sample_globals)
    _ (Some false) "abc" eq_refl eq_refl eq_refl).
Defined.

(** All is configured but the logs, which go nowhere. *)
Definition sample_silent : Globals :=
  let res := {| rs_ServiceName := "sink"; rs_K8SPodName := "" |} in
  let tp := {| tr_Resource := res; tr_Sampler := TraceIDRatioBased 4%Z |} in
  {| gl_tp := Some tp; gl_TracerProvider := Some tp;
     gl_MeterProvider := Some {| mt_Resource := res; mt_Interval := 60000000000 |}; gl_Propagator := true;
     gl_Logger := OtelLogger; gl_LoggerProvider := None |}.

Lemma Start_fails_witness :
  ∃ tp mp, sample_silent =
    withLogger OtelLogger (withPropagator (withMeter mp (withTracer tp sample_globals))).
Proof.
  assert (Start (λ c, bool_decide (c = NewLogExporter)) (sample_mode "enabled") "sink" sample_globals =
    (inl (CallFailed NewLogExporter), sample_silent)) as Hs by reflexivity.
  destruct (Start_fails _ _ _ _ _ _ Hs) as (tp & mp & Hw & _). by exists tp, mp.
Defined.
