(* ===== verification/Logging.v ===== *)
(** * [pkg/logging] and [pkg/middleware]: what is logged of a request

    The levels of [log/slog], the handler that adds the identifiers of traces, the
    middleware that gives every request some, and the one that logs the requests. *)
From S2P Require Import Prelude GoLib GoStrings Observability.

(** ** [log/slog] *)
Definition LevelDebug : Z := -4.
Definition LevelInfo : Z := 0.
Definition LevelWarn : Z := 4.
Definition LevelError : Z := 8.

(** A text up to its first sign, and from there. *)
Fixpoint cutSign (s : string) : string * option string :=
  match s with
  | EmptyString => (EmptyString, None)
  | String c s' =>
      if Ascii.eqb c "+" || Ascii.eqb c "-" then (EmptyString, Some s)
      else let '(name, offset) := cutSign s' in (String c name, offset)
  end.

Definition levelOfName (name : string) : option Z :=
  let name := ToUpper name in
  if String.eqb name "DEBUG" then Some LevelDebug
  else if String.eqb name "INFO" then Some LevelInfo
  else if String.eqb name "WARN" then Some LevelWarn
  else if String.eqb name "ERROR" then Some LevelError
  else None.

(** [Level.UnmarshalText]: a name, with an offset after it. *)
Definition UnmarshalLevel (text : string) : option Z :=
  let '(name, offset) := cutSign text in
  match offset with
  | None => levelOfName name
  | Some offset =>
      match ParseInt offset with
      | None => None
      | Some offset => (λ l, wrap64 (l + offset)) <$> levelOfName name
      end
  end.

Record LogRecord := { rc_Level : Z; rc_Message : string; rc_Attrs : list (string * string) }.

(** ** [encoding/hex] *)
Definition hexDigit (n : nat) : ascii :=
  Ascii.ascii_of_nat (if (n <? 10)%nat then 48 + n else 87 + n).

Fixpoint EncodeToString (bytes : list ascii) : string :=
  match bytes with
  | [] => EmptyString
  | b :: bytes =>
      let n := Ascii.nat_of_ascii b in
      String (hexDigit (n / 16)) (String (hexDigit (n mod 16)) (EncodeToString bytes))
  end.

(** ** [pkg/logging] *)
Definition loggingLevelEnvVar : string := "LOG_LEVEL".
Definition kLoggingLevelEnvVar : string := "KLOG_LEVEL".
Definition traceIDKey : string := "trace-id".
Definition spanIDKey : string := "span-id".

(** The context of a request: the identifiers of its span, when it has them, and the
    values the code puts under its own keys. *)
Record Context_ := {
  cx_TraceID : option (list ascii); cx_SpanID : option (list ascii);
  cx_Values : gmap string string;
}.

Definition WithValue (ctx : Context_) (key value : string) : Context_ :=
  {| cx_TraceID := cx_TraceID ctx; cx_SpanID := cx_SpanID ctx; cx_Values := <[key := value]> (cx_Values ctx) |}.

Definition AddAttrs (key : string) (ctx : Context_) (r : LogRecord) : LogRecord :=
  match cx_Values ctx !! key with
  | Some v => {| rc_Level := rc_Level r; rc_Message := rc_Message r; rc_Attrs := rc_Attrs r ++ [(key, v)] |}
  | None => r
  end.

(** [ContextHandler.Handle]: the record given to the handler it wraps. *)
Definition Handle (ctx : Context_) (r : LogRecord) : LogRecord :=
  AddAttrs spanIDKey ctx (AddAttrs traceIDKey ctx r).

(** [slog.Log] with the default logger: what is printed.  The logger of [slog]
    prints from the level of information on; the bridge prints nothing. *)
Definition printed (logger : DefaultLogger) (ctx : Context_) (r : LogRecord) : option LogRecord :=
  match logger with
  | ContextLogger level => if (level <=? rc_Level r)%Z then Some (Handle ctx r) else None
  | SlogDefault => if (LevelInfo <=? rc_Level r)%Z then Some r else None
  | OtelLogger => None
  end.

Inductive LoggingError := KlogLevel (text : string) | LogLevel (text : string).

(** [ConfigureLogging]: the default logger, unless an error comes first; [klogSet] is
    whether the flag of [klog] accepts a text. *)
Definition ConfigureLogging (klogSet : string → bool) (environ : gmap string string)
    (logger : DefaultLogger) : option LoggingError * DefaultLogger :=
  let klogLevel := getenv environ kLoggingLevelEnvVar in
  let klogLevel := if String.eqb klogLevel "" then "0" else klogLevel in
  if negb (klogSet klogLevel) then (Some (KlogLevel klogLevel), logger)
  else
    let levelText := getenv environ loggingLevelEnvVar in
    let levelText := if String.eqb levelText "" then "INFO" else levelText in
    match UnmarshalLevel levelText with
    | None => (Some (LogLevel levelText), logger)
    | Some level => (None, ContextLogger level)
    end.

(** [TracingMiddleware]: the context of the request; [random] are the bytes read for
    its identifiers. *)
Definition TracingMiddleware (random : list ascii * list ascii) (ctx : Context_) : Context_ :=
  let traceID := match cx_TraceID ctx with
                 | Some id => EncodeToString id
                 | None => EncodeToString random.1
                 end in
  let ctx := WithValue ctx traceIDKey traceID in
  let spanID := match cx_SpanID ctx with
                | Some id => EncodeToString id
                | None => EncodeToString random.2
                end in
  WithValue ctx spanIDKey spanID.

(** ** [pkg/middleware/logging.go] *)

(** The level of a path, [INFO] when the text is not one. *)
Definition pathLevel (text : string) : Z := default LevelInfo (UnmarshalLevel text).

(** What a request was answered, as far as it is logged. *)
Record Exchange := {
  ex_Method : string; ex_Path : string; ex_RawQuery : string; ex_Status : string;
  ex_Latency : string; ex_Client : string; ex_Errors : string;
}.

Definition loggedPath (x : Exchange) : string :=
  if nonempty (ex_RawQuery x) then ex_Path x +:+ "?" +:+ ex_RawQuery x else ex_Path x.

(** [Logger], after the request is served. *)
Definition Logger (pathLoggingLevel : gmap string string) (x : Exchange) : LogRecord :=
  let pathLevels := pathLevel <$> pathLoggingLevel in
  {| rc_Level := default LevelInfo (pathLevels !! loggedPath x);
     rc_Message := "Served request";
     rc_Attrs := [("method", ex_Method x); ("status", ex_Status x); ("latency", ex_Latency x);
                  ("client", ex_Client x); ("path", loggedPath x); ("errors", ex_Errors x)] |}.

(** The levels the servers give to [Logger]. *)
Definition probeLevels : gmap string string := <["/livez" := "DEBUG"]> (<["/readyz" := "DEBUG"]> ∅).

(** A request through the two middlewares: what is printed of it. *)
Definition logRequest (logger : DefaultLogger) (random : list ascii * list ascii) (ctx : Context_)
    (x : Exchange) : option LogRecord :=
  printed logger (TracingMiddleware random ctx) (Logger probeLevels x).

(** ** Identifiers *)

Lemma hexDigit_inj n m : (n < 16)%nat → (m < 16)%nat → hexDigit n = hexDigit m → n = m.
Proof.
  intros Hn Hm He.
  assert (forallb (λ i, forallb (λ j, implb (Ascii.eqb (hexDigit i) (hexDigit j)) (i =? j)%nat) (seq 0 16)) (seq 0 16)
    = true) as Hall by reflexivity.
  rewrite forallb_forall in Hall. specialize (Hall n ltac:(apply in_seq; lia)). rewrite forallb_forall in Hall.
  specialize (Hall m ltac:(apply in_seq; lia)). rewrite He, Ascii.eqb_refl in Hall. by apply Nat.eqb_eq in Hall.
Qed.

Lemma EncodeToString_length bytes : String.length (EncodeToString bytes) = (2 * length bytes)%nat.
Proof. induction bytes as [|b bytes IH]; cbn; [done|]. rewrite IH. lia. Qed.

Lemma String_inj c d s t : String c s = String d t → c = d ∧ s = t.
Proof. by intros [=]. Qed.

(** Two identifiers with the same text are the same. *)
Lemma EncodeToString_inj bytes bytes' :
  EncodeToString bytes = EncodeToString bytes' → bytes = bytes'.
Proof.
  revert bytes'; induction bytes as [|b bytes IH]; intros [|b' bytes']; cbn [EncodeToString]; cbv zeta; try done.
  intros [Hd [Hm Ht]%String_inj]%String_inj. f_equal; [|by apply IH].
  pose proof (Ascii.nat_ascii_bounded b). pose proof (Ascii.nat_ascii_bounded b').
  apply hexDigit_inj in Hd; [|apply Nat.Div0.div_lt_upper_bound; lia..].
  apply hexDigit_inj in Hm; [|apply Nat.mod_upper_bound; lia..].
  rewrite <-(Ascii.ascii_nat_embedding b), <-(Ascii.ascii_nat_embedding b'). f_equal.
  rewrite (Nat.div_mod_eq (Ascii.nat_of_ascii b) 16), (Nat.div_mod_eq (Ascii.nat_of_ascii b') 16). lia.
Qed.

(** ** What is logged of a request *)

Definition traceOf (random : list ascii * list ascii) (ctx : Context_) : list ascii :=
  default random.1 (cx_TraceID ctx).

Definition spanOf (random : list ascii * list ascii) (ctx : Context_) : list ascii :=
  default random.2 (cx_SpanID ctx).

(** A probe without a query. *)
Definition isProbe (x : Exchange) : bool :=
  String.eqb (ex_RawQuery x) "" && (String.eqb (ex_Path x) "/livez" || String.eqb (ex_Path x) "/readyz").

Definition requestLevel (x : Exchange) : Z := if isProbe x then LevelDebug else LevelInfo.

Lemma loggedPath_query x path :
  nonempty (ex_RawQuery x) = true → free_of "?" path → loggedPath x ≠ path.
Proof.
  intros Hq Hf He. unfold loggedPath in He. rewrite Hq in He. unfold free_of in Hf.
  rewrite <-He, !ContainsByte_app in Hf. cbn in Hf. by rewrite orb_true_r in Hf.
Qed.

Lemma Logger_level x : rc_Level (Logger probeLevels x) = requestLevel x.
Proof.
  cbn [Logger rc_Level]. unfold probeLevels, requestLevel, isProbe.
  rewrite !fmap_insert, fmap_empty. destruct (nonempty (ex_RawQuery x)) eqn:Eq.
  - pose proof (loggedPath_query x "/livez" Eq eq_refl). pose proof (loggedPath_query x "/readyz" Eq eq_refl).
    rewrite !lookup_insert_ne, lookup_empty by done.
    unfold nonempty in Eq. apply negb_true_iff in Eq. by rewrite Eq.
  - assert (loggedPath x = ex_Path x) as -> by (unfold loggedPath; by rewrite Eq).
    unfold nonempty in Eq. apply negb_false_iff in Eq. rewrite Eq. cbn [andb].
    case_eqb; [by rewrite E, lookup_insert_eq|]. rewrite lookup_insert_ne by congruence.
    case_eqb; [by rewrite E0, lookup_insert_eq|]. rewrite lookup_insert_ne by congruence. by rewrite lookup_empty.
Qed.

Lemma Handle_traced random ctx r :
  Handle (TracingMiddleware random ctx) r =
  {| rc_Level := rc_Level r; rc_Message := rc_Message r;
     rc_Attrs := rc_Attrs r ++ [(traceIDKey, EncodeToString (traceOf random ctx));
                                (spanIDKey, EncodeToString (spanOf random ctx))] |}.
Proof.
  unfold Handle, AddAttrs, TracingMiddleware, WithValue, traceOf, spanOf. cbn [cx_Values cx_SpanID cx_TraceID].
  rewrite lookup_insert_eq, (lookup_insert_ne _ spanIDKey traceIDKey), lookup_insert_eq by done.
  cbn [rc_Attrs rc_Level rc_Message]. rewrite <-app_assoc.
  by destruct (cx_TraceID ctx), (cx_SpanID ctx).
Qed.

(** A process whose logging is configured prints, of each request, one record at
    most: at the level of debug for a probe without a query and of information for any
    other request, it is printed exactly when the configured level, that of information
    by default, is not above.  The record always carries the identifiers of the trace
    and of the span, those of the request when it has them and random ones otherwise, and
    the texts of two identifiers are equal only if they are. *)
Theorem request_logged (klogSet : string → bool) (environ : gmap string string) (logger logger' : DefaultLogger) :
  ConfigureLogging klogSet environ logger = (None, logger') →
  ∃ level, logger' = ContextLogger level ∧
    (getenv environ loggingLevelEnvVar = "" → level = LevelInfo) ∧
    ∀ random ctx x,
      logRequest logger' random ctx x =
      (if (level <=? requestLevel x)%Z then
         Some {| rc_Level := requestLevel x; rc_Message := "Served request";
                 rc_Attrs := rc_Attrs (Logger probeLevels x) ++
                   [(traceIDKey, EncodeToString (traceOf random ctx));
                    (spanIDKey, EncodeToString (spanOf random ctx))] |}
       else None) ∧
      ∀ random' ctx', EncodeToString (traceOf random ctx) = EncodeToString (traceOf random' ctx') →
        traceOf random ctx = traceOf random' ctx'.
Proof.
  unfold ConfigureLogging. destruct (negb _); [done|]. cbv zeta.
  destruct (UnmarshalLevel _) as [level|] eqn:El; [|done]. intros [= <-]. exists level.
  split; [done|]. split.
  { intros He. rewrite He in El. by injection El. }
  intros random ctx x. split; [|by intros ??; apply EncodeToString_inj].
  unfold logRequest, printed. rewrite Logger_level, Handle_traced, Logger_level. done.
Qed.

(** An unknown level is an error, and the logger stays. *)
Lemma unknown_level klogSet environ logger :
  UnmarshalLevel (getenv environ loggingLevelEnvVar) = None → getenv environ loggingLevelEnvVar ≠ "" →
  ∃ e, ConfigureLogging klogSet environ logger = (Some e, logger).
Proof.
  intros Hl Hn. unfold ConfigureLogging. destruct (negb _); [by eexists|].
  apply String.eqb_neq in Hn. cbv zeta. rewrite Hn, Hl. by eexists.
Qed.

(** ** Samples *)

Definition sample_exchange (path query : string) : Exchange :=
  {| ex_Method := "GET"; ex_Path := path; ex_RawQuery := query; ex_Status := "200"; ex_Latency := "1ms";
     ex_Client := "10.0.0.1"; ex_Errors := "" |}.

Definition sample_context : Context_ := {| cx_TraceID := None; cx_SpanID := Some ["z"%char]; cx_Values := ∅ |}.

Definition sample_random : list ascii * list ascii := (["k"; "9"]%char, ["e"]%char).

Lemma request_logged_witness :
  logRequest (ContextLogger LevelInfo) sample_random sample_context (sample_exchange "/livez" "") = None ∧
  rc_Attrs <$> logRequest (ContextLogger LevelInfo) sample_random sample_context (sample_exchange "/livez" "v=1") =
  Some [("method", "GET"); ("status", "200"); ("latency", "1ms"); ("client", "10.0.0.1");
        ("path", "/livez?v=1"); ("errors", ""); ("trace-id", "6b39"); ("span-id", "7a")].
Proof.
  assert (ConfigureLogging (λ _, true) ∅ SlogDefault = (None, ContextLogger LevelInfo)) as Hc
    by (vm_compute; reflexivity).
  destruct (request_logged _ _ _ _ Hc) as (level & Hi & _ & Hl). injection Hi as <-.
  split; [exact (proj1 (Hl sample_random sample_context (sample_exchange "/livez" "")))|].
  rewrite (proj1 (Hl sample_random sample_context (sample_exchange "/livez" "v=1"))). reflexivity.
Defined.

(** The levels of [log/slog] are more than the four documented. *)
Lemma levels_with_offsets :
  UnmarshalLevel "debug" = Some (-4)%Z ∧ UnmarshalLevel "Error+2" = Some 10%Z ∧
  UnmarshalLevel "INFO-2" = Some (-2)%Z ∧ UnmarshalLevel "TRACE" = None.
Proof. by vm_compute. Qed.
