(* ===== verification/LogRetrieval.v ===== *)
(** * [cmd/api/logging/logging.go]: reading a log and answering with it

    What a backend answers is read line by line or page by page and written to the
    client.  The handler asks the backend through [ClientDo], which is given the
    number of the request, for a backend may change between two. *)
From S2P Require Import Prelude GoLib GoStrings LogBackend.

(** ** Libraries *)

(** [ojg]: documents, JSONPath expressions and what they give, [NilExpr] being the nil
    one; a value is a text or has one by [%v]. *)
Class LogJSON := {
  Json : Type;
  Expr : Type;
  NilExpr : Expr;
  ParseJSON : string → option Json;
  ParseExpr : string → option Expr;
  GetExpr : Expr → Json → list Json;
  AsString : Json → option string;
  SprintJSON : Json → string;
}.

(** [http.Client]: the answer to a request within a timeout, a status and a body with
    the error its reading ends with, if any; [None] when there is none. *)
Record BackendAnswer := { ba_Status : Z; ba_Body : string; ba_Error : option string }.

Class Backend `{!URLLib} := { ClientDo : nat → Z → Request → option BackendAnswer }.

(** ** Answers *)

Inductive LogError :=
| NoLogURL | NoProvider (url : string) | TailOfLegacy | NoEndpoint (mode : string)
| BadJsonPath (path : string) | BadRequest | RequestFailed | ReadFailed (e : string)
| ParseFailed | BackendError (status : Z) (body : string) | NoLogsFound.

(** What the client receives: an error, or the lines of a log with the headers of the
    record; [complete] is false when it ended early after it was started. *)
Inductive LogAnswer :=
| Aborted (status : Z) (e : LogError)
| Logs (record : LogRecord) (lines : list string) (complete : bool).

(** The connection: how many lines it still takes, [None] when it does not break. *)
Definition Connection : Type := option nat.

(** [writeLogLines]: the lines written, whether none was refused, and the connection. *)
Definition writeLogLines (conn : Connection) (lines : list string)
    : list string * bool * Connection :=
  match conn with
  | None => (lines, true, None)
  | Some n => (take n lines, bool_decide (length lines ≤ n)%nat, Some (n - length lines)%nat)
  end.

(** [strconv.Atoi] with its error ignored: what does not parse is zero, what is out of
    range is the bound. *)
Definition AtoiOrBound (s : string) : Z :=
  match parseDigits s with
  | Some z => Z.max (- 2 ^ 63) (Z.min (2 ^ 63 - 1) z)
  | None => 0
  end.

Definition newline : ascii := "010"%char.

(** [reader.ReadBytes] up to the first error: each line but the last ends with its
    newline. *)
Inductive ReadError := NoError | EOF | Failed (e : string).

Fixpoint readParts (e : option string) (parts : list string) : list (string * ReadError) :=
  match parts with
  | [] => []
  | part :: parts =>
      match parts with
      | [] => [(part, match e with Some e => Failed e | None => EOF end)]
      | _ => (part +:+ String newline "", NoError) :: readParts e parts
      end
  end.

Definition readLines (a : BackendAnswer) : list (string * ReadError) :=
  readParts (ba_Error a) (Split newline (ba_Body a)).

Section retrieval.
  Context `{!URLLib, !RequestLib, !LogJSON, !Backend, !MapRange}.

(** ** Reading *)

Definition entriesToStrings (entries : list Json) : list string :=
  filter (λ s, s ≠ "")
    (map (λ entry, match AsString entry with Some s => s | None => SprintJSON entry end) entries).

(** [None] is an error. *)
Definition parseLine (line : string) (jsonPathParser : option Expr) : option (list string) :=
  if String.eqb (TrimSpace line) "" then Some []
  else
    match jsonPathParser with
    | None => let s := TrimRightByte newline line in Some (if String.eqb s "" then [] else [s])
    | Some parser => (λ jsonLine, entriesToStrings (GetExpr parser jsonLine)) <$> ParseJSON line
    end.

(** The loop of [writeBufferedLogs], with its variables [allEntries] and [lineCount]. *)
Fixpoint readBuffered (jsonPathParser : option Expr) (tailLinesInt : Z) (allEntries : list string)
    (lineCount : Z) (reads : list (string * ReadError)) : outcome LogError (list string) :=
  match reads with
  | [] => Ok allEntries
  | (line, readErr) :: reads =>
      match readErr with
      | Failed e => Err (ReadFailed e)
      | _ =>
          match parseLine line jsonPathParser with
          | None => Err ParseFailed
          | Some parsedLines =>
              let allEntries := allEntries ++ parsedLines in
              let lineCount :=
                foldl (λ n pl, n + Z.of_nat (CountByte newline pl) + 1)%Z lineCount parsedLines in
              match readErr with
              | EOF => Ok allEntries
              | _ =>
                  if (0 <? tailLinesInt)%Z && (tailLinesInt <=? lineCount)%Z then Ok allEntries
                  else readBuffered jsonPathParser tailLinesInt allEntries lineCount reads
              end
          end
      end
  end.

(** The lines of the entries, but the empty ones. *)
Definition flatten (entries : list string) : list string :=
  entries ≫= λ entry, filter (λ l, l ≠ "") (Split newline entry).

Definition writeBufferedLogs (conn : Connection) (a : BackendAnswer) (jsonPathParser : option Expr)
    (record : LogRecord) (reverse : bool) (tailLinesInt : Z) : LogAnswer :=
  match readBuffered jsonPathParser tailLinesInt [] 0 (readLines a) with
  | Err e => Aborted 500 e
  | Panic => Aborted 500 ParseFailed
  | Ok allEntries =>
      if (length allEntries =? 0)%nat then Aborted 404 NoLogsFound
      else
        let allEntries := if reverse then rev allEntries else allEntries in
        let flatLines := flatten allEntries in
        let flatLines :=
          if (0 <? tailLinesInt)%Z && (tailLinesInt <? Z.of_nat (length flatLines))%Z
          then drop (length flatLines - Z.to_nat tailLinesInt) flatLines else flatLines in
        Logs record (writeLogLines conn flatLines).1.1 (writeLogLines conn flatLines).1.2
  end.

(** An error, before or after the answer was started. *)
Definition failed (record : LogRecord) (logsReturned : bool) (written : list string) (status : Z)
    (e : LogError) : LogAnswer :=
  if logsReturned then Logs record written false else Aborted status e.

(** The end of the loops that write as they read. *)
Definition finished (record : LogRecord) (logsReturned : bool) (written : list string) : LogAnswer :=
  if logsReturned then Logs record written true else Aborted 404 NoLogsFound.

(** The loop of [streamLogs]. *)
Fixpoint streamReads (conn : Connection) (jsonPathParser : option Expr) (record : LogRecord)
    (logsReturned : bool) (written : list string) (reads : list (string * ReadError)) : LogAnswer :=
  match reads with
  | [] => finished record logsReturned written
  | (line, readErr) :: reads =>
      match readErr with
      | Failed e => failed record logsReturned written 500 (ReadFailed e)
      | _ =>
          match parseLine line jsonPathParser with
          | None => failed record logsReturned written 500 ParseFailed
          | Some parsedLines =>
              let logsReturned := logsReturned || (0 <? length parsedLines)%nat in
              let '(lines, ok, conn) := writeLogLines conn parsedLines in
              let written := written ++ lines in
              if negb ok then Logs record written false
              else
                match readErr with
                | EOF => finished record logsReturned written
                | _ => streamReads conn jsonPathParser record logsReturned written reads
                end
          end
      end
  end.

Definition streamLogs (conn : Connection) (a : BackendAnswer) (jsonPathParser : option Expr)
    (record : LogRecord) : LogAnswer :=
  streamReads conn jsonPathParser record false [] (readLines a).

(** ** Pages *)

(** The request for a cursor, none for the empty one. *)
Definition withCursor (param lastCursor : string) (rq : Request) : Request :=
  if String.eqb lastCursor "" then rq
  else
    {| rq_Method := rq_Method rq;
       rq_URL := WithRawQuery (rq_URL rq) (Encode (<[param := [lastCursor]]> (Query (rq_URL rq))));
       rq_Body := rq_Body rq; rq_Headers := rq_Headers rq |}.

(** The greatest text of the results. *)
Definition maxCursor (cursorResults : list Json) : option string :=
  match map SprintJSON cursorResults with
  | [] => None
  | cursor :: rest => Some (foldl (λ cursor s, if (Compare s cursor =? 1)%Z then s else cursor) cursor rest)
  end.

Definition incremented (increment : Z) (cursor : string) : string :=
  if (increment =? 0)%Z then cursor
  else match ParseInt cursor with
       | Some cursorInt => FormatInt (wrap64 (cursorInt + increment))
       | None => cursor
       end.

(** The entries and the cursors of an answer, or an error and its status. *)
Definition readPage (jsonPathParser cursorParser : Expr) (a : BackendAnswer)
    : (list string * list Json) + (Z * LogError) :=
  match ba_Error a with
  | Some e => inr (500, ReadFailed e)%Z
  | None =>
      if negb (ba_Status a =? 200)%Z
      then inr (ba_Status a, BackendError (ba_Status a) (String.substring 0 1024 (ba_Body a)))
      else match ParseJSON (ba_Body a) with
           | None => inr (500, ParseFailed)%Z
           | Some parsed => inl (entriesToStrings (GetExpr jsonPathParser parsed), GetExpr cursorParser parsed)
           end
  end.

(** The loop of [streamPaginatedLogs]: the requests sent and the answer, [None] when
    [fuel] requests did not end it. *)
Fixpoint streamPages (fuel n : nat) (conn : Connection) (endpoint : ApiEndpoint)
    (pagination : PaginationConfig) (record : LogRecord) (tailLines : string)
    (headers : gmap string string) (jsonPathParser cursorParser : Expr)
    (logsReturned : bool) (written : list string) (lastCursor : string)
    : option (list Request * LogAnswer) :=
  match fuel with
  | O => None
  | S fuel =>
      match buildProviderRequest endpoint record tailLines with
      | None => Some ([], failed record logsReturned written 500 BadRequest)
      | Some rq =>
          let rq := setHeaders headers (withCursor (Param pagination) lastCursor rq) in
          let last a := Some ([rq], a) in
          match ClientDo n (requestTimeout endpoint) rq with
          | None => last (failed record logsReturned written 500 RequestFailed)
          | Some answer =>
              match readPage jsonPathParser cursorParser answer with
              | inr (status, e) => last (failed record logsReturned written status e)
              | inl ([], _) => last (finished record logsReturned written)
              | inl (entries, cursorResults) =>
                  let '(lines, ok, conn) := writeLogLines conn entries in
                  let written := written ++ lines in
                  if negb ok then last (Logs record written false)
                  else
                    match maxCursor cursorResults with
                    | None => last (finished record true written)
                    | Some cursor =>
                        if String.eqb cursor "" || String.eqb cursor lastCursor
                        then last (finished record true written)
                        else
                          '(requests, a) ←
                            streamPages fuel (S n) conn endpoint pagination record tailLines headers
                              jsonPathParser cursorParser true written
                              (incremented (CursorIncrement pagination) cursor);
                          Some (rq :: requests, a)
                    end
              end
          end
      end
  end.

Definition streamPaginatedLogs (fuel : nat) (conn : Connection) (endpoint : ApiEndpoint)
    (pagination : PaginationConfig) (record : LogRecord) (tailLines : string)
    (headers : gmap string string) (jsonPathParser : Expr) : option (list Request * LogAnswer) :=
  match ParseExpr (NextCursor pagination) with
  | None => Some ([], Aborted 500 (BadJsonPath (NextCursor pagination)))
  | Some cursorParser =>
      streamPages fuel 0 conn endpoint pagination record tailLines headers jsonPathParser cursorParser
        false [] ""
  end.

(** ** The handler *)

(** The provider of a record: its key, its configuration, the record to ask with, and
    the URL of an old record, to be asked as it is; [inr] is an error. *)
Definition findProvider (providers : gmap string ProviderConfig) (record : LogRecord)
    : (string * ProviderConfig * LogRecord * option string) + LogError :=
  match providers !! lr_URL record with
  | Some providerConfig => inl (lr_URL record, providerConfig, record, None)
  | None =>
      match extractBaseURL (lr_URL record) with
      | None => inr (NoProvider (lr_URL record))
      | Some baseURL =>
          match providers !! baseURL with
          | None => inr (NoProvider baseURL)
          | Some providerConfig =>
              if String.eqb (lr_Query record) ""
              then inl (baseURL, providerConfig, record, Some (lr_URL record))
              else inl (baseURL, providerConfig, withURL baseURL record, None)
          end
      end
  end.

(** The single request of a log that is not read by pages. *)
Definition askOnce (conn : Connection) (endpoint : ApiEndpoint) (record : LogRecord)
    (tailLines : string) (tailLinesInt : Z) (headers : gmap string string)
    (jsonPathParser : option Expr) (legacyFullURL : option string) : list Request * LogAnswer :=
  let request :=
    match legacyFullURL with
    | Some url => NewRequest "GET" url ""
    | None => buildProviderRequest endpoint record tailLines
    end in
  match request with
  | None => ([], Aborted 500 BadRequest)
  | Some rq =>
      let rq := setHeaders headers rq in
      ([rq],
       match ClientDo 0 (requestTimeout endpoint) rq with
       | None => Aborted 500 RequestFailed
       | Some answer =>
           if negb (ba_Status answer =? 200)%Z
           then Aborted (ba_Status answer)
                  (BackendError (ba_Status answer) (String.substring 0 1024 (ba_Body answer)))
           else if (0 <? tailLinesInt)%Z || Reverse endpoint
           then writeBufferedLogs conn answer jsonPathParser record (Reverse endpoint) tailLinesInt
           else streamLogs conn answer jsonPathParser record
       end)
  end.

(** [LogRetrieval]: [record] is the one the context holds, if any, and [allHeaders] and
    [providers] the configuration. *)
Definition LogRetrieval (fuel : nat) (conn : Connection)
    (allHeaders : gmap string (gmap string string)) (providers : gmap string ProviderConfig)
    (record : option LogRecord) (tailLines : string) : option (list Request * LogAnswer) :=
  let abort status e := Some ([], Aborted status e) in
  match record with
  | None => abort 404 NoLogURL
  | Some record =>
      if String.eqb (lr_URL record) "" then abort 404 NoLogURL
      else
        let mode := if String.eqb tailLines "" then "full" else "tail" in
        match findProvider providers record with
        | inr e => abort 500 e
        | inl (providerKey, providerConfig, record, legacyFullURL) =>
            let headers := default ∅ (allHeaders !! providerKey) in
            if negb (String.eqb tailLines "") && bool_decide (is_Some legacyFullURL)
            then abort 400 TailOfLegacy
            else
              match (if String.eqb tailLines "" then Full providerConfig else Tail providerConfig) with
              | None => abort 500 (NoEndpoint mode)
              | Some endpoint =>
                  match (if String.eqb (JsonPath endpoint) "" then Some None
                         else Some <$> ParseExpr (JsonPath endpoint)) with
                  | None => abort 500 (BadJsonPath (JsonPath endpoint))
                  | Some jsonPathParser =>
                      let tailLinesInt := AtoiOrBound tailLines in
                      match Pagination endpoint with
                      | Some pagination =>
                          if (0 <? tailLinesInt)%Z || Reverse endpoint || bool_decide (is_Some legacyFullURL)
                          then Some (askOnce conn endpoint record tailLines tailLinesInt headers
                                       jsonPathParser legacyFullURL)
                          else streamPaginatedLogs fuel conn endpoint pagination record tailLines headers
                                 (default NilExpr jsonPathParser)
                      | None =>
                          Some (askOnce conn endpoint record tailLines tailLinesInt headers
                                  jsonPathParser legacyFullURL)
                      end
                  end
              end
        end
  end%Z.
End retrieval.
