(* ===== verification/LogFacts.v ===== *)
(** * Logs: where they are asked for, and what of them is delivered *)
From S2P Require Import Prelude GoLib GoStrings LogUrls LogBackend LogRetrieval Samples.

(** ** Requests *)

Section hosts.
  Context `{!URLLib, !RequestLib, !LogJSON, !Backend, !MapRange}.

(** A request before the headers of a provider are set. *)
Definition plainHeaders (rq : Request) : Prop :=
  rq_Headers rq = ∅ ∨ rq_Headers rq = {["Content-Type" := "application/json"]}.

Lemma NewRequest_URL method url body rq :
  NewRequest method url body = Some rq → ParseURL url = Some (rq_URL rq) ∧ rq_Headers rq = ∅.
Proof.
  unfold NewRequest. destruct (ValidMethod method); [|done].
  destruct (ParseURL url) as [u|]; [|done]. by intros [= <-].
Qed.

(** Whatever the substituted values are, the host is the one of the record. *)
Lemma buildProviderRequest_host endpoint record tailLines rq :
  buildProviderRequest endpoint record tailLines = Some rq →
  ∃ b, ParseURL (lr_URL record) = Some b ∧ Host (rq_URL rq) = Host b ∧ plainHeaders rq.
Proof.
  unfold buildProviderRequest. destruct (ParseURL (lr_URL record)) as [b|]; [|done].
  destruct (ParseURL (_ +:+ _)) as [u|]; [|done]. case_eqb; [cbn [negb]|done].
  intros Hrq. exists b. split; [done|]. rewrite <-E. revert Hrq.
  destruct (String.eqb (ToUpper (Method endpoint)) "GET").
  - case_bool_decide.
    + intros [Hp Hh]%NewRequest_URL. split; [by apply Parse_URLString in Hp|by left].
    + destruct (ParseURL (URLString u)) as [u'|] eqn:Eu; [|done].
      intros [Hp Hh]%NewRequest_URL. split; [|by left].
      apply Parse_URLString in Hp, Eu. by rewrite Hp, Host_WithRawQuery.
  - destruct (MarshalBody _) as [body|]; [|done].
    destruct (NewRequest _ _ _) as [rq'|] eqn:Er; [|done]. apply NewRequest_URL in Er as [Hp Hh].
    intros [= <-]. cbn. split; [by apply Parse_URLString in Hp|]. right. cbn. by rewrite Hh.
Qed.

Lemma withCursor_host param c rq :
  Host (rq_URL (withCursor param c rq)) = Host (rq_URL rq) ∧
  rq_Headers (withCursor param c rq) = rq_Headers rq.
Proof. unfold withCursor. case_eqb; [done|]. cbn. by rewrite Host_WithRawQuery. Qed.

(** The request goes to the host of a key, with the headers of that key. *)
Definition sentFor (allHeaders : gmap string (gmap string string)) (key : string) (rq : Request) : Prop :=
  ∃ plain, rq = setHeaders (default ∅ (allHeaders !! key)) plain ∧ plainHeaders plain ∧
    ((∃ b, ParseURL key = Some b ∧ Host (rq_URL rq) = Host b) ∨
     key = Scheme (rq_URL rq) +:+ "://" +:+ Host (rq_URL rq)).

Lemma sentFor_record allHeaders key endpoint record tailLines param c rq :
  lr_URL record = key → buildProviderRequest endpoint record tailLines = Some rq →
  sentFor allHeaders key (setHeaders (default ∅ (allHeaders !! key)) (withCursor param c rq)).
Proof.
  intros <- (b & Hb & Hh & Hp)%buildProviderRequest_host. destruct (withCursor_host param c rq) as [Hc Hk].
  eexists. split; [done|]. unfold plainHeaders. rewrite Hk. split; [done|]. left. exists b.
  split; [done|]. cbn. by rewrite Hc.
Qed.

Lemma streamPages_hosts fuel n conn endpoint p record tailLines allHeaders key jp cp returned written c requests a :
  lr_URL record = key →
  streamPages fuel n conn endpoint p record tailLines (default ∅ (allHeaders !! key)) jp cp
    returned written c = Some (requests, a) →
  Forall (sentFor allHeaders key) requests.
Proof.
  intros Hkey. revert n conn returned written c requests.
  induction fuel as [|fuel IH]; intros n conn returned written c requests; [done|]. cbn [streamPages].
  destruct (buildProviderRequest endpoint record tailLines) as [rq|] eqn:Erq; [|by intros [= <- _]].
  pose proof (sentFor_record allHeaders key _ _ _ (Param p) c _ Hkey Erq) as Hs. revert Hs.
  set (rq' := setHeaders _ _). intros Hs.
  assert (∀ x, Some ([rq'], x) = Some (requests, a) → Forall (sentFor allHeaders key) requests) as Hlast.
  { intros x [= <- _]. by constructor. }
  destruct (ClientDo _ _ _) as [answer|]; [|apply Hlast].
  destruct (readPage _ _ _) as [[[|e es] cs]|[status e]]; [apply Hlast| |apply Hlast].
  destruct (writeLogLines conn (e :: es)) as [[lines ok] conn']. destruct ok; [cbn [negb]|apply Hlast].
  destruct (maxCursor cs) as [cursor|]; [|apply Hlast].
  destruct (_ || _); [apply Hlast|].
  destruct (streamPages _ _ _ _ _ _ _ _ _ _ _ _ _) as [[rqs a']|] eqn:Er; [|done].
  cbn. intros [= <- <-]. constructor; [done|]. by eapply IH.
Qed.

Lemma findProvider_key providers record key config record' legacy :
  findProvider providers record = inl (key, config, record', legacy) →
  is_Some (providers !! key) ∧
  match legacy with
  | None => lr_URL record' = key
  | Some url => extractBaseURL url = Some key
  end.
Proof.
  unfold findProvider. destruct (providers !! lr_URL record) as [p|] eqn:Ep.
  { intros [= <- <- <- <-]. by rewrite Ep. }
  destruct (extractBaseURL (lr_URL record)) as [base|] eqn:Eb; [|done].
  destruct (providers !! base) as [p|] eqn:Ep'; [|done].
  case_eqb; intros [= <- <- <- <-]; rewrite Ep'; by split; [eauto|].
Qed.

Lemma askOnce_hosts conn endpoint record tailLines t allHeaders key jp legacy requests a :
  match legacy with None => lr_URL record = key | Some url => extractBaseURL url = Some key end →
  askOnce conn endpoint record tailLines t (default ∅ (allHeaders !! key)) jp legacy = (requests, a) →
  Forall (sentFor allHeaders key) requests.
Proof.
  unfold askOnce. intros Hl. destruct legacy as [url|].
  - unfold extractBaseURL in Hl.
    destruct (NewRequest "GET" url "") as [rq|] eqn:Er; [|by intros [= <- _]].
    apply NewRequest_URL in Er as [Hp Hh]. rewrite Hp in Hl.
    destruct (String.eqb _ _); [done|]. injection Hl as <-.
    intros [= <- _]. constructor; [|done]. exists rq. split; [done|]. split; [by left|]. by right.
  - destruct (buildProviderRequest _ _ _) as [rq|] eqn:Er; [|by intros [= <- _]].
    intros [= <- _]. constructor; [|done].
    exact (sentFor_record allHeaders key _ _ _ "" "" _ Hl Er).
Qed.

(** C32: every request sent for a log goes to the host of the provider whose headers it
    carries, whatever the record and the client's parameters put into the path. *)
Theorem LogRetrieval_host fuel conn allHeaders providers record tailLines requests a
    (Hrun : LogRetrieval fuel conn allHeaders providers record tailLines = Some (requests, a)) :
  ∃ key, Forall (λ rq, is_Some (providers !! key) ∧ sentFor allHeaders key rq) requests.
Proof.
  unfold LogRetrieval in Hrun.
  assert (∀ s e, Some ([] : list Request, Aborted s e) = Some (requests, a) →
    ∃ key, Forall (λ rq, is_Some (providers !! key) ∧ sentFor allHeaders key rq) requests) as Habort.
  { intros s e [= <- _]. exists "". constructor. }
  destruct record as [record|]; [|by eapply Habort].
  destruct (String.eqb (lr_URL record) ""); [by eapply Habort|].
  destruct (findProvider providers record) as [[[[key config] record'] legacy]|e] eqn:Ef; [|by eapply Habort].
  apply findProvider_key in Ef as [Hkey Hl].
  destruct (_ && _); [by eapply Habort|].
  destruct (if String.eqb tailLines "" then _ else _) as [endpoint|]; [|by eapply Habort].
  destruct (if String.eqb (JsonPath endpoint) "" then _ else _) as [jp|]; [|by eapply Habort].
  exists key. apply Forall_and. split; [by apply Forall_true|].
  assert (∀ t, Some (askOnce conn endpoint record' tailLines t (default ∅ (allHeaders !! key)) jp legacy) =
    Some (requests, a) → Forall (sentFor allHeaders key) requests) as Hask.
  { intros t [= Ha]. by eapply askOnce_hosts. }
  destruct (Pagination endpoint) as [p|]; [|by eapply Hask].
  destruct legacy as [url|]; [rewrite bool_decide_true, orb_true_r in Hrun by eauto; by eapply Hask|].
  rewrite bool_decide_false, orb_false_r in Hrun by (by intros []).
  destruct (_ || _); [by eapply Hask|]. unfold streamPaginatedLogs in Hrun.
  destruct (ParseExpr (NextCursor p)); [|injection Hrun as <- _; constructor].
  by eapply streamPages_hosts.
Qed.
End hosts.

(** ** Logs read by pages *)

Lemma FormatInt_inj a b : FormatInt a = FormatInt b → a = b.
Proof. intros He. pose proof (parseDigits_FormatInt a) as Ha. rewrite He, parseDigits_FormatInt in Ha. congruence. Qed.

Lemma FormatInt_nonempty z : FormatInt z ≠ "".
Proof. intros He. pose proof (parseDigits_FormatInt z) as Hz. rewrite He in Hz. done. Qed.

Section pages.
  Context `{!URLLib, !RequestLib, !LogJSON, !Backend, !MapRange}.
  Context (endpoint : ApiEndpoint) (p : PaginationConfig) (record : LogRecord) (tailLines : string).
  Context (headers : gmap string string) (jp cp : Expr).

(** The request for a cursor. *)
Definition asked (c : string) (rq : Request) : Request :=
  setHeaders headers (withCursor (Param p) c rq).

(** Whenever it is asked for a cursor, the backend answers with these entries, each the
    instant it was written at and its text, and with their instants as cursors. *)
Definition serves (c : string) (es : list (Z * string)) : Prop :=
  ∀ rq n, buildProviderRequest endpoint record tailLines = Some rq →
    ∃ answer cs, ClientDo n (requestTimeout endpoint) (asked c rq) = Some answer ∧
      readPage jp cp answer = inl (es.*2, cs) ∧ map SprintJSON cs = FormatInt <$> es.*1.

(** The entries not older than an instant. *)
Definition since (z : Z) (store : list (Z * string)) : list (Z * string) :=
  filter (λ e, (z <= e.1)%Z) store.

(** After a page that ends with the instant of [e], and splits no instant, the entries
    that are left are those of later instants. *)
Lemma since_drop (store : list (Z * string)) z k e :
  StronglySorted (λ a b : Z * string, (a.1 <= b.1)%Z) store →
  last (take k (since z store)) = Some e →
  (∀ e', e' ∈ drop k (since z store) → (e.1 < e'.1)%Z) →
  since (e.1 + 1) store = drop k (since z store).
Proof.
  intros Hs He Hwhole. assert (z <= e.1)%Z as Hz.
  { apply last_Some_elem_of, elem_of_take in He as (i & Hi & _).
    by apply list_elem_of_lookup_2, list_elem_of_filter in Hi as [Hz _]. }
  assert (since (e.1 + 1) store = since (e.1 + 1) (since z store)) as ->.
  { unfold since. rewrite list_filter_filter_l; [done|]. cbv beta. intros x Hx. lia. }
  assert (StronglySorted (λ a b : Z * string, (a.1 <= b.1)%Z) (since z store)) as Hs'
    by (by apply StronglySorted_filter).
  revert He Hwhole Hs'. generalize (since z store). clear Hs Hz. intros l He Hwhole Hs'.
  rewrite <-(take_drop k l) in Hs'. rewrite <-(take_drop k l) at 1.
  apply last_Some in He as [l' He]. rewrite He in Hs' |- *. unfold since. rewrite filter_app.
  rewrite filter_none.
  - apply filter_all. intros x Hx. apply Hwhole in Hx. lia.
  - apply StronglySorted_app_1_l in Hs'.
    intros x [Hx| ->%list_elem_of_singleton]%elem_of_app; [|cbn; lia].
    apply (StronglySorted_app_1_elem_of _ _ _ x e) in Hs'; [cbn in *; lia|done|by left].
Qed.

(** The texts of instants are compared as the instants are. *)
Definition textOrder (a b : Z) : Prop := a = b ∨ Compare (FormatInt b) (FormatInt a) = 1%Z.

Lemma foldl_max_last a l :
  StronglySorted textOrder (a :: l) →
  foldl (λ cursor s, if (Compare s cursor =? 1)%Z then s else cursor) (FormatInt a) (FormatInt <$> l) =
  FormatInt (default a (last l)).
Proof.
  revert a. induction l as [|b l IH]; intros a Hs; [done|].
  apply StronglySorted_inv in Hs as [Hs Ha]. apply Forall_cons in Ha as [Hab _]. cbn [fmap list_fmap foldl].
  assert ((if (Compare (FormatInt b) (FormatInt a) =? 1)%Z then FormatInt b else FormatInt a) = FormatInt b) as ->.
  { destruct Hab as [->| ->]; [by destruct (_ =? 1)%Z|done]. }
  rewrite IH by done. f_equal. rewrite last_cons. by destruct (last l).
Qed.

Lemma maxCursor_last cs (es : list (Z * string)) e :
  map SprintJSON cs = FormatInt <$> es.*1 → last es = Some e → StronglySorted textOrder es.*1 →
  maxCursor cs = Some (FormatInt e.1).
Proof.
  unfold maxCursor. intros -> He Hs. destruct es as [|x es]; [done|]. cbn [fmap list_fmap] in Hs |- *.
  rewrite foldl_max_last by done. do 2 f_equal. rewrite fmap_last.
  destruct es as [|y es]; [by injection He as ->|]. rewrite last_cons_cons in He. by rewrite He.
Qed.

(** With an increment the end is not seen: a backend that gives the same page whatever
    the cursor is asked again and again, although its cursor does not advance. *)
Theorem repeated_page_never_ends rq es cs t
    (Hrq : buildProviderRequest endpoint record tailLines = Some rq)
    (Hsame : ∀ n c, ∃ answer, ClientDo n (requestTimeout endpoint) (asked c rq) = Some answer ∧
       readPage jp cp answer = inl (es, cs))
    (Hes : es ≠ []) (Hcs : maxCursor cs = Some (FormatInt t))
    (Hinc : (0 < CursorIncrement p)%Z) (Ht : (- 2 ^ 63 <= t ∧ t + CursorIncrement p < 2 ^ 63)%Z)
    (Hcp : ParseExpr (NextCursor p) = Some cp) fuel :
  streamPaginatedLogs fuel None endpoint p record tailLines headers jp = None.
Proof.
  unfold streamPaginatedLogs. rewrite Hcp.
  enough (∀ n returned written c, c ≠ FormatInt t →
    streamPages fuel n None endpoint p record tailLines headers jp cp returned written c = None) as Hall.
  { apply Hall. intros He. symmetry in He. by apply FormatInt_nonempty in He. }
  induction fuel as [|fuel IH]; intros n returned written c Hc; [done|]. cbn [streamPages].
  rewrite Hrq. destruct (Hsame n c) as (answer & Ha & Hp). unfold asked in Ha. rewrite Ha, Hp.
  destruct es as [|x xs]; [done|]. cbn [writeLogLines negb]. rewrite Hcs.
  rewrite (proj2 (String.eqb_neq _ _) (FormatInt_nonempty t)).
  rewrite (proj2 (String.eqb_neq (FormatInt t) c)) by done. cbn [orb].
  rewrite IH; [done|]. unfold incremented.
  rewrite (proj2 (Z.eqb_neq _ _)) by lia. rewrite ParseInt_FormatInt by (unfold int64_ok; lia).
  rewrite wrap64_id by (unfold int64_ok; lia). intros He%FormatInt_inj. lia.
Qed.

(** The answer once the entries [es] are written after [written], on a connection that may
    break in them. *)
Definition delivered (conn : Connection) (logsReturned : bool) (written : list string)
    (es : list (Z * string)) : LogAnswer :=
  match es with
  | [] => finished record logsReturned written
  | _ => Logs record (written ++ (writeLogLines conn es.*2).1.1) (writeLogLines conn es.*2).1.2
  end.

Lemma writeLogLines_app conn l1 l2 :
  let '(lines1, ok1, conn1) := writeLogLines conn l1 in
  let '(lines2, ok2, conn2) := writeLogLines conn1 l2 in
  if ok1 then writeLogLines conn (l1 ++ l2) = (lines1 ++ lines2, ok2, conn2)
  else (writeLogLines conn (l1 ++ l2)).1 = (lines1, false).
Proof.
  destruct conn as [n|]; [|done]. cbn. rewrite length_app. case_bool_decide as Hfit.
  - rewrite take_app, (take_ge l1) by lia. f_equal; [f_equal|f_equal; lia].
    apply bool_decide_ext. lia.
  - rewrite take_app_le by lia. f_equal. apply bool_decide_eq_false. lia.
Qed.

(** A log: its entries in the order of their instants, whose texts are compared in that
    order.  A backend that answers a cursor with the entries not older than it, or with the
    newer ones ([newer]), [size] of them. *)
Context (store : list (Z * string)) (newer : bool) (size : Z → nat) (start : Z) (rq : Request).

Definition left (z : Z) : list (Z * string) := since (z + Z.b2z newer) store.
Definition page (z : Z) : list (Z * string) := take (size z) (left z).
Definition rest (z : Z) : list (Z * string) := drop (size z) (left z).

Context (Hstore : StronglySorted (λ a b : Z * string, (a.1 <= b.1)%Z) store).
Context (Htext : ∀ e e', e ∈ store → e' ∈ store → (e.1 < e'.1)%Z →
  Compare (FormatInt e'.1) (FormatInt e.1) = 1%Z).
Context (Hint : ∀ e, e ∈ store → (- 2 ^ 63 <= e.1 < 2 ^ 63 - 1)%Z).
Context (Hinc : (CursorIncrement p + Z.b2z newer = 1)%Z).
(** A page is empty at the end only, its last entry is newer than the cursor unless
    nothing is left, and its instant is older than what is left. *)
Context (Hsize : ∀ z, rest z ≠ [] → ∃ e, last (page z) = Some e ∧ (z < e.1)%Z ∧
  ∀ e', e' ∈ rest z → (e.1 < e'.1)%Z).
Context (Hrq : buildProviderRequest endpoint record tailLines = Some rq).
Context (Hnext : ∀ z, int64_ok z → serves (FormatInt z) (page z)).

Lemma elem_of_page z e : e ∈ page z → e ∈ store ∧ (z <= e.1)%Z.
Proof.
  intros (i & Hi & _)%elem_of_take.
  apply list_elem_of_lookup_2, list_elem_of_filter in Hi as [? ?]. split; [done|]. destruct newer; cbn in *; lia.
Qed.

Lemma page_texts z : StronglySorted textOrder (page z).*1.
Proof.
  assert (StronglySorted (λ a b : Z * string, (a.1 <= b.1)%Z) (page z)) as Hs.
  { assert (StronglySorted (λ a b : Z * string, (a.1 <= b.1)%Z) (left z)) as Hs
      by (by apply StronglySorted_filter).
    rewrite <-(take_drop (size z) (left z)) in Hs. by apply StronglySorted_app_1_l in Hs. }
  pose proof (elem_of_page z) as Hin. revert Hs Hin.
  generalize (page z). induction l as [|x l IH]; intros Hs Hin; cbn; [constructor|].
  apply StronglySorted_inv in Hs as [Hs Hx]. constructor.
  - apply IH; [done|]. intros y Hy. apply Hin. by right.
  - apply Forall_fmap, Forall_forall. intros y Hy. rewrite Forall_forall in Hx. cbn.
    specialize (Hx y Hy). destruct (decide (x.1 = y.1)) as [|Hne]; [by left|]. right.
    apply Htext; [apply (Hin x); by left|apply (Hin y); by right|lia].
Qed.

Lemma incremented_next e : e ∈ store →
  incremented (CursorIncrement p) (FormatInt e.1) = FormatInt (e.1 + CursorIncrement p) ∧
  int64_ok (e.1 + CursorIncrement p).
Proof.
  intros He. apply Hint in He.
  assert (int64_ok (e.1 + CursorIncrement p)) as Hok by (unfold int64_ok; destruct newer; cbn in Hinc; lia).
  split; [|done]. unfold incremented. destruct (Z.eqb_spec (CursorIncrement p) 0) as [->|].
  { by rewrite Z.add_0_r. }
  rewrite ParseInt_FormatInt by (unfold int64_ok; lia). by rewrite wrap64_id.
Qed.

Lemma last_page z e : last (page z) = Some e →
  left (e.1 + CursorIncrement p) = rest z ∧ (e.1 = z → rest z = []) ∧
  (length (rest z) < length (left z))%nat.
Proof.
  intros He. unfold left at 1. rewrite <-Z.add_assoc, Hinc.
  assert (∀ e', e' ∈ rest z → (e.1 < e'.1)%Z) as Hwhole.
  { destruct (rest z) as [|x l] eqn:Er; [by intros ? ?%not_elem_of_nil|]. rewrite <-Er.
    destruct (Hsize z) as (e0 & He0 & _ & Hw); [by rewrite Er|].
    assert (e0 = e) as -> by congruence. done. }
  split; [by apply since_drop|]. split.
  - intros Hz. destruct (rest z) as [|x l] eqn:Er; [done|].
    destruct (Hsize z) as (e0 & He0 & Hlt & _); [by rewrite Er|].
    assert (e0 = e) as -> by congruence. lia.
  - apply last_Some_elem_of in He. unfold rest, page in *. rewrite length_drop.
    destruct (size z); [by apply not_elem_of_nil in He|].
    destruct (left z); [by rewrite take_nil in He; apply not_elem_of_nil in He|cbn; lia].
Qed.

Lemma streamPages_delivers fuel n conn returned written z c :
  c = FormatInt z ∨ c = "" → serves c (page z) → (length (left z) < fuel)%nat →
  ∃ requests, streamPages fuel n conn endpoint p record tailLines headers jp cp returned written c =
    Some (requests, delivered conn returned written (left z)).
Proof.
  revert n conn returned written z c.
  induction fuel as [|fuel IH]; intros n conn returned written z c Hc Hserve Hf; [lia|].
  cbn [streamPages]. rewrite Hrq. fold (asked c rq).
  destruct (Hserve rq n Hrq) as (answer & cs & -> & -> & Hcs).
  pose proof (take_drop (size z) (left z)) as Hsplit. fold (page z) (rest z) in Hsplit.
  destruct (last (page z)) as [e|] eqn:He.
  2:{ assert (rest z = []) as Hr.
      { destruct (rest z) as [|x l] eqn:Er; [done|]. destruct (Hsize z) as (e & He' & _); [by rewrite Er|].
        congruence. }
      apply last_None in He. rewrite He, Hr in Hsplit. rewrite <-Hsplit, He. by eexists. }
  destruct (last_page z e He) as (Hleft & Hend & Hless).
  pose proof (maxCursor_last cs _ e Hcs He (page_texts z)) as Hmax.
  apply last_Some_elem_of in He as Hin. apply elem_of_page in Hin as [Hin _].
  destruct (page z) as [|x xs] eqn:Ep; [done|].
  pose proof (writeLogLines_app conn (page z).*2 (rest z).*2) as Hw. rewrite Ep in Hw.
  cbn [fmap list_fmap] in Hw |- *.
  destruct (writeLogLines conn (x.2 :: xs.*2)) as [[lines ok] conn1].
  assert (delivered conn returned written (left z) =
    Logs record (written ++ (writeLogLines conn ((page z).*2 ++ (rest z).*2)).1.1)
      (writeLogLines conn ((page z).*2 ++ (rest z).*2)).1.2) as ->.
  { rewrite <-fmap_app, Ep, Hsplit. rewrite <-Hsplit. done. }
  rewrite Ep. cbn [fmap list_fmap].
  destruct (writeLogLines conn1 (rest z).*2) as [[lines2 ok2] conn2] eqn:Ew2.
  destruct ok; cbn [negb]; [|rewrite Hw; by eexists].
  rewrite Hw, Hmax, (proj2 (String.eqb_neq _ _) (FormatInt_nonempty e.1)). cbn [orb fst snd].
  destruct (String.eqb_spec (FormatInt e.1) c) as [Eq|_].
  - destruct Hc as [-> | ->]; [apply FormatInt_inj in Eq|by apply FormatInt_nonempty in Eq].
    rewrite (Hend Eq) in Ew2. eexists. cbn.
    assert (lines2 = [] ∧ ok2 = true) as [-> ->].
    { revert Ew2. destruct conn1; cbn; [rewrite take_nil|]; by intros [= <- <- _]. }
    by rewrite app_nil_r.
  - destruct (incremented_next e Hin) as [-> Hok].
    destruct (IH (S n) conn1 true (written ++ lines) (e.1 + CursorIncrement p)%Z
      (FormatInt (e.1 + CursorIncrement p)) (or_introl eq_refl)) as [requests Hr].
    { by apply Hnext. }
    { rewrite Hleft. lia. }
    rewrite Hr. eexists. cbn [mbind option_bind]. do 2 f_equal. f_equal. rewrite Hleft. unfold delivered.
    destruct (rest z) as [|y l] eqn:Er; [|rewrite Ew2; cbn; by rewrite app_assoc].
    revert Ew2. destruct conn1; cbn; [rewrite take_nil|]; intros [= <- <- _]; by rewrite app_nil_r.
Qed.

End pages.

(** Pages of two entries or more, of different instants, are such pages. *)
Lemma distinct_pages (store : list (Z * string)) newer N z :
  StronglySorted (λ a b : Z * string, (a.1 < b.1)%Z) store → (2 ≤ N)%nat →
  rest store newer (λ _, N) z ≠ [] →
  ∃ e, last (page store newer (λ _, N) z) = Some e ∧ (z < e.1)%Z ∧
    ∀ e', e' ∈ rest store newer (λ _, N) z → (e.1 < e'.1)%Z.
Proof.
  intros Hs HN Hrest. unfold page, rest in *.
  assert (StronglySorted (λ a b : Z * string, (a.1 < b.1)%Z) (left store newer z)) as Hs'
    by (by apply StronglySorted_filter).
  assert (∀ x, x ∈ left store newer z → (z <= x.1)%Z) as Hz.
  { intros x [Hx _]%list_elem_of_filter. destruct newer; cbn in Hx; lia. }
  revert Hrest Hs' Hz. generalize (left store newer z). intros l Hrest Hs' Hz.
  assert (N < length l)%nat as Hl.
  { apply Nat.lt_nge. intros Hge. by apply Hrest, drop_ge. }
  destruct (last (take N l)) as [e|] eqn:He.
  2:{ apply last_None, (f_equal length) in He. rewrite length_take in He. cbn in He. lia. }
  exists e. split; [done|]. apply last_Some in He as [l' He].
  rewrite <-(take_drop N l), He in Hs', Hz. split.
  - destruct l' as [|x l'].
    { apply (f_equal length) in He. rewrite length_take in He. cbn in He. lia. }
    specialize (Hz x (list_elem_of_here _ _)). apply StronglySorted_app_1_l in Hs'.
    apply (StronglySorted_app_1_elem_of _ (x :: l') _ x e) in Hs'; [cbn in *; lia|by left|by left].
  - intros e' He'. apply (StronglySorted_app_1_elem_of _ _ _ e e') in Hs'; [done| |done].
    apply elem_of_app. right. by left.
Qed.

(** ** The last lines of a log *)

Section tail.
  Context `{!LogJSON}.

(** The last [n] lines. *)
Definition lastLines (n : Z) (lines : list string) : list string :=
  drop (length lines - Z.to_nat n) lines.

(** What the lines of a body hold; [None] when one does not parse. *)
Fixpoint entriesOf (jp : option Expr) (reads : list (string * ReadError)) : option (list string) :=
  match reads with
  | [] => Some []
  | (line, _) :: reads => es ← parseLine line jp; rest ← entriesOf jp reads; Some (es ++ rest)
  end.

(** An entry without empty lines. *)
Definition fullEntry (e : string) : Prop := Forall (λ l, l ≠ "") (Split newline e).

Lemma CountByte_Split c s : length (Split c s) = S (CountByte c s).
Proof.
  induction s as [|d s IH]; [done|]. cbn. destruct (Ascii.eqb d c); cbn; [by rewrite IH|].
  destruct (Split c s); [done|]. cbn in *. lia.
Qed.

Lemma flatten_length es : Forall fullEntry es →
  ∀ k, foldl (λ n pl, n + Z.of_nat (CountByte newline pl) + 1)%Z k es = (k + Z.of_nat (length (flatten es)))%Z.
Proof.
  induction 1 as [|e es He _ IH]; intros k; [cbn; lia|]. cbn [foldl]. rewrite IH.
  change (flatten (e :: es)) with (filter (λ l, l ≠ "") (Split newline e) ++ flatten es).
  rewrite length_app, (filter_all _ (Split newline e)), CountByte_Split; [lia|].
  intros x Hx. unfold fullEntry in He. rewrite Forall_forall in He. by apply He.
Qed.

Lemma flatten_app es es' : flatten (es ++ es') = flatten es ++ flatten es'.
Proof. apply bind_app. Qed.

Lemma length_flatten_rev es : length (flatten (rev es)) = length (flatten es).
Proof.
  induction es as [|e es IH]; [done|]. cbn [rev]. rewrite flatten_app, length_app, IH.
  change (e :: es) with ([e] ++ es). rewrite (flatten_app [e] es), length_app. lia.
Qed.

Lemma lastLines_app n l l' : (n <= Z.of_nat (length l'))%Z → lastLines n (l ++ l') = lastLines n l'.
Proof.
  intros Hn. unfold lastLines. rewrite drop_app, (drop_ge l), length_app; [|rewrite length_app; lia].
  cbn. f_equal. lia.
Qed.

(** A body that is read to its end. *)
Definition wholeReads (init : list string) (line : string) : list (string * ReadError) :=
  map (λ l, (l, NoError)) init ++ [(line, EOF)].

Lemma readLines_whole a : ba_Error a = None → ∃ init line, readLines a = wholeReads init line.
Proof.
  intros He. unfold readLines. rewrite He. pose proof (Split_nonempty newline (ba_Body a)) as Hn.
  induction (Split newline (ba_Body a)) as [|part parts IH]; [done|].
  destruct parts as [|q parts]; [by exists [], part|].
  destruct IH as (init & line & Hr); [done|]. exists ((part +:+ String newline "") :: init), line.
  cbn [readParts]. cbn [readParts] in Hr. by rewrite Hr.
Qed.

(** The loop stops with all the entries, or with enough lines. *)
Lemma readBuffered_enough jp n init line es acc :
  entriesOf jp (wholeReads init line) = Some es → Forall fullEntry (acc ++ es) →
  ∃ got rest, readBuffered jp n acc (Z.of_nat (length (flatten acc))) (wholeReads init line) = Ok got ∧
    got ++ rest = acc ++ es ∧
    (rest = [] ∨ (0 < n)%Z ∧ (n <= Z.of_nat (length (flatten got)))%Z).
Proof.
  revert es acc. induction init as [|l init IH]; intros es acc; cbn [wholeReads map app entriesOf readBuffered].
  - destruct (parseLine line jp) as [es1|]; [|done]. cbn. intros [= <-] _.
    rewrite app_nil_r. exists (acc ++ es1), []. rewrite app_nil_r. auto.
  - destruct (parseLine l jp) as [es1|]; [|done]. cbn [mbind option_bind].
    fold (wholeReads init line). destruct (entriesOf jp (wholeReads init line)) as [rest|]; [|done].
    cbn. intros [= <-] Hfull. rewrite app_assoc in Hfull |- *.
    assert (Forall fullEntry es1) as Hes1.
    { apply Forall_app in Hfull as [Hf _]. by apply Forall_app in Hf as [_ Hf]. }
    rewrite flatten_length by done.
    replace (Z.of_nat (length (flatten acc)) + Z.of_nat (length (flatten es1)))%Z
      with (Z.of_nat (length (flatten (acc ++ es1)))) by (rewrite flatten_app, length_app; lia).
    destruct (Z.ltb_spec 0 n), (Z.leb_spec n (Z.of_nat (length (flatten (acc ++ es1))))); cbn [andb].
    1: by exists (acc ++ es1), rest; auto.
    all: by apply IH.
Qed.

(** C40: the tail of a log from a backend that gives the newest entries first is exactly its
    last lines, although the reading stops early: for an answer that is read to its end and
    whose lines parse, with an entry at least and none that holds an empty line, on a
    connection that does not break. *)
Theorem tail_of_reversed jp record a es n
    (Hbody : ba_Error a = None) (Hes : entriesOf jp (readLines a) = Some es)
    (Hfull : Forall fullEntry es) (Hsome : es ≠ []) (Hn : (0 < n)%Z) :
  writeBufferedLogs None a jp record true n = Logs record (lastLines n (flatten (rev es))) true.
Proof.
  destruct (readLines_whole a Hbody) as (init & line & Hr). unfold writeBufferedLogs. rewrite Hr in Hes |- *.
  destruct (readBuffered_enough jp n init line es [] Hes Hfull) as (got & rest & Hgot & Happ & Henough).
  change (Z.of_nat (length (flatten []))) with 0%Z in Hgot. rewrite Hgot. cbn in Happ.
  assert (length got ≠ 0)%nat as Hne.
  { intros H0%length_zero_iff_nil. subst got. destruct Henough as [->|[_ Hl]]; [by rewrite <-Happ in Hsome|].
    cbn in Hl. lia. }
  rewrite (proj2 (Nat.eqb_neq _ _) Hne). cbn [writeLogLines fst snd]. f_equal.
  assert (lastLines n (flatten (rev es)) = lastLines n (flatten (rev got))) as ->.
  { rewrite <-Happ, rev_app_distr. destruct Henough as [->|[_ Hl]]; [done|].
    rewrite flatten_app, lastLines_app; [done|]. by rewrite length_flatten_rev. }
  rewrite (proj2 (Z.ltb_lt _ _) Hn). cbn [andb]. unfold lastLines.
  destruct (Z.ltb_spec n (Z.of_nat (length (flatten (rev got))))); [done|].
  rewrite (proj2 (Nat.sub_0_le _ _)) by lia. done.
Qed.
End tail.

(** ** The number of lines in the query *)

Section injection.
  Context `{!URLLib, !MapRange}.

Lemma addParams_raw l st : ∃ more, (foldl addParam st l).1 = st.1 +:+ more.
Proof.
  revert st. induction l as [|[k v] l IH]; intros [raw q]; cbn [foldl].
  { exists "". by rewrite string_app_nil_r. }
  destruct (IH (addParam (raw, q) (k, v))) as [more ->]. unfold addParam.
  destruct (QueryUnescape (SprintParam v)) as [d|]; [|by exists more].
  destruct (String.eqb d _); [by exists more|]. cbn [fst].
  destruct (nonempty raw); eexists; rewrite ?string_app_assoc; reflexivity.
Qed.

(** The number of lines a client asks for is put into the query as it is when it looks
    encoded: a parameter of it can hold others, and the backend receives them. *)
Theorem tailLines_reach_query u params record tailLines k decoded
    (Hk : params !! k = Some (VString (placeholder "TAIL_LINES")))
    (Hd : QueryUnescape tailLines = Some decoded) (Hne : decoded ≠ tailLines) :
  ∃ before after,
    paramsQuery u (substituteVarsInMap params record tailLines) =
    before +:+ QueryEscape k +:+ "=" +:+ tailLines +:+ after.
Proof.
  assert (substituteVars (placeholder "TAIL_LINES") record tailLines = tailLines) as Hs.
  { change (tailLines +:+ "" = tailLines). apply string_app_nil_r. }
  assert ((k, VString tailLines) ∈ range (map_to_list (substituteVarsInMap params record tailLines))) as Hin.
  { rewrite range_perm, elem_of_map_to_list. unfold substituteVarsInMap. rewrite lookup_fmap, Hk. cbn. by rewrite Hs. }
  unfold paramsQuery. apply list_elem_of_split in Hin as (l1 & l2 & ->).
  rewrite foldl_app. cbn [foldl]. destruct (foldl addParam (RawQuery u, Query u) l1) as [raw q].
  set (st := addParam _ _).
  assert (∃ before, st.1 = before +:+ QueryEscape k +:+ "=" +:+ tailLines) as [before Hb].
  { subst st. unfold addParam. cbn [SprintParam]. rewrite Hd, (proj2 (String.eqb_neq _ _) Hne). cbn [fst].
    destruct (nonempty raw); [exists (raw +:+ "&")|exists raw]; by rewrite ?string_app_assoc. }
  destruct (addParams_raw l2 st) as [more Hmore]. rewrite Hb in Hmore.
  destruct (foldl addParam st l2) as [raw' q']. cbn [fst] in Hmore. subst raw'.
  rewrite !string_app_assoc. case_bool_decide; [by exists before, more|].
  destruct (nonempty _) eqn:En.
  - exists before, (more +:+ "&" +:+ Encode q'). reflexivity.
  - exfalso. unfold nonempty in En. apply negb_false_iff, String.eqb_eq in En.
    apply (f_equal String.length) in En. rewrite !string_length_app in En. cbn in En. lia.
Qed.
End injection.

(** ** Samples *)

(** A URL is a text up to its question mark, and what follows it. *)
Lemma Cut_idem c s t : (Cut c (s +:+ String c t)).1 = (Cut c s).1 ∧ (Cut c (Cut c s).1).1 = (Cut c s).1.
Proof.
  induction s as [|d s [IH1 IH2]].
  { split; [|done]. rewrite string_app_nil. cbn [Cut]. by rewrite Ascii.eqb_refl. }
  rewrite string_app_cons. cbn [Cut]. destruct (Ascii.eqb d c) eqn:E; [done|].
  destruct (Cut c s) as [a b]. destruct (Cut c (s +:+ String c t)) as [a' b']. cbn [fst] in *. subst a'.
  split; [done|]. cbn [Cut]. rewrite E. destruct (Cut c a). cbn [fst] in *. by subst.
Qed.

#[local] Instance sample_url : URLLib.
Proof.
  refine {|
    Url := string * string;
    ParseURL := λ s, Some ((Cut "?" s).1, default "" (Cut "?" s).2);
    Scheme := λ _, "https";
    Host := λ u, (Cut "/" (Cut "?" u.1).1).1;
    RawQuery := snd;
    URLString := λ u, u.1 +:+ "?" +:+ u.2;
    Query := λ _, ∅;
    WithRawQuery := λ u q, (u.1, q);
    Encode := λ m, match m !! "cursor" with Some [c] => "cursor=" +:+ c | _ => "" end;
    QueryEscape := id;
    QueryUnescape := λ s, Some (ReplaceByte "+" " " s);
  |}; [done|done|].
  intros [a q] u' [= <-]. cbn [fst]. change ("?" +:+ q) with (String "?" q).
  destruct (Cut_idem "?" a q) as [-> ->]. done.
Defined.

#[local] Instance sample_request : RequestLib := {|
  ParseDuration := ParseInt; MarshalBody := λ _, Some "body"; ValidMethod := λ _, true;
  CanonicalHeaderKey := id;
|}.

Inductive sampleDoc := SampleText (s : string) | SamplePage (es : list (Z * string)).

Definition sample_store : list (Z * string) := [(1, "a"); (2, "b"); (3, "c"); (5, "d"); (7, "e")]%Z.

(** An answer is the instant it starts at. *)
#[local] Instance sample_logjson : LogJSON := {|
  Json := sampleDoc; Expr := bool; NilExpr := false;
  ParseJSON := λ s, (λ z, SamplePage (take 2 (since z sample_store))) <$> ParseInt s;
  ParseExpr := λ s, Some (String.eqb s "$.time");
  GetExpr := λ times doc,
    match doc with
    | SamplePage es => map SampleText (if times then FormatInt <$> es.*1 else es.*2)
    | SampleText _ => []
    end;
  AsString := λ doc, match doc with SampleText s => Some s | _ => None end;
  SprintJSON := λ doc, match doc with SampleText s => s | _ => "" end;
|}.

#[local] Instance sample_backend : Backend := {|
  ClientDo := λ _ _ rq,
    let c := TrimPrefix (RawQuery (rq_URL rq)) "cursor=" in
    Some {| ba_Status := 200; ba_Body := if String.eqb c "" then "2" else c; ba_Error := None |}
|}.

Definition sample_lines : Expr := false.
Definition sample_times : Expr := true.

Definition sample_pagination (increment : Z) : PaginationConfig :=
  {| NextCursor := "$.time"; Param := "cursor"; CursorIncrement := increment |}.

Definition sample_endpoint : ApiEndpoint :=
  {| Reverse := false; Path := "/logs/${NAMESPACE}"; Method := "get"; Params := ∅; Body := ∅;
     JsonPath := "$.line"; Pagination := Some (sample_pagination 1); Timeout := "" |}.

Definition sample_record : LogRecord :=
  {| lr_Namespace := "ns"; lr_PodName := "pod"; lr_PodUUID := "uid"; lr_ContainerName := "c";
     lr_URL := "logs.example"; lr_Query := "q"; lr_Start := ""; lr_End := "" |}.

Definition sample_get : Request :=
  {| rq_Method := "GET"; rq_URL := ("logs.example/logs/ns", ""); rq_Body := ""; rq_Headers := ∅ |}.

Lemma sample_build : buildProviderRequest sample_endpoint sample_record "" = Some sample_get.
Proof. vm_compute. reflexivity. Qed.

Definition sample_pages : Z → list (Z * string) := page sample_store false (λ _, 2%nat).

Lemma sample_page c z : ParseInt (if String.eqb c "" then "2" else c) = Some z →
  serves sample_endpoint (sample_pagination 1) sample_record "" ∅ sample_lines sample_times c (sample_pages z).
Proof.
  assert (sample_pages z = take 2 (since z sample_store)) as -> by (unfold sample_pages, page, left; by rewrite Z.add_0_r).
  intros Hz rq n Hrq. rewrite sample_build in Hrq. injection Hrq as <-.
  exists {| ba_Status := 200; ba_Body := if String.eqb c "" then "2" else c; ba_Error := None |}.
  exists (map SampleText (FormatInt <$> (take 2 (since z sample_store)).*1)).
  split; [|split].
  - unfold asked, withCursor. destruct (String.eqb_spec c "") as [->|Hc]; [reflexivity|].
    cbn [ClientDo sample_backend]. change (rq_URL (setHeaders _ _)) with
      (WithRawQuery (rq_URL sample_get) (Encode (<["cursor" := [c]]> (Query (rq_URL sample_get))))).
    rewrite RawQuery_WithRawQuery.
    assert (Encode (<["cursor" := [c]]> (Query (rq_URL sample_get))) = "cursor=" +:+ c) as ->
      by (cbn [Encode sample_url]; by rewrite lookup_insert_eq).
    assert (TrimPrefix ("cursor=" +:+ c) "cursor=" = c) as ->
      by (unfold TrimPrefix; rewrite HasPrefix_app; apply sdrop_app).
    by rewrite (proj2 (String.eqb_neq _ _) Hc).
  - unfold readPage. cbn [ba_Error ba_Status ba_Body Z.eqb Pos.eqb negb ParseJSON sample_logjson].
    rewrite Hz. cbn [fmap option_fmap option_map].
    set (es := take 2 (since z sample_store)).
    change (GetExpr sample_lines (SamplePage es)) with (map SampleText es.*2).
    change (GetExpr sample_times (SamplePage es)) with (map SampleText (FormatInt <$> es.*1)).
    do 2 f_equal. unfold entriesToStrings. rewrite map_map. cbn [AsString sample_logjson]. rewrite map_id.
    apply filter_all.
    intros t (e & -> & (i & Hi & _)%elem_of_take)%list_elem_of_fmap.
    apply list_elem_of_lookup_2, list_elem_of_filter in Hi as [_ He].
    assert (Forall (λ e : Z * string, e.2 ≠ "") sample_store) as Hall by (by repeat constructor).
    rewrite Forall_forall in Hall. by apply Hall.
  - rewrite map_map. apply map_id.
Qed.


(** A backend that does not know the parameter of the cursor. *)
Definition stuck_backend : Backend :=
  {| ClientDo := λ _ _ _, Some {| ba_Status := 200; ba_Body := "2"; ba_Error := None |} |}.

Lemma repeated_page_never_ends_witness :
  @streamPaginatedLogs sample_url sample_request sample_logjson stuck_backend sample_range 100 None
    sample_endpoint (sample_pagination 1) sample_record "" ∅ sample_lines = None.
Proof.
  apply (@repeated_page_never_ends sample_url sample_request sample_logjson stuck_backend sample_range
    sample_endpoint (sample_pagination 1) sample_record "" ∅ sample_lines sample_times sample_get
    ["b"; "c"] [SampleText "2"; SampleText "3"] 3).
  - apply sample_build.
  - intros n c. eexists. split; [reflexivity|]. vm_compute. reflexivity.
  - done.
  - vm_compute. reflexivity.
  - done.
  - split; vm_compute; congruence.
  - reflexivity.
Defined.

Definition sample_providers : gmap string ProviderConfig :=
  {["logs.example" := {| Tail := None; Full := Some sample_endpoint |}]}.

Definition sample_headers : gmap string (gmap string string) :=
  {["logs.example" := {["Authorization" := "secret"]}]}.

Definition sample_retrieval : option (list Request * LogAnswer) :=
  LogRetrieval 6 None sample_headers sample_providers (Some sample_record) "".

Lemma LogRetrieval_host_witness :
  ∃ requests a, sample_retrieval = Some (requests, a) ∧ length requests = 3%nat ∧
    ∃ key, Forall (λ rq, is_Some (sample_providers !! key) ∧ sentFor sample_headers key rq) requests.
Proof.
  destruct sample_retrieval as [[requests a]|] eqn:E; [|by vm_compute in E].
  exists requests, a. split; [done|]. split.
  - vm_compute in E. by injection E as <- _.
  - by apply (LogRetrieval_host 6 None sample_headers sample_providers (Some sample_record) "" requests a).
Defined.

(** The entries come newest first. *)
Definition sample_body : BackendAnswer :=
  {| ba_Status := 200; ba_Body := Join newline ["c"; "b"; "a"]; ba_Error := None |}.

Lemma tail_of_reversed_witness :
  writeBufferedLogs None sample_body None sample_record true 2 = Logs sample_record ["b"; "c"] true.
Proof.
  apply (tail_of_reversed None sample_record sample_body ["c"; "b"; "a"] 2).
  - reflexivity.
  - vm_compute. reflexivity.
  - repeat constructor; discriminate.
  - discriminate.
  - reflexivity.
Defined.

Definition sample_base : Url := ("logs.example", "").

Lemma tailLines_reach_query_witness :
  ∃ before after,
    paramsQuery sample_base (substituteVarsInMap {["limit" := VString (placeholder "TAIL_LINES")]}
      sample_record "5&query=a+b") = before +:+ "limit" +:+ "=" +:+ "5&query=a+b" +:+ after.
Proof.
  apply (tailLines_reach_query sample_base {["limit" := VString (placeholder "TAIL_LINES")]}
    sample_record "5&query=a+b" "limit" "5&query=a b").
  - reflexivity.
  - vm_compute. reflexivity.
  - discriminate.
Defined.

(** A tail of a backend that gives the oldest entries first is made of these. *)
Lemma tail_of_forward :
  writeBufferedLogs None sample_body None sample_record false 1 = Logs sample_record ["c"] true.
Proof. vm_compute. reflexivity. Qed.
