(* ===== verification/LogQuery.v ===== *)
(** * [reader.go], [routers.go]: the log of a resource, and a resource by its uid

    The reader finds the Pod whose log is asked for, the container, and the URL the
    sink stored; the handlers turn its answers into statuses.  The engine answers
    queries without a limit, and PostgreSQL's order of a list is the one of
    [Pagination]. *)
From S2P Require Import Prelude GoLib GoStrings LabelSql Pagination ApiRouter Owned Database LogBackend.

(** ** Libraries *)

(** A row of the table of URLs; [None] is NULL. *)
Record UrlRow := {
  ur_Uuid : string; ur_Container : string; ur_URL : string;
  ur_Query : option string; ur_Start : option string; ur_End : option string;
}.

(** What the reader takes of a Pod. *)
Record Pod := { pod_Name : string; pod_Annotations : gmap string string; pod_Containers : list string }.

(** The queries without a limit, or their error: all the rows that satisfy the conditions,
    in the order of a list when it is asked for; the URLs of a Pod and a container;
    [encoding/json] of a Pod; [slices.SortFunc]. *)
Class LogEngine `{!Collation, !ResourceEngine} := {
  runAll : list Resource → Select → string + list Resource;
  runAll_rows t q rows : sel_limit q = None → runAll t q = inr rows →
    (∀ r, r ∈ rows ↔ r ∈ t ∧ Forall (satisfiesWhere r) (sel_where q)) ∧
    (NoDup (Id <$> t) → sel_sorted q = true → StronglySorted before rows);
  runUrls : list UrlRow → string → string → string + list UrlRow;
  runUrls_rows t uuid container rows : runUrls t uuid container = inr rows →
    ∀ r, r ∈ rows ↔ r ∈ t ∧ ur_Uuid r = uuid ∧ ur_Container r = container;
  UnmarshalPod : string → option Pod;
  SortFunc : (uuidKindDate → uuidKindDate → Z) → list uuidKindDate → list uuidKindDate;
  SortFunc_perm cmp l : SortFunc cmp l ≡ₚ l;
  SortFunc_sorted cmp l : (∀ a b c, cmp a b <= 0 → cmp b c <= 0 → cmp a c <= 0)%Z →
    (∀ a b, cmp a b <= 0 ∨ cmp b a <= 0)%Z →
    StronglySorted (λ a b, cmp a b <= 0)%Z (SortFunc cmp l);
}.

(** The tables the reader reads. *)
Record Archive := { ar_resources : list Resource; ar_urls : list UrlRow }.

Inductive ReaderError := ErrResourceNotFound | ReaderFailed (e : string).

(** The columns of a resource a database selects: MariaDB leaves out the uid. *)
Definition ResourceSelector (k : DatabaseKind) (r : Resource) : Resource :=
  match k with
  | PostgreSQL => r
  | MariaDB => {| Date := Date r; Id := Id r; Uuid := ""; Data := Data r |}
  end.

Section reader.
  Context `{!Collation, !ResourceEngine, !OwnerEngine, !LogEngine} (k : DatabaseKind).

Definition defaultContainerAnnotation : string := "kubectl.kubernetes.io/default-container".

(** The container: the one asked for, the annotated one or the first one. *)
Definition containerOf (pod : Pod) (containerName : string) : option string :=
  if String.eqb containerName "" then
    let annotated := default "" (pod_Annotations pod !! defaultContainerAnnotation) in
    if String.eqb annotated "" then head (pod_Containers pod) else Some annotated
  else Some containerName.

Definition getLogsForPodSelector (t : Archive) (sb : Select) (namespace name containerName : string)
    : outcome ReaderError LogRecord :=
  match runAll (ar_resources t) sb with
  | inl e => Err (ReaderFailed e)
  | inr [] => Err ErrResourceNotFound
  | inr (row :: _) =>
      let resource := ResourceSelector k row in
      match UnmarshalPod (Data resource) with
      | None => Err (ReaderFailed "failed to deserialize pod")
      | Some pod =>
          match containerOf pod containerName with
          | None => Err (ReaderFailed "pod does not have containers")
          | Some containerName =>
              match runUrls (ar_urls t) (Uuid resource) containerName with
              | inl e => Err (ReaderFailed e)
              | inr [] => Err ErrResourceNotFound
              | inr (logUrl :: _) =>
                  Ok {| lr_Namespace := namespace; lr_PodName := pod_Name pod;
                        lr_PodUUID := Uuid resource; lr_ContainerName := containerName;
                        lr_URL := ur_URL logUrl; lr_Query := default "" (ur_Query logUrl);
                        lr_Start := default "" (ur_Start logUrl);
                        lr_End := default "" (ur_End logUrl) |}
              end
          end
      end
  end.

(** The conditions on the resource a log is asked of. *)
Definition identifierFilters (kind apiVersion namespace identifier : string) (useUID : bool)
    : list Where :=
  [KindApiVersionFilter kind apiVersion; NamespaceFilter namespace;
   if useUID then UuidFilter identifier else NameFilter identifier].

Definition newestFirst (a b : uuidKindDate) : Z := Compare (ukd_Date b) (ukd_Date a).

(** [queryLogURL]; [None] when [fuel] queries did not find all the Pods. *)
Definition queryLogURL (fuel : nat) (t : Archive) (kind apiVersion namespace identifier : string)
    (containerName : string) (useUID : bool) : option (outcome ReaderError LogRecord) :=
  let sb := {| sel_where := identifierFilters kind apiVersion namespace identifier useUID;
               sel_sorted := true; sel_limit := None |} in
  if String.eqb kind "Pod" then
    Some (getLogsForPodSelector t sb namespace identifier containerName)
  else
    match runAll (ar_resources t) sb with
    | inl e => Some (Err (ReaderFailed e))
    | inr [] => Some (Err ErrResourceNotFound)
    | inr (resource :: _) =>
        match getOwnedPodsUuids fuel [Uuid resource] [] with
        | None => None
        | Some (Ok pods) =>
            match SortFunc newestFirst pods with
            | [] => Some (Err ErrResourceNotFound)
            | pod :: _ =>
                Some (getLogsForPodSelector t
                        {| sel_where := [UuidFilter (ukd_Uuid pod)]; sel_sorted := false;
                           sel_limit := None |} namespace (Uuid resource) containerName)
            end
        | Some _ => Some (Err (ReaderFailed "owned resources"))
        end
    end.

Definition QueryLogURLByUID (fuel : nat) (t : Archive) (kind apiVersion namespace uid containerName : string) :=
  queryLogURL fuel t kind apiVersion namespace uid containerName true.

Definition QueryLogURLByName (fuel : nat) (t : Archive) (kind apiVersion namespace name containerName : string) :=
  queryLogURL fuel t kind apiVersion namespace name containerName false.

Definition QueryResourceByUID (t : Archive) (kind apiVersion namespace uid : string)
    : string + option Resource :=
  match runAll (ar_resources t)
          {| sel_where := identifierFilters kind apiVersion namespace uid true;
             sel_sorted := false; sel_limit := None |} with
  | inl e => inl e
  | inr resources => inr (ResourceSelector k <$> head resources)
  end.

(** ** [routers.go] *)

(** A request after the middlewares: the kind of the context, the parameters of the path
    and the container asked for. *)
Record UidRequest := {
  ur_kind : option string; ur_path : string; ur_group : string; ur_version : string;
  ur_namespace : string; ur_name : string; ur_uid : string; ur_container : string;
}.

Definition apiVersionOf (r : UidRequest) : string :=
  if String.eqb (ur_group r) "" then ur_version r else ur_group r +:+ "/" +:+ ur_version r.

Definition wrongGroup (r : UidRequest) : bool :=
  HasPrefix (ur_path r) "/apis/" && String.eqb (ur_group r) "".

(** [GetLogURL]: the status it aborts with, or the record it leaves in the context. *)
Definition GetLogURL (fuel : nat) (t : Archive) (r : UidRequest) : option (Z + LogRecord) :=
  match ur_kind r with
  | None => Some (inl 500%Z)
  | Some kind =>
      if wrongGroup r then Some (inl 404%Z)
      else
        answer ←
          (if negb (String.eqb (ur_name r) "")
           then QueryLogURLByName fuel t kind (apiVersionOf r) (ur_namespace r) (ur_name r) (ur_container r)
           else QueryLogURLByUID fuel t kind (apiVersionOf r) (ur_namespace r) (ur_uid r) (ur_container r));
        Some (match answer with
              | Ok record => inr record
              | Err ErrResourceNotFound => inl 404%Z
              | _ => inl 500%Z
              end)
  end.

(** [GetResourceByUID]: a status, and the document of the resource. *)
Definition GetResourceByUID (t : Archive) (r : UidRequest) : Z * option string :=
  match ur_kind r with
  | None => (500, None)
  | Some kind =>
      if wrongGroup r then (404, None)
      else
        match QueryResourceByUID t kind (apiVersionOf r) (ur_namespace r) (ur_uid r) with
        | inl _ => (500, None)
        | inr None => (404, None)
        | inr (Some resource) => (200, Some (Data resource))
        end
  end%Z.

End reader.

(** ** What is found *)

Section found.
  Context `{!Collation, !ResourceEngine, !OwnerEngine, !LogEngine}.

(** The newest resource that satisfies some conditions, as a list shows it first. *)
Definition newest (t : Archive) (conds : list Where) (r : Resource) : Prop :=
  r ∈ ar_resources t ∧ Forall (satisfiesWhere r) conds ∧
  ∀ r', r' ∈ ar_resources t → Forall (satisfiesWhere r') conds → r' = r ∨ before r r'.

(** The record is the one the sink stored for a container of a Pod. *)
Definition logOf (t : Archive) (resource : Resource) (namespace containerName : string)
    (record : LogRecord) : Prop :=
  ∃ pod c row, UnmarshalPod (Data resource) = Some pod ∧ containerOf pod containerName = Some c ∧
    row ∈ ar_urls t ∧ ur_Uuid row = Uuid resource ∧ ur_Container row = c ∧
    record = {| lr_Namespace := namespace; lr_PodName := pod_Name pod; lr_PodUUID := Uuid resource;
                lr_ContainerName := c; lr_URL := ur_URL row; lr_Query := default "" (ur_Query row);
                lr_Start := default "" (ur_Start row); lr_End := default "" (ur_End row) |}.

Lemma getLogsForPodSelector_row k t sb namespace name c record :
  getLogsForPodSelector k t sb namespace name c = Ok record →
  ∃ resource rows pod container row, runAll (ar_resources t) sb = inr (resource :: rows) ∧
    UnmarshalPod (Data resource) = Some pod ∧ containerOf pod c = Some container ∧ row ∈ ar_urls t ∧
    ur_Uuid row = Uuid (ResourceSelector k resource) ∧ ur_Container row = container ∧
    record = {| lr_Namespace := namespace; lr_PodName := pod_Name pod;
                lr_PodUUID := Uuid (ResourceSelector k resource);
                lr_ContainerName := container; lr_URL := ur_URL row; lr_Query := default "" (ur_Query row);
                lr_Start := default "" (ur_Start row); lr_End := default "" (ur_End row) |}.
Proof.
  unfold getLogsForPodSelector. destruct (runAll _ sb) as [e|[|resource rows]]; [done..|].
  assert (Data (ResourceSelector k resource) = Data resource) as -> by (by destruct k).
  destruct (UnmarshalPod (Data resource)) as [pod|] eqn:Hp; [|done].
  destruct (containerOf pod c) as [container|] eqn:Hc; [|done].
  destruct (runUrls _ _ _) as [e|[|row urls]] eqn:Hu; [done..|].
  assert (row ∈ row :: urls) as Hrow by (by left). apply (runUrls_rows _ _ _ _ Hu) in Hrow as (Hin & Huid & Hcon).
  intros [= <-]. by exists resource, rows, pod, container, row.
Qed.

Lemma getLogsForPodSelector_found t sb namespace name c record :
  getLogsForPodSelector PostgreSQL t sb namespace name c = Ok record →
  ∃ resource rows, runAll (ar_resources t) sb = inr (resource :: rows) ∧ logOf t resource namespace c record.
Proof.
  intros (resource & rows & pod & container & row & Hr & Hlog)%getLogsForPodSelector_row.
  exists resource, rows. split; [done|]. by exists pod, container, row.
Qed.

Lemma runAll_first t conds r rows :
  NoDup (Id <$> ar_resources t) →
  runAll (ar_resources t) {| sel_where := conds; sel_sorted := true; sel_limit := None |} = inr (r :: rows) →
  newest t conds r.
Proof.
  intros Hnd Hr. destruct ((λ He, runAll_rows _ _ _ He Hr) eq_refl) as [Hrows Hs]. cbn in Hrows.
  destruct (proj1 (Hrows r)) as [Hin Hc]; [by left|]. split_and!; [done..|].
  intros r' Hin' Hc'. specialize (Hs Hnd eq_refl). apply StronglySorted_inv in Hs as [_ Hall].
  assert (r' ∈ r :: rows) as [->|Hr']%elem_of_cons by (by apply Hrows); [by left|right].
  rewrite Forall_forall in Hall. by apply Hall.
Qed.

Lemma newestFirst_trans a b c :
  (newestFirst a b <= 0 → newestFirst b c <= 0 → newestFirst a c <= 0)%Z.
Proof. unfold newestFirst. rewrite !Compare_le. intros Hab Hbc. by transitivity (ukd_Date b). Qed.

Lemma newestFirst_total a b : (newestFirst a b <= 0 ∨ newestFirst b a <= 0)%Z.
Proof. unfold newestFirst. rewrite (Compare_opp (ukd_Date a)). lia. Qed.

Lemma SortFunc_first pods pod rest :
  SortFunc newestFirst pods = pod :: rest →
  pod ∈ pods ∧ ∀ pod', pod' ∈ pods → (Compare (ukd_Date pod') (ukd_Date pod) <= 0)%Z.
Proof.
  intros Hs. pose proof (SortFunc_perm newestFirst pods) as Hp.
  pose proof (SortFunc_sorted newestFirst pods newestFirst_trans newestFirst_total) as Hsorted. rewrite Hs in Hp, Hsorted.
  split; [rewrite <-Hp; by left|]. intros pod' Hin. rewrite <-Hp in Hin.
  apply StronglySorted_inv in Hsorted as [_ Hall]. apply elem_of_cons in Hin as [->|Hin].
  - by rewrite Compare_refl.
  - rewrite Forall_forall in Hall. by apply Hall.
Qed.

(** The log found is the stored one of the newest resource of the name or the uid, when
    it is a Pod, and of the Pod created last below it otherwise, for the container asked
    for, annotated or first. *)
Theorem queryLogURL_newest fuel t kind apiVersion namespace identifier c useUID record
    (Hids : NoDup (Id <$> ar_resources t))
    (Hok : queryLogURL PostgreSQL fuel t kind apiVersion namespace identifier c useUID = Some (Ok record)) :
  ∃ named, newest t (identifierFilters kind apiVersion namespace identifier useUID) named ∧
    if String.eqb kind "Pod" then logOf t named namespace c record
    else ∃ pod resource, podBelow (Uuid named) pod ∧
      (∀ pod', podBelow (Uuid named) pod' → (Compare (ukd_Date pod') (ukd_Date pod) <= 0)%Z) ∧
      resource ∈ ar_resources t ∧ satisfiesWhere resource (UuidFilter (ukd_Uuid pod)) ∧
      logOf t resource namespace c record.
Proof.
  unfold queryLogURL in Hok. destruct (String.eqb kind "Pod").
  - injection Hok as Hok. apply getLogsForPodSelector_found in Hok as (r & rows & Hr & Hlog). exists r. split; [by eapply runAll_first|done].
  - destruct (runAll _ _) as [e|[|r rows]] eqn:Hr; [done..|]. exists r. split; [by eapply runAll_first|].
    destruct (getOwnedPodsUuids _ _ _) as [[pods| |]|] eqn:Hpods; try done.
    destruct (SortFunc newestFirst pods) as [|pod rest] eqn:Hs; [done|].
    injection Hok as Hok. apply getLogsForPodSelector_found in Hok as (r' & rows' & Hr' & Hlog).
    apply SortFunc_first in Hs as [Hin Hlast]. pose proof (getOwnedPodsUuids_found _ _ _ _ Hpods) as Hfound.
    destruct ((λ He, runAll_rows _ _ _ He Hr') eq_refl) as [Hrows _]. destruct (proj1 (Hrows r')) as [Hin' Hc']; [by left|].
    exists pod, r'. split_and!; [| |done|by apply Forall_cons in Hc' as [? _]|done].
    + apply Hfound in Hin as [?%not_elem_of_nil|(o & ->%list_elem_of_singleton & ?)]; done.
    + intros pod' Hb. apply Hlast, Hfound. right. exists (Uuid r). split; [by left|done].
Qed.

(** With MariaDB no log is ever found: the rows the reader gets have no uid, and no URL
    is stored for the empty one. *)
Theorem mariadb_finds_no_log fuel t kind apiVersion namespace identifier c useUID record
    (Hurls : Forall (λ row, ur_Uuid row ≠ "") (ar_urls t)) :
  queryLogURL MariaDB fuel t kind apiVersion namespace identifier c useUID ≠ Some (Ok record).
Proof.
  assert (∀ sb name, getLogsForPodSelector MariaDB t sb namespace name c ≠ Ok record) as Hnone.
  { intros sb name (r & rows & pod & container & row & _ & _ & _ & Hin & Hu & _)%getLogsForPodSelector_row.
    rewrite Forall_forall in Hurls. by apply (Hurls row Hin). }
  unfold queryLogURL. destruct (String.eqb kind "Pod"); [intros [= Hok]; by apply Hnone in Hok|].
  destruct (runAll _ _) as [e|[|r rows]]; [done..|].
  destruct (getOwnedPodsUuids _ _ _) as [[pods| |]|]; try done.
  destruct (SortFunc newestFirst pods) as [|pod rest]; [done|]. intros [= Hok]. by apply Hnone in Hok.
Qed.
End found.

(** ** Witness: a Deployment, its ReplicaSet and a Pod *)

#[local] Instance sample_cmp_dec (cmp : uuidKindDate → uuidKindDate → Z) :
  RelDecision (λ a b, cmp a b <= 0)%Z.
Proof. intros a b. apply _. Defined.

#[local] Instance sample_owners : OwnerEngine := sample_owner_engine sample_refs.

#[local] Instance sample_log_engine : LogEngine.
Proof.
  refine {| runAll := λ t q, inr (sample_select t q).1;
            runUrls := λ t uuid container,
              inr (filter (λ r, ur_Uuid r = uuid ∧ ur_Container r = container) t);
            UnmarshalPod := λ data,
              Some {| pod_Name := TrimRightByte " " data; pod_Annotations := ∅; pod_Containers := ["main"] |};
            SortFunc := λ cmp, merge_sort (λ a b, cmp a b <= 0)%Z |}.
  - intros t q rows Hl. unfold sample_select. rewrite Hl. intros [= <-]. split.
    + intros r. cbn. rewrite merge_sort_Permutation, list_elem_of_filter. tauto.
    + intros Hnd _. cbn. apply sample_sorted_strict.
      * rewrite merge_sort_Permutation. apply (sublist_NoDup _ (Id <$> t)); [done|].
        apply fmap_sublist, sublist_filter.
      * apply Sorted_StronglySorted; [apply _|]. apply Sorted_merge_sort, _.
  - intros t uuid container rows [= <-] r. rewrite list_elem_of_filter. tauto.
  - intros cmp l. apply merge_sort_Permutation.
  - intros cmp l Htrans Htotal. apply Sorted_StronglySorted.
    + intros a b c. apply Htrans.
    + apply Sorted_merge_sort. intros a b. apply Htotal.
Defined.

Definition sample_archive : Archive :=
  {| ar_resources :=
       [{| Date := "2025"; Id := 1; Uuid := "d"; Data := "deployment" |};
        {| Date := "2024"; Id := 2; Uuid := "p"; Data := "pod" |}];
     ar_urls := [{| ur_Uuid := "p"; ur_Container := "main"; ur_URL := "http://logs"; ur_Query := None;
                    ur_Start := None; ur_End := None |}] |}.

Definition sample_found : LogRecord :=
  {| lr_Namespace := "ns"; lr_PodName := "pod"; lr_PodUUID := "p"; lr_ContainerName := "main";
     lr_URL := "http://logs"; lr_Query := ""; lr_Start := ""; lr_End := "" |}.

Lemma queryLogURL_newest_witness :
  QueryLogURLByName PostgreSQL 3 sample_archive "Deployment" "apps/v1" "ns" "d" "" = Some (Ok sample_found) ∧
  ∃ named, newest sample_archive (identifierFilters "Deployment" "apps/v1" "ns" "d" false) named ∧
    ∃ pod resource, podBelow (Uuid named) pod ∧
      (∀ pod', podBelow (Uuid named) pod' → (Compare (ukd_Date pod') (ukd_Date pod) <= 0)%Z) ∧
      resource ∈ ar_resources sample_archive ∧ satisfiesWhere resource (UuidFilter (ukd_Uuid pod)) ∧
      logOf sample_archive resource "ns" "" sample_found.
Proof.
  assert (QueryLogURLByName PostgreSQL 3 sample_archive "Deployment" "apps/v1" "ns" "d" "" = Some (Ok sample_found))
    as Hq by (vm_compute; reflexivity).
  split; [exact Hq|].
  apply (queryLogURL_newest 3 sample_archive "Deployment" "apps/v1" "ns" "d" "" false sample_found).
  - apply (bool_decide_unpack _). vm_compute. exact I.
  - exact Hq.
Defined.

Lemma mariadb_finds_no_log_witness :
  QueryLogURLByName MariaDB 3 sample_archive "Deployment" "apps/v1" "ns" "d" "" ≠ Some (Ok sample_found).
Proof.
  apply (mariadb_finds_no_log 3 sample_archive "Deployment" "apps/v1" "ns" "d" "" false sample_found).
  repeat constructor; discriminate.
Defined.
