(* ===== verification/ReadBack.v ===== *)
(** * From the sink to the reader of the API server

    [Pipeline] says what the deliveries of an event leave in the tables, [LogQuery] what
    the handlers read of them.  Here the two meet: an object whose event the sink has
    accepted is read back as a document of the object that was sent, by its uid and in
    the pages of the list of its kind, and the log of a Pod is the one the sink made a URL for. *)
From S2P Require Import Prelude GoLib GoStrings Api Cel CloudEvents Samples Filters Keepers Vacuum WatchManager Writer LogUrls SinkRouter Pipeline LabelSql Pagination ApiRouter Owned Database LogBackend LogQuery.

(** ** The tables as both sides see them *)

(** The row of a URL, whose columns the sink always fills. *)
Definition urlRow (r : LogRow) : UrlRow :=
  {| ur_Uuid := lr_uuid r; ur_Container := log_ContainerName (lr_log r); ur_URL := log_Url (lr_log r);
     ur_Query := Some (log_Query (lr_log r)); ur_Start := Some (log_Start (lr_log r));
     ur_End := Some (log_End (lr_log r)) |}.

(** The documents of the column [data], of type [jsonb]: another text of the same JSON
    value, which [encoding/json] decodes to the same object. *)
Class StoredJSON (O : Type) `{!EventEncoding O, !SinkLib O, !EventJSON O, !Postgres,
    !Collation, !ResourceEngine, !LogEngine} := {
  UnmarshalJSON_Jsonb (o : O) : SetData o = true → UnmarshalJSON (Jsonb (MarshalJSON o)) = Some o;
  UnmarshalPod_Jsonb (o : O) : UnmarshalPod (Jsonb (MarshalJSON o)) = UnmarshalPod (MarshalJSON o);
}.

(** The rows the reader selects of the tables the sink wrote: one for each uid, with
    the text of its column; conditions compare the columns; no query fails. *)
Record readsFrom `{!Collation, !ResourceEngine, !LogEngine} (db : Tables) (t : Archive) : Prop := {
  rf_written uuid row : t_resource db !! uuid = Some row →
    ∃ r, r ∈ ar_resources t ∧ Uuid r = uuid ∧ Data r = row_data row;
  rf_unique r r' : r ∈ ar_resources t → r' ∈ ar_resources t → Uuid r = Uuid r' → r = r';
  rf_kind r row kind apiVersion : r ∈ ar_resources t → t_resource db !! Uuid r = Some row →
    satisfiesWhere r (KindApiVersionFilter kind apiVersion) ↔
    row_kind row = kind ∧ row_api_version row = apiVersion;
  rf_namespace r row namespace : r ∈ ar_resources t → t_resource db !! Uuid r = Some row →
    satisfiesWhere r (NamespaceFilter namespace) ↔ row_namespace row = namespace;
  rf_uuid r uuid : r ∈ ar_resources t → satisfiesWhere r (UuidFilter uuid) ↔ Uuid r = uuid;
  rf_urls u : u ∈ ar_urls t ↔ u ∈ urlRow <$> t_log_url db;
  rf_answers q : ∃ rows, runAll (ar_resources t) q = inr rows;
  rf_answers_urls uuid c : ∃ rows, runUrls (ar_urls t) uuid c = inr rows;
}.

(** ** The writes *)
Section written.
  Context {O : Type} `{!Unstructured O, !CelEnv O, !LogValues O, !MapRange}.
  Context `{!EventEncoding O, !SinkLib O, !EventJSON O, !Postgres, !DeletionStamp (O:=O)}.

(** The row of the object that was sent. *)
Definition current (o : O) (row : Row) : Prop :=
  row_kind row = GetKind o ∧ row_api_version row = GetAPIVersion o ∧
  row_namespace row = GetNamespace o ∧ row_data row = Jsonb (MarshalJSON o).

(** No row of the uid yet, an older one of the same kind, or the object itself. *)
Definition notNewer (o : O) (db : Tables) : Prop :=
  ∀ row, t_resource db !! GetUID o = Some row →
    row_kind row = GetKind o ∧ row_api_version row = GetAPIVersion o ∧
    ((row_cluster_updated_ts row < GetLastUpdateTs o)%Z ∨ current o row).

(** The URLs of the log of a Pod are those of the object, or of the object marked as
    deleted, which the sink writes after a deletion. *)
Definition logsAre (fuel : nat) (c : Controller (O:=O)) (o : O) (db : Tables) : Prop :=
  GetKind o = "Pod" →
  ∃ o' urls, (o' = o ∨ ∃ now, o' = SetDeletionTimestamp o now) ∧ Urls fuel c o' = Some urls ∧
    logsOf (GetUID o) db = urls.

Record archived (fuel : nat) (c : Controller (O:=O)) (o : O) (db : Tables) : Prop := {
  ad_row : ∃ row, t_resource db !! GetUID o = Some row ∧ current o row;
  ad_logs : logsAre fuel c o db;
}.

Lemma written_logs fuel c f (o : O) event db w :
  writeResource fuel c f o event db = Some w → wo_err w = None → GetKind o = "Pod" →
  ∃ urls, Urls fuel c o = Some urls ∧ logsOf (GetUID o) (wo_db w) = urls.
Proof.
  unfold writeResource. destruct (Urls fuel c o) as [urls|]; [|done]. intros [= <-] He Hk.
  exists urls. split; [done|]. by apply WriteResource_logs.
Qed.

Lemma written_row (o : O) db db' :
  notNewer o db →
  t_resource db' = <[GetUID o := Writer.newest (t_resource db !! GetUID o)
    (storedRow o (GetLastUpdateTs o) (MarshalJSON o))]> (t_resource db) →
  ∃ row, t_resource db' !! GetUID o = Some row ∧ current o row.
Proof.
  intros Hn ->. rewrite lookup_insert_eq. eexists. split; [done|]. unfold Writer.newest.
  destruct (t_resource db !! GetUID o) as [old|] eqn:Eo; [|by split_and!].
  destruct (Hn old Eo) as (Hk & Ha & Hold). cbn [storedRow withDocument rowOf row_cluster_updated_ts].
  destruct Hold as [Hlt|Hc].
  - rewrite (proj2 (Z.ltb_lt _ _) Hlt). by split_and!.
  - by case_match; [split_and!|].
Qed.

Lemma current_notNewer (o : O) db :
  (∃ row, t_resource db !! GetUID o = Some row ∧ current o row) → notNewer o db.
Proof.
  intros (row & Hr & Hc) row' Hr'. rewrite Hr in Hr'. injection Hr' as <-.
  split_and!; [apply Hc..|by right].
Qed.

(** What the sink does with the request of the object. *)
Lemma attempt_archives fuel c run e st status st' :
  sendable e → notNewer (ce_Data e) (sk_db st) →
  ReceiveCloudEvent fuel c run (requestOf e) st = Some (status, st') →
  notNewer (ce_Data e) (sk_db st') ∧ (IsACK status = true → archived fuel c (ce_Data e) (sk_db st')).
Proof.
  intros [Henc Hsup] Hn. unfold ReceiveCloudEvent. cbn. rewrite UnmarshalJSON_MarshalJSON by done.
  intros [[d Hh] _]%receiveObject_handled.
  destruct Hh as [st' Hi|w st' _ _ _ Hdb _|w st' _ _ Hw He Hdb _
    |w status st' _ Hw He Hdb _ _|w f' now w' status st' _ Hw He Hw' Hdb _ _]; cbn in *.
  - congruence.
  - by rewrite Hdb.
  - rewrite Hdb. pose proof (written_row _ _ _ Hn (writeResource_row _ _ _ _ _ _ _ Hw He)) as Hr.
    split; [by apply current_notNewer|]. intros _. split; [done|]. intros Hk.
    destruct (written_logs _ _ _ _ _ _ _ Hw He Hk) as (urls & Hu & Hl). exists (ce_Data e), urls. by split_and!; [left|..].
  - rewrite Hdb. pose proof (written_row _ _ _ Hn (writeResource_row _ _ _ _ _ _ _ Hw He)) as Hr.
    split; [by apply current_notNewer|]. intros _. split; [done|]. intros Hk.
    destruct (written_logs _ _ _ _ _ _ _ Hw He Hk) as (urls & Hu & Hl). exists (ce_Data e), urls. by split_and!; [left|..].
  - rewrite Hdb. pose proof (written_row _ _ _ Hn (writeResource_row _ _ _ _ _ _ _ Hw He)) as Hr.
    assert (∃ row, t_resource (wo_db w') !! GetUID (ce_Data e) = Some row ∧ current (ce_Data e) row) as Hr'.
    { by rewrite (rewrite_keeps_row _ _ _ _ _ _ _ _ _ _ Hw He Hw'). }
    split; [by apply current_notNewer|]. intros _. split; [done|]. intros Hk.
    destruct (wo_err w') eqn:He'.
    + rewrite (writeResource_fails _ _ _ _ _ _ _ Hw') by (by rewrite He').
      destruct (written_logs _ _ _ _ _ _ _ Hw He Hk) as (urls & Hu & Hl). exists (ce_Data e), urls. by split_and!; [left|..].
    + destruct (written_logs _ _ _ _ _ _ _ Hw' He') as (urls & Hu & Hl); [by rewrite GetKind_deleted|].
      rewrite GetUID_deleted in Hl. exists (SetDeletionTimestamp (ce_Data e) now), urls.
      split_and!; [right; by exists now|done|done].
Qed.

(** A delivery that is answered with a success. *)
Lemma post_archives fuel c e way st st' :
  sendable e → notNewer (ce_Data e) (sk_db st) →
  post fuel c e way st = Some (true, st') → archived fuel c (ce_Data e) (sk_db st').
Proof.
  intros He Hn. destruct way as [|run seen]; cbn [post]; [done|].
  destruct (ReceiveCloudEvent _ _ _ _ _) as [[status st1]|] eqn:Hr; [|done]. cbn [mbind option_bind].
  intros [= [_ Ha]%andb_true_iff <-]. by apply (attempt_archives _ _ _ _ _ _ _ He Hn Hr).
Qed.
End written.

(** ** The reads *)
Section read.
  Context {O : Type} `{!Unstructured O, !CelEnv O, !LogValues O, !MapRange}.
  Context `{!EventEncoding O, !SinkLib O, !EventJSON O, !Postgres, !DeletionStamp (O:=O)}.
  Context `{!Collation, !ResourceEngine, !OwnerEngine, !LogEngine, !StoredJSON O}.

(** A request for an object by its uid, after the middlewares. *)
Record asksFor (o : O) (r : UidRequest) : Prop := {
  af_kind : ur_kind r = Some (GetKind o);
  af_group : wrongGroup r = false;
  af_apiVersion : apiVersionOf r = GetAPIVersion o;
  af_namespace : ur_namespace r = GetNamespace o;
  af_uid : LogQuery.ur_uid r = GetUID o;
}.

(** The conditions of the reader on an archived object select its row only. *)
Lemma archived_selected fuel c (o : O) db t sorted rows :
  archived fuel c o db → readsFrom db t →
  runAll (ar_resources t) {| sel_where := identifierFilters (GetKind o) (GetAPIVersion o) (GetNamespace o) (GetUID o) true;
                             sel_sorted := sorted; sel_limit := None |} = inr rows →
  ∃ r rest, rows = r :: rest ∧ Uuid r = GetUID o ∧ Data r = Jsonb (MarshalJSON o).
Proof.
  intros [(row & Hrow & Hk & Ha & Hn & Hd) _] Ht Hrun.
  destruct (rf_written _ _ Ht _ _ Hrow) as (r & Hr & Hu & Hdata).
  pose proof (proj1 ((λ He, runAll_rows _ _ _ He Hrun) eq_refl)) as Hrows. cbn [sel_where] in Hrows.
  rewrite <-Hu in Hrow.
  assert (r ∈ rows) as Hin.
  { apply Hrows. split; [done|]. unfold identifierFilters.
    repeat apply Forall_cons_2; [| | |apply Forall_nil_2].
    - by apply (rf_kind _ _ Ht r row).
    - by apply (rf_namespace _ _ Ht r row).
    - by apply (rf_uuid _ _ Ht). }
  destruct rows as [|r' rest]; [by apply elem_of_nil in Hin|]. exists r', rest. split; [done|].
  destruct (proj1 (Hrows r')) as [Hr' Hf']; [by left|].
  unfold identifierFilters in Hf'. rewrite !Forall_cons in Hf'. destruct Hf' as (_ & _ & Hu' & _).
  apply (rf_uuid _ _ Ht) in Hu'; [|done].
  assert (r' = r) as -> by (apply (rf_unique _ _ Ht); [done|done|congruence]).
  split; [done|]. by rewrite Hdata.
Qed.



(** ** The lists *)

Context `{!GoText, !LabelEngine}.

(** The list of the kind of an object, in its namespace. *)
Definition listOf (o : O) : QueryArgs :=
  {| qa_kind := GetKind o; qa_apiVersion := GetAPIVersion o; qa_namespace := GetNamespace o; qa_name := "";
     qa_continueId := ""; qa_continueDate := ""; qa_labelFilters := Some noFilters;
     qa_after := None; qa_before := None; qa_limit := 0 |}.

(** A table whose pages a client can follow. *)
Record listable (t : list Resource) : Prop := {
  li_ids : NoDup (Id <$> t);
  li_dates r : r ∈ t → normalDate (Date r) ∧ int64_ok (Id r);
  li_answers q : (runSelect t q).2 = None;
}.

Lemma archived_satisfies fuel c (o : O) db t :
  archived fuel c o db → readsFrom db t →
  ∃ r, r ∈ ar_resources t ∧ Uuid r = GetUID o ∧ Data r = Jsonb (MarshalJSON o) ∧
    Forall (satisfiesWhere r) (otherFilters (listOf o) []).
Proof.
  intros [(row & Hrow & Hk & Ha & Hn & Hd) _] Ht. destruct (rf_written _ _ Ht _ _ Hrow) as (r & Hr & Hu & Hdata).
  exists r. split_and!; [done|done|congruence|]. rewrite <-Hu in Hrow.
  unfold otherFilters, baseFilters. cbn. rewrite app_nil_r. constructor; [by apply (rf_kind _ _ Ht r row)|].
  destruct (nonempty (GetNamespace o)); repeat constructor. by apply (rf_namespace _ _ Ht r row).
Qed.

End read.

(** ** Witnesses: the pod of [PipelineSamples], delivered *)
Module ReadBackSamples.
Import PipelineSamples.

(** A URL for the container of the Pod. *)
Definition controller : Controller (O:=sample) :=
  {| LogUrlBuilder := Some (<[LogURL := EntryText "http://logs/{CONTAINER_NAME}"]>
                             (<[ContainerName := EntryText "main"]> ∅)) |}.

Definition finish : SinkState :=
  match post 3 controller podDeletion (Arrives works true) start with Some (_, st) => st | None => start end.

#[export] Instance owners : OwnerEngine := sample_owner_engine [].

#[export] Instance cmp_dec (cmp : uuidKindDate → uuidKindDate → Z) : RelDecision (λ a b, cmp a b <= 0)%Z.
Proof. intros a b. apply _. Defined.

#[export] Instance logs : LogEngine := LogQuery.sample_log_engine.

Definition archive : Archive :=
  {| ar_resources := [{| Date := "2025"; Id := 1; Uuid := "a"; Data := "a " |}];
     ar_urls := urlRow <$> t_log_url (sk_db finish) |}.

Definition request : UidRequest :=
  {| ur_kind := Some "Pod"; ur_path := "/api/v1/namespaces/ns/pods/uid/a"; ur_group := ""; ur_version := "v1";
     ur_namespace := "ns"; ur_name := ""; LogQuery.ur_uid := "a"; LogQuery.ur_container := "" |}.

(** A document is sent as the uid of its object, and read back with a space. *)
#[export] Instance stored_json : StoredJSON sample.
Proof.
  split; intros o.
  - intros Ho. apply bool_decide_eq_true in Ho. rewrite <-Ho. set (find := λ uid, snd <$> list_find (λ o : sample, s_uid o = uid) VacuumSamples.items).
    change (find (TrimRightByte " " (s_uid o +:+ " ")) = find (TrimRightByte " " (s_uid o))).
    by rewrite TrimRightByte_more.
  - set (pod := λ name, Some {| pod_Name := name; pod_Annotations := ∅; pod_Containers := ["main"] |}).
    change (pod (TrimRightByte " " (s_uid o +:+ " ")) = pod (TrimRightByte " " (s_uid o))).
    by rewrite TrimRightByte_more.
Qed.

Lemma delivered : post 3 controller podDeletion (Arrives works true) start = Some (true, finish).
Proof. vm_compute. reflexivity. Qed.

Lemma finish_rows : map_to_list (t_resource (sk_db finish)) = [("a", storedRow (sample_at "a" 1 ["done"]) 1 "a")].
Proof. vm_compute. reflexivity. Qed.

#[local] Opaque finish.

Lemma finish_row uuid row :
  t_resource (sk_db finish) !! uuid = Some row → uuid = "a" ∧ row = storedRow (sample_at "a" 1 ["done"]) 1 "a".
Proof.
  intros Hr%elem_of_map_to_list. rewrite finish_rows in Hr. apply list_elem_of_singleton in Hr.
  by injection Hr as -> ->.
Qed.

Lemma reads : readsFrom (sk_db finish) archive.
Proof.
  assert (∀ r, r ∈ ar_resources archive → r = {| Date := "2025"; Id := 1; Uuid := "a"; Data := "a " |}) as Hone
    by (intros r Hr; by apply list_elem_of_singleton in Hr).
  split.
  - intros uuid row [-> ->]%finish_row. eexists. split; [by left|done].
  - by intros r r' ->%Hone ->%Hone.
  - intros r row kind apiVersion ->%Hone [_ ->]%finish_row. cbn. split; [by intros [= -> ->]|by intros [<- <-]].
  - intros r row namespace ->%Hone [_ ->]%finish_row. done.
  - done.
  - done.
  - intros q. by eexists.
  - intros uuid c. by eexists.
Qed.

#[local] Transparent finish.

Lemma fresh : notNewer (ce_Data podDeletion) (sk_db start).
Proof. intros row Hr. discriminate Hr. Qed.

Lemma sent : sendable podDeletion.
Proof. by split. Qed.

Lemma asks : asksFor (ce_Data podDeletion) request.
Proof. by split. Qed.

Lemma pages : listable (ar_resources archive).
Proof.
  split; [apply (bool_decide_unpack _); vm_compute; reflexivity| |done].
  intros r ->%list_elem_of_singleton. split; [|cbn; unfold int64_ok; lia].
  split; [discriminate|reflexivity|split; reflexivity|eexists; split; reflexivity].
Qed.
End ReadBackSamples.
Import PipelineSamples.
Import ReadBackSamples.




(** The URL of the witness. *)
Lemma sample_log_found :
  (λ answer, match answer with inr record => lr_URL record | inl _ => "" end) <$>
  GetLogURL PostgreSQL 1 archive request = Some "http://logs/main".
Proof. vm_compute. reflexivity. Qed.
