(* ===== verification/FakeDatabase.v ===== *)
(** * [pkg/database/fake/database_generated.go]: the database of the unit tests

    A database in memory with which the tests of the sink and of the API server run.
    What it does is compared with what the databases do: names with wildcards, lists by
    time, and what a second write of an object leaves.  Methods whose name is that of a
    definition of the databases are called [fake...] here. *)
From S2P Require Import Prelude GoLib GoStrings Api Samples Pagination LogBackend Writer.

(** ** Libraries *)

(** [encoding/json] of an object; [time.Time.GoString], Go source that makes the time,
    which [time.Parse] does not read with the layout RFC 3339; [uid] of a new object. *)
Class FakeLib (O : Type) := {
  MarshalObject : O → option string;
  GoString : Z → string;
  ParseRFC3339 : string → option Z;
  ParseRFC3339_GoString t : ParseRFC3339 (GoString t) = None;
  (** An object with kind, API version, name, namespace and uid. *)
  NewObject : string → string → string → string → string → O;
}.

(** ** Names with wildcards *)

(** The loop over the parts between wildcards: the next part is searched from [pos] on,
    and the first must be found at the beginning. *)
Fixpoint matchParts (i pos : nat) (nameLower : string) (parts : list string) : bool :=
  match parts with
  | [] => true
  | part :: parts =>
      if String.eqb part "" then matchParts (S i) pos nameLower parts
      else match Index (sdrop pos nameLower) part with
           | None => false
           | Some idx =>
               if (i =? 0)%nat && negb (idx =? 0)%nat then false
               else matchParts (S i) (pos + (idx + String.length part)) nameLower parts
           end
  end.

Definition matchesWildcard (name pattern : string) : outcome Empty_set bool :=
  if negb (Contains pattern "*") then Ok (EqualFold name pattern)
  else
    let nameLower := ToLower name in
    let patternLower := ToLower pattern in
    let n := String.length patternLower in
    if HasPrefix patternLower "*" && HasSuffix patternLower "*" then
      substring ← sliceString 1 (n - 1) patternLower;
      Ok (Contains nameLower substring)
    else if HasPrefix patternLower "*" then
      suffix ← sliceString 1 n patternLower;
      Ok (HasSuffix nameLower suffix)
    else if HasSuffix patternLower "*" then
      prefix ← sliceString 0 (n - 1) patternLower;
      Ok (HasPrefix nameLower prefix)
    else
      let parts := Split "*" patternLower in
      let lastPart := default "" (last parts) in
      Ok (matchParts 0 0 nameLower parts
          && negb (nonempty lastPart && negb (HasSuffix nameLower lastPart))).

(** What a pattern means: a wildcard stands for any text. *)
Fixpoint someSuffix (f : string → bool) (name : string) : bool :=
  f name || match name with EmptyString => false | String _ name => someSuffix f name end.

Fixpoint glob (pattern name : string) : bool :=
  match pattern with
  | EmptyString => String.eqb name ""
  | String c pattern =>
      if Ascii.eqb c "*" then someSuffix (glob pattern) name
      else match name with
           | EmptyString => false
           | String d name => Ascii.eqb c d && glob pattern name
           end
  end.

(** The patterns the function is written for: no wildcard at the ends, or only there. *)
Inductive plainPattern : string → Prop :=
| inner_wildcards p : HasPrefix p "*" = false → HasSuffix p "*" = false → plainPattern p
| wildcard_before s : free_of "*" s → s ≠ "" → plainPattern (String "*" s)
| wildcard_after s : free_of "*" s → s ≠ "" → plainPattern (s +:+ "*")
| wildcard_around s : free_of "*" s → plainPattern (String "*" (s +:+ "*")).

(** ** The database *)

Record LogUrlRow := {
  lu_Uuid : string; lu_Url : string; lu_ContainerName : string;
  lu_Query : string; lu_Start : string; lu_End : string;
}.

Record fakeDatabase (O : Type) := {
  fd_resources : list O; fd_logUrl : list LogUrlRow; fd_err : option string;
  fd_urlErr : option string; fd_CurrentSchemaVersion : string;
}.
Arguments fd_resources {O}.
Arguments fd_logUrl {O}.
Arguments fd_err {O}.
Arguments fd_urlErr {O}.
Arguments fd_CurrentSchemaVersion {O}.

Section database.
  Context {O : Type} `{!Unstructured O, !FakeLib O, !GoText}.
  Local Notation database := (fakeDatabase O).

Definition NewFakeDatabase (testResources : list O) (testLogs : list LogUrlRow) : database :=
  {| fd_resources := testResources; fd_logUrl := testLogs; fd_err := None; fd_urlErr := None;
     fd_CurrentSchemaVersion := "" |}.

Definition NewFakeDatabaseWithError (err : string) : database :=
  {| fd_resources := []; fd_logUrl := []; fd_err := Some err; fd_urlErr := None;
     fd_CurrentSchemaVersion := "" |}.

Definition NewFakeDatabaseWithUrlError (err : string) : database :=
  {| fd_resources := []; fd_logUrl := []; fd_err := None; fd_urlErr := Some err;
     fd_CurrentSchemaVersion := "" |}.

(** The objects are pointers and [crontab] is given a uid four times: [uid] gives the
    new ones in order. *)
Definition CreateTestResources (uid : nat → string) : list O :=
  [ NewObject "Crontab" "stable.example.com/v1" "test" "test" (uid 3%nat);
    NewObject "Crontab" "stable.example.com/v1" "test-e2e-job" "test" "";
    NewObject "Crontab" "stable.example.com/v1" "my-e2e-service" "test" "";
    NewObject "Crontab" "stable.example.com/v1" "production-deployment" "test" "";
    NewObject "Pod" "v1" "test" "test" (uid 4%nat) ].

Definition CreateTestLogUrls : list LogUrlRow :=
  [ {| lu_Uuid := "abc-123-xyz"; lu_Url := "http://fake.com"; lu_ContainerName := "container-1";
       lu_Query := "test-query"; lu_Start := "test-start"; lu_End := "test-end" |};
    {| lu_Uuid := "abc-123-xyz"; lu_Url := "http://fake.org"; lu_ContainerName := "container-2";
       lu_Query := "test-query"; lu_Start := "test-start"; lu_End := "test-end" |};
    {| lu_Uuid := "asdf-1234-fdsa"; lu_Url := "http://fake.org"; lu_ContainerName := "foo";
       lu_Query := "test-query"; lu_Start := "test-start"; lu_End := "test-end" |} ].

(** The methods that only return a field. *)
Definition Ping (f : database) : option string := fd_err f.
Definition TestConnection (f : database) : option string := fd_err f.
Definition CloseDB (f : database) : option string := fd_err f.
Definition fakeSchemaVersion (f : database) : string := fd_CurrentSchemaVersion f.
Definition NumResources (f : database) : nat := length (fd_resources f).
Definition NumLogUrls (f : database) : nat := length (fd_logUrl f).

(** *** Queries *)

(** An object as a row; one that is not encoded is a panic. *)
Definition toResource (o : O) : outcome Empty_set Resource :=
  match MarshalObject o with
  | None => Panic
  | Some data => Ok {| Date := GoString (GetCreationTimestamp o); Id := 0; Uuid := ""; Data := data |}
  end.

(** The loop the queries share. *)
Fixpoint filterResources (p : O → outcome Empty_set bool) (resources : list O)
    : outcome Empty_set (list Resource) :=
  match resources with
  | [] => Ok []
  | resource :: resources =>
      b ← p resource;
      if b : bool then
        r ← toResource resource;
        rs ← filterResources p resources;
        Ok (r :: rs)
      else filterResources p resources
  end.

Definition sameKind (kind apiVersion : string) (o : O) : bool :=
  String.eqb (GetKind o) kind && String.eqb (GetAPIVersion o) apiVersion.

Definition sameNamespace (kind apiVersion namespace : string) (o : O) : bool :=
  sameKind kind apiVersion o && String.eqb (GetNamespace o) namespace.

Definition filterResourcesByKindAndApiVersion (f : database) (kind apiVersion : string) :=
  filterResources (λ o, Ok (sameKind kind apiVersion o)) (fd_resources f).

Definition filterResourcesByKindApiVersionAndNamespace (f : database) (kind apiVersion namespace : string) :=
  filterResources (λ o, Ok (sameNamespace kind apiVersion namespace o)) (fd_resources f).

Definition filterResourceByKindApiVersionNamespaceAndName (f : database)
    (kind apiVersion namespace name : string) :=
  filterResources (λ o, Ok (sameNamespace kind apiVersion namespace o && String.eqb (GetName o) name))
    (fd_resources f).

Definition filterResourcesByKindApiVersionNamespaceAndWildcardName (f : database)
    (kind apiVersion namespace namePattern : string) :=
  filterResources (λ o, if sameNamespace kind apiVersion namespace o
                        then matchesWildcard (GetName o) namePattern else Ok false)
    (fd_resources f).

(** [filterResourcesByTimestamp]: a date that is not read is a panic. *)
Fixpoint filterResourcesByTimestamp (after before : option Time) (resources : list Resource)
    : outcome Empty_set (list Resource) :=
  match resources with
  | [] => Ok []
  | resource :: resources =>
      match ParseRFC3339 (Date resource) with
      | None => Panic
      | Some creationTime =>
          rs ← filterResourcesByTimestamp after before resources;
          if match after with Some a => (creationTime <? Instant a)%Z | None => false end then Ok rs
          else if match before with Some b => (Instant b <? creationTime)%Z | None => false end then Ok rs
          else Ok (resource :: rs)
      end
  end.

(** [queryFilteredResources], with [queryResources] and
    [queryNamespacedResourceByName]. *)
Definition queryFilteredResources (f : database) (a : QueryArgs) : outcome Empty_set (list Resource) :=
  let kind := qa_kind a in
  let version := qa_apiVersion a in
  resources ← (if nonempty (qa_name a) && Contains (qa_name a) "*"
               then filterResourcesByKindApiVersionNamespaceAndWildcardName f kind version
                      (qa_namespace a) (qa_name a)
               else if nonempty (qa_name a)
               then filterResourceByKindApiVersionNamespaceAndName f kind version (qa_namespace a) (qa_name a)
               else if nonempty (qa_namespace a)
               then filterResourcesByKindApiVersionAndNamespace f kind version (qa_namespace a)
               else filterResourcesByKindAndApiVersion f kind version);
  match qa_after a, qa_before a with
  | None, None => Ok resources
  | after, before => filterResourcesByTimestamp after before resources
  end.

Definition fakeQueryResources (f : database) (a : QueryArgs)
    : outcome Empty_set (list Resource * option string) :=
  resources ← queryFilteredResources f a; Ok (resources, fd_err f).

(** The callback [fn] changes a state. *)
Fixpoint streamTo {S} (fn : S → Resource → S * option string) (s : S) (resources : list Resource)
    : S * option string :=
  match resources with
  | [] => (s, None)
  | resource :: resources =>
      let '(s, err) := fn s resource in
      match err with Some e => (s, Some e) | None => streamTo fn s resources end
  end.

Definition fakeStreamResources {S} (f : database) (a : QueryArgs) (fn : S → Resource → S * option string) (s : S)
    : outcome Empty_set (S * option string) :=
  match fd_err f with
  | Some e => Ok (s, Some e)
  | None => resources ← queryFilteredResources f a; Ok (streamTo fn s resources)
  end.

Fixpoint firstByUID (kind apiVersion namespace uid : string) (resources : list O) : option O :=
  match resources with
  | [] => None
  | resource :: resources =>
      if sameNamespace kind apiVersion namespace resource && String.eqb (GetUID resource) uid
      then Some resource else firstByUID kind apiVersion namespace uid resources
  end.

Definition fakeQueryResourceByUID (f : database) (kind apiVersion namespace uid : string)
    : outcome Empty_set (option Resource * option string) :=
  match firstByUID kind apiVersion namespace uid (fd_resources f) with
  | Some resource => r ← toResource resource; Ok (Some r, None)
  | None => Ok (None, fd_err f)
  end.

(** [queryLogURL], for [QueryLogURLByName] and [QueryLogURLByUID]. *)
Definition fakeQueryLogURL (f : database) (namespace name containerName : string)
    : option LogRecord * option string :=
  match fd_logUrl f with
  | [] => (None, fd_err f)
  | row :: _ =>
      (Some {| lr_Namespace := namespace; lr_PodName := name; lr_PodUUID := lu_Uuid row;
               lr_ContainerName := containerName; lr_URL := lu_Url row; lr_Query := lu_Query row;
               lr_Start := lu_Start row; lr_End := lu_End row |}, fd_err f)
  end.

(** *** Writes *)

Definition logUrlRow (uid : string) (url : LogTuple) : LogUrlRow :=
  {| lu_Uuid := uid; lu_Url := log_Url url; lu_ContainerName := log_ContainerName url;
     lu_Query := log_Query url; lu_Start := log_Start url; lu_End := log_End url |}.

Definition fakeWriteResource (f : database) (k8sObj : option O) (logs : list LogTuple)
    : (WriteResourceResult * option string) * database :=
  match fd_err f with
  | Some e => ((WriteResourceResultError, Some e), f)
  | None =>
      match k8sObj with
      | None => ((WriteResourceResultError, Some "kubernetes object was 'nil', something went wrong"), f)
      | Some o =>
          let store logUrl :=
            ((WriteResourceResultInserted, None),
             {| fd_resources := fd_resources f ++ [o]; fd_logUrl := logUrl; fd_err := fd_err f;
                fd_urlErr := fd_urlErr f; fd_CurrentSchemaVersion := fd_CurrentSchemaVersion f |}) in
          if String.eqb (GetKind o) "Pod" then
            match fd_urlErr f with
            | Some e => ((WriteResourceResultError, Some e), f)
            | None =>
                let newLogUrls := filter (λ row, GetUID o ≠ lu_Uuid row) (fd_logUrl f) in
                store (newLogUrls ++ (logUrlRow (GetUID o) <$> logs))
            end
          else store (fd_logUrl f)
      end
  end.
End database.

(** ** What a pattern means, by its parts *)

Lemma glob_star q n : glob (String "*" q) n = true ↔ ∃ x y, n = x +:+ y ∧ glob q y = true.
Proof.
  cbn [glob]. rewrite Ascii.eqb_refl.
  induction n as [|d n IH]; cbn [someSuffix]; rewrite orb_true_iff.
  - split; [intros [Hg|?]; [by exists "", ""|done]|]. intros ([|c x] & y & Hn & Hy); [|done].
    left. by rewrite string_app_nil in Hn; subst.
  - split.
    + intros [Hg|Hg]; [by exists "", (String d n)|]. apply IH in Hg as (x & y & -> & Hy).
      by exists (String d x), y.
    + intros ([|c x] & y & Hn & Hy).
      * left. by rewrite string_app_nil in Hn; subst.
      * right. rewrite string_app_cons in Hn. injection Hn as -> ->. apply IH. by exists x, y.
Qed.

Lemma glob_text p q n : free_of "*" p → glob (p +:+ q) n = true ↔ ∃ t, n = p +:+ t ∧ glob q t = true.
Proof.
  revert n. induction p as [|c p IH]; intros n Hp.
  { rewrite string_app_nil. split; [intros; by exists n|]. by intros (t & -> & ?). }
  apply free_of_cons in Hp as [Hc Hp]. rewrite string_app_cons. cbn [glob].
  rewrite (proj2 (Ascii.eqb_neq _ _)) by done. destruct n as [|d n].
  { split; [done|]. by intros (t & ? & _). }
  rewrite andb_true_iff, Ascii.eqb_eq, IH by done. split.
  - intros (-> & t & -> & Ht). by exists t.
  - intros (t & Hn & Ht). rewrite string_app_cons in Hn. injection Hn as -> ->. split; [done|by exists t].
Qed.

Lemma glob_free p n : free_of "*" p → glob p n = true ↔ n = p.
Proof.
  intros Hp. rewrite <-(string_app_nil_r p) at 1. rewrite glob_text by done. split.
  - intros (t & -> & Ht). cbn in Ht. apply String.eqb_eq in Ht as ->. apply string_app_nil_r.
  - intros ->. exists "". by rewrite string_app_nil_r.
Qed.

(** Somewhere in [t], up to its end. *)
Definition anywhere (pattern t : string) : Prop := glob (String "*" pattern) t = true.

Lemma anywhere_longer p x t : anywhere p t → anywhere p (x +:+ t).
Proof.
  unfold anywhere. rewrite !glob_star. intros (a & b & -> & Hb). exists (x +:+ a), b.
  by rewrite string_app_assoc.
Qed.

Lemma anywhere_star p t : anywhere (String "*" p) t ↔ anywhere p t.
Proof.
  split.
  - unfold anywhere at 1. rewrite glob_star. intros (x & y & -> & Hy). by apply anywhere_longer.
  - intros Hp. unfold anywhere. rewrite glob_star. by exists "", t.
Qed.

Lemma anywhere_text p q t : free_of "*" p →
  anywhere (p +:+ q) t ↔ ∃ x y, t = x +:+ p +:+ y ∧ glob q y = true.
Proof.
  intros Hp. unfold anywhere. rewrite glob_star. split.
  - intros (x & y & -> & Hg). apply glob_text in Hg as (z & -> & Hz); [|done]. by exists x, z.
  - intros (x & y & -> & Hy). exists x, (p +:+ y). split; [done|]. apply glob_text; [done|]. by exists y.
Qed.

(** ** The loop *)

(** Of two ways to cut a text the shorter beginning is a beginning of the other. *)
Lemma string_app_prefixes (a b c d : string) :
  a +:+ b = c +:+ d → (String.length a ≤ String.length c)%nat → ∃ z, c = a +:+ z ∧ b = z +:+ d.
Proof.
  revert c. induction a as [|x a IH]; intros c; [by exists c|]. rewrite string_app_cons.
  destruct c as [|y c]; cbn [String.length]; [lia|]. rewrite string_app_cons. intros [= -> He] Hl.
  destruct (IH c He ltac:(lia)) as (z & -> & ->). by exists z.
Qed.

Lemma later_occurrence (x x' p y y' : string) :
  x +:+ p +:+ y = x' +:+ p +:+ y' → (String.length x ≤ String.length x')%nat → ∃ z, y = z +:+ y'.
Proof.
  intros He Hl. rewrite <-!string_app_assoc in He.
  destruct (string_app_prefixes _ _ _ _ He) as (z & _ & Hz); [rewrite !string_length_app; lia|]. by exists z.
Qed.

(** A suffix no longer than the rest is a suffix of the rest. *)
Lemma suffix_of_rest (a b t p : string) :
  a +:+ t = b +:+ p → (String.length p ≤ String.length t)%nat → ∃ z, t = z +:+ p.
Proof.
  intros He Hl. pose proof (f_equal String.length He) as Hn. rewrite !string_length_app in Hn.
  destruct (string_app_prefixes _ _ _ _ He) as (z & _ & ->); [lia|]. by exists z.
Qed.

Lemma matchParts_cons i pos n part parts :
  matchParts i pos n (part :: parts) =
  if String.eqb part "" then matchParts (S i) pos n parts
  else match Index (sdrop pos n) part with
       | None => false
       | Some idx => if (i =? 0)%nat && negb (idx =? 0)%nat then false
                     else matchParts (S i) (pos + (idx + String.length part)) n parts
       end.
Proof. done. Qed.

(** From the second part on, the parts are found in the rest of the name, and the last
    one at its end, exactly when the pattern they make is somewhere in the rest: an
    earlier occurrence of a part never hinders the next ones. *)
Lemma matchParts_rest ps a t i :
  ps ≠ [] → Forall (free_of "*") ps → default "" (last ps) ≠ "" →
  matchParts (S i) (String.length a) (a +:+ t) ps && HasSuffix (a +:+ t) (default "" (last ps)) = true
  ↔ anywhere (Join "*" ps) t.
Proof.
  revert a t i. induction ps as [|p ps IH]; [done|]. intros a t i _ [Hp Hps]%Forall_cons Hl.
  destruct ps as [|q ps].
  - cbn [last from_option id] in Hl |- *. cbn [matchParts]. rewrite (proj2 (String.eqb_neq _ _) Hl), sdrop_app.
    change (Join "*" [p]) with p. rewrite <-(string_app_nil_r p) at 3. rewrite anywhere_text by done. split.
    + destruct (Index t p) as [k|] eqn:Ek; [|done]. cbn [Nat.eqb andb]. intros Hs%HasSuffix_spec.
      destruct Hs as [b Hb]. apply Index_Some in Ek as (x & y & Ht & _).
      destruct (suffix_of_rest a b t p Hb) as [z Hz]; [rewrite Ht, !string_length_app; lia|].
      exists z, "". by rewrite string_app_nil_r.
    + intros (x & y & -> & Hy). cbn in Hy. apply String.eqb_eq in Hy as ->.
      destruct (Index_first x p "") as (k & -> & _). cbn [Nat.eqb andb matchParts].
      apply HasSuffix_spec. exists (a +:+ x). by rewrite string_app_nil_r, string_app_assoc.
  - rewrite Join_cons. change (last (p :: q :: ps)) with (last (q :: ps)) in Hl |- *. rewrite matchParts_cons.
    destruct (String.eqb_spec p "") as [->|Hne].
    { rewrite string_app_nil, anywhere_star. by apply IH. }
    rewrite anywhere_text by done. rewrite sdrop_app. destruct (Index t p) as [k|] eqn:Ek.
    + cbn [Nat.eqb]. rewrite andb_false_l. pose proof (Index_Some _ _ _ Ek) as (x & y & -> & Hk).
      replace (String.length a + (k + String.length p))%nat with (String.length (a +:+ x +:+ p))
        by (rewrite !string_length_app; lia).
      replace (a +:+ x +:+ p +:+ y) with ((a +:+ x +:+ p) +:+ y) by (by rewrite !string_app_assoc).
      rewrite IH by done. split; [intros Hy; by exists x, y|].
      intros (x' & y' & He & Hy'). destruct (Index_first x' p y') as (k' & Hk' & Hle).
      rewrite <-He, Ek in Hk'. injection Hk' as <-.
      destruct (later_occurrence x x' p y y' He) as [z ->]; [lia|]. by apply anywhere_longer.
    + split; [done|]. intros (x & y & -> & _). destruct (Index_first x p y) as (k & Hk & _). congruence.
Qed.

Lemma length_prefix_leb s t : (String.length s <=? String.length (s +:+ t))%nat = true.
Proof. apply Nat.leb_le. rewrite string_length_app. lia. Qed.

Lemma sliceString_app {E} lo s t hi :
  lo = 0%nat → hi = String.length s → sliceString (E:=E) lo hi (s +:+ t) = Ok s.
Proof.
  intros -> ->. unfold sliceString. rewrite length_prefix_leb. cbn [Nat.leb andb]. by rewrite Nat.sub_0_r, substring_app.
Qed.

Lemma sliceString_tail {E} c s hi :
  hi = S (String.length s) → sliceString (E:=E) 1 hi (String c s) = Ok s.
Proof.
  intros ->. unfold sliceString. cbn [Nat.leb String.length]. rewrite Nat.leb_refl. cbn.
  rewrite Nat.sub_0_r. pose proof (substring_app s "") as Hs. rewrite string_app_nil_r in Hs. by rewrite Hs.
Qed.

Lemma sliceString_middle {E} c s t hi :
  hi = S (String.length s) → sliceString (E:=E) 1 hi (String c (s +:+ t)) = Ok s.
Proof.
  intros ->. unfold sliceString. cbn [Nat.leb String.length].
  rewrite length_prefix_leb. cbn.
  by rewrite Nat.sub_0_r, substring_app.
Qed.

Lemma starts_free s : free_of "*" s → HasPrefix s "*" = false.
Proof.
  intros Hs. destruct (HasPrefix s "*") eqn:E; [|done]. apply HasPrefix_spec in E as [t ->].
  apply free_of_cons in Hs. tauto.
Qed.

Lemma ends_free s : free_of "*" s → HasSuffix s "*" = false.
Proof.
  intros Hs. destruct (HasSuffix s "*") eqn:E; [|done]. apply HasSuffix_spec in E as [t ->].
  unfold free_of in Hs. rewrite ContainsByte_app, orb_true_r in Hs. done.
Qed.

(** The search through the parts of a pattern with wildcards inside only. *)
Lemma matchParts_glob n p :
  ContainsByte p "*" = true → HasPrefix p "*" = false → HasSuffix p "*" = false →
  let lastPart := default "" (last (Split "*" p)) in
  lastPart ≠ "" ∧ (matchParts 0 0 n (Split "*" p) && HasSuffix n lastPart = true ↔ glob p n = true).
Proof.
  intros Hc Hp Hs. cbv zeta. pose proof (Join_Split "*" p) as Hj.
  pose proof (λ q, Split_parts_free "*" p q) as Hf. apply Forall_forall in Hf.
  destruct (Split_two "*" p Hc) as (a & b & l & El).
  destruct (last (Split "*" p)) as [z|] eqn:Ez; [|apply last_None in Ez; congruence].
  pose proof Ez as Hz. apply last_segment in Hz; [|rewrite El; cbn; lia].
  assert (z ≠ "") as Hne by (intros ->; congruence).
  cbn [from_option id]. split; [done|].
  rewrite El in Hj, Hf, Ez |- *. apply Forall_cons in Hf as [Ha Hf]. rewrite Join_cons in Hj.
  rewrite <-Hj, glob_text by done. rewrite matchParts_cons.
  destruct (String.eqb_spec a "") as [->|Hane].
  { rewrite <-Hj in Hp. change (HasPrefix ("*" +:+ Join "*" (b :: l)) "*" = false) in Hp.
    by rewrite HasPrefix_app in Hp. }
  cbn [sdrop].
  change (last (a :: b :: l)) with (last (b :: l)) in Ez. split.
  - destruct (Index n a) as [k|] eqn:Ek; [|done]. cbn [Nat.eqb andb].
    destruct (Nat.eqb_spec k 0) as [->|]; [|done]. cbn [negb]. intros Hm.
    apply Index_Some in Ek as (x & y & -> & Hx). destruct x; [|done]. rewrite string_app_nil in *.
    exists y. split; [done|]. apply (matchParts_rest (b :: l) a y 0); [done|done|by rewrite Ez|].
    by rewrite Ez.
  - intros (y & -> & Hy). destruct (Index_first "" a y) as (k & Hk & Hle). rewrite string_app_nil in Hk.
    cbn in Hle. assert (k = 0%nat) as -> by lia. rewrite Hk. cbn [Nat.eqb andb negb].
    apply (matchParts_rest (b :: l) a y 0) in Hy; [|done|done|by rewrite Ez]. by rewrite Ez in Hy.
Qed.

(** On the patterns it is written for, [matchesWildcard] is what a pattern means,
    whatever the case of the letters. *)
Theorem matchesWildcard_glob (name pattern : string) :
  plainPattern (ToLower pattern) →
  matchesWildcard name pattern = Ok (glob (ToLower pattern) (ToLower name)).
Proof.
  intros Hp. unfold matchesWildcard. rewrite Contains_byte, <-ToLower_star. unfold EqualFold.
  remember (ToLower pattern) as p eqn:Ep. clear Ep. generalize (ToLower name) as n. intros n. cbv zeta.
  destruct Hp as [p Hp Hs|s Hf Hs|s Hf Hs|s Hf].
  - destruct (ContainsByte p "*") eqn:Hc; cbn [negb].
    + rewrite Hp, Hs. cbn [andb]. destruct (matchParts_glob n p Hc Hp Hs) as [Hne Hg].
      unfold nonempty. rewrite (proj2 (String.eqb_neq _ _) Hne). cbn [negb andb]. rewrite negb_involutive.
      f_equal. by apply eq_true_iff_eq.
    + f_equal. apply eq_true_iff_eq. rewrite String.eqb_eq. by rewrite glob_free.
  - cbn [ContainsByte]. rewrite Ascii.eqb_refl. cbn [orb negb].
    assert (HasPrefix (String "*" s) "*" = true) as -> by apply (HasPrefix_app "*" s).
    assert (HasSuffix (String "*" s) "*" = false) as ->.
    { destruct (HasSuffix (String "*" s) "*") eqn:E; [|done]. apply HasSuffix_spec in E as [[|c q] He].
      - by rewrite string_app_nil in He; injection He as ->.
      - rewrite string_app_cons in He. injection He as _ ->. by rewrite <-(ends_free _ Hf), HasSuffix_app. }
    cbn [andb]. rewrite sliceString_tail by done. cbn [mbind outcome_bind]. f_equal. apply eq_true_iff_eq.
    rewrite HasSuffix_spec, glob_star.
    split; [intros [x ->]; exists x, s|intros (x & y & -> & ->%glob_free); [by exists x|done]].
    split; [done|]. by apply glob_free.
  - rewrite ContainsByte_app, HasSuffix_app. cbn [ContainsByte]. rewrite Ascii.eqb_refl, orb_true_r. cbn [negb].
    assert (HasPrefix (s +:+ "*") "*" = false) as ->.
    { destruct s as [|c s]; [done|]. apply free_of_cons in Hf as [Hc _]. rewrite string_app_cons.
      unfold HasPrefix. cbn [String.prefix]. destruct (Ascii.ascii_dec "*" c); [by subst|done]. }
    cbn [andb]. rewrite sliceString_app by (rewrite ?string_length_app; cbn; lia). cbn [mbind outcome_bind]. f_equal.
    apply eq_true_iff_eq. rewrite HasPrefix_spec, glob_text by done. apply exist_proper. intros t.
    split; [intros ->; split; [done|]|by intros [? _]]. apply glob_star.
    exists t, "". by rewrite string_app_nil_r.
  - cbn [ContainsByte]. rewrite Ascii.eqb_refl. cbn [orb negb].
    assert (HasPrefix (String "*" (s +:+ "*")) "*" = true) as -> by apply (HasPrefix_app "*").
    rewrite <-string_app_cons, HasSuffix_app, string_app_cons. cbn [andb].
    rewrite sliceString_middle by (cbn; rewrite string_length_app; cbn; lia). cbn [mbind outcome_bind]. f_equal.
    apply eq_true_iff_eq. rewrite Contains_spec.
    change (glob _ n = true) with (anywhere (s +:+ "*") n). rewrite anywhere_text by done.
    split; [intros (x & y & ->)|intros (x & y & -> & _)]; exists x, y; [|done]. split; [done|]. apply glob_star.
    exists y, "". by rewrite string_app_nil_r.
Qed.

(** A lone wildcard makes the function slice [[1:0]] and panic, and a pattern with
    wildcards inside and at an end is searched for them as they are. *)
Lemma matchesWildcard_limits name :
  matchesWildcard name "*" = Panic ∧
  matchesWildcard "xayb" "*a*b" = Ok false ∧ glob "*a*b" "xayb" = true.
Proof. done. Qed.

(** ** What the queries return *)
Section database_facts.
  Context {O : Type} `{!Unstructured O, !FakeLib O, !GoText}.
  Hypothesis marshalled : ∀ o : O, is_Some (MarshalObject o).

(** The row of an object. *)
Definition rowFor (o : O) : Resource :=
  {| Date := GoString (GetCreationTimestamp o); Id := 0; Uuid := "";
     Data := default "" (MarshalObject o) |}.

Lemma toResource_rowFor o : toResource o = Ok (rowFor o).
Proof. unfold toResource, rowFor. by destruct (marshalled o) as [d ->]. Qed.

Lemma filterResources_spec (p : O → bool) l :
  filterResources (λ o, Ok (p o)) l = Ok (rowFor <$> filter (λ o, p o = true) l).
Proof.
  induction l as [|o l IH]; [done|]. cbn [filterResources mbind outcome_bind]. rewrite IH, filter_cons.
  destruct (p o); [|done]. by rewrite toResource_rowFor.
Qed.

Lemma filterResources_ext (p q : O → outcome Empty_set bool) l :
  (∀ o, p o = q o) → filterResources p l = filterResources q l.
Proof. intros He. induction l as [|o l IH]; [done|]. cbn. by rewrite He, IH. Qed.

(** The objects a query is for.  An object has the namespace of a query with a name
    even when it gives none. *)
Definition selects (a : QueryArgs) (o : O) : bool :=
  sameKind (qa_kind a) (qa_apiVersion a) o &&
  (if nonempty (qa_name a) then
     String.eqb (GetNamespace o) (qa_namespace a) &&
     glob (ToLower (qa_name a)) (ToLower (GetName o))
   else negb (nonempty (qa_namespace a)) || String.eqb (GetNamespace o) (qa_namespace a)).

(** A list by a name with wildcards returns the objects whose name the pattern means, in
    the order they were written; neither the limit, nor the labels, nor the page token
    change anything. *)
Theorem wildcard_list (f : fakeDatabase O) (a : QueryArgs) :
  plainPattern (ToLower (qa_name a)) → ContainsByte (qa_name a) "*" = true →
  qa_after a = None → qa_before a = None →
  fakeQueryResources f a = Ok (rowFor <$> filter (λ o, selects a o = true) (fd_resources f), fd_err f).
Proof.
  intros Hp Hc Ha Hb. unfold fakeQueryResources, queryFilteredResources.
  assert (nonempty (qa_name a) = true) as Hne by (by destruct (qa_name a)).
  rewrite Contains_byte, Hc, Hne, Ha, Hb. cbn [andb].
  unfold filterResourcesByKindApiVersionNamespaceAndWildcardName.
  rewrite (filterResources_ext _ (λ o, Ok (selects a o))).
  { by rewrite filterResources_spec. }
  intros o. unfold selects, sameNamespace. rewrite Hne, matchesWildcard_glob by done.
  destruct (sameKind _ _ o); [|done]. cbn [andb]. by destruct (String.eqb _ _).
Qed.

(** A list by time panics as soon as there is anything to compare: the dates of the rows
    are Go source, which the layout does not read. *)
Lemma list_by_time_panics (f : fakeDatabase O) (a : QueryArgs) o :
  qa_name a = "" → qa_after a ≠ None ∨ qa_before a ≠ None →
  o ∈ fd_resources f → selects a o = true → fakeQueryResources f a = Panic.
Proof.
  intros Hn Ht Hin Hs. unfold fakeQueryResources, queryFilteredResources. rewrite Hn. cbn [nonempty String.eqb negb andb].
  unfold selects in Hs. rewrite Hn in Hs. cbn [nonempty String.eqb negb] in Hs.
  set (rows := if nonempty (qa_namespace a) then _ else _).
  assert (∃ r rs, rows = Ok (r :: rs) ∧ ∃ o', r = rowFor o') as (r & rs & -> & o' & ->).
  { assert (∃ p : O → bool, rows = filterResources (λ o, Ok (p o)) (fd_resources f) ∧ p o = true)
      as (p & -> & Hp).
    { unfold rows. apply andb_true_iff in Hs as [Hk Hns]. destruct (nonempty (qa_namespace a)).
      - eexists. split; [reflexivity|]. unfold sameNamespace. by rewrite Hk.
      - eexists. by split; [reflexivity|]. }
    rewrite filterResources_spec.
    destruct (filter (λ o, p o = true) (fd_resources f)) as [|o' l] eqn:El; [|by eexists _, _; split; [done|eexists]].
    assert (o ∈ filter (λ o, p o = true) (fd_resources f)) as Hf by (by apply list_elem_of_filter).
    rewrite El in Hf. by apply not_elem_of_nil in Hf. }
  cbn [mbind outcome_bind]. assert (∀ x y, filterResourcesByTimestamp x y (rowFor o' :: rs) = Panic) as Hp.
  { intros x y. cbn [filterResourcesByTimestamp rowFor Date]. by rewrite ParseRFC3339_GoString. }
  destruct (qa_after a), (qa_before a); rewrite ?Hp; try done. by destruct Ht.
Qed.

(** ** What a write leaves *)

(** A write that fails changes nothing; one that does not adds the object, and gives its
    Pod exactly the URLs of the write. *)
Theorem fake_write (f : fakeDatabase O) (k8sObj : option O) (logs : list LogTuple) :
  let '((result, err), f') := fakeWriteResource f k8sObj logs in
  match err with
  | Some _ => result = WriteResourceResultError ∧ f' = f
  | None => ∃ o, k8sObj = Some o ∧ result = WriteResourceResultInserted ∧
      fd_resources f' = fd_resources f ++ [o] ∧
      ∀ uid, filter (λ row, lu_Uuid row = uid) (fd_logUrl f') =
        if decide (GetKind o = "Pod" ∧ uid = GetUID o) then logUrlRow uid <$> logs
        else filter (λ row, lu_Uuid row = uid) (fd_logUrl f)
  end.
Proof.
  unfold fakeWriteResource. destruct (fd_err f) as [e|]; [done|]. destruct k8sObj as [o|]; [|done].
  destruct (String.eqb_spec (GetKind o) "Pod") as [Hk|Hk].
  2: { exists o. split_and!; [done..|]. intros uid. rewrite decide_False; [done|]. by intros [? _]. }
  destruct (fd_urlErr f) as [e|]; [done|]. exists o. split_and!; [done..|]. intros uid. cbn [fd_logUrl].
  rewrite filter_app. destruct (decide (uid = GetUID o)) as [->|Hne].
  - rewrite decide_True by done. rewrite filter_none, filter_all; [done|..].
    + intros row (url & -> & _)%list_elem_of_fmap. done.
    + intros row [Hr _]%list_elem_of_filter Hu. by rewrite Hu in Hr.
  - rewrite decide_False by (by intros [_ ?]).
    rewrite (filter_none _ (logUrlRow _ <$> logs)), app_nil_r
      by (intros row (url & -> & _)%list_elem_of_fmap Hu; by cbn in Hu).
    rewrite list_filter_filter. apply list_filter_iff. intros row. naive_solver.
Qed.

(** An object that is stored is read by its uid as it is, whatever is written after: the
    first write answers, where the databases answer with the newest. *)
Theorem second_write_unseen (f : fakeDatabase O) (old new : O) (logs : list LogTuple) :
  old ∈ fd_resources f →
  let query db := fakeQueryResourceByUID db (GetKind old) (GetAPIVersion old) (GetNamespace old) (GetUID old) in
  query (fakeWriteResource f (Some new) logs).2 = query f.
Proof.
  intros Hin. cbv zeta. unfold fakeQueryResourceByUID.
  assert (∃ l, fd_resources (fakeWriteResource f (Some new) logs).2 = fd_resources f ++ l) as [l ->].
  { unfold fakeWriteResource. destruct (fd_err f); [exists []; by rewrite app_nil_r|].
    destruct (String.eqb _ _); [destruct (fd_urlErr f)|]; [exists []; by rewrite app_nil_r|by eexists..]. }
  assert (∃ o, ∀ l, firstByUID (GetKind old) (GetAPIVersion old) (GetNamespace old) (GetUID old)
    (fd_resources f ++ l) = Some o) as [o Ho].
  { apply list_elem_of_split in Hin as (before & after & ->).
    induction before as [|o before [o' IH]]; cbn.
    - exists old. unfold sameNamespace, sameKind. by rewrite !String.eqb_refl.
    - destruct (_ && _); [by exists o|by exists o']. }
  pose proof (Ho []) as Hnil. rewrite app_nil_r in Hnil. by rewrite Ho, Hnil.
Qed.

(** The URL of a log is the first there is, whichever Pod it is asked of. *)
Lemma log_of_any_pod (f : fakeDatabase O) row rows ns name c :
  fd_logUrl f = row :: rows →
  ∃ r, (fakeQueryLogURL f ns name c).1 = Some r ∧ lr_URL r = lu_Url row ∧ lr_PodUUID r = lu_Uuid row.
Proof. intros Hf. unfold fakeQueryLogURL. rewrite Hf. by eexists. Qed.
End database_facts.

(** ** An instance *)

(** Objects are Pods, and their names their documents. *)
#[export] Instance sample_fake : FakeLib sample.
Proof.
  refine {| MarshalObject := λ o, Some (s_name o); GoString := λ t, "time.Date(" +:+ FormatInt t;
            ParseRFC3339 := λ s, if HasPrefix s "time" then None else ParseInt s;
            NewObject := λ kind av name ns uid,
              {| s_uid := uid; s_name := name; s_namespace := ns; s_created := 0; s_deleted := None;
                 s_version := "1"; s_flags := []; s_fields := [] |} |}.
  reflexivity.
Defined.

Definition listArgs (name : string) (after : option string) : QueryArgs :=
  {| qa_kind := "Pod"; qa_apiVersion := "v1"; qa_namespace := "test"; qa_name := name;
     qa_continueId := ""; qa_continueDate := ""; qa_labelFilters := None;
     qa_after := after; qa_before := None; qa_limit := 1 |}.

Definition namesOf (r : outcome Empty_set (list Resource * option string)) : option (list string) :=
  match r with Ok (rows, _) => Some (Data <$> rows) | _ => None end.

Definition testDatabase : fakeDatabase sample :=
  NewFakeDatabase (CreateTestResources (λ n, FormatInt (Z.of_nat n))) CreateTestLogUrls.

(** What the tests have: objects selected by wildcards, a panic for a list by time, and
    three objects that share the empty uid. *)
Example test_resources :
  namesOf (fakeQueryResources testDatabase (listArgs "*E2E*" None)) = Some ["test-e2e-job"; "my-e2e-service"] ∧
  namesOf (fakeQueryResources testDatabase (listArgs "t*-J*b" None)) = Some ["test-e2e-job"] ∧
  fakeQueryResources testDatabase (listArgs "" (Some "2023")) = Panic ∧
  GetUID <$> fd_resources testDatabase = ["3"; ""; ""; ""; "4"].
Proof. done. Qed.
