(* ===== verification/ApiServer.v ===== *)
(** * [cmd/api/main.go]: the routes of the API server, and a request from end to end

    The table of the routes, and what a request goes through: the router, the
    middlewares of [Auth] and [Pagination], and a handler of [ApiRouter], [LogQuery] or
    [LogRetrieval].  The router, gin, is a parameter known by what it documents. *)
From S2P Require Import Prelude GoLib GoStrings LabelSql Pagination ApiRouter Auth Owned Database LogBackend LogRetrieval LogQuery.

(** ** Routes *)

(** The handlers of a route; [RetrieveLogs] is [SetLoggingConfig], [GetLogURL] and
    [LogRetrieval] one after the other. *)
Inductive Handler := HLivez | HReadyz | HGetResources | HGetResourceByUID | RetrieveLogs.

(** The routes of the groups, as they are added. *)
Definition apisGroup : list (string * Handler) :=
  [("/:group/:version/:resourceType", HGetResources);
   ("/:group/:version/namespaces/:namespace/:resourceType", HGetResources);
   ("/:group/:version/namespaces/:namespace/:resourceType/:name", HGetResources);
   ("/:group/:version/namespaces/:namespace/:resourceType/:name/log", RetrieveLogs);
   ("/:group/:version/namespaces/:namespace/:resourceType/uid/:uid", HGetResourceByUID);
   ("/:group/:version/namespaces/:namespace/:resourceType/uid/:uid/log", RetrieveLogs)].

Definition apiGroup : list (string * Handler) :=
  [("/:version/:resourceType", HGetResources);
   ("/:version/namespaces/:namespace/:resourceType", HGetResources);
   ("/:version/namespaces/:namespace/:resourceType/:name", HGetResources);
   ("/:version/namespaces/:namespace/:resourceType/:name/log", RetrieveLogs);
   ("/:version/namespaces/:namespace/:resourceType/uid/:uid", HGetResourceByUID);
   ("/:version/namespaces/:namespace/:resourceType/uid/:uid/log", RetrieveLogs)].

Definition routes : list (string * Handler) :=
  [("/livez", HLivez); ("/readyz", HReadyz)] ++
  map (λ '(p, h), ("/apis" +:+ p, h)) apisGroup ++ map (λ '(p, h), ("/api" +:+ p, h)) apiGroup.

(** ** gin *)

(** A segment of a route stands for itself or for a parameter. *)
Inductive Segment := Static (s : string) | Param (name : string).

#[export] Instance Handler_eq_dec : EqDecision Handler.
Proof. solve_decision. Defined.
#[export] Instance Segment_eq_dec : EqDecision Segment.
Proof. solve_decision. Defined.

Definition segment (s : string) : Segment :=
  match s with String ":" name => Param name | _ => Static s end.

Definition pattern (route : string) : list Segment := segment <$> Split "/" route.

Fixpoint matchSegments (p : list Segment) (segs : list string) : option (gmap string string) :=
  match p, segs with
  | [], [] => Some ∅
  | Static s :: p, t :: segs => if String.eqb s t then matchSegments p segs else None
  | Param name :: p, t :: segs => insert name t <$> matchSegments p segs
  | _, _ => None
  end.

(** [q] is static where [p], the same so far, has a parameter. *)
Fixpoint moreStatic (q p : list Segment) : bool :=
  match q, p with
  | Static s :: q, Static t :: p => String.eqb s t && moreStatic q p
  | Param _ :: q, Param _ :: p => moreStatic q p
  | Static _ :: _, Param _ :: _ => true
  | _, _ => false
  end.

(** A route that matches is found, and exact segments are resolved before parameters. *)
Class GinLib := {
  FindRoute : list (list Segment * Handler) → string → option (Handler * gmap string string);
  FindRoute_matches rs path h ps : FindRoute rs path = Some (h, ps) →
    ∃ p, (p, h) ∈ rs ∧ matchSegments p (Split "/" path) = Some ps ∧
      ∀ q h' ps', (q, h') ∈ rs → matchSegments q (Split "/" path) = Some ps' →
        map_Forall (λ _ v, v ≠ "") ps' → moreStatic q p = false;
  FindRoute_found rs path p h ps : (p, h) ∈ rs → matchSegments p (Split "/" path) = Some ps →
    map_Forall (λ _ v, v ≠ "") ps → is_Some (FindRoute rs path);
}.

Definition table : list (list Segment * Handler) := map (λ '(r, h), (pattern r, h)) routes.

Definition param (ps : gmap string string) (name : string) : string := default "" (ps !! name).

(** ** [getCacheExpirations] *)

(** The variables are read one after the other; [None] is an error, after which [main]
    goes on with a nil pointer. *)
Definition getCacheExpirations `{!RequestLib} (environ : gmap string string) : option Expirations :=
  let duration name :=
    let text := default "" (environ !! name) in
    if String.eqb text "" then None else ParseDuration text in
  match duration "CACHE_EXPIRATION_AUTHORIZED" with
  | None => None
  | Some authorized =>
      match duration "CACHE_EXPIRATION_UNAUTHORIZED" with
      | None => None
      | Some unauthorized => Some {| Authorized := authorized; Unauthorized := unauthorized |}
      end
  end.

(** ** A request *)

Record HttpRequest := {
  hr_now : Z; hr_headers : gmap string (list string); hr_path : string;
  hr_query : gmap string (list string);
}.

(** [Context.GetQuery] and [Context.Query]. *)
Definition getQuery (r : HttpRequest) (key : string) : option string := hr_query r !! key ≫= head.
Definition query (r : HttpRequest) (key : string) : string := default "" (getQuery r key).

(** What the middlewares, the list and the other handlers see of a request. *)
Definition apiRequest (r : HttpRequest) (ps : gmap string string) : ApiRequest :=
  {| ar_now := hr_now r; ar_headers := hr_headers r; ar_path := hr_path r;
     ar_group := param ps "group"; ar_version := param ps "version";
     ar_namespace := param ps "namespace"; ar_resourceType := param ps "resourceType";
     ar_name := param ps "name" |}.

Definition listRequest (r : HttpRequest) (ps : gmap string string) (kind : option string)
    (page : PageValues) : ListRequest :=
  {| lr_kind := kind; lr_limit := pv_limit page; lr_id := pv_id page; lr_date := pv_date page;
     lr_path := hr_path r; lr_group := param ps "group"; lr_version := param ps "version";
     lr_namespace := param ps "namespace"; lr_name := param ps "name";
     lr_queryName := query r "name"; lr_labelSelector := query r "labelSelector";
     lr_after := query r "creationTimestampAfter"; lr_before := query r "creationTimestampBefore" |}.

Definition uidRequest (r : HttpRequest) (ps : gmap string string) (kind : option string) : UidRequest :=
  {| ur_kind := kind; ur_path := hr_path r; ur_group := param ps "group";
     ur_version := param ps "version"; ur_namespace := param ps "namespace";
     ur_name := param ps "name"; LogQuery.ur_uid := param ps "uid"; ur_container := query r "container" |}.

Section server.
  Context `{!URLLib, !RequestLib, !LogJSON, !Backend, !MapRange, !GoText, !LabelEngine, !Collation,
            !ResourceEngine, !ApiLib, !OwnerEngine, !LogEngine, !Sha256, !KubeAPI, !GinLib}.

(** What a request is answered with: no route, a probe and its status, a refusal of a
    middleware, or what its handler gives. *)
Inductive Served :=
| NotRouted
| Probe (status : Z)
| Refused (status : Z)
| BadPage (e : PaginationError)
| ListServed (answer : outcome Empty_set Reply)
| ResourceServed (answer : Z * option string)
| LogServed (answer : option (Z + (list LogBackend.Request * LogAnswer))).

(** The server: its database and what it holds, the configuration of the logs read at the start, the
    connection of the request, and the error of a ping. *)
Record Server := {
  sv_kind : DatabaseKind; sv_labels : LabelTables; sv_archive : Archive;
  sv_headers : gmap string (gmap string string); sv_providers : gmap string ProviderConfig;
  sv_conn : Connection; sv_ping : option string;
}.

Definition Readyz (ping : option string) : Z :=
  match ping with Some _ => 503 | None => 200 end.

(** [GetLogURL] and, unless it aborted, [LogRetrieval]. *)
Definition retrieveLogs (fuel : nat) (sv : Server) (r : HttpRequest) (u : UidRequest)
    : option (Z + (list LogBackend.Request * LogAnswer)) :=
  match GetLogURL (sv_kind sv) fuel (sv_archive sv) u with
  | None => None
  | Some (inl status) => Some (inl status)
  | Some (inr record) =>
      inr <$> LogRetrieval fuel (sv_conn sv) (sv_headers sv) (sv_providers sv) (Some record)
                (query r "tailLines")
  end.

Definition runHandler (fuel : nat) (sv : Server) (r : HttpRequest) (h : Handler)
    (ps : gmap string string) (kind : option string) (page : PageValues) : Served :=
  match h with
  | HLivez => Probe 200
  | HReadyz => Probe (Readyz (sv_ping sv))
  | HGetResources => ListServed (GetResources (sv_labels sv) (ar_resources (sv_archive sv))
                                   (listRequest r ps kind page))
  | HGetResourceByUID => ResourceServed (GetResourceByUID (sv_kind sv) (sv_archive sv) (uidRequest r ps kind))
  | RetrieveLogs => LogServed (retrieveLogs fuel sv r (uidRequest r ps kind))
  end.

(** A request of the server, and the cache after it: the probes have no middlewares. *)
Definition serveRequest (fuel : nat) (enabled : bool) (e : Expirations) (sv : Server) (r : HttpRequest)
    (c : Cache) : Served * Cache :=
  match FindRoute table (hr_path r) with
  | None => (NotRouted, c)
  | Some (HLivez, _) => (Probe 200, c)
  | Some (HReadyz, _) => (Probe (Readyz (sv_ping sv)), c)
  | Some (h, ps) =>
      let '(cx, c) := chain enabled e (apiRequest r ps) c in
      match cx_aborted cx with
      | Some status => (Refused status, c)
      | None =>
          match Middleware (getQuery r "limit") (query r "continue") with
          | Ok page => (runHandler fuel sv r h ps (GetAPIResourceKind cx) page, c)
          | Err err => (BadPage err, c)
          | Panic => (Refused 500, c)
          end
      end
  end.

(** The cache after some requests, whatever the database held at each. *)
Definition serveAll (fuel : nat) (enabled : bool) (e : Expirations) (rs : list (Server * HttpRequest))
    (c : Cache) : Cache :=
  foldl (λ c '(sv, r), (serveRequest fuel enabled e sv r c).2) c rs.
End server.
