(* ===== verification/Startup.v ===== *)
(** * The processes: [cmd/sink/main.go], [server.go], [cmd/api/main.go] and [cmd/vacuum/main.go]

    What a process does from its start to its end, as the effects others see and how
    it ends.  The components it starts are those of the other files. *)
From S2P Require Import Prelude GoLib GoStrings Api Cel CloudEvents Keepers WatchManager Filters Vacuum Writer LogUrls SinkRouter Auth Database LogBackend ApiServer Observability Logging.

(** ** A process

    The deferred calls of [main] run when it returns and when it panics, not when the
    process exits. *)
Inductive Ending := Running | Returned | Exit (code : Z) | Panicked.

Inductive Effect (S : Type) :=
| Opened (c : Connected)
| Closed
| Serving (s : S)
| ServingPprof
| ShuttingDown
| AwaitedTimeout.
Arguments Opened {S} c.
Arguments Closed {S}.
Arguments Serving {S} s.
Arguments ServingPprof {S}.
Arguments ShuttingDown {S}.
Arguments AwaitedTimeout {S}.

Record Process (S : Type) := { pr_effects : list (Effect S); pr_ending : Ending }.
Arguments pr_effects {S}.
Arguments pr_ending {S}.

Definition ends {S} (e : Ending) : Process S := {| pr_effects := []; pr_ending := e |}.

Definition after {S} (effects : list (Effect S)) (p : Process S) : Process S :=
  {| pr_effects := effects ++ pr_effects p; pr_ending := pr_ending p |}.

Definition deferred {S} (effects : list (Effect S)) (p : Process S) : Process S :=
  match pr_ending p with
  | Returned | Panicked => {| pr_effects := pr_effects p ++ effects; pr_ending := pr_ending p |}
  | Exit _ | Running => p
  end.

(** What happens to the servers of a process: a listener that fails, the one of the
    profiler, and a signal. *)
Inductive ServerEvent := ListenFailed | PprofListenFailed | Signal.

(** Waiting for the signal, which shuts the server down; [last] is done after. *)
Fixpoint awaitSignal {S} (pprof shutdownFails : bool) (last : list (Effect S)) (events : list ServerEvent)
    : Process S :=
  match events with
  | [] => ends Running
  | ListenFailed :: _ => ends (Exit 1)
  | PprofListenFailed :: events =>
      if pprof then ends (Exit 1) else awaitSignal pprof shutdownFails last events
  | Signal :: _ =>
      after [ShuttingDown] (if shutdownFails then ends (Exit 1) else after last (ends Returned))
  end.

(** What is outside the processes: the environment, the flag of [klog], the libraries
    that may fail, and what happens while they serve. *)
Record World := {
  w_environ : gmap string string; w_klogSet : string → bool; w_faults : TelemetryCall → bool;
  w_inClusterConfig : bool; w_newForConfig : bool; w_events : list ServerEvent; w_shutdownFails : bool;
}.

(** [k8sclient]: [NewInstrumentedDynamicClient] and [NewInstrumentedKubernetesClient]. *)
Definition getInstrumentedInClusterConfig (w : World) : bool := w_inClusterConfig w.
Definition newInstrumentedClient (w : World) : bool := getInstrumentedInClusterConfig w && w_newForConfig w.

Definition enablesPprof (w : World) : bool := String.eqb (getenv (w_environ w) EnablePprofEnvVar) "true".

Section processes.
  Context `{FL : !FloatLib, RL : !RequestLib, DR : !SqlDriver, RT : !RetryLib}.

Definition freshGlobals (logger : DefaultLogger) : Globals :=
  {| gl_tp := None; gl_TracerProvider := None; gl_MeterProvider := None; gl_Propagator := false;
     gl_Logger := logger; gl_LoggerProvider := None |}.

(** The logger of the process, or the error that ends it. *)
Definition configuredLogger (w : World) : option DefaultLogger :=
  match ConfigureLogging (w_klogSet w) (w_environ w) SlogDefault with
  | (Some _, _) => None
  | (None, logger) => Some logger
  end.

Definition startTelemetry (w : World) (serviceName : string) (logger : DefaultLogger)
    : (StartError + unit) * Globals :=
  Start (w_faults w) (w_environ w) serviceName (freshGlobals logger).

(** [database.NewWriter] and [database.NewReader]: the connection is made before its
    version is tested. *)
Definition withDatabase {S} (w : World) (body : Connected → Process S) : Process S :=
  match newDatabase (w_environ w) freshDatabase with
  | (db, Some _, _) => after (option_list (Opened <$> db)) (ends (Exit 1))
  | (None, None, _) => ends Panicked
  | (Some db, None, _) => after [Opened db] (deferred [Closed] (body db))
  end.

(** ** [cmd/sink] *)
Section sink.
  Context {O : Type} `{!Unstructured O, !CelEnv O, !LogValues O, !MapRange, !FileSystem}.

(** [Server.Serve]. *)
Definition Serve {S} (w : World) (s : S) (last : list (Effect S)) : Process S :=
  let pprof := enablesPprof w in
  after ([Serving s] ++ if pprof then [ServingPprof] else [])
    (awaitSignal pprof (w_shutdownFails w) last (w_events w)).

(** A builder that cannot be made is logged, and left nil. *)
Definition newController (w : World) : Controller (O:=O) :=
  {| LogUrlBuilder := NewUrlBuilder (w_environ w !! "KUBEARCHIVE_LOGGING_DIR") |}.

Definition sinkMain (w : World) : Process (Controller (O:=O)) :=
  match configuredLogger w with
  | None => ends (Exit 1)
  | Some logger =>
      match startTelemetry w "kubearchive.sink" logger with
      | (inl _, _) => ends (Exit 1)
      | (inr _, _) =>
          withDatabase w (λ _,
            if newInstrumentedClient w then Serve w (newController w) [] else ends (Exit 1))
      end
  end.

(** [NewServer]: the routes of the sink, which have no parameters. *)
Inductive SinkHandler := SinkReceive | SinkLivez | SinkReadyz.

Definition sinkRoutes : gmap (string * string) SinkHandler :=
  <[("POST", "/") := SinkReceive]> (<[("GET", "/livez") := SinkLivez]> (<[("GET", "/readyz") := SinkReadyz]> ∅)).

(** [Livez]: what it tells of the telemetry. *)
Definition SinkLivez_openTelemetry (w : World) : string := Status (w_environ w).
End sink.

(** ** [cmd/api] *)

(** The expirations are read before the database is opened, and their absence is
    logged; the nil pointer is dereferenced after. *)
Definition apiMain (w : World) : Process Expirations :=
  match configuredLogger w with
  | None => ends (Exit 1)
  | Some logger =>
      let '(_, _) := startTelemetry w "kubearchive.api" logger in
      let cacheExpirations := getCacheExpirations (w_environ w) in
      withDatabase w (λ _,
        match cacheExpirations with
        | None => ends Panicked
        | Some expirations =>
            if newInstrumentedClient w then Serve w expirations [AwaitedTimeout] else ends (Exit 1)
        end)
  end.
(** ** What the processes need *)

Definition telemetryStarts (w : World) : Prop :=
  canSkipInit (w_environ w) = true ∨
  ∃ sampler interval, startable (w_faults w) (w_environ w) sampler interval.

(** The database answers a ping in ten attempts, and its schema has an accepted version. *)
Definition databaseReady (w : World) (c : Connected) : Prop :=
  ∃ dbType, opens (w_environ w) dbType c ∧ versionAccepted dbType c.

Lemma startTelemetry_inr w name logger :
  (∃ g, startTelemetry w name logger = (inr tt, g)) ↔ telemetryStarts w.
Proof.
  unfold startTelemetry, telemetryStarts. split.
  - intros [g [[? _]|(s & i & ? & _)]%Start_spec]; eauto.
  - intros [Hs|(s & i & Hs)]; eexists; apply Start_spec; [by left|by right; eexists _, _].
Qed.

Lemma withDatabase_cases {S} w (body : Connected → Process S) :
  (∃ c, databaseReady w c ∧ withDatabase w body = after [Opened c] (deferred [Closed] (body c))) ∨
  ((∀ c, ¬ databaseReady w c) ∧ ∃ l, withDatabase w body = after (Opened <$> l) (ends (Exit 1))).
Proof.
  unfold withDatabase, newDatabase. cbn [ds_once ds_db freshDatabase].
  destruct (initialise (w_environ w) None) as [[c|] [e|]] eqn:Ei; cbn.
  - right. split; [|by exists [c]]. intros c' (d & Ho & Hv%checkVersion_accepts).
    enough (initialise (w_environ w) None = (Some c', None)) by congruence. apply initialise_opens. eauto.
  - left. exists c. split; [|done]. apply initialise_opens in Ei as (d & Ho & Hv).
    exists d. by rewrite <-checkVersion_accepts.
  - right. split; [|by exists []]. intros c' (d & Ho & Hv%checkVersion_accepts).
    enough (initialise (w_environ w) None = (Some c', None)) by congruence. apply initialise_opens. eauto.
  - exfalso. unfold initialise in Ei. repeat case_match; congruence.
Qed.

Lemma databaseReady_unique w c c' : databaseReady w c → databaseReady w c' → c = c'.
Proof.
  intros (d & Ho & Hv%checkVersion_accepts) (d' & Ho' & Hv'%checkVersion_accepts).
  assert (∀ c d, opens (w_environ w) d c → checkVersion d c = None → initialise (w_environ w) None = (Some c, None)) as Hi.
  { intros. apply initialise_opens. eauto. }
  pose proof (Hi _ _ Ho Hv). pose proof (Hi _ _ Ho' Hv'). congruence.
Qed.

Lemma elem_of_after {S} e l (p : Process S) : e ∈ pr_effects (after l p) ↔ e ∈ l ∨ e ∈ pr_effects p.
Proof. apply elem_of_app. Qed.

Lemma Serving_deferred {S} (s : S) (p : Process S) :
  Serving s ∈ pr_effects (deferred [Closed] p) ↔ Serving s ∈ pr_effects p.
Proof.
  destruct p as [l []]; unfold deferred; cbn [pr_ending pr_effects]; try done;
    rewrite elem_of_app, list_elem_of_singleton; naive_solver.
Qed.

Lemma Serving_awaitSignal {S} (s : S) pprof fails events last :
  Serving s ∈ pr_effects (awaitSignal pprof fails last events) → Serving s ∈ last.
Proof.
  induction events as [|[] events IH]; cbn [awaitSignal]; [by intros ?%elem_of_nil..| |].
  - destruct pprof; [by intros ?%elem_of_nil|done].
  - destruct fails; rewrite !elem_of_after, list_elem_of_singleton; cbn [ends pr_effects]; rewrite elem_of_nil; naive_solver.
Qed.

Lemma Serving_Serve {S} w (s s' : S) last :
  Serving s ∉ last → Serving s ∈ pr_effects (Serve w s' last) ↔ s = s'.
Proof.
  intros Hl. unfold Serve. rewrite elem_of_after, elem_of_app, list_elem_of_singleton. split.
  - intros [[[= ->]|Hp]|Hp%Serving_awaitSignal]; [done| |done].
    destruct (enablesPprof w); [by apply list_elem_of_singleton in Hp|by apply elem_of_nil in Hp].
  - intros ->. by left; left.
Qed.

Lemma deferred_ending {S} l (p : Process S) : pr_ending (deferred l p) = pr_ending p.
Proof. by destruct p as [? []]. Qed.

Lemma Serve_ending {S} w (s : S) last : pr_ending (Serve w s last) ≠ Panicked.
Proof.
  unfold Serve. cbn [after pr_ending].
  induction (w_events w) as [|[] l IH]; cbn [awaitSignal]; [done..| |]; by case_match.
Qed.

Lemma Serving_body {S} (s : S) w (body : Connected → Process S) :
  Serving s ∈ pr_effects (withDatabase w body) ↔ ∃ c, databaseReady w c ∧ Serving s ∈ pr_effects (body c).
Proof.
  destruct (withDatabase_cases w body) as [(c & Hc & ->)|(Hn & l & ->)].
  - rewrite elem_of_after, Serving_deferred, list_elem_of_singleton. split.
    + intros [?|?]; [done|by exists c].
    + intros (c' & Hc' & Hs). right. by rewrite (databaseReady_unique w c c').
  - rewrite elem_of_after. cbn [ends pr_effects]. split.
    + by intros [(? & ? & _)%list_elem_of_fmap|?%elem_of_nil].
    + intros (c & Hc & _). by destruct (Hn c).
Qed.

Section sink_start.
  Context {O : Type} `{!Unstructured O, !CelEnv O, !LogValues O, !MapRange, !FileSystem}.

(** The sink serves exactly when its logging can be configured, OpenTelemetry is
    disabled or starts, the database answers with an accepted version and a client of
    the cluster can be made; it then builds the log URLs its configuration gives, or
    none when there is no valid one. *)
Theorem sinkMain_serves (w : World) (c : Controller (O:=O)) :
  Serving c ∈ pr_effects (sinkMain w) ↔
  is_Some (configuredLogger w) ∧ telemetryStarts w ∧ (∃ db, databaseReady w db) ∧
  newInstrumentedClient w = true ∧ c = newController w.
Proof.
  unfold sinkMain. destruct (configuredLogger w) as [logger|].
  2:{ cbn. rewrite elem_of_nil. split; [done|]. by intros [[? ?] _]. }
  destruct (startTelemetry w "kubearchive.sink" logger) as [[e|[]] g] eqn:Et.
  { cbn. rewrite elem_of_nil. split; [done|]. intros (_ & Ht & _).
    apply (startTelemetry_inr w "kubearchive.sink" logger) in Ht as [g' ?]. congruence. }
  assert (telemetryStarts w) as Ht by (apply (startTelemetry_inr w "kubearchive.sink" logger); by eexists).
  rewrite Serving_body. destruct (newInstrumentedClient w).
  - split.
    + intros (db & Hdb & ->%Serving_Serve); [|apply not_elem_of_nil]. split_and!; eauto.
    + intros (_ & _ & [db Hdb] & _ & ->). exists db. split; [done|]. by apply Serving_Serve; [apply not_elem_of_nil|].
  - split; [by intros (? & _ & ?%elem_of_nil)|by intros (_ & _ & _ & ? & _)].
Qed.
End sink_start.

(** The API server serves when the sink would, whatever becomes of OpenTelemetry,
    and both expirations of its cache are durations.  When one is missing it does not
    stop at that error: it opens the database, and panics. *)
Theorem apiMain_serves (w : World) :
  (∀ e, Serving e ∈ pr_effects (apiMain w) ↔
    is_Some (configuredLogger w) ∧ (∃ db, databaseReady w db) ∧
    newInstrumentedClient w = true ∧ getCacheExpirations (w_environ w) = Some e) ∧
  (pr_ending (apiMain w) = Panicked ↔
    is_Some (configuredLogger w) ∧ (∃ db, databaseReady w db) ∧ getCacheExpirations (w_environ w) = None).
Proof.
  unfold apiMain. destruct (configuredLogger w) as [logger|].
  2:{ split; [intros e; cbn; rewrite elem_of_nil|]; (split; [done|by intros [[? ?] _]]). }
  destruct (startTelemetry w "kubearchive.api" logger). split.
  - intros e. rewrite Serving_body. destruct (getCacheExpirations (w_environ w)) as [e'|].
    2:{ split; [by intros (? & _ & ?%elem_of_nil)|by intros (_ & _ & _ & ?)]. }
    destruct (newInstrumentedClient w).
    + split.
      * intros (db & Hdb & ->%Serving_Serve); [|set_solver]. split_and!; eauto.
      * intros (_ & [db Hdb] & _ & [= ->]). exists db. split; [done|]. by apply Serving_Serve; [set_solver|].
    + split; [by intros (? & _ & ?%elem_of_nil)|by intros (_ & _ & ? & _)].
  - match goal with |- context [withDatabase w ?b] => destruct (withDatabase_cases w b) as [(c & Hc & ->)|(Hn & l & ->)] end.
    2:{ split; [done|]. intros (_ & [db Hdb] & _). by destruct (Hn db). }
    destruct (getCacheExpirations (w_environ w)) as [e'|]; [|by split; [eauto|]].
    split; [|by intros (_ & _ & ?)]. intros Hp. exfalso. destruct (newInstrumentedClient w); [|done].
    cbn [after pr_ending] in Hp. rewrite deferred_ending in Hp. by apply Serve_ending in Hp.
Qed.
(** ** How the processes stop *)

Lemma awaitSignal_returned {S} pprof fails (last : list (Effect S)) events :
  pr_ending (awaitSignal pprof fails last events) = Returned →
  pr_effects (awaitSignal pprof fails last events) = ShuttingDown :: last.
Proof.
  induction events as [|[] events IH]; cbn [awaitSignal]; [done..| |]; case_match; try done.
  intros _. cbn. by rewrite app_nil_r.
Qed.

Lemma withDatabase_returned {S} w (s : S) last (body : Connected → Process S) :
  (∀ c, body c = Serve w s last ∨ ∃ code, body c = ends (Exit code)) →
  pr_ending (withDatabase w body) = Returned →
  ∃ db, databaseReady w db ∧ pr_effects (withDatabase w body) =
    [Opened db; Serving s] ++ (if enablesPprof w then [ServingPprof] else []) ++ [ShuttingDown] ++ last ++ [Closed].
Proof.
  intros Hb. destruct (withDatabase_cases w body) as [(c & Hc & ->)|(_ & l & ->)]; [|done].
  cbn [after pr_ending pr_effects]. rewrite deferred_ending. intros Hr. exists c. split; [done|].
  destruct (Hb c) as [Hs|[code Hs]]; rewrite Hs in Hr |- *; [|done].
  unfold deferred. rewrite Hr. unfold Serve in *. cbn [after pr_ending pr_effects] in *.
  rewrite (awaitSignal_returned _ _ _ _ Hr). cbn. do 2 f_equal. by rewrite <-app_assoc.
Qed.

(** A process that stops by itself has shut its server down, and closed the database
    after; the API server waits for the timeout of the shutdown in between. *)
Lemma sink_stops {O : Type} `{!Unstructured O, !CelEnv O, !LogValues O, !MapRange, !FileSystem} (w : World) :
  pr_ending (sinkMain (O:=O) w) = Returned →
  ∃ db, databaseReady w db ∧ pr_effects (sinkMain (O:=O) w) =
    [Opened db; Serving (newController w)] ++ (if enablesPprof w then [ServingPprof] else []) ++
    [ShuttingDown; Closed].
Proof.
  unfold sinkMain. destruct (configuredLogger w); [|done].
  destruct (startTelemetry _ _ _) as [[?|?] ?]; [done|].
  apply (withDatabase_returned w (newController w) []). intros c. case_match; eauto.
Qed.

Lemma api_stops (w : World) :
  pr_ending (apiMain w) = Returned →
  ∃ db e, databaseReady w db ∧ getCacheExpirations (w_environ w) = Some e ∧ pr_effects (apiMain w) =
    [Opened db; Serving e] ++ (if enablesPprof w then [ServingPprof] else []) ++
    [ShuttingDown; AwaitedTimeout; Closed].
Proof.
  unfold apiMain. destruct (configuredLogger w); [|done]. destruct (startTelemetry _ _ _).
  destruct (getCacheExpirations (w_environ w)) as [e|].
  - intros Hr. apply (withDatabase_returned w e [AwaitedTimeout]) in Hr as (db & Hdb & He); [by exists db, e|].
    intros c. case_match; eauto.
  - intros Hr. destruct (withDatabase_cases w (λ _, ends (S:=Expirations) Panicked)) as [(c & _ & Hw)|(_ & l & Hw)];
      by rewrite Hw in Hr.
Qed.

(** Without a mode of telemetry the sink exits, whose probe would call it disabled, and
    the API server goes on. *)
Lemma unset_mode_stops_sink {O : Type} `{!Unstructured O, !CelEnv O, !LogValues O, !MapRange, !FileSystem} (w : World) :
  w_environ w !! OtelStartEnvVar = None →
  SinkLivez_openTelemetry w = "disabled" ∧ sinkMain (O:=O) w = ends (Exit 1).
Proof.
  intros Hn. destruct (unset_mode_refused (w_faults w) (w_environ w) "kubearchive.sink" (freshGlobals SlogDefault) Hn) as [Hs _].
  split; [done|]. unfold sinkMain. destruct (configuredLogger w) as [l|]; [|done]. unfold startTelemetry.
  destruct (unset_mode_refused (w_faults w) (w_environ w) "kubearchive.sink" (freshGlobals l) Hn) as [_ [e ->]]. done.
Qed.
End processes.

(** ** [cmd/vacuum] *)

(** The flags, with their defaults. *)
Record VacuumFlags := { vf_type : option string; vf_config : option string }.

Definition vacuumMain {O : Type} `{!Unstructured O, !CelEnv O, !EventEncoding O, !RESTMapper, !Environment, !KubeClient O}
    (order : list string) (flags : VacuumFlags) : list (CloudEvent O) * Ending :=
  let config := default "" (vf_config flags) in
  let err :=
    if String.eqb (default "namespace" (vf_type flags)) "cluster"
    then clusterVacuum order config
    else namespaceVacuum (Api.Getenv "NAMESPACE") config in
  match err with
  | Ok events => (events, Exit 0)
  | Err _ => ([], Exit 1)
  | Panic => ([], Panicked)
  end.
