(* ===== verification/Managers.v ===== *)
(** * [cmd/operator/main.go] and [cmd/installer/main.go]: the managers

    The options given to the managers, among them the functions that configure the
    TLS servers, which are slices that may share an array; the steps of the start; and
    the readiness of the operator. *)
From S2P Require Import Prelude GoLib GoStrings Database LogBackend Observability Logging Startup.

(** ** Slices

    The arrays of a run, and a slice of one from its start.  [append] writes after the
    last element while there is room, and into a new array otherwise. *)
Notation Arrays A := (list (list (option A))).

Section slices.
  Context {A : Type} (grow : nat → nat).

Record Slice := { sl_array : nat; sl_len : nat; sl_cap : nat }.

Definition nilSlice : Slice := {| sl_array := 0; sl_len := 0; sl_cap := 0 |}.

Definition elements_ (h : Arrays A) (s : Slice) : list A :=
  omap id (take (sl_len s) (default [] (h !! sl_array s))).

(** [grow n] is the capacity of the array made for [n] elements. *)
Definition Append (s : Slice) (x : A) (h : Arrays A) : Slice * Arrays A :=
  if (sl_len s <? sl_cap s)%nat then
    ({| sl_array := sl_array s; sl_len := S (sl_len s); sl_cap := sl_cap s |},
     alter (insert (sl_len s) (Some x)) (sl_array s) h)
  else
    let n := S (sl_len s) in
    ({| sl_array := length h; sl_len := n; sl_cap := grow n |},
     h ++ [take (sl_len s) (default [] (h !! sl_array s)) ++ Some x :: replicate (grow n - n) None]).
End slices.

(** ** TLS *)

(** A watcher of the files of a certificate and of its key. *)
Record CertWatcher := { cw_cert : string; cw_key : string }.

Record TlsConfig := { tls_NextProtos : list string; tls_GetCertificate : option CertWatcher }.

(** The functions that configure a server. *)
Inductive TlsOption := DisableHTTP2 | UseCertificates (w : CertWatcher).

Definition applyOption (c : TlsConfig) (o : TlsOption) : TlsConfig :=
  match o with
  | DisableHTTP2 => {| tls_NextProtos := ["http/1.1"]; tls_GetCertificate := tls_GetCertificate c |}
  | UseCertificates w => {| tls_NextProtos := tls_NextProtos c; tls_GetCertificate := Some w |}
  end.

(** The configuration of a server, from the one the manager starts with. *)
Definition serverConfig (initial : TlsConfig) (opts : list TlsOption) : TlsConfig := foldl applyOption initial opts.

(** [filepath.Join], and whether the files of a watcher can be read. *)
Class CertLib := {
  FilepathJoin : string → string → string;
  newCertWatcher : CertWatcher → bool;
}.

(** ** Steps of a start: the first that fails exits *)
Fixpoint runSteps {T} (fails : T → bool) (steps : list T) : list T * Ending :=
  match steps with
  | [] => ([], Returned)
  | s :: steps =>
      if fails s then ([], Exit 1)
      else let '(done, ending) := runSteps fails steps in (s :: done, ending)
  end.

(** ** [cmd/installer/main.go] *)
Record InstallerFlags := {
  if_metricsAddr : string; if_probeAddr : string; if_enableLeaderElection : bool; if_secureMetrics : bool;
  if_webhookCertPath : string; if_webhookCertName : string; if_webhookCertKey : string;
  if_metricsCertPath : string; if_metricsCertName : string; if_metricsCertKey : string;
  if_enableHTTP2 : bool;
}.

Definition defaultInstallerFlags : InstallerFlags :=
  {| if_metricsAddr := "0"; if_probeAddr := ":8081"; if_enableLeaderElection := false; if_secureMetrics := true;
     if_webhookCertPath := ""; if_webhookCertName := "tls.crt"; if_webhookCertKey := "tls.key";
     if_metricsCertPath := ""; if_metricsCertName := "tls.crt"; if_metricsCertKey := "tls.key";
     if_enableHTTP2 := false |}.

(** What the manager of the installer is made with. *)
Record InstallerOptions := {
  io_arrays : Arrays TlsOption;
  io_webhookTLS : Slice; io_webhookCertWatcher : option CertWatcher;
  io_metricsAddr : string; io_secureMetrics : bool; io_metricsTLS : Slice;
  io_authenticatesMetrics : bool; io_metricsCertWatcher : option CertWatcher;
  io_probeAddr : string; io_leaderElection : bool;
}.

Inductive InstallerStep :=
| INewManager | ISetupReconciler | ISetupWebhook | IAddMetricsWatcher | IAddWebhookWatcher
| IAddHealthz | IAddReadyz | IStart.

Section installer.
  Context `{CL : !CertLib} (grow : nat → nat) (flags : InstallerFlags).

(** The options every server starts with. *)
Definition tlsOpts : Slice * Arrays TlsOption :=
  if if_enableHTTP2 flags then (nilSlice, []) else Append grow nilSlice DisableHTTP2 [].

(** The options of a server with the certificates of a directory, if it has one:
    [None] when they cannot be read. *)
Definition withCertificates (path name key : string) (opts : Slice) (h : Arrays TlsOption)
    : option (Slice * option CertWatcher * Arrays TlsOption) :=
  if nonempty path then
    let w := {| cw_cert := FilepathJoin path name; cw_key := FilepathJoin path key |} in
    if newCertWatcher w then
      let '(opts, h) := Append grow opts (UseCertificates w) h in Some (opts, Some w, h)
    else None
  else Some (opts, None, h).

Definition installerOptions : option InstallerOptions :=
  let '(opts, h) := tlsOpts in
  '(webhookTLSOpts, webhookCertWatcher, h) ←
    withCertificates (if_webhookCertPath flags) (if_webhookCertName flags) (if_webhookCertKey flags) opts h;
  '(metricsTLSOpts, metricsCertWatcher, h) ←
    withCertificates (if_metricsCertPath flags) (if_metricsCertName flags) (if_metricsCertKey flags) opts h;
  Some {| io_arrays := h;
          io_webhookTLS := webhookTLSOpts; io_webhookCertWatcher := webhookCertWatcher;
          io_metricsAddr := if_metricsAddr flags; io_secureMetrics := if_secureMetrics flags;
          io_metricsTLS := metricsTLSOpts; io_authenticatesMetrics := if_secureMetrics flags;
          io_metricsCertWatcher := metricsCertWatcher; io_probeAddr := if_probeAddr flags;
          io_leaderElection := if_enableLeaderElection flags |}.

Definition installerSteps (environ : gmap string string) (o : InstallerOptions) : list InstallerStep :=
  [INewManager; ISetupReconciler] ++
  (if negb (String.eqb (getenv environ "ENABLE_WEBHOOKS") "false") then [ISetupWebhook] else []) ++
  match io_metricsCertWatcher o with Some _ => [IAddMetricsWatcher] | None => [] end ++
  match io_webhookCertWatcher o with Some _ => [IAddWebhookWatcher] | None => [] end ++
  [IAddHealthz; IAddReadyz; IStart].

Definition installerMain (environ : gmap string string) (fails : InstallerStep → bool)
    : option InstallerOptions * list InstallerStep * Ending :=
  match installerOptions with
  | None => (None, [], Exit 1)
  | Some o => let '(steps, ending) := runSteps fails (installerSteps environ o) in (Some o, steps, ending)
  end.
End installer.

(** ** [cmd/operator/main.go] *)

(** [webhookReadinessCheck]: whether the last check failed, and what is logged. *)
Inductive ReadinessLog := WebhookReady | WebhookNotReady (e : string).

(** [dialed] is the error of the connection.  The result is the error of the check. *)
Definition webhookReadinessCheck (dialed : option string) (lastCheckFailed : bool)
    : option string * bool * list ReadinessLog :=
  match dialed with
  | Some e => (Some e, true, [WebhookNotReady e])
  | None => (None, false, if lastCheckFailed then [WebhookReady] else [])
  end.

(** Checks one after the other; the first success is logged as one after a failure. *)
Fixpoint readinessChecks (lastCheckFailed : bool) (dials : list (option string))
    : list (option string * list ReadinessLog) :=
  match dials with
  | [] => []
  | d :: dials =>
      let '(err, failed, log) := webhookReadinessCheck d lastCheckFailed in
      (err, log) :: readinessChecks failed dials
  end.

Record OperatorFlags := {
  of_probeAddr : string; of_enableLeaderElection : bool; of_enableHTTP2 : bool; of_leaseDuration : Z;
}.

Definition defaultOperatorFlags : OperatorFlags :=
  {| of_probeAddr := ":8081"; of_enableLeaderElection := false; of_enableHTTP2 := false;
     of_leaseDuration := 15000000000 |}.

(** The cache of the manager: the kinds with a selection of their own, whether their
    namespaces are given (as an empty map), and the namespace of the others, which no
    label selects by default. *)
Record CacheOptions := {
  co_ByObject : list (string * bool); co_DefaultNamespace : string; co_DefaultSelectsNothing : bool;
}.

Definition operatorCache (k9eNs : string) : CacheOptions :=
  {| co_ByObject := [("ServiceAccount", true); ("ClusterKubeArchiveConfig", false); ("KubeArchiveConfig", true);
                     ("ClusterRole", false); ("ClusterRoleBinding", false); ("Role", true); ("RoleBinding", true)];
     co_DefaultNamespace := k9eNs; co_DefaultSelectsNothing := true |}.

Record OperatorOptions := {
  oo_webhookTLS : list TlsOption; oo_cache : CacheOptions; oo_probeAddr : string;
  oo_leaderElection : bool; oo_leaseDuration : Z; oo_pprofAddr : string;
}.

Definition operatorOptions (environ : gmap string string) (flags : OperatorFlags) : OperatorOptions :=
  {| oo_webhookTLS := if of_enableHTTP2 flags then [] else [DisableHTTP2];
     oo_cache := operatorCache (getenv environ "KUBEARCHIVE_NAMESPACE");
     oo_probeAddr := of_probeAddr flags; oo_leaderElection := of_enableLeaderElection flags;
     oo_leaseDuration := of_leaseDuration flags;
     oo_pprofAddr := if String.eqb (getenv environ EnablePprofEnvVar) "true" then ":8888" else "" |}.

Inductive OperatorStep :=
| ONewManager | OLoadConfiguration | OSetupKAC | OSetupCKAC | OSetupSinkFilter
| OWebhookCKAC | OWebhookKAC | OWebhookSinkFilter | OWebhookNamespaceVacuum | OWebhookClusterVacuum
| OAddHealthz | OAddReadyz | OStart.

Definition operatorSteps (environ : gmap string string) : list OperatorStep :=
  [ONewManager; OLoadConfiguration; OSetupKAC; OSetupCKAC; OSetupSinkFilter] ++
  (if negb (String.eqb (getenv environ "ENABLE_WEBHOOKS") "false")
   then [OWebhookCKAC; OWebhookKAC; OWebhookSinkFilter; OWebhookNamespaceVacuum; OWebhookClusterVacuum]
   else []) ++
  [OAddHealthz; OAddReadyz; OStart].

(** An error of OpenTelemetry is printed, and the start goes on. *)
Definition operatorMain `{!FloatLib, !RequestLib} (w : World) (flags : OperatorFlags) (fails : OperatorStep → bool)
    : option OperatorOptions * list OperatorStep * Ending :=
  match configuredLogger w with
  | None => (None, [], Exit 1)
  | Some logger =>
      let '(_, _) := startTelemetry w "kubearchive.operator" logger in
      let '(steps, ending) := runSteps fails (operatorSteps (w_environ w)) in
      (Some (operatorOptions (w_environ w) flags), steps, ending)
  end.

(** ** The servers of the installer *)

(** The certificates a server is asked to use. *)
Definition wantedWatcher `{!CertLib} (path name key : string) : option CertWatcher :=
  if nonempty path then Some {| cw_cert := FilepathJoin path name; cw_key := FilepathJoin path key |} else None.

(** A server with these certificates, and HTTP/1.1 unless HTTP/2 is enabled. *)
Definition wantedConfig (flags : InstallerFlags) (w : option CertWatcher) (initial : TlsConfig) : TlsConfig :=
  {| tls_NextProtos := if if_enableHTTP2 flags then tls_NextProtos initial else ["http/1.1"];
     tls_GetCertificate := match w with Some w => Some w | None => tls_GetCertificate initial end |}.

Section arrays.
  Context {A : Type} (grow : nat → nat).
  Hypothesis Hgrow : ∀ n, (n <= grow n)%nat.

(** A slice whose elements are the first of its array. *)
Definition holds (h : Arrays A) (s : Slice) (l : list A) : Prop :=
  sl_len s = length l ∧ (sl_len s <= sl_cap s)%nat ∧
  ∃ rest, default [] (h !! sl_array s) = (Some <$> l) ++ rest.

Lemma holds_elements h s l : holds h s l → elements_ h s = l.
Proof.
  intros (Hl & _ & rest & Hr). unfold elements_. rewrite Hr, take_app_le, Hl by (rewrite length_fmap; lia).
  rewrite take_ge by (rewrite length_fmap; lia). clear. by induction l as [|x l IH]; cbn; [|rewrite IH].
Qed.

Lemma holds_snoc h arr s l : (sl_array s < length h)%nat → holds h s l → holds (h ++ arr) s l.
Proof. intros Ha (? & ? & rest & Hr). split_and!; [done|done|]. exists rest. by rewrite lookup_app_l. Qed.

(** A full slice is copied: what is appended is seen by the new slice only. *)
Lemma Append_full (s : Slice) x h l s' h' :
  holds h s l → sl_len s = sl_cap s → Append grow s x h = (s', h') →
  holds h' s' (l ++ [x]) ∧ sl_array s' = length h ∧ sl_cap s' = grow (S (length l)) ∧
  length h' = S (length h) ∧ ∀ t l', (sl_array t < length h)%nat → holds h t l' → holds h' t l'.
Proof.
  intros (Hl & Hc & rest & Hr) Hfull. unfold Append. destruct (Nat.ltb_spec (sl_len s) (sl_cap s)); [lia|].
  intros [= <- <-]. cbn [sl_array sl_cap]. split_and!.
  - split_and!; cbn [sl_len sl_cap sl_array]; [rewrite length_app; cbn; lia|apply Hgrow|].
    exists (replicate (grow (S (sl_len s)) - S (sl_len s)) None).
    rewrite lookup_app_r, Nat.sub_diag by done. cbn [lookup list_lookup default].
    rewrite Hr, take_app_le, take_ge by (rewrite length_fmap; lia). by rewrite fmap_app, <-app_assoc.
  - done.
  - by rewrite Hl.
  - rewrite length_app. cbn. lia.
  - intros t l' Ht. by apply holds_snoc.
Qed.
End arrays.

Section installer_facts.
  Context `{CL : !CertLib} (grow : nat → nat) (flags : InstallerFlags).
  Hypothesis Hgrow : ∀ n, (n <= grow n)%nat.
  Hypothesis Hone : grow 1 = 1%nat.

Definition commonOptions : list TlsOption := if if_enableHTTP2 flags then [] else [DisableHTTP2].

Definition certOption (w : option CertWatcher) : list TlsOption :=
  match w with Some w => [UseCertificates w] | None => [] end.

(** The slice the servers share is full, in its own array if it has one. *)
Definition common (s : Slice) (h : Arrays TlsOption) : Prop :=
  holds h s commonOptions ∧ sl_len s = sl_cap s.

(** [holds] of a slice in an array that exists, or without elements. *)
Definition kept (h : Arrays TlsOption) (s : Slice) (l : list TlsOption) : Prop :=
  holds h s l ∧ ((sl_array s < length h)%nat ∨ l = []).

Lemma kept_nil (h : Arrays TlsOption) s : sl_len s = 0%nat → (sl_len s <= sl_cap s)%nat → holds h s ([] : list TlsOption).
Proof. intros Hl Hc. split_and!; [done|done|]. by eexists. Qed.

Lemma tlsOpts_common : common (tlsOpts grow flags).1 (tlsOpts grow flags).2 ∧
  kept (tlsOpts grow flags).2 (tlsOpts grow flags).1 commonOptions.
Proof.
  unfold common, kept, tlsOpts, commonOptions. destruct (if_enableHTTP2 flags); cbn.
  - split; [split; [by apply kept_nil|done]|split; [by apply kept_nil|by right]].
  - rewrite Hone. cbn. assert (holds [[Some DisableHTTP2]] {| sl_array := 0; sl_len := 1; sl_cap := 1 |} [DisableHTTP2]).
    { split_and!; cbn; [done|lia|by exists []]. }
    split; [done|]. split; [done|]. left. cbn. lia.
Qed.

Lemma withCertificates_spec path name key s h s' w h' :
  common s h → kept h s commonOptions → withCertificates grow path name key s h = Some (s', w, h') →
  w = wantedWatcher path name key ∧ kept h' s' (commonOptions ++ certOption w) ∧
  ∀ t l, kept h t l → kept h' t l.
Proof.
  intros [Hh Hf] Hk. unfold withCertificates, wantedWatcher. destruct (nonempty path).
  - destruct (newCertWatcher _); [|done].
    destruct (Append grow s _ h) as [t h1] eqn:Ea. intros [= -> <- ->]. split; [done|].
    destruct (Append_full grow Hgrow _ _ _ _ _ _ Hh Hf Ea) as (Hs & Harr & _ & Hlen & Hothers).
    split; [split; [done|left; lia]|]. intros t l [Ht [Hlt| ->]].
    + split; [by apply Hothers|left; lia].
    + split; [|by right]. destruct Ht as (? & ? & _). by apply kept_nil.
  - intros [= <- <- <-]. split; [done|]. split; [by rewrite app_nil_r|done].
Qed.

Lemma serverConfig_common w initial :
  serverConfig initial (commonOptions ++ certOption w) = wantedConfig flags w initial.
Proof.
  unfold serverConfig, commonOptions, certOption, wantedConfig.
  destruct (if_enableHTTP2 flags), w, initial; reflexivity.
Qed.
End installer_facts.

(** The servers of the installer have the certificates each was given, and
    HTTP/1.1 only unless HTTP/2 is enabled.  Their options are two slices made from one
    by [append], and the theorem needs that the array of a first element has no room for
    another: with room, both slices would share it. *)
Theorem installer_tls `{!CertLib} (grow : nat → nat) (flags : InstallerFlags) (o : InstallerOptions)
    (initial : TlsConfig) :
  (∀ n, (n <= grow n)%nat) → grow 1%nat = 1%nat → installerOptions grow flags = Some o →
  io_webhookCertWatcher o =
    wantedWatcher (if_webhookCertPath flags) (if_webhookCertName flags) (if_webhookCertKey flags) ∧
  io_metricsCertWatcher o =
    wantedWatcher (if_metricsCertPath flags) (if_metricsCertName flags) (if_metricsCertKey flags) ∧
  serverConfig initial (elements_ (io_arrays o) (io_webhookTLS o)) =
    wantedConfig flags (io_webhookCertWatcher o) initial ∧
  serverConfig initial (elements_ (io_arrays o) (io_metricsTLS o)) =
    wantedConfig flags (io_metricsCertWatcher o) initial.
Proof.
  intros Hgrow Hone. unfold installerOptions.
  destruct (tlsOpts_common grow flags Hone) as [Hc Hk]. destruct (tlsOpts grow flags) as [s h]. cbn [fst snd] in *.
  destruct (withCertificates grow _ _ _ s h) as [[[s1 w1] h1]|] eqn:E1; [|done]. cbn [mbind option_bind].
  destruct (withCertificates grow (if_metricsCertPath flags) _ _ s h1) as [[[s2 w2] h2]|] eqn:E2; [|done].
  cbn [mbind option_bind]. intros [= <-]. cbn [io_webhookCertWatcher io_metricsCertWatcher io_arrays io_webhookTLS io_metricsTLS].
  destruct (withCertificates_spec grow flags Hgrow Hone _ _ _ _ _ _ _ _ Hc Hk E1) as (-> & Hk1 & Hold1).
  assert (common flags s h1) as Hc1 by (split; [apply (Hold1 _ _ Hk)|apply Hc]).
  destruct (withCertificates_spec grow flags Hgrow Hone _ _ _ _ _ _ _ _ Hc1 (Hold1 _ _ Hk) E2) as (-> & Hk2 & Hold2).
  split_and!; [done|done|..].
  - rewrite (holds_elements _ _ _ (proj1 (Hold2 _ _ Hk1))). apply serverConfig_common.
  - rewrite (holds_elements _ _ _ (proj1 Hk2)). apply serverConfig_common.
Qed.

(** With room for a second element, the webhook server is given the certificates of
    the metrics server. *)
Lemma shared_array `{!CertLib} (grow : nat → nat) (room : nat) (flags : InstallerFlags) (o : InstallerOptions)
    (initial : TlsConfig) (w m : CertWatcher) :
  grow 1%nat = S (S room) → if_enableHTTP2 flags = false → installerOptions grow flags = Some o →
  io_webhookCertWatcher o = Some w → io_metricsCertWatcher o = Some m →
  tls_GetCertificate (serverConfig initial (elements_ (io_arrays o) (io_webhookTLS o))) = Some m.
Proof.
  intros Hg Hh. unfold installerOptions, tlsOpts, withCertificates. rewrite Hh.
  unfold Append at 1. cbn [sl_len sl_cap nilSlice Nat.ltb Nat.leb]. rewrite Hg.
  destruct (nonempty (if_webhookCertPath flags)).
  2:{ destruct (nonempty (if_metricsCertPath flags)); [destruct (newCertWatcher _)|]; cbn; intros Ho Hw; by simplify_eq/=. }
  destruct (newCertWatcher {| cw_cert := FilepathJoin (if_webhookCertPath flags) _; cw_key := _ |});
    [|cbn; by intros]. cbn [mbind option_bind].
  destruct (nonempty (if_metricsCertPath flags)); [|by cbn; intros Ho Hw Hm; simplify_eq/=].
  destruct (newCertWatcher _); [|cbn; by intros]. cbn. intros Ho Hw Hm; simplify_eq/=. reflexivity.
Qed.

(** ** Steps *)

Lemma runSteps_spec {T} (fails : T → bool) (steps : list T) :
  let '(completed, ending) := runSteps fails steps in
  (ending = Returned ∧ completed = steps ∨
   ∃ s rest, ending = Exit 1 ∧ steps = completed ++ s :: rest ∧ fails s = true) ∧
  Forall (λ s, fails s = false) completed.
Proof.
  induction steps as [|s steps IH]; cbn; [by auto|].
  destruct (fails s) eqn:Ef; [split; [right; by exists s, steps|done]|].
  destruct (runSteps fails steps) as [completed ending]. destruct IH as [[[-> ->]|(t & rest & -> & -> & Ht)] Hall].
  - split; [by left|by constructor].
  - split; [right; by exists t, rest|by constructor].
Qed.

Lemma runSteps_last {T} (fails : T → bool) l x completed ending :
  runSteps fails (l ++ [x]) = (completed, ending) → x ∉ l → x ∈ completed →
  completed = l ++ [x] ∧ ending = Returned.
Proof.
  revert completed; induction l as [|y l IH]; intros completed; cbn [app runSteps].
  - destruct (fails x); intros [= <- <-] _; [by intros ?%elem_of_nil|done].
  - destruct (fails y); [by intros [= <- _] _ ?%elem_of_nil|].
    destruct (runSteps fails (l ++ [x])) as [c e]. intros [= <- ->] [Hy Hn]%not_elem_of_cons [?|Hin]%elem_of_cons; [done|].
    by destruct (IH c eq_refl Hn Hin) as [-> ->].
Qed.

(** The operator reconciles nothing before its configuration is loaded, its
    controllers and the probes are set up, and the webhooks unless they are disabled. *)
Lemma operator_starts_last `{!FloatLib, !RequestLib} w flags fails o steps ending :
  operatorMain w flags fails = (o, steps, ending) → OStart ∈ steps →
  steps = operatorSteps (w_environ w) ∧ ending = Returned.
Proof.
  unfold operatorMain. destruct (configuredLogger w); [|by intros [= _ <- _] ?%elem_of_nil].
  destruct (startTelemetry _ _ _). destruct (runSteps fails _) as [completed e] eqn:Hr. intros [= _ -> ->].
  assert (∃ l, operatorSteps (w_environ w) = l ++ [OStart] ∧ OStart ∉ l) as (l & Hl & Hn).
  { unfold operatorSteps. case_match;
      match goal with |- ∃ l, ?L = _ ∧ _ => exists (removelast L) end; (split; [reflexivity|]);
      cbn; intros Hin; repeat (apply elem_of_cons in Hin as [?|Hin]; [done|]); by apply elem_of_nil in Hin. }
  rewrite Hl in *. by eapply runSteps_last.
Qed.

(** ** Readiness *)

(** A check answers with the error of the connection, every failure is logged, and a
    success is logged when it is the first, or the check before it failed. *)
Lemma readiness_logged (dials : list (option string)) (failed : bool) (i : nat) :
  readinessChecks failed dials !! i =
  (λ d : option string, (d, match d with
    | Some e => [WebhookNotReady e]
    | None =>
        let before := match i with O => failed | S j => bool_decide (is_Some (dials !! j ≫= id)) end in
        if before then [WebhookReady] else []
    end)) <$> dials !! i.
Proof.
  revert failed i; induction dials as [|d dials IH]; intros failed [|i]; cbn [readinessChecks]; try done.
  - by destruct d.
  - destruct d as [e|]; cbn; rewrite IH; cbn; destruct (dials !! i) as [[]|]; try done; cbn; do 2 f_equal; by destruct i.
Qed.

(** ** Samples *)

#[local] Instance sample_certs : CertLib := {|
  FilepathJoin := λ d f, d +:+ "/" +:+ f; newCertWatcher := λ _, true;
|}.

Definition sample_flags : InstallerFlags :=
  {| if_metricsAddr := ":8443"; if_probeAddr := ":8081"; if_enableLeaderElection := false; if_secureMetrics := true;
     if_webhookCertPath := "/webhook"; if_webhookCertName := "tls.crt"; if_webhookCertKey := "tls.key";
     if_metricsCertPath := "/metrics"; if_metricsCertName := "tls.crt"; if_metricsCertKey := "tls.key";
     if_enableHTTP2 := false |}.

Lemma installer_tls_witness :
  ∃ o, installerOptions id sample_flags = Some o ∧
    serverConfig {| tls_NextProtos := []; tls_GetCertificate := None |} (elements_ (io_arrays o) (io_webhookTLS o)) =
    {| tls_NextProtos := ["http/1.1"];
       tls_GetCertificate := Some {| cw_cert := "/webhook/tls.crt"; cw_key := "/webhook/tls.key" |} |}.
Proof.
  eexists. split; [reflexivity|].
  match goal with |- context [io_arrays ?o] =>
    exact (proj1 (proj2 (proj2 (installer_tls id sample_flags o {| tls_NextProtos := []; tls_GetCertificate := None |}
      (λ n, le_n n) eq_refl eq_refl))))
  end.
Defined.
