(* ===== verification/CliHttp.v ===== *)
(** * [pkg/cmd/cmd.go], [pkg/cmd/config/connectivity.go]: the HTTP calls of the command line

    A REST configuration, what the client library makes of it, the errors the
    commands exchange, and the tests of a host.  [net/url], [net/http] and
    [k8s.io/client-go/rest] are parameters. *)
From S2P Require Import Prelude GoLib GoStrings.

(** ** Libraries *)

(** What the commands read of a parsed URL. *)
Record URL := { u_Scheme : string; u_Host : string; u_Hostname : string }.

Class URLParser := { URLParse : string → option URL }.

(** [rest.Config]. *)
Record RESTConfig := {
  rest_Host : string; rest_Insecure : bool; rest_BearerToken : string; rest_CAData : option string;
}.

(** What a call gives: an error of the transport, or a status and a body, whose
    reading may fail too. *)
Inductive HTTPAnswer :=
| HTTPFailed (e : string)
| HTTPResponse (status : Z) (body : string) (readError : option string).

(** [rest.HTTPClientFor] and [http.NewRequest] give the text of an error; [ClientDo]
    is a GET with the token sent besides the configuration. *)
Class HTTPLib := {
  HTTPClientFor : RESTConfig → option string;
  NewRequest : string → option string;
  ClientDo : RESTConfig → string → string → HTTPAnswer;
}.

(** ** [cmd.go] *)

Inductive API := Kubernetes | KubeArchive.

Record APIError := {
  err_StatusCode : Z; err_URL : string; err_Message : string; err_Body : string;
}.

(** ** [connectivity.go] *)

(** [None] is a nil error. *)
Class ConnectivityTester := {
  TestKubeArchiveConnectivity : string → bool → string → option string → option string;
  TestKubeArchiveLivezEndpoint : string → bool → option string → option string;
}.

Section tester.
  Context `{!HTTPLib}.

(** The client of a configuration asks a path of its host; errors before the
    answer are texts. *)
Definition request (restConfig : RESTConfig) (path token : string) : (Z * string) + string :=
  match HTTPClientFor restConfig with
  | Some e => inr ("failed to create HTTP client: " +:+ e)
  | None =>
      let url := TrimRightByte "/" (rest_Host restConfig) +:+ path in
      match NewRequest url with
      | Some e => inr ("failed to create request: " +:+ e)
      | None =>
          match ClientDo restConfig url token with
          | HTTPFailed e => inr ("connection failed: " +:+ e)
          | HTTPResponse status body _ => inl (status, body)
          end
      end
  end.

Definition defaultTestKubeArchiveConnectivity (host : string) (tlsInsecure : bool) (token : string)
    (caData : option string) : option string :=
  match request {| rest_Host := host; rest_Insecure := tlsInsecure; rest_BearerToken := token;
                   rest_CAData := caData |} "/api/v1/pods?limit=1" token with
  | inr e => Some e
  | inl (status, body) =>
      if (status =? StatusOK)%Z || (status =? StatusNotFound)%Z then None
      else if (status =? StatusUnauthorized)%Z then
        if Contains body "authentication failed" then Some "authentication failed" else None
      else
        let e := "server returned status " +:+ FormatInt status in
        Some (if nonempty body then e +:+ ": " +:+ body else e)
  end.

Definition defaultTestKubeArchiveLivezEndpoint (host : string) (tlsInsecure : bool)
    (caData : option string) : option string :=
  match request {| rest_Host := host; rest_Insecure := tlsInsecure; rest_BearerToken := "";
                   rest_CAData := caData |} "/livez" "" with
  | inr e => Some e
  | inl (status, _) =>
      if (status =? StatusOK)%Z then None
      else Some ("server returned status " +:+ FormatInt status)
  end.

Definition DefaultConnectivityTester : ConnectivityTester := {|
  TestKubeArchiveConnectivity := defaultTestKubeArchiveConnectivity;
  TestKubeArchiveLivezEndpoint := defaultTestKubeArchiveLivezEndpoint;
|}.
End tester.
