(* ===== verification/CliConfig.v ===== *)
(** * [pkg/cmd/config]: the configuration file of the command line

    One entry per cluster, the current one being that of the server the
    kubeconfig names.  The manager of [persistent.go] and the commands [set],
    [unset], [remove] and [list] over it; YAML and the file system are
    parameters.  An entry of the manager is a pointer the commands modify: the
    map is updated at the same key. *)
From S2P Require Import Prelude GoLib GoStrings CliHttp.

(** ** [persistent.go] *)

Record ClusterConfig := {
  ClusterName : string; ServerURL : string; Host : string; TLSInsecure : bool;
  CertPath : string; Token : string; Current : bool;
}.

#[export] Instance ClusterConfig_eq_dec : EqDecision ClusterConfig.
Proof. solve_decision. Defined.

Definition setClusterName (n : string) (c : ClusterConfig) : ClusterConfig :=
  {| ClusterName := n; ServerURL := ServerURL c; Host := Host c; TLSInsecure := TLSInsecure c;
     CertPath := CertPath c; Token := Token c; Current := Current c |}.
Definition setCurrent (b : bool) (c : ClusterConfig) : ClusterConfig :=
  {| ClusterName := ClusterName c; ServerURL := ServerURL c; Host := Host c;
     TLSInsecure := TLSInsecure c; CertPath := CertPath c; Token := Token c; Current := b |}.
Definition withHost (h : string) (c : ClusterConfig) : ClusterConfig :=
  {| ClusterName := ClusterName c; ServerURL := ServerURL c; Host := h;
     TLSInsecure := TLSInsecure c; CertPath := CertPath c; Token := Token c; Current := Current c |}.
Definition withTLS (b : bool) (c : ClusterConfig) : ClusterConfig :=
  {| ClusterName := ClusterName c; ServerURL := ServerURL c; Host := Host c;
     TLSInsecure := b; CertPath := CertPath c; Token := Token c; Current := Current c |}.
Definition withCertPath (p : string) (c : ClusterConfig) : ClusterConfig :=
  {| ClusterName := ClusterName c; ServerURL := ServerURL c; Host := Host c;
     TLSInsecure := TLSInsecure c; CertPath := p; Token := Token c; Current := Current c |}.
Definition withToken (t : string) (c : ClusterConfig) : ClusterConfig :=
  {| ClusterName := ClusterName c; ServerURL := ServerURL c; Host := Host c;
     TLSInsecure := TLSInsecure c; CertPath := CertPath c; Token := t; Current := Current c |}.

(** What YAML keeps of an entry: the fields with the tag [-] are left out. *)
Definition persisted (c : ClusterConfig) : ClusterConfig :=
  setClusterName "" (setCurrent false c).

(** The key [clusters] of a parsed file: absent, null, or a map whose values may be
    null. *)
Inductive YamlClusters :=
| NoClusters
| NullClusters
| SomeClusters (m : gmap string (option ClusterConfig)).

Class ConfigYaml := {
  Unmarshal : string → option YamlClusters;
  Marshal : option (gmap string ClusterConfig) → option string;
  Unmarshal_Marshal m s : Marshal (Some m) = Some s →
    Unmarshal s = Some (SomeClusters ((Some ∘ persisted) <$> m));
  Unmarshal_untagged s m k c : Unmarshal s = Some (SomeClusters m) → m !! k = Some (Some c) →
    persisted c = c;
}.

(** The file: [os.Stat] finds it or not, [os.ReadFile] may fail. *)
Inductive ConfigFile := Missing | Unreadable | Contents (s : string).

(** The calls of a save that fail; a failed write leaves the file as it may be. *)
Inductive SaveFault := NoSaveFault | MkdirFails | WriteFails (rest : ConfigFile).

(** A manager.  A nil map is [None]. *)
Record FileConfigManager := {
  Clusters : option (gmap string ClusterConfig); current : string; k8sHost : string;
}.

Inductive ConfigError :=
| FailedToReadConfig | FailedToParseConfig
| FailedToCreateDirectory | FailedToMarshal | FailedToWrite
| CurrentNotFound | NoServerURL | InvalidServerURL | NoHostname
| NoNameForRemoval | ClusterNotFound
| CertPathEmpty | HomeDirFails | CertUnreadable
| MissingKey | TooManyArguments | MissingValue | CannotSet | UnknownKey
| InvalidURL | NoScheme | NoHost | CannotConnect (e : string)
| InvalidBoolean | TokenEmpty | InvalidJWT | TokenRejected (e : string) | CannotUnsetHost.

Definition NewFileConfigManager : FileConfigManager :=
  {| Clusters := Some ∅; current := ""; k8sHost := "" |}.

Definition clustersOf (cm : FileConfigManager) : gmap string ClusterConfig :=
  default ∅ (Clusters cm).

Definition setClusters (m : option (gmap string ClusterConfig)) (cm : FileConfigManager)
    : FileConfigManager :=
  {| Clusters := m; current := current cm; k8sHost := k8sHost cm |}.

(** A step of a command: the manager, the file, and the outcome. *)
Definition ConfigStep (A : Type) : Type :=
  FileConfigManager → ConfigFile → outcome ConfigError A * FileConfigManager * ConfigFile.

Section persistent.
  Context `{!ConfigYaml, !URLParser, !MapRange}.

(** The loop of [LoadConfig] over the entries; a null one is dereferenced. *)
Definition loadEntry (host : string) (st : outcome ConfigError (gmap string ClusterConfig * string))
    (e : string * option ClusterConfig) : outcome ConfigError (gmap string ClusterConfig * string) :=
  '(m, cur) ← st;
  match e.2 with
  | None => Panic
  | Some cluster =>
      let cluster := setClusterName e.1 cluster in
      if String.eqb (ServerURL cluster) host
      then Ok (<[e.1 := setCurrent true cluster]> m, e.1)
      else Ok (<[e.1 := cluster]> m, cur)
  end.

Definition present (m : gmap string ClusterConfig) : gmap string (option ClusterConfig) := Some <$> m.

(** [yaml.Unmarshal] into the configuration of a manager. *)
Definition unmarshalInto (y : YamlClusters) (m : option (gmap string ClusterConfig))
    : option (gmap string (option ClusterConfig)) :=
  match y with
  | NoClusters => present <$> m
  | NullClusters => None
  | SomeClusters p => Some (p ∪ default ∅ (present <$> m))
  end.

Definition LoadConfig (host : string) : ConfigStep () := λ cm file,
  let cm := {| Clusters := Clusters cm; current := current cm; k8sHost := host |} in
  match file with
  | Missing => (Ok (), cm, file)
  | Unreadable => (Err FailedToReadConfig, cm, file)
  | Contents data =>
      match Unmarshal data with
      | None => (Err FailedToParseConfig, cm, file)
      | Some y =>
          match unmarshalInto y (Clusters cm) with
          | None => (Ok (), setClusters None cm, file)
          | Some m =>
              match foldl (loadEntry host) (Ok (∅, current cm)) (range (map_to_list m)) with
              | Ok (m, cur) =>
                  (Ok (), {| Clusters := Some m; current := cur; k8sHost := host |}, file)
              | Err e => (Err e, cm, file)
              | Panic => (Panic, cm, file)
              end
          end
      end
  end.

Definition SaveConfig (fault : SaveFault) : ConfigStep () := λ cm file,
  match fault with
  | MkdirFails => (Err FailedToCreateDirectory, cm, file)
  | _ =>
      match Marshal (Clusters cm) with
      | None => (Err FailedToMarshal, cm, file)
      | Some data =>
          match fault with
          | WriteFails rest => (Err FailedToWrite, cm, rest)
          | _ => (Ok (), cm, Contents data)
          end
      end
  end.

Definition GetCurrentClusterConfig (cm : FileConfigManager) : outcome ConfigError ClusterConfig :=
  match clustersOf cm !! current cm with
  | Some config => Ok config
  | None => Err CurrentNotFound
  end.

(** [for slices.Contains(names, generatedName)]. *)
Fixpoint freshName (fuel : nat) (names : list string) (generatedName : string) : option string :=
  if bool_decide (generatedName ∈ names) then
    match fuel with
    | O => None
    | S fuel => freshName fuel names (generatedName +:+ "-alt")
    end
  else Some generatedName.

(** The name a host suggests. *)
Definition suggestedName (hostname : string) : string :=
  let generatedName :=
    if String.eqb hostname "localhost" || String.eqb hostname "127.0.0.1"
    then "localhost" else hostname in
  let parts := Split "." hostname in
  if (3 <=? length parts)%nat && String.eqb (default "" (parts !! 0)) "api"
       && String.eqb (default "" (parts !! (length parts - 2))) "openshiftapps"
  then default "" (parts !! 1) else generatedName.

Definition clusterNames (cm : FileConfigManager) : list string :=
  (λ e, ClusterName e.2) <$> range (map_to_list (clustersOf cm)).

(** [freshName] is given one round more than there are names: [freshName_total]. *)
Definition GenerateClusterName (cm : FileConfigManager) : outcome ConfigError string :=
  if String.eqb (k8sHost cm) "" then Err NoServerURL
  else
    match URLParse (k8sHost cm) with
    | None => Err InvalidServerURL
    | Some parsedURL =>
        let hostname := u_Hostname parsedURL in
        if String.eqb hostname "" then Err NoHostname
        else
          let names := clusterNames cm in
          match freshName (length names) names (suggestedName hostname) with
          | Some name => Ok name
          | None => Panic
          end
    end.

Definition RemoveClusterConfigByName (clusterName : string) (cm : FileConfigManager)
    : outcome ConfigError FileConfigManager :=
  if String.eqb clusterName "" then Err NoNameForRemoval
  else
    match clustersOf cm !! clusterName with
    | Some _ => Ok (setClusters (delete clusterName <$> Clusters cm) cm)
    | None => Err ClusterNotFound
    end.

(** A write to a nil map panics. *)
Definition AddCluster (cluster : ClusterConfig) (cm : FileConfigManager)
    : outcome ConfigError FileConfigManager :=
  match Clusters cm with
  | None => Panic
  | Some m => Ok (setClusters (Some (<[ClusterName cluster := cluster]> m)) cm)
  end.
End persistent.

(** ** [cert.go] *)

(** The home directory and the files named by paths; both may fail, and no file has an
    empty name. *)
Class CertFiles := {
  UserHomeDir : option string;
  ReadCertFile : string → option string;
  ReadCertFile_empty : ReadCertFile "" = None;
}.

(** The expanded path and the certificate. *)
Definition LoadCertData `{!CertFiles} (certPath : string)
    : outcome ConfigError (string * string) :=
  match certPath with
  | EmptyString => Err CertPathEmpty
  | String c rest =>
      let expanded :=
        if Ascii.eqb c "~" then (λ homeDir, homeDir +:+ rest) <$> UserHomeDir else Some certPath in
      match expanded with
      | None => Err HomeDirFails
      | Some expandedPath =>
          match ReadCertFile expandedPath with
          | None => Err CertUnreadable
          | Some certData => Ok (expandedPath, certData)
          end
      end
  end.

(** ** [config_set.go] *)

Section commands.
  Context `{!ConfigYaml, !URLParser, !MapRange, !ConnectivityTester, !CertFiles}.

(** The key and the value of the arguments. *)
Definition completeSet (args : list string) : outcome ConfigError (string * string) :=
  match args with
  | [] => Err MissingKey
  | [key] =>
      if String.eqb key "insecure" || String.eqb key "insecure-skip-tls-verify"
      then Ok (key, "true") else Err MissingValue
  | [key; value] => Ok (key, value)
  | _ => Err TooManyArguments
  end.

(** The end of each setter: the entry is modified, then the file is written. *)
Definition storeEntry (fault : SaveFault) (key : string) (c : ClusterConfig) : ConfigStep () :=
  λ cm file, SaveConfig fault (setClusters (insert key c <$> Clusters cm) cm) file.

Definition setHost (fault : SaveFault) (key : string) (clusterConfig : ClusterConfig)
    (hostURL : string) : ConfigStep () := λ cm file,
  match URLParse hostURL with
  | None => (Err InvalidURL, cm, file)
  | Some parsedURL =>
      if String.eqb (u_Scheme parsedURL) "" then (Err NoScheme, cm, file)
      else if String.eqb (u_Host parsedURL) "" then (Err NoHost, cm, file)
      else
        match TestKubeArchiveLivezEndpoint hostURL true None with
        | Some e => (Err (CannotConnect e), cm, file)
        | None => storeEntry fault key (withHost hostURL clusterConfig) cm file
        end
  end.

Definition setCertificateAuthority (fault : SaveFault) (key : string)
    (clusterConfig : ClusterConfig) (certPath : string) : ConfigStep () := λ cm file,
  if String.eqb certPath "" then (Err CertPathEmpty, cm, file)
  else
    match LoadCertData certPath with
    | Err e => (Err e, cm, file)
    | Panic => (Panic, cm, file)
    | Ok (expandedCertPath, certData) =>
        match TestKubeArchiveLivezEndpoint (Host clusterConfig) false (Some certData) with
        | Some e => (Err (CannotConnect e), cm, file)
        | None =>
            storeEntry fault key (withTLS false (withCertPath expandedCertPath clusterConfig)) cm file
        end
    end.

Definition parseInsecure (value : string) : option bool :=
  let lowerValue := ToLower value in
  if bool_decide (lowerValue ∈ ["true"; "yes"; "1"]) then Some true
  else if bool_decide (lowerValue ∈ ["false"; "no"; "0"]) then Some false
  else None.

Definition setInsecure (fault : SaveFault) (key : string) (clusterConfig : ClusterConfig)
    (value : string) : ConfigStep () := λ cm file,
  match parseInsecure value with
  | None => (Err InvalidBoolean, cm, file)
  | Some insecure =>
      let certData :=
        if insecure && nonempty (CertPath clusterConfig)
        then match ReadCertFile (CertPath clusterConfig) with
             | Some d => Ok (Some d)
             | None => Err CertUnreadable
             end
        else Ok None in
      match certData with
      | Err e => (Err e, cm, file)
      | Panic => (Panic, cm, file)
      | Ok certData =>
          match TestKubeArchiveLivezEndpoint (Host clusterConfig) insecure certData with
          | Some e => (Err (CannotConnect e), cm, file)
          | None => storeEntry fault key (withTLS insecure clusterConfig) cm file
          end
      end
  end.

Definition setToken (fault : SaveFault) (key : string) (clusterConfig : ClusterConfig)
    (token : string) : ConfigStep () := λ cm file,
  if String.eqb token "" then (Err TokenEmpty, cm, file)
  else if negb (length (Split "." token) =? 3)%nat then (Err InvalidJWT, cm, file)
  else
    match (if nonempty (Host clusterConfig)
           then TestKubeArchiveConnectivity (Host clusterConfig) true token None else None) with
    | Some e => (Err (TokenRejected e), cm, file)
    | None => storeEntry fault key (withToken token clusterConfig) cm file
    end.

(** The entry [runSet] works on, its key, and the manager once it is there. *)
Definition currentOrNew (key : string) (cm : FileConfigManager)
    : outcome ConfigError (string * ClusterConfig * FileConfigManager) :=
  match GetCurrentClusterConfig cm with
  | Ok clusterConfig => Ok (current cm, clusterConfig, cm)
  | Panic => Panic
  | Err _ =>
      if negb (String.eqb key "host") then Err CannotSet
      else
        clusterKey ← GenerateClusterName cm;
        let clusterConfig :=
          {| ClusterName := clusterKey; ServerURL := k8sHost cm; Host := ""; TLSInsecure := false;
             CertPath := ""; Token := ""; Current := true |} in
        cm ← AddCluster clusterConfig cm;
        Ok (clusterKey, clusterConfig, cm)
  end.

(** The switch on the key. *)
Definition setKey (fault : SaveFault) (key value entry : string) (clusterConfig : ClusterConfig)
    : ConfigStep () := λ cm file,
  if String.eqb key "host" then setHost fault entry clusterConfig value cm file
  else if String.eqb key "ca" || String.eqb key "certificate-authority"
  then setCertificateAuthority fault entry clusterConfig value cm file
  else if String.eqb key "insecure" || String.eqb key "insecure-skip-tls-verify"
  then setInsecure fault entry clusterConfig value cm file
  else if String.eqb key "token" then setToken fault entry clusterConfig value cm file
  else (Err UnknownKey, cm, file).

Definition runSet (fault : SaveFault) (key value : string) : ConfigStep () := λ cm file,
  match currentOrNew key cm with
  | Err e => (Err e, cm, file)
  | Panic => (Panic, cm, file)
  | Ok (entry, clusterConfig, cm) => setKey fault key value entry clusterConfig cm file
  end.

(** ** [config_unset.go], [config_remove.go], [config_list.go] *)

Definition runUnset (fault : SaveFault) (key : string) : ConfigStep () := λ cm file,
  match GetCurrentClusterConfig cm with
  | Err e => (Err e, cm, file)
  | Panic => (Panic, cm, file)
  | Ok clusterConfig =>
      if String.eqb key "ca" || String.eqb key "certificate-authority"
      then storeEntry fault (current cm) (withCertPath "" clusterConfig) cm file
      else if String.eqb key "token"
      then storeEntry fault (current cm) (withToken "" clusterConfig) cm file
      else if String.eqb key "host" then (Err CannotUnsetHost, cm, file)
      else (Err UnknownKey, cm, file)
  end.

(** The entry to remove, the current one without a name. *)
Definition entryToRemove (clusterName : string) (cm : FileConfigManager) : outcome ConfigError ClusterConfig :=
  if String.eqb clusterName "" then GetCurrentClusterConfig cm
  else match clustersOf cm !! clusterName with
       | Some c => Ok c
       | None => Err ClusterNotFound
       end.

(** [confirmed] is the answer to the prompt. *)
Definition runRemove (fault : SaveFault) (clusterName : string) (confirmed : bool)
    : ConfigStep () := λ cm file,
  match entryToRemove clusterName cm with
  | Err e => (Err e, cm, file)
  | Panic => (Panic, cm, file)
  | Ok cluster =>
      if negb confirmed then (Ok (), cm, file)
      else
        match RemoveClusterConfigByName (ClusterName cluster) cm with
        | Err e => (Err e, cm, file)
        | Panic => (Panic, cm, file)
        | Ok cm => SaveConfig fault cm file
        end
  end.

(** The entries shown, in the order of the map. *)
Definition runList (cm : FileConfigManager) : list ClusterConfig :=
  snd <$> range (map_to_list (clustersOf cm)).

(** [config.go]: what precedes each command, in a process of its own. *)
Definition withConfig {A} (host : string) (command : ConfigStep A) : ConfigStep A := λ cm file,
  match LoadConfig host cm file with
  | (Ok _, cm, file) => command cm file
  | (Err e, cm, file) => (Err e, cm, file)
  | (Panic, cm, file) => (Panic, cm, file)
  end.

Definition runProcess {A} (host : string) (command : ConfigStep A) (file : ConfigFile)
    : outcome ConfigError A * FileConfigManager * ConfigFile :=
  withConfig host command NewFileConfigManager file.
End commands.
