(* ===== verification/CliConfigFacts.v ===== *)
(** * The configuration file of the command line: its invariant and its commands

    A command runs in a process of its own: it loads the file, works on the
    manager, and writes the file.  Seen from outside, the file holds one setting
    per server. *)
From S2P Require Import Prelude GoLib GoStrings CliHttp CliConfig.

(** ** What a file holds *)

Section stored.
  Context `{!ConfigYaml, !URLParser, !MapRange}.

(** The entries of a file, as YAML keeps them; a file may be missing, or have none. *)
Definition stored (file : ConfigFile) (m : gmap string ClusterConfig) : Prop :=
  match file with
  | Missing => m = ∅
  | Unreadable => False
  | Contents s => Unmarshal s = Some (SomeClusters (present m)) ∨ Unmarshal s = Some NoClusters ∧ m = ∅
  end.

(** One entry per server, and no entry without a name. *)
Record fileInv (m : gmap string ClusterConfig) : Prop := {
  inv_server k1 k2 c1 c2 : m !! k1 = Some c1 → m !! k2 = Some c2 →
    ServerURL c1 = ServerURL c2 → k1 = k2;
  inv_named : m !! "" = None;
}.

(** An entry of a file once loaded. *)
Definition loaded (host k : string) (c : ClusterConfig) : ClusterConfig :=
  setCurrent (String.eqb (ServerURL c) host) (setClusterName k c).

(** The entry of a server. *)
Definition entryOf (m : gmap string ClusterConfig) (server : string)
    : option (string * ClusterConfig) :=
  head (filter (λ e, ServerURL e.2 = server) (map_to_list m)).

Lemma entryOf_Some m server k c :
  entryOf m server = Some (k, c) → m !! k = Some c ∧ ServerURL c = server.
Proof.
  unfold entryOf. intros Hh%head_Some_elem_of.
  apply list_elem_of_filter in Hh as [Hs Hin]. by apply elem_of_map_to_list in Hin.
Qed.

Lemma entryOf_None m server :
  entryOf m server = None ↔ ∀ k c, m !! k = Some c → ServerURL c ≠ server.
Proof.
  unfold entryOf. rewrite head_None. split.
  - intros Hf k c Hk Hs. assert ((k, c) ∈ filter (λ e : string * ClusterConfig, ServerURL e.2 = server)
      (map_to_list m)) as Hin by (by apply list_elem_of_filter; rewrite elem_of_map_to_list).
    rewrite Hf in Hin. by apply not_elem_of_nil in Hin.
  - intros Hn. apply filter_none. intros [k c] Hin%elem_of_map_to_list. by apply (Hn k).
Qed.

Lemma entryOf_unique m server k c :
  fileInv m → m !! k = Some c → ServerURL c = server → entryOf m server = Some (k, c).
Proof.
  intros Hi Hk Hs. destruct (entryOf m server) as [[k' c']|] eqn:E.
  - apply entryOf_Some in E as [Hk' Hs']. assert (k' = k) as ->.
    { eapply inv_server; [done|done|done|congruence]. }
    congruence.
  - by apply (proj1 (entryOf_None m server) E k c) in Hk.
Qed.

(** *** Loading *)

Lemma loadEntry_some host m cur k c :
  Current c = false →
  loadEntry host (Ok (m, cur)) (id (k, c).1, Some (k, c).2) =
  Ok (<[k := loaded host k c]> m, if String.eqb (ServerURL c) host then k else cur).
Proof.
  intros Hc. unfold loadEntry, loaded. cbn.
  destruct (String.eqb (ServerURL c) host); [done|]. destruct c; cbn in *. by rewrite Hc.
Qed.

Lemma loadEntry_fold host l m cur :
  (∀ k, k ∈ l.*1 → m !! k = None) → NoDup l.*1 → Forall (λ e, Current e.2 = false) l →
  ∃ m' cur',
    foldl (loadEntry host) (Ok (m, cur)) (prod_map id Some <$> l) = Ok (m', cur') ∧
    (∀ k, m' !! k = match m !! k with
                    | Some c => Some c
                    | None => loaded host k <$> (list_to_map l : gmap string ClusterConfig) !! k
                    end) ∧
    ((∃ k c, (k, c) ∈ l ∧ ServerURL c = host ∧ cur' = k) ∨
     (cur' = cur ∧ ∀ k c, (k, c) ∈ l → ServerURL c ≠ host)).
Proof.
  revert m cur. induction l as [|[k c] l IH]; intros m cur Hfresh Hnd Hcur.
  - exists m, cur. split; [done|]. split.
    + intros k. rewrite list_to_map_nil, lookup_empty. by destruct (m !! k).
    + right. split; [done|]. intros k c []%not_elem_of_nil.
  - apply NoDup_cons in Hnd as [Hk Hnd]. cbn [fmap list_fmap prod_map foldl].
    set (cur1 := if String.eqb (ServerURL c) host then k else cur).
    apply Forall_cons in Hcur as [Hc0 Hcur].
    rewrite loadEntry_some by done. fold cur1.
    destruct (IH (<[k := loaded host k c]> m) cur1) as (m' & cur' & Hf & Hm & Hc).
    { intros k' Hk'. rewrite lookup_insert_ne by (intros ->; done). apply Hfresh. by right. }
    { done. }
    { done. }
    exists m', cur'. split; [done|]. split.
    + intros k'. rewrite Hm. rewrite list_to_map_cons. destruct (decide (k' = k)) as [->|Hne].
      * rewrite !lookup_insert_eq. rewrite (Hfresh k) by (by left). done.
      * rewrite !lookup_insert_ne by done. done.
    + destruct Hc as [(k' & c' & Hin & Hs & ->)|[-> Hn]].
      * left. exists k', c'. split; [by right|done].
      * destruct (String.eqb_spec (ServerURL c) host) as [Hs|Hs]; unfold cur1.
        -- left. exists k, c. split; [by left|done].
        -- right. split; [done|]. intros k' c' [[= -> ->]|Hin]%elem_of_cons; [done|by eapply Hn].
Qed.

Lemma stored_persisted file m k c : stored file m → m !! k = Some c → persisted c = c.
Proof.
  destruct file as [| |s]; cbn; [|done|].
  - intros ->. by rewrite lookup_empty.
  - intros [Hu|[_ ->]]; [|by rewrite lookup_empty]. intros Hk.
    eapply Unmarshal_untagged; [done|]. unfold present. by rewrite lookup_fmap, Hk.
Qed.

Lemma stored_Current file m k c : stored file m → m !! k = Some c → Current c = false.
Proof. intros Hs Hk. by rewrite <-(stored_persisted file m k c). Qed.

(** What [LoadConfig] gives to a new process. *)
Lemma LoadConfig_stored host file m :
  stored file m →
  ∃ cm, LoadConfig host NewFileConfigManager file = (Ok (), cm, file) ∧
    (∃ m', Clusters cm = Some m' ∧ ∀ k, m' !! k = loaded host k <$> m !! k) ∧
    k8sHost cm = host ∧
    ((∃ k c, m !! k = Some c ∧ ServerURL c = host ∧ current cm = k) ∨
     (current cm = "" ∧ ∀ k c, m !! k = Some c → ServerURL c ≠ host)).
Proof.
  intros Hs. destruct file as [| |s]; [|done|].
  - cbn in Hs. subst m. eexists. split; [done|]. split; [|split; [done|]].
    + exists ∅. split; [done|]. intros k. by rewrite !lookup_empty.
    + right. split; [done|]. intros k c. by rewrite lookup_empty.
  - cbn in Hs. unfold LoadConfig. cbn [NewFileConfigManager Clusters current k8sHost].
    assert (∃ y, Unmarshal s = Some y ∧ unmarshalInto y (Some ∅) = Some (present m)) as (y & -> & ->).
    { destruct Hs as [Hs|[Hs ->]]; (eexists; split; [exact Hs|]); [|done]. cbn. unfold present.
      rewrite fmap_empty. by rewrite (right_id_L ∅ (∪)). }
    assert (∃ l, range (map_to_list (present m)) = prod_map id Some <$> l ∧ l ≡ₚ map_to_list m)
      as (l & -> & Hp).
    { assert (range (map_to_list (present m)) ≡ₚ prod_map id Some <$> map_to_list m) as Hr
        by (by rewrite range_perm, <-map_to_list_fmap).
      apply Permutation_map_inv in Hr as (l & -> & Hl). by exists l. }
    destruct (loadEntry_fold host l ∅ "") as (m' & cur' & -> & Hm & Hc).
    { intros k _. apply lookup_empty. }
    { rewrite Hp. apply NoDup_fst_map_to_list. }
    { rewrite Hp, Forall_forall. intros [k c] Hk%elem_of_map_to_list. by eapply (stored_Current (Contents s)). }
    eexists. split; [done|]. split; [|split; [done|]].
    + exists m'. split; [done|]. intros k. rewrite Hm, lookup_empty.
      rewrite (list_to_map_proper l (map_to_list m)); [by rewrite list_to_map_to_list| |done].
      rewrite Hp. apply NoDup_fst_map_to_list.
    + cbn [current]. destruct Hc as [(k & c & Hin & Hs' & ->)|[-> Hn]].
      * left. exists k, c. split; [|done]. rewrite Hp in Hin. by apply elem_of_map_to_list.
      * right. split; [done|]. intros k c Hk. apply (Hn k). rewrite Hp. by apply elem_of_map_to_list.
Qed.

Lemma SaveConfig_stored cm file m cm' file' :
  Clusters cm = Some m → SaveConfig NoSaveFault cm file = (Ok (), cm', file') →
  cm' = cm ∧ stored file' (persisted <$> m).
Proof.
  unfold SaveConfig. intros Hm. rewrite Hm.
  destruct (Marshal (Some m)) as [data|] eqn:E; intros [= <- <-]. split; [done|].
  cbn. left. rewrite (Unmarshal_Marshal _ _ E). unfold present. by rewrite <-map_fmap_compose.
Qed.

(** *** A name that is free *)

Lemma freshName_total fuel names g :
  length (filter (λ n, String.length g ≤ String.length n) names) ≤ fuel →
  ∃ n, freshName fuel names g = Some n ∧ n ∉ names ∧ (n = "" → g = "").
Proof.
  revert g. induction fuel as [|fuel IH]; intros g Hf; cbn [freshName].
  all: destruct (bool_decide (g ∈ names)) eqn:E; [|exists g; apply bool_decide_eq_false in E; done].
  all: apply bool_decide_eq_true in E.
  all: assert (g ∈ filter (λ n, String.length g ≤ String.length n) names) as Hg
    by (apply list_elem_of_filter; split; [lia|done]).
  - destruct (filter _ names); [by apply not_elem_of_nil in Hg|cbn in Hf; lia].
  - destruct (IH (g +:+ "-alt")) as (n & Hn & Hfree & Hne).
    + enough (length (filter (λ n, String.length (g +:+ "-alt") ≤ String.length n) names) <
        length (filter (λ n, String.length g ≤ String.length n) names)) by lia.
      rewrite string_length_app. clear -E. cbn [String.length].
      induction names as [|x names IH]; [by apply not_elem_of_nil in E|].
      assert (length (filter (λ n, String.length g + 4 ≤ String.length n) names) ≤
        length (filter (λ n, String.length g ≤ String.length n) names)) as Hle.
      { clear. induction names as [|x names IH]; [done|]. rewrite !filter_cons.
        repeat case_decide; cbn [length]; lia. }
      rewrite !filter_cons. apply elem_of_cons in E as [<-|E].
      * rewrite (decide_True _ _ (Nat.le_refl _)), decide_False by lia. cbn [length]. lia.
      * specialize (IH E). repeat case_decide; cbn [length]; lia.
    + exists n. split; [done|]. split; [done|]. intros Hn0. specialize (Hne Hn0).
      apply (f_equal String.length) in Hne. rewrite string_length_app in Hne. cbn in Hne. lia.
Qed.

Lemma GenerateClusterName_fresh cm :
  (∀ k c, clustersOf cm !! k = Some c → ClusterName c = k) →
  match GenerateClusterName cm with
  | Ok name => clustersOf cm !! name = None ∧
      (∃ u, URLParse (k8sHost cm) = Some u ∧ (suggestedName (u_Hostname u) ≠ "" → name ≠ ""))
  | Err e => e = NoServerURL ∨ e = InvalidServerURL ∨ e = NoHostname
  | Panic => False
  end.
Proof.
  intros Hwf. unfold GenerateClusterName. case_eqb; [by left|].
  destruct (URLParse (k8sHost cm)) as [u|] eqn:Eu; [|by auto].
  case_eqb; [by auto|].
  destruct (freshName_total (length (clusterNames cm)) (clusterNames cm) (suggestedName (u_Hostname u)))
    as (n & -> & Hn & Hne); [apply filter_length_le|]. split.
  - destruct (clustersOf cm !! n) as [c|] eqn:E'; [|done]. exfalso. apply Hn.
    unfold clusterNames. apply list_elem_of_fmap. exists (n, c). split; [symmetry; by apply Hwf|].
    rewrite range_perm. by apply elem_of_map_to_list.
  - exists u. split; [done|]. intros Hs Hn0. by apply Hs, Hne.
Qed.
End stored.

(** ** What the commands do to a file *)

Section commands.
  Context `{!ConfigYaml, !URLParser, !MapRange, !ConnectivityTester, !CertFiles}.

(** The change a key makes to an entry, and what was tested before. *)
Inductive setEffect (value : string) (old : ClusterConfig) : string → ClusterConfig → Prop :=
| EffectHost u :
    URLParse value = Some u → u_Scheme u ≠ "" → u_Host u ≠ "" →
    TestKubeArchiveLivezEndpoint value true None = None →
    setEffect value old "host" (withHost value old)
| EffectCA key path data :
    key ∈ ["ca"; "certificate-authority"] → LoadCertData value = Ok (path, data) →
    TestKubeArchiveLivezEndpoint (Host old) false (Some data) = None →
    setEffect value old key (withTLS false (withCertPath path old))
| EffectInsecure key b data :
    key ∈ ["insecure"; "insecure-skip-tls-verify"] → parseInsecure value = Some b →
    TestKubeArchiveLivezEndpoint (Host old) b data = None →
    (data = None ∨ b = true ∧ data = ReadCertFile (CertPath old)) →
    setEffect value old key (withTLS b old)
| EffectToken :
    value ≠ "" → length (Split "." value) = 3 →
    (Host old ≠ "" → TestKubeArchiveConnectivity (Host old) true value None = None) →
    setEffect value old "token" (withToken value old).

Lemma setEffect_server value old key new :
  setEffect value old key new → ServerURL new = ServerURL old ∧ ClusterName new = ClusterName old.
Proof. by destruct 1. Qed.

Lemma setHost_effect fault entry value c cm file :
  (∃ e, setHost fault entry c value cm file = (Err e, cm, file)) ∨
  (∃ new, setEffect value c "host" new ∧
     setHost fault entry c value cm file = storeEntry fault entry new cm file).
Proof.
  unfold setHost. destruct (URLParse value) as [u|] eqn:Eu; [|by eauto].
  case_eqb; [by eauto|]. case_eqb; [by eauto|].
  destruct (TestKubeArchiveLivezEndpoint value true None) eqn:Et; [by eauto|].
  right. eexists. split; [by eapply EffectHost|done].
Qed.

Lemma setCertificateAuthority_effect fault entry value c cm file key :
  key ∈ ["ca"; "certificate-authority"] →
  (∃ e, setCertificateAuthority fault entry c value cm file = (Err e, cm, file)) ∨
  (∃ new, setEffect value c key new ∧
     setCertificateAuthority fault entry c value cm file = storeEntry fault entry new cm file).
Proof.
  intros Hk. unfold setCertificateAuthority. case_eqb; [by eauto|].
  destruct (LoadCertData value) as [[path data]|e|] eqn:El; [|by eauto|].
  - destruct (TestKubeArchiveLivezEndpoint (Host c) false (Some data)) eqn:Et; [by eauto|].
    right. eexists. split; [by eapply EffectCA|done].
  - exfalso. unfold LoadCertData in El. destruct value as [|a v]; [done|].
    destruct (if Ascii.eqb a "~" then _ else _) as [p|]; [|done]. by destruct (ReadCertFile p).
Qed.

Lemma setInsecure_effect fault entry value c cm file key :
  key ∈ ["insecure"; "insecure-skip-tls-verify"] →
  (∃ e, setInsecure fault entry c value cm file = (Err e, cm, file)) ∨
  (∃ new, setEffect value c key new ∧
     setInsecure fault entry c value cm file = storeEntry fault entry new cm file).
Proof.
  intros Hk. unfold setInsecure. destruct (parseInsecure value) as [b|] eqn:Eb; [|by eauto].
  destruct (b && nonempty (CertPath c)) eqn:Ec.
  - destruct (ReadCertFile (CertPath c)) as [d|] eqn:Er; [|by eauto].
    destruct (TestKubeArchiveLivezEndpoint (Host c) b (Some d)) eqn:Et; [by eauto|].
    right. eexists. split; [|done]. eapply EffectInsecure; [done|done|done|].
    right. split; [|by rewrite Er]. by apply andb_true_iff in Ec as [-> _].
  - destruct (TestKubeArchiveLivezEndpoint (Host c) b None) eqn:Et; [by eauto|].
    right. eexists. split; [|done]. eapply EffectInsecure; [done..|by left].
Qed.

Lemma setToken_effect fault entry value c cm file :
  (∃ e, setToken fault entry c value cm file = (Err e, cm, file)) ∨
  (∃ new, setEffect value c "token" new ∧
     setToken fault entry c value cm file = storeEntry fault entry new cm file).
Proof.
  unfold setToken. case_eqb; [by eauto|].
  destruct (Nat.eqb_spec (length (Split "." value)) 3) as [E3|E3]; cbn [negb]; [|by eauto].
  destruct (if nonempty (Host c) then _ else _) as [e|] eqn:Et; [by eauto|].
  right. eexists. split; [|done]. apply EffectToken; [done|done|].
  intros Hh. unfold nonempty in Et. by rewrite (proj2 (String.eqb_neq _ _) Hh) in Et.
Qed.

(** A key either fails and leaves everything, or stores the entry it describes. *)
Lemma setKey_effect fault key value entry c cm file :
  (∃ e, setKey fault key value entry c cm file = (Err e, cm, file)) ∨
  (∃ new, setEffect value c key new ∧
     setKey fault key value entry c cm file = storeEntry fault entry new cm file).
Proof.
  unfold setKey. case_eqb; [subst; apply setHost_effect|].
  destruct (String.eqb key "ca" || String.eqb key "certificate-authority") eqn:Eca.
  { apply setCertificateAuthority_effect. apply orb_true_iff in Eca.
    rewrite !String.eqb_eq in Eca. set_solver. }
  destruct (String.eqb key "insecure" || _) eqn:Ein.
  { apply setInsecure_effect. apply orb_true_iff in Ein. rewrite !String.eqb_eq in Ein. set_solver. }
  case_eqb; [subst; apply setToken_effect|by eauto].
Qed.

Lemma setEffect_persisted value old key new :
  setEffect value old key new → setEffect value (persisted old) key (persisted new).
Proof.
  destruct 1.
  - by apply (EffectHost value (persisted old) u).
  - by apply (EffectCA value (persisted old) key path data).
  - by apply (EffectInsecure value (persisted old) key b data).
  - by apply (EffectToken value (persisted old)).
Qed.

(** The entry of a server, as the file keeps it; a new one has only its server. *)
Definition serverEntry (m : gmap string ClusterConfig) (server : string) : option ClusterConfig :=
  snd <$> entryOf m server.

Definition newEntry (server : string) : ClusterConfig :=
  {| ClusterName := ""; ServerURL := server; Host := ""; TLSInsecure := false;
     CertPath := ""; Token := ""; Current := false |}.

Lemma serverEntry_Some m k c :
  fileInv m → m !! k = Some c → serverEntry m (ServerURL c) = Some c.
Proof. intros Hi Hk. unfold serverEntry. by erewrite entryOf_unique. Qed.

Lemma serverEntry_None m server :
  (∀ k c, m !! k = Some c → ServerURL c ≠ server) → serverEntry m server = None.
Proof. intros Hn. unfold serverEntry. by rewrite (proj2 (entryOf_None m server)). Qed.

(** Storing an entry at the key of its server. *)
Lemma fileInv_insert m k n :
  fileInv m → k ≠ "" →
  (∀ k' c, m !! k' = Some c → ServerURL c = ServerURL n ↔ k' = k) →
  fileInv (<[k := n]> m).
Proof.
  intros Hi Hk Hs. split.
  - intros k1 k2 c1 c2 [[<- <-]|[Hn1 Hc1]]%lookup_insert_Some [[<- <-]|[Hn2 Hc2]]%lookup_insert_Some He.
    + done.
    + symmetry. by apply (Hs k2 c2).
    + by apply (Hs k1 c1).
    + by eapply inv_server.
  - rewrite lookup_insert_ne by done. by apply inv_named.
Qed.

Lemma serverEntry_insert m k n server :
  fileInv m → k ≠ "" →
  (∀ k' c, m !! k' = Some c → ServerURL c = ServerURL n ↔ k' = k) →
  serverEntry (<[k := n]> m) server =
  (if decide (server = ServerURL n) then Some n else serverEntry m server).
Proof.
  intros Hi Hk Hs. pose proof (fileInv_insert m k n Hi Hk Hs) as Hi'.
  destruct (decide (server = ServerURL n)) as [->|Hne].
  - apply (serverEntry_Some _ k); [done|apply lookup_insert_eq].
  - destruct (entryOf m server) as [[k' c]|] eqn:E.
    + unfold serverEntry at 2. rewrite E. apply entryOf_Some in E as [Hk' <-].
      apply (serverEntry_Some _ k'); [done|].
      rewrite lookup_insert_ne; [done|]. intros <-. by apply Hne, (Hs k c).
    + rewrite (serverEntry_None m server) by (by apply entryOf_None). apply serverEntry_None.
      intros k' c [[<- <-]|[_ Hc]]%lookup_insert_Some; [congruence|].
      by eapply (proj1 (entryOf_None m server)).
Qed.

(** The entry [runSet] works on, in a process that loaded a file. *)
Lemma currentOrNew_loaded host file m cm key :
  stored file m → fileInv m →
  (∀ u, URLParse host = Some u → suggestedName (u_Hostname u) ≠ "") →
  LoadConfig host NewFileConfigManager file = (Ok (), cm, file) →
  match currentOrNew key cm with
  | Ok (k, c, cm') =>
      k ≠ "" ∧ persisted c = default (newEntry host) (serverEntry m host) ∧ ServerURL c = host ∧
      (serverEntry m host = None → key = "host") ∧
      (∀ k' c, m !! k' = Some c → ServerURL c = host ↔ k' = k) ∧
      ∃ m', Clusters cm' = Some m' ∧ ∀ n, persisted <$> <[k := n]> m' = <[k := persisted n]> m
  | Err _ => True
  | Panic => False
  end.
Proof.
  intros Hst Hi Hsug Hload. destruct (LoadConfig_stored host file m Hst) as (cm0 & Hl & (m' & Hcl & Hm) & Hh & Hc).
  rewrite Hl in Hload. injection Hload as ->.
  assert (persisted <$> m' = m) as Hpm.
  { apply map_eq. intros k. rewrite lookup_fmap, Hm. destruct (m !! k) as [c|] eqn:Ek; [|done].
    cbn. by rewrite <-(stored_persisted file m k c Hst Ek) at 2. }
  unfold currentOrNew, GetCurrentClusterConfig, clustersOf. rewrite Hcl. cbn [default]. rewrite Hm.
  destruct Hc as [(k & c & Hk & Hs & ->)|[-> Hn]].
  - rewrite Hk. cbn [fmap option_fmap option_map]. split; [intros ->; by rewrite (inv_named m) in Hk|].
    subst host. rewrite (serverEntry_Some m k c) by done.
    split; [exact (stored_persisted file m k c Hst Hk)|]. split; [done|]. split; [done|]. split.
    + intros k' c' Hk'. split; [by intros; eapply inv_server|]. intros ->. congruence.
    + exists m'. split; [done|]. intros n. by rewrite fmap_insert, Hpm.
  - rewrite (inv_named m Hi). cbn [fmap option_fmap option_map].
    case_eqb; cbn [negb]; [|done].
    pose proof (GenerateClusterName_fresh cm) as Hg. unfold clustersOf in Hg. rewrite Hcl, Hh in Hg.
    cbn [default] in Hg.
    destruct (GenerateClusterName cm) as [name| |]; cbn [mbind outcome_bind].
    + destruct Hg as [Hfree (u & Hu & Hne)].
      { intros k c. rewrite Hm. destruct (m !! k); [|done]. by intros [= <-]. }
      unfold AddCluster. rewrite Hcl, Hh. cbn [mbind outcome_bind].
      assert (m !! name = None) as Hmn by (rewrite Hm in Hfree; by destruct (m !! name)).
      split; [by apply Hne, Hsug|]. rewrite (serverEntry_None m host) by done.
      split; [done|]. split; [done|]. split; [done|]. split.
      * intros k' c Hk'. split; [by intros ?%(Hn k' c Hk')|]. intros ->. congruence.
      * eexists. split; [done|]. intros n. by rewrite insert_insert_eq, fmap_insert, Hpm.
    + done.
    + by apply Hg; intros k c; rewrite Hm; destruct (m !! k); [intros [= <-]|].
Qed.

(** What a command that fails leaves: the file as it was, unless it is the write itself
    that failed, which leaves what it has written. *)
Definition leftBy (fault : SaveFault) (e : ConfigError) (file file' : ConfigFile) : Prop :=
  file' = file ∨ (e = FailedToWrite ∧ fault = WriteFails file').

(** [storeEntry] at the key of a server writes the file of the changed map. *)
Lemma storeEntry_stored fault cm m m' k n file r cm' file' :
  Clusters cm = Some m' → persisted <$> <[k := n]> m' = <[k := persisted n]> m →
  storeEntry fault k n cm file = (r, cm', file') →
  match r with
  | Ok _ => fault = NoSaveFault ∧ stored file' (<[k := persisted n]> m)
  | Err e => leftBy fault e file file'
  | Panic => False
  end.
Proof.
  intros Hcl Hp. unfold storeEntry. set (cm1 := setClusters _ _).
  destruct (SaveConfig fault cm1 file) as [[r1 cm2] file2] eqn:E. intros [= <- <- <-].
  assert (r1 = Ok () → fault = NoSaveFault) as Hok.
  { intros ->. unfold SaveConfig in E. destruct fault; [done|done|]. by destruct (Marshal _). }
  unfold leftBy. destruct r1 as [[]|e|].
  - rewrite Hok in E |- * by done. split; [done|].
    rewrite <-Hp. eapply SaveConfig_stored; [|done]. cbn. by rewrite Hcl.
  - unfold SaveConfig in E. destruct fault as [| |rest]; [|injection E as _ _ <-; by left|].
    + destruct (Marshal _); [done|]. injection E as _ _ <-. by left.
    + destruct (Marshal _); injection E as <- _ <-; [by right|by left].
  - unfold SaveConfig in E. destruct fault; [|done|]; by destruct (Marshal _).
Qed.

(** C26: [set] in a process for a server, on a file that is missing or has at most one
    entry per server, whatever call of the save fails: when it succeeds, no call failed and
    the file holds the entry of that server changed as the key says, after the tests the key
    asks for, and every other entry as before; when it fails the file is as before, unless
    it is the write that failed, which leaves what it has written, nothing or a part.  Only
    [host] works on a server without entry.  (A file whose list of clusters is null, or with
    two entries of a server, is left out.) *)
Theorem runSet_refines fault host key value file m
    (Hst : stored file m) (Hi : fileInv m)
    (Hsug : ∀ u, URLParse host = Some u → suggestedName (u_Hostname u) ≠ "") :
  let '(r, _, file') := runProcess host (runSet fault key value) file in
  match r with
  | Ok _ => fault = NoSaveFault ∧ ∃ m' new,
      stored file' m' ∧ fileInv m' ∧
      setEffect value (default (newEntry host) (serverEntry m host)) key new ∧
      (serverEntry m host = None → key = "host") ∧
      ∀ server, serverEntry m' server =
        (if decide (server = host) then Some new else serverEntry m server)
  | Err e => leftBy fault e file file'
  | Panic => False
  end.
Proof.
  unfold runProcess, withConfig.
  destruct (LoadConfig_stored host file m Hst) as (cm & Hl & _). rewrite Hl.
  pose proof (currentOrNew_loaded host file m cm key Hst Hi Hsug Hl) as Hcur.
  unfold runSet. destruct (currentOrNew key cm) as [[[k c] cm1]|e|]; [|by left|done].
  destruct Hcur as (Hk & Hold & Hserver & Hkey & Huniq & m' & Hcl & Hp).
  destruct (setKey_effect fault key value k c cm1 file) as [[e ->]|(new & Heff & ->)]; [by left|].
  destruct (storeEntry fault k new cm1 file) as [[r cm2] file2] eqn:Es.
  pose proof (storeEntry_stored fault cm1 m m' k new file r cm2 file2 Hcl (Hp new) Es) as Hr.
  destruct r as [[]|e|]; [|done|done]. destruct Hr as [Hf Hr]. split; [done|].
  destruct (setEffect_server _ _ _ _ Heff) as [Hsn _].
  assert (∀ k' c, m !! k' = Some c → ServerURL c = ServerURL (persisted new) ↔ k' = k) as Hu
    by (change (ServerURL (persisted new)) with (ServerURL new); by rewrite Hsn, Hserver).
  exists (<[k := persisted new]> m), (persisted new). split; [done|].
  split; [by apply fileInv_insert|]. split; [rewrite <-Hold; by apply setEffect_persisted|].
  split; [done|]. intros server. rewrite serverEntry_insert by done.
  change (ServerURL (persisted new)) with (ServerURL new). by rewrite Hsn, Hserver.
Qed.

(** [unset] and [remove], without faults, as processes. *)
Lemma runUnset_refines host key file m :
  stored file m → fileInv m →
  let '(r, _, file') := runProcess host (runUnset NoSaveFault key) file in
  match r with
  | Ok _ => ∃ m' old new,
      stored file' m' ∧ fileInv m' ∧ serverEntry m host = Some old ∧
      (new = withCertPath "" old ∨ new = withToken "" old) ∧
      ∀ server, serverEntry m' server =
        (if decide (server = host) then Some new else serverEntry m server)
  | Err _ => file' = file
  | Panic => False
  end.
Proof.
  intros Hst Hi. unfold runProcess, withConfig.
  destruct (LoadConfig_stored host file m Hst) as (cm & Hl & (m' & Hcl & Hm) & Hh & Hc). rewrite Hl.
  unfold runUnset, GetCurrentClusterConfig, clustersOf. rewrite Hcl. cbn [default]. rewrite Hm.
  destruct Hc as [(k & c & Hk & Hs & ->)|[-> Hn]]; [|by rewrite (inv_named m)].
  rewrite Hk. cbn [fmap option_fmap option_map].
  assert (∀ n, persisted n = n → ServerURL n = ServerURL c → ∀ n', persisted n' = n →
    let '(r, _, file') := storeEntry NoSaveFault k n' cm file in
    match r with
    | Ok _ => ∃ m', stored file' m' ∧ fileInv m' ∧ ∀ server, serverEntry m' server =
        (if decide (server = host) then Some n else serverEntry m server)
    | Err _ => file' = file
    | Panic => False
    end) as Hstore.
  { intros n Hn Hsn n' Hn'. destruct (storeEntry NoSaveFault k n' cm file) as [[r cm2] file2] eqn:Es.
    assert (∀ n, persisted <$> <[k := n]> m' = <[k := persisted n]> m) as Hp.
    { intros x. rewrite fmap_insert. f_equal. apply map_eq. intros k'. rewrite lookup_fmap, Hm.
      destruct (m !! k') as [c'|] eqn:Ek; [|done]. exact (f_equal Some (stored_persisted file m k' c' Hst Ek)). }
    pose proof (storeEntry_stored NoSaveFault cm m m' k n' file r cm2 file2 Hcl (Hp n') Es) as Hr.
    destruct r as [[]|e|]; [|by destruct Hr as [|[_ ?]]|done]. destruct Hr as [_ Hr]. rewrite Hn' in Hr. exists (<[k := n]> m).
    assert (k ≠ "") as Hk0 by (intros ->; by rewrite (inv_named m) in Hk).
    assert (∀ k' c, m !! k' = Some c → ServerURL c = ServerURL n ↔ k' = k) as Hu.
    { intros k' c' Hk'. rewrite Hsn. split; [by intros; eapply inv_server|]. intros ->. congruence. }
    split; [done|]. split; [by apply fileInv_insert|]. intros server.
    rewrite serverEntry_insert by done. by rewrite Hsn, Hs. }
  pose proof (stored_persisted file m k c Hst Hk) as Hpc.
  assert (serverEntry m host = Some c) as He by (rewrite <-Hs; by apply (serverEntry_Some m k)).
  destruct (String.eqb key "ca" || String.eqb key "certificate-authority").
  - specialize (Hstore (withCertPath "" c) (f_equal (withCertPath "") Hpc) eq_refl
      (withCertPath "" (loaded host k c)) (f_equal (withCertPath "") Hpc)).
    destruct (storeEntry _ _ _ _ _) as [[[[]| |] cm2] file2]; [|done|done].
    destruct Hstore as (m2 & ? & ? & ?). exists m2, c, (withCertPath "" c). by split_and!; auto.
  - case_eqb; [|by case_eqb].
    specialize (Hstore (withToken "" c) (f_equal (withToken "") Hpc) eq_refl
      (withToken "" (loaded host k c)) (f_equal (withToken "") Hpc)).
    destruct (storeEntry _ _ _ _ _) as [[[[]| |] cm2] file2]; [|done|done].
    destruct Hstore as (m2 & ? & ? & ?). exists m2, c, (withToken "" c). by split_and!; auto.
Qed.
End commands.

(** ** A concrete file format, for the witness: an encoding of the entries *)

Fixpoint bits (p : positive) : string :=
  match p with xH => "" | xO p => String "0" (bits p) | xI p => String "1" (bits p) end.

Fixpoint unbits (s : string) : positive :=
  match s with
  | EmptyString => xH
  | String c s => if Ascii.eqb c "0" then xO (unbits s) else xI (unbits s)
  end.

Lemma unbits_bits p : unbits (bits p) = p.
Proof. induction p as [p IH|p IH|]; cbn; [by rewrite IH..|done]. Qed.

Definition tupleOf (c : ClusterConfig) : string * string * bool * string * string :=
  (ServerURL c, Host c, TLSInsecure c, CertPath c, Token c).

Definition ofTuple (t : string * string * bool * string * string) : ClusterConfig :=
  let '(s, h, b, p, t) := t in
  {| ClusterName := ""; ServerURL := s; Host := h; TLSInsecure := b; CertPath := p; Token := t;
     Current := false |}.

Definition sample_unmarshal (s : string) : option YamlClusters :=
  (λ l : list (string * (string * string * bool * string * string)),
     SomeClusters (list_to_map (prod_map id (Some ∘ ofTuple) <$> l))) <$> decode (unbits s).

Definition sample_marshal (m : option (gmap string ClusterConfig)) : option string :=
  (λ m, bits (encode (prod_map id tupleOf <$> map_to_list m))) <$> m.

Lemma sample_roundtrip m s : sample_marshal (Some m) = Some s →
  sample_unmarshal s = Some (SomeClusters ((Some ∘ persisted) <$> m)).
Proof.
  cbn. intros [= <-]. unfold sample_unmarshal. rewrite unbits_bits, decode_encode. cbn.
  do 2 f_equal. rewrite <-list_fmap_compose.
  apply map_eq. intros k. rewrite lookup_fmap.
  rewrite <-(list_to_map_to_list m) at 2. induction (map_to_list m) as [|[k' c] l IH].
  - rewrite fmap_nil, !list_to_map_nil, !lookup_empty. done.
  - rewrite fmap_cons, !list_to_map_cons. destruct (decide (k = k')) as [->|Hne].
    + cbn. by rewrite !lookup_insert_eq.
    + cbn. rewrite !lookup_insert_ne by done. exact IH.
Qed.

Lemma sample_untagged s m k c : sample_unmarshal s = Some (SomeClusters m) →
  m !! k = Some (Some c) → persisted c = c.
Proof.
  unfold sample_unmarshal. destruct (decode (unbits s)) as [l|]; [|done]. cbn. intros [= <-].
  intros Hk%elem_of_list_to_map_2. apply list_elem_of_fmap in Hk as ([k' [[[[]]]]] & [= -> ->] & _).
  done.
Qed.

#[local] Instance sample_yaml : ConfigYaml := {|
  Unmarshal := sample_unmarshal; Marshal := sample_marshal;
  Unmarshal_Marshal := sample_roundtrip; Unmarshal_untagged := sample_untagged;
|}.

#[local] Instance sample_urls : URLParser := {|
  URLParse := λ s, if String.eqb s "" then None
                   else Some {| u_Scheme := "https"; u_Host := s; u_Hostname := s |}
|}.

#[local] Instance sample_tester : ConnectivityTester := {|
  TestKubeArchiveConnectivity := λ _ _ _ _, None;
  TestKubeArchiveLivezEndpoint := λ _ _ _, None;
|}.

#[local] Instance sample_cert_files : CertFiles := {|
  UserHomeDir := Some "/home";
  ReadCertFile := λ p, if String.eqb p "" then None else Some "certificate";
  ReadCertFile_empty := eq_refl;
|}.

#[local] Instance sample_map_order : MapRange := {|
  range := λ A l, l; range_perm := λ A l, Permutation_refl l |}.

Lemma runSet_refines_witness :
  (runProcess "https://dev" (runSet NoSaveFault "host" "https://ka") Missing).1.1 = Ok () ∧
  match runProcess "https://dev" (runSet NoSaveFault "host" "https://ka") Missing with
  | (Ok _, _, file') => ∃ m' new, stored file' m' ∧ fileInv m' ∧
      setEffect "https://ka" (newEntry "https://dev") "host" new ∧
      serverEntry m' "https://dev" = Some new
  | _ => False
  end.
Proof.
  assert ((runProcess "https://dev" (runSet NoSaveFault "host" "https://ka") Missing).1.1 = Ok ())
    as Hr by (vm_compute; reflexivity).
  split; [exact Hr|].
  assert (fileInv ∅) as Hi by (split; [intros k1 k2 c1 c2; by rewrite lookup_empty|done]).
  assert (∀ u, URLParse "https://dev" = Some u → suggestedName (u_Hostname u) ≠ "") as Hs
    by (intros u [= <-]; vm_compute; discriminate).
  pose proof (runSet_refines NoSaveFault "https://dev" "host" "https://ka" Missing ∅ eq_refl Hi Hs) as Ht.
  destruct (runProcess _ _ _) as [[[[]| |] cm] file']; [|discriminate|discriminate].
  destruct Ht as (_ & m' & new & Hst & Hi' & He & _ & Hse). exists m', new. split; [exact Hst|].
  split; [exact Hi'|]. split; [exact He|]. rewrite Hse. reflexivity.
Defined.
