(* ===== verification/CliSetup.v ===== *)
(** * [pkg/cmd/config/interactive.go], [discoverer.go]: the interactive setup

    The setup asks the user, looks for KubeArchive in the cluster, settles TLS and
    a token, and stores an entry.  The answers of the user are a list of lines; the
    Kubernetes clients are parameters. *)
From S2P Require Import Prelude GoLib GoStrings CliHttp CliConfig.

(** ** Libraries *)

(** A service, and a route of OpenShift; a field is [None] when the path to it or
    its type is not the expected one. *)
Record Service := { svc_Name : string; svc_Namespace : string }.
Record Route := { route_to : option string; route_tls : bool; route_host : option string }.

(** The typed and the dynamic client.  A [Get] gives a pointer and whether there was
    an error; [None] is a nil pointer or a failed list.  [CreateToken] is the token,
    if one comes back. *)
Class ClusterClients := {
  ListNamespaces : option (list string);
  GetConfigMapData : string → option (gmap string string);
  GetService : string → option Service * bool;
  ListRoutes : string → option (list Route);
  CreateToken : string → string → option string;
}.

Inductive SetupError :=
| ListNamespacesFailed | NoService | NoRoute | NoPortForward | NoAccessHost
| SetupCancelled | RemoveFailed | ClusterNameFailed | NotDiscovered | TLSFailed
| NoCertPath | BadCertificate | TLSCancelled | InvalidChoice
| CertificateUnreadable | NotAccessibleWithCertificate | NotAccessibleWithoutTLS
| NoAuthentication | TokenFailed | SaveFailed.

(** ** [interactive.go]: prompts *)

Inductive ConfirmationDefault := DefaultNo | DefaultYes.

Definition DefaultValue (cd : ConfirmationDefault) : bool :=
  match cd with DefaultYes => true | DefaultNo => false end.

Definition IsConfirmed (cd : ConfirmationDefault) (response : string) : bool :=
  let response := TrimSpace (ToLower response) in
  if String.eqb response "" then DefaultValue cd
  else if String.eqb response "y" || String.eqb response "yes" then true
  else if String.eqb response "n" || String.eqb response "no" then false
  else DefaultValue cd.

(** A computation that reads lines; [Scanln] gives the empty text on an error, so
    does the end of the lines. *)
Definition Setup (A : Type) : Type := list string → outcome SetupError A * list string.

#[export] Instance setup_ret : MRet Setup := λ A a ls, (Ok a, ls).
#[export] Instance setup_bind : MBind Setup := λ A B f m ls,
  match m ls with
  | (Ok a, ls) => f a ls
  | (Err e, ls) => (Err e, ls)
  | (Panic, ls) => (Panic, ls)
  end.

Definition liftSetup {A} (o : outcome SetupError A) : Setup A := λ ls, (o, ls).
Definition stop {A} (e : SetupError) : Setup A := λ ls, (Err e, ls).

Definition Scanln : Setup string := λ ls,
  match ls with [] => (Ok "", []) | l :: ls => (Ok l, ls) end.

Definition PromptForInput : Setup string := l ← Scanln; mret (TrimSpace l).

Definition PromptForConfirmation (defaultResponse : ConfirmationDefault) : Setup bool :=
  l ← Scanln; mret (IsConfirmed defaultResponse l).

Section setup.
  Context `{!ClusterClients, !ConnectivityTester, !CertFiles}.

(** ** [discoverer.go] *)

Definition isCandidate (nsName : string) : bool :=
  String.eqb nsName "kubearchive" || Contains nsName "kubearchive" || Contains nsName "k9e".

(** The URL of the first ConfigMap that has a valid one. *)
Fixpoint configMapURL (namespaces : list string) : option string :=
  match namespaces with
  | [] => None
  | namespace :: namespaces =>
      match GetConfigMapData namespace ≫= λ data, data !! "URL" with
      | Some url =>
          if HasPrefix url "http://" || HasPrefix url "https://" then Some url
          else configMapURL namespaces
      | None => configMapURL namespaces
      end
  end.

(** The variable [service] after its loop: the first one found, else the last
    pointer that came with an error. *)
Fixpoint findService (service : option Service) (namespaces : list string) : option Service :=
  match namespaces with
  | [] => service
  | namespace :: namespaces =>
      let '(service, failed) := GetService namespace in
      if failed then findService service namespaces else service
  end.

(** The routes from the first one on. *)
Fixpoint routeOf (serviceName : string) (routes : list Route) : option string :=
  match routes with
  | [] => None
  | route :: routes =>
      match route_to route with
      | Some name =>
          if String.eqb name serviceName then
            match route_host route with
            | Some host =>
                if nonempty host
                then Some ((if route_tls route then "https://" else "http://") +:+ host)
                else routeOf serviceName routes
            | None => routeOf serviceName routes
            end
          else routeOf serviceName routes
      | None => routeOf serviceName routes
      end
  end.

Definition findOpenShiftRoute (service : Service) : option string :=
  ListRoutes (svc_Namespace service) ≫= routeOf (svc_Name service).

Definition getKubeArchiveHostFromService (service : Service) : option string :=
  findOpenShiftRoute service.

Definition testPortForKubeArchive (port : Z) : string :=
  let httpsHost := "https://localhost:" +:+ FormatInt port in
  match TestKubeArchiveLivezEndpoint httpsHost true None with
  | None => httpsHost
  | Some _ => ""
  end.

(** The ports of the two ranges, in order. *)
Definition portRanges : list (Z * Z) := [(8080, 8090); (9080, 9090)]%Z.

Definition portsOf (r : Z * Z) : list Z := seqZ r.1 (r.2 - r.1 + 1).

Definition checkPortForward : option string :=
  head (filter (λ host, host ≠ "") (testPortForKubeArchive <$> (portRanges ≫= portsOf))).

Definition getKubeArchiveHost : outcome SetupError string :=
  match ListNamespaces with
  | None => Err ListNamespacesFailed
  | Some namespaces =>
      let candidateNamespaces := filter (λ ns, isCandidate ns = true) namespaces in
      match configMapURL candidateNamespaces with
      | Some url => Ok url
      | None =>
          match findService None candidateNamespaces with
          | None => Err NoService
          | Some service =>
              match getKubeArchiveHostFromService service with
              | Some host => Ok host
              | None =>
                  match checkPortForward with
                  | Some host => Ok host
                  | None => Err NoAccessHost
                  end
              end
          end
      end
  end.

Definition getTokenForSA (serviceAccount namespace : string) : outcome SetupError string :=
  match CreateToken serviceAccount namespace with
  | Some token => Ok token
  | None => Err TokenFailed
  end.

(** ** [interactive.go]: the setup *)

(** Whether to skip the verification, and the path of a certificate. *)
Definition getTLSSetup (host : string) : Setup (bool * string) :=
  match TestKubeArchiveLivezEndpoint host false None with
  | None => mret (false, "")
  | Some _ =>
      choice ← PromptForInput;
      let choice := TrimSpace choice in
      if String.eqb choice "1" then
        certPath ← PromptForInput;
        let certPath := TrimSpace certPath in
        if String.eqb certPath "" then stop NoCertPath
        else
          match LoadCertData certPath with
          | Ok (expandedCertPath, _) => mret (false, expandedCertPath)
          | _ => stop BadCertificate
          end
      else if String.eqb choice "2" then
        confirm ← PromptForConfirmation DefaultNo;
        if negb confirm then stop TLSCancelled else mret (true, "")
      else stop InvalidChoice
  end.

(** An empty token stands for the one of the kubeconfig. *)
Definition getTokenForKubeArchive (host k8sToken namespace : string) : Setup string :=
  match TestKubeArchiveConnectivity host true k8sToken None with
  | None => mret ""
  | Some _ =>
      useServiceAccount ← PromptForConfirmation DefaultYes;
      if negb useServiceAccount then stop NoAuthentication
      else
        serviceAccountInput ← PromptForInput;
        namespaceInput ← PromptForInput;
        liftSetup (getTokenForSA
          (if nonempty serviceAccountInput then serviceAccountInput else "default")
          (if nonempty namespaceInput then namespaceInput else namespace))
  end.

(** The certificate or the absence of verification is tried before it is stored. *)
Definition checkTLS (host : string) (tlsInsecure : bool) (certPath : string) : Setup () :=
  if nonempty certPath then
    match ReadCertFile certPath with
    | None => stop CertificateUnreadable
    | Some certData =>
        match TestKubeArchiveLivezEndpoint host tlsInsecure (Some certData) with
        | Some _ => stop NotAccessibleWithCertificate
        | None => mret ()
        end
    end
  else if tlsInsecure then
    match TestKubeArchiveLivezEndpoint host tlsInsecure None with
    | Some _ => stop NotAccessibleWithoutTLS
    | None => mret ()
    end
  else mret ().
End setup.

Section runsetup.
  Context `{!ClusterClients, !ConnectivityTester, !CertFiles, !ConfigYaml, !URLParser, !MapRange}.

(** The manager without the entry the user agrees to configure anew. *)
Definition dropCurrent (cm : FileConfigManager) : Setup FileConfigManager :=
  match GetCurrentClusterConfig cm with
  | Ok overwrittenCluster =>
      confirmed ← PromptForConfirmation DefaultNo;
      if negb confirmed then stop SetupCancelled
      else
        match RemoveClusterConfigByName (ClusterName overwrittenCluster) cm with
        | Ok cm => mret cm
        | _ => stop RemoveFailed
        end
  | _ => mret cm
  end.

(** The entry the answers lead to, and the manager it is to be added to. *)
Definition askEntry (k8sToken namespace : string) (cm : FileConfigManager)
    : Setup (FileConfigManager * ClusterConfig) :=
  cm ← dropCurrent cm;
  match GenerateClusterName cm with
  | Ok defaultClusterName =>
      confirmed ← PromptForConfirmation DefaultYes;
      if negb confirmed then stop SetupCancelled
      else
        clusterNameResponse ← PromptForInput;
        match getKubeArchiveHost with
        | Ok host =>
            '(tlsInsecure, certPath) ← getTLSSetup host;
            _ ← checkTLS host tlsInsecure certPath;
            token ← getTokenForKubeArchive host k8sToken namespace;
            confirmed ← PromptForConfirmation DefaultYes;
            if negb confirmed then stop SetupCancelled
            else mret (cm, {|
              ClusterName := if nonempty clusterNameResponse then clusterNameResponse
                             else defaultClusterName;
              ServerURL := k8sHost cm; Host := host; TLSInsecure := tlsInsecure;
              CertPath := certPath; Token := token; Current := false |})
        | _ => stop NotDiscovered
        end
  | Panic => liftSetup Panic
  | Err _ => stop ClusterNameFailed
  end.

(** [RunSetup]; what the answers are leaves the file alone until it is written.  The
    manager in memory has lost the current entry once the user agreed to it. *)
Definition RunSetup (fault : SaveFault) (k8sToken namespace : string) (ls : list string)
    (cm : FileConfigManager) (file : ConfigFile)
    : outcome SetupError () * FileConfigManager * ConfigFile :=
  let forgotten := match dropCurrent cm ls with (Ok cm, _) => cm | _ => cm end in
  match (askEntry k8sToken namespace cm ls).1 with
  | Err e => (Err e, forgotten, file)
  | Panic => (Panic, forgotten, file)
  | Ok (cm, clusterConfig) =>
      match AddCluster clusterConfig cm with
      | Ok cm =>
          match SaveConfig fault cm file with
          | (Ok _, cm, file) => (Ok (), cm, file)
          | (_, cm, file) => (Err SaveFailed, cm, file)
          end
      | _ => (Panic, forgotten, file)
      end
  end.

(** [config_setup.go]: a nil setup, when a client cannot be made, is dereferenced. *)
Definition runSetup (clients : bool) (fault : SaveFault) (k8sToken : string)
    (namespace : option string) (ls : list string) (cm : FileConfigManager) (file : ConfigFile)
    : outcome SetupError () * FileConfigManager * ConfigFile :=
  if clients then RunSetup fault k8sToken (default "default" namespace) ls cm file
  else (Panic, cm, file).
End runsetup.
