(* ===== verification/Retriever.v ===== *)
(** * [pkg/cmd/retriever.go]: what [get] and [logs] share

    The options of a command, how they are completed from the environment, the
    kubeconfig, the configuration file and the interactive setup; the discovery of
    a resource; the requests. *)
From S2P Require Import Prelude GoLib GoStrings Api CliHttp CliConfig CliSetup.

(** ** Libraries *)

(** [metav1.APIResource], [APIResourceList], [APIGroup]. *)
Record APIResource := {
  apires_Name : string; apires_SingularName : string; apires_ShortNames : list string;
  apires_Kind : string; apires_Namespaced : bool;
}.
Record APIResourceList := { arl_GroupVersion : string; arl_APIResources : list APIResource }.
Record APIGroup := { grp_Name : string; grp_Versions : list string; grp_PreferredVersion : string }.

(** The discovery client; [None] is an error. *)
Class Discovery := {
  ServerGroups : option (list APIGroup);
  ServerGroupsAndResources : option (list APIResourceList);
}.

(** The flags of a kubeconfig: the REST configuration, whether a discovery client
    can be made, the namespace of the context ([None] without a loader, [Some None]
    on an error); whether the clients of the setup can be made. *)
Class KubeConfig := {
  ToRESTConfig : option RESTConfig;
  ToDiscoveryClient : bool;
  RawNamespace : option (option string);
  SetupClients : bool;
}.

(** [json.Unmarshal] of a status object: its message. *)
Class StatusJSON := { StatusMessage : string → option string }.

(** ** The options *)

Record ResourceInfo := {
  ri_Resource : string; ri_Version : string; ri_Group : string; ri_GroupVersion : string;
  ri_Kind : string; ri_Namespaced : bool;
}.

#[export] Instance ResourceInfo_eq_dec : EqDecision ResourceInfo.
Proof. solve_decision. Defined.

Record KARetrieverOptions := {
  ro_host : string; ro_tlsInsecure : bool; ro_certificatePath : string; ro_token : string;
  ro_certData : option string; ro_Namespace : option string; ro_BearerToken : option string;
  ro_k8sRESTConfig : option RESTConfig; ro_k9eRESTConfig : option RESTConfig;
}.

Inductive RetrieverError :=
| RESTConfigFailed | DiscoveryClientFailed | CertFailed (e : ConfigError)
| NoHostProvided | NoTokenProvided | ConnectivityFailed (e : string)
| SetupStopped | SetupFailed (e : SetupError) | PersistentFailed (e : ConfigError)
| NamespaceFailed | EmptyResourceName | DiscoveryFailed | ResourceUnknown.

Definition setToken' (t : string) (o : KARetrieverOptions) : KARetrieverOptions :=
  {| ro_host := ro_host o; ro_tlsInsecure := ro_tlsInsecure o;
     ro_certificatePath := ro_certificatePath o; ro_token := t; ro_certData := ro_certData o;
     ro_Namespace := ro_Namespace o; ro_BearerToken := ro_BearerToken o;
     ro_k8sRESTConfig := ro_k8sRESTConfig o; ro_k9eRESTConfig := ro_k9eRESTConfig o |}.
Definition setCert (path : string) (data : option string) (o : KARetrieverOptions)
    : KARetrieverOptions :=
  {| ro_host := ro_host o; ro_tlsInsecure := ro_tlsInsecure o; ro_certificatePath := path;
     ro_token := ro_token o; ro_certData := data; ro_Namespace := ro_Namespace o;
     ro_BearerToken := ro_BearerToken o; ro_k8sRESTConfig := ro_k8sRESTConfig o;
     ro_k9eRESTConfig := ro_k9eRESTConfig o |}.
Definition setNamespace (ns : option string) (o : KARetrieverOptions) : KARetrieverOptions :=
  {| ro_host := ro_host o; ro_tlsInsecure := ro_tlsInsecure o;
     ro_certificatePath := ro_certificatePath o; ro_token := ro_token o;
     ro_certData := ro_certData o; ro_Namespace := ns; ro_BearerToken := ro_BearerToken o;
     ro_k8sRESTConfig := ro_k8sRESTConfig o; ro_k9eRESTConfig := ro_k9eRESTConfig o |}.
Definition setRESTConfigs (k8s k9e : option RESTConfig) (o : KARetrieverOptions)
    : KARetrieverOptions :=
  {| ro_host := ro_host o; ro_tlsInsecure := ro_tlsInsecure o;
     ro_certificatePath := ro_certificatePath o; ro_token := ro_token o;
     ro_certData := ro_certData o; ro_Namespace := ro_Namespace o;
     ro_BearerToken := ro_BearerToken o; ro_k8sRESTConfig := k8s; ro_k9eRESTConfig := k9e |}.
(** The fields a stored entry replaces. *)
Definition setFromEntry (c : ClusterConfig) (k8sToken : string) (o : KARetrieverOptions)
    : KARetrieverOptions :=
  {| ro_host := Host c; ro_tlsInsecure := TLSInsecure c; ro_certificatePath := CertPath c;
     ro_token := if nonempty (Token c) then Token c else k8sToken;
     ro_certData := ro_certData o; ro_Namespace := ro_Namespace o;
     ro_BearerToken := ro_BearerToken o; ro_k8sRESTConfig := ro_k8sRESTConfig o;
     ro_k9eRESTConfig := ro_k9eRESTConfig o |}.

(** [strconv.ParseBool], false on an error. *)
Definition ParseBoolOrFalse (s : string) : bool :=
  bool_decide (s ∈ ["1"; "t"; "T"; "TRUE"; "true"; "True"]).

Definition NewKARetrieverOptions `{!Environment} (namespace bearerToken : option string)
    : KARetrieverOptions :=
  {| ro_host := Getenv "KUBECTL_PLUGIN_KA_HOST";
     ro_tlsInsecure := ParseBoolOrFalse (Getenv "KUBECTL_PLUGIN_KA_TLS_INSECURE");
     ro_certificatePath := Getenv "KUBECTL_PLUGIN_KA_CERT_PATH";
     ro_token := Getenv "KUBECTL_PLUGIN_KA_TOKEN";
     ro_certData := None; ro_Namespace := namespace; ro_BearerToken := bearerToken;
     ro_k8sRESTConfig := None; ro_k9eRESTConfig := None |}.

(** ** Discovery of a resource *)

Section discovery.
  Context `{!Discovery, !RESTMapper, !MapRange}.

(** Whether the second part of a specification is a version. *)
Definition isVersion (s : string) : bool :=
  match s with
  | String c (String d _) =>
      Ascii.eqb c "v" && ((48 <=? nat_of_ascii d) && (nat_of_ascii d <=? 57))%nat
  | _ => false
  end.

(** The resource, the version and the group asked for. *)
Definition parseResourceSpec (resourceSpec : string) : outcome RetrieverError (string * string * string) :=
  match Split "." resourceSpec with
  | [] => Err EmptyResourceName
  | resourceName :: rest =>
      if String.eqb resourceName "" then Err EmptyResourceName
      else
        match rest with
        | [] => Ok (resourceName, "", "")
        | second :: groupParts =>
            if isVersion second then Ok (resourceName, second, Join "." groupParts)
            else Ok (resourceName, "", Join "." rest)
        end
  end.

Definition matchesResource (apiResource : APIResource) (resourceName : string) : bool :=
  String.eqb (apires_Name apiResource) resourceName ||
  existsb (λ shortName, String.eqb shortName resourceName) (apires_ShortNames apiResource) ||
  (nonempty (apires_SingularName apiResource) &&
   String.eqb (apires_SingularName apiResource) resourceName).

(** The candidates of one list of resources. *)
Definition candidatesOf (resourceName requestedVersion requestedGroup : string)
    (l : APIResourceList) : list ResourceInfo :=
  match ParseGroupVersion (arl_GroupVersion l) with
  | None => []
  | Some (group, version) =>
      if nonempty requestedGroup && negb (String.eqb group requestedGroup) then []
      else if nonempty requestedVersion && negb (String.eqb version requestedVersion) then []
      else
        (λ apiResource,
           {| ri_Resource := apires_Name apiResource; ri_Version := version; ri_Group := group;
              ri_GroupVersion := arl_GroupVersion l; ri_Kind := apires_Kind apiResource;
              ri_Namespaced := apires_Namespaced apiResource |})
          <$> filter (λ apiResource, matchesResource apiResource resourceName = true)
                (arl_APIResources l)
  end.

(** [None] is an error. *)
Definition getPreferredVersion (group : string) : option string :=
  if String.eqb group "" then Some "v1"
  else
    match ServerGroups with
    | None => None
    | Some groups =>
        grp_PreferredVersion <$>
          head (filter (λ g, grp_Name g = group ∧ grp_Versions g ≠ []) groups)
    end.

Definition groupCandidates (candidates : list ResourceInfo) : gmap string (list ResourceInfo) :=
  foldl (λ groupMap candidate,
    <[ri_Group candidate := default [] (groupMap !! ri_Group candidate) ++ [candidate]]> groupMap)
    ∅ candidates.

(** The candidate a group settles on, if it does. *)
Definition preferredOf (group : string) (l : list ResourceInfo) : option ResourceInfo :=
  match l with
  | [candidate] => Some candidate
  | _ =>
      match getPreferredVersion group with
      | None => head l
      | Some preferredVersion => head (filter (λ c, ri_Version c = preferredVersion) l)
      end
  end.

(** The first group, in the order of the map, that settles. *)
Definition selectPreferredResource (candidates : list ResourceInfo) : option ResourceInfo :=
  match omap (λ e, preferredOf e.1 e.2) (range (map_to_list (groupCandidates candidates))) with
  | candidate :: _ => Some candidate
  | [] => head candidates
  end.

Definition findResourceInfo (resourceName requestedVersion requestedGroup : string)
    : outcome RetrieverError ResourceInfo :=
  match ServerGroupsAndResources with
  | None => Err DiscoveryFailed
  | Some apiResourceLists =>
      match apiResourceLists ≫= candidatesOf resourceName requestedVersion requestedGroup with
      | [] => Err ResourceUnknown
      | [candidate] => Ok candidate
      | candidates =>
          match selectPreferredResource candidates with
          | Some candidate => Ok candidate
          | None => Panic
          end
      end
  end.

Definition ResolveResourceSpec (resourceSpec : string) : outcome RetrieverError ResourceInfo :=
  '(resourceName, requestedVersion, requestedGroup) ← parseResourceSpec resourceSpec;
  findResourceInfo resourceName requestedVersion requestedGroup.
End discovery.

(** ** Requests *)

Section requests.
  Context `{!HTTPLib, !StatusJSON}.

Definition extractErrorMessage (body : string) (statusCode : Z) (url : string) : string :=
  let fallback :=
    if nonempty body
    then "unable to get '" +:+ url +:+ "': " +:+ body +:+ " (" +:+ FormatInt statusCode +:+ ")"
    else "unable to get '" +:+ url +:+ "': HTTP " +:+ FormatInt statusCode in
  match StatusMessage body with
  | Some message => if nonempty message then message else fallback
  | None => fallback
  end.

(** A configuration not set yet is dereferenced. *)
Definition GetFromAPI (opts : KARetrieverOptions) (api : API) (path : string)
    : outcome APIError string :=
  match (match api with Kubernetes => ro_k8sRESTConfig opts | KubeArchive => ro_k9eRESTConfig opts end) with
  | None => Panic
  | Some restConfig =>
      match HTTPClientFor restConfig with
      | Some e =>
          Err {| err_StatusCode := 500; err_URL := path;
                 err_Message := "error creating the HTTP client from the REST config: " +:+ e;
                 err_Body := "" |}
      | None =>
          let fullURL := TrimRightByte "/" (rest_Host restConfig) +:+ path in
          match ClientDo restConfig fullURL "" with
          | HTTPFailed e =>
              Err {| err_StatusCode := 500; err_URL := fullURL;
                     err_Message := "error on GET to '" +:+ fullURL +:+ "': " +:+ e;
                     err_Body := "" |}
          | HTTPResponse status _ (Some e) =>
              Err {| err_StatusCode := status; err_URL := fullURL;
                     err_Message := "error reading response body from '" +:+ fullURL +:+ "': " +:+ e;
                     err_Body := "" |}
          | HTTPResponse status body None =>
              if (status =? StatusOK)%Z then Ok body
              else Err {| err_StatusCode := status; err_URL := fullURL;
                          err_Message := extractErrorMessage body status fullURL;
                          err_Body := body |}
          end
      end
  end.
End requests.

(** ** Completion *)

Section completion.
  Context `{!KubeConfig, !ConnectivityTester, !CertFiles, !ConfigYaml, !URLParser, !MapRange,
            !ClusterClients}.

(** The namespace of the flags or of the context, kept in the flags. *)
Definition GetNamespace (opts : KARetrieverOptions)
    : outcome RetrieverError string * KARetrieverOptions :=
  match ro_Namespace opts with
  | Some (String c ns) => (Ok (String c ns), opts)
  | _ =>
      match RawNamespace with
      | Some (Some ns) => (Ok ns, setNamespace (Some ns) opts)
      | _ => (Err NamespaceFailed, opts)
      end
  end.

(** [None] is a nil error. *)
Definition testConnectivity (opts : KARetrieverOptions) : option RetrieverError :=
  if String.eqb (ro_host opts) "" then Some NoHostProvided
  else if String.eqb (ro_token opts) "" then Some NoTokenProvided
  else ConnectivityFailed <$>
    TestKubeArchiveConnectivity (ro_host opts) (ro_tlsInsecure opts) (ro_token opts)
      (ro_certData opts).

(** The host and the token of the REST configuration; nil is dereferenced. *)
Definition k8sOf (opts : KARetrieverOptions) : string * string :=
  match ro_k8sRESTConfig opts with
  | Some c => (rest_Host c, rest_BearerToken c)
  | None => ("", "")
  end.

(** [loadPersistentConfig]: the manager after the load, and the options, changed even
    when the certificate cannot be read. *)
Definition loadPersistentConfig (opts : KARetrieverOptions) (cm : FileConfigManager)
    (file : ConfigFile) : outcome ConfigError () * KARetrieverOptions * FileConfigManager :=
  match LoadConfig (k8sOf opts).1 cm file with
  | (Err e, cm, _) => (Err e, opts, cm)
  | (Panic, cm, _) => (Panic, opts, cm)
  | (Ok _, cm, _) =>
      match GetCurrentClusterConfig cm with
      | Err e => (Err e, opts, cm)
      | Panic => (Panic, opts, cm)
      | Ok clusterConfig =>
          let opts := setFromEntry clusterConfig (k8sOf opts).2 opts in
          if nonempty (ro_certificatePath opts) then
            match LoadCertData (ro_certificatePath opts) with
            | Err e => (Err e, opts, cm)
            | Panic => (Panic, opts, cm)
            | Ok (expandedCertPath, certData) =>
                (Ok (), setCert expandedCertPath (Some certData) opts, cm)
            end
          else (Ok (), opts, cm)
      end
  end.

Definition setK9eRESTConfig (opts : KARetrieverOptions) : KARetrieverOptions :=
  setRESTConfigs (ro_k8sRESTConfig opts)
    (Some {| rest_Host := ro_host opts;
             rest_Insecure := match ro_certData opts with Some _ => false | None => ro_tlsInsecure opts end;
             rest_BearerToken := ro_token opts; rest_CAData := ro_certData opts |}) opts.

(** The token of the stored entry; a failed load is no token. *)
Definition storedToken (host : string) (file : ConfigFile) : outcome RetrieverError string :=
  match LoadConfig host NewFileConfigManager file with
  | (Panic, _, _) => Panic
  | (Ok _, cm, _) =>
      match GetCurrentClusterConfig cm with
      | Ok cc => Ok (Token cc)
      | _ => Ok ""
      end
  | (Err _, _, _) => Ok ""
  end.

(** The token of the flag, of the environment, of the file, of the kubeconfig. *)
Definition completeToken (k8s : RESTConfig) (file : ConfigFile) (opts : KARetrieverOptions)
    : outcome RetrieverError KARetrieverOptions :=
  let opts := match ro_BearerToken opts with
              | Some (String c t) => setToken' (String c t) opts
              | _ => opts
              end in
  opts ← (if String.eqb (ro_token opts) "" then
            token ← storedToken (rest_Host k8s) file;
            Ok (if nonempty token then setToken' token opts else opts)
          else Ok opts);
  Ok (if String.eqb (ro_token opts) "" && nonempty (rest_BearerToken k8s)
      then setToken' (rest_BearerToken k8s) opts else opts).

Definition completeCert (opts : KARetrieverOptions) : outcome RetrieverError KARetrieverOptions :=
  if nonempty (ro_certificatePath opts) then
    match LoadCertData (ro_certificatePath opts) with
    | Ok (expandedCertPath, certData) => Ok (setCert expandedCertPath (Some certData) opts)
    | Err e => Err (CertFailed e)
    | Panic => Panic
    end
  else Ok opts.

(** What is tried when the options do not work: the stored entry, then the setup, in
    whose course the file may change. *)
Definition reconfigure (fault : SaveFault) (ls : list string) (opts : KARetrieverOptions)
    (file : ConfigFile) : outcome RetrieverError KARetrieverOptions * ConfigFile :=
  let '(loaded, opts, configManager) := loadPersistentConfig opts NewFileConfigManager file in
  match loaded with
  | Panic => (Panic, file)
  | _ =>
      match testConnectivity opts with
      | None => (Ok opts, file)
      | Some _ =>
          let '(ns, opts) := GetNamespace opts in
          let ns := match ns with Ok ns => ns | _ => "default" end in
          match PromptForConfirmation DefaultYes ls with
          | (Ok true, ls) =>
              match runSetup SetupClients fault (k8sOf opts).2 (Some ns) ls configManager file with
              | (Ok _, configManager, file) =>
                  match loadPersistentConfig opts configManager file with
                  | (Ok _, opts, _) => (Ok opts, file)
                  | (Err e, _, _) => (Err (PersistentFailed e), file)
                  | (Panic, _, _) => (Panic, file)
                  end
              | (Err e, _, file) => (Err (SetupFailed e), file)
              | (Panic, _, file) => (Panic, file)
              end
          | (Panic, _) => (Panic, file)
          | _ => (Err SetupStopped, file)
          end
      end
  end.

Definition CompleteRetriever (fault : SaveFault) (ls : list string) (opts : KARetrieverOptions)
    (file : ConfigFile) : outcome RetrieverError KARetrieverOptions * ConfigFile :=
  match ToRESTConfig with
  | None => (Err RESTConfigFailed, file)
  | Some k8s =>
      let opts := setRESTConfigs (Some k8s) (ro_k9eRESTConfig opts) opts in
      if negb ToDiscoveryClient then (Err DiscoveryClientFailed, file)
      else
        match (opts ← completeToken k8s file opts; completeCert opts) with
        | Err e => (Err e, file)
        | Panic => (Panic, file)
        | Ok opts =>
            let '(configured, file) :=
              match testConnectivity opts with
              | None => (Ok opts, file)
              | Some _ => reconfigure fault ls opts file
              end in
            match configured with
            | Err e => (Err e, file)
            | Panic => (Panic, file)
            | Ok opts =>
                match testConnectivity opts with
                | Some e => (Err e, file)
                | None => (Ok (setK9eRESTConfig opts), file)
                end
            end
        end
  end.
End completion.
