(* ===== verification/CliGet.v ===== *)
(** * [pkg/cmd/get.go]: the command [get]

    The resources of the cluster and of the archive are merged into one sorted,
    limited list; a message proposes the command for the next page.  Times are
    instants in nanoseconds, as everywhere; the table is printed in [CliPrint]. *)
From S2P Require Import Prelude GoLib GoStrings Api CliHttp CliConfig CliSetup Retriever.

(** ** Libraries *)

(** [time]: a time as Go has it, an instant and the zone it is shown in, and its texts
    by the layouts RFC 3339, which keeps the second only, and RFC 3339 with
    nanoseconds; both are parsed by the flags.  [net/url]: queries as maps from keys
    to values; [None] is an error of the parser. *)
Class CliText := {
  Time : Type;
  Instant : Time → Z;
  UTC : Z → Time;
  Format : Time → string;
  FormatNano : Time → string;
  ParseTime : string → option Time;
  Instant_UTC z : Instant (UTC z) = z;
  Parse_Format t : ∃ t', ParseTime (Format t) = Some t' ∧
    Instant t' = (Instant t / 1000000000 * 1000000000)%Z;
  Parse_FormatNano t : ∃ t', ParseTime (FormatNano t) = Some t' ∧ Instant t' = Instant t;
  ParseQuery : string → option (gmap string (list string));
  EncodeQuery : gmap string (list string) → string;
  QueryEscape : string → string;
}.

(** [encoding/json] of the answers: one object, a list, and the token of its
    metadata, empty when it is not there. *)
Class CliJSON (O : Type) := {
  UnmarshalObject : string → option O;
  UnmarshalList : string → option (list O);
  UnmarshalContinue : string → option string;
}.

Section get.
  Context {O : Type} `{!Unstructured O}.

(** ** Merging *)

Record ResourceWithAvailability := {
  rwa_Resource : O; rwa_InCluster : bool; rwa_Archived : bool;
}.

Definition cmpResource (existing : ResourceWithAvailability) (target : O) : Z :=
  let existingTime := GetCreationTimestamp (rwa_Resource existing) in
  let targetTime := GetCreationTimestamp target in
  if (existingTime <? targetTime)%Z then 1
  else if (targetTime <? existingTime)%Z then -1
  else if String.eqb (GetUID target) (GetUID (rwa_Resource existing)) then 0
  else Compare (GetName target) (GetName (rwa_Resource existing)).

Definition markFound (fromK8s : bool) (r : ResourceWithAvailability) : ResourceWithAvailability :=
  if fromK8s
  then {| rwa_Resource := rwa_Resource r; rwa_InCluster := true; rwa_Archived := rwa_Archived r |}
  else {| rwa_Resource := rwa_Resource r; rwa_InCluster := rwa_InCluster r; rwa_Archived := true |}.

(** The list and the two trimmed flags. *)
Definition MergeState : Type := list ResourceWithAvailability * bool * bool.

(** One round of the loop, on a slice of capacity [c]; [append] of nil lengthens it,
    and the cell it adds is overwritten by the copy or by the store. *)
Definition insertResource (fromK8s : bool) (c : nat) (st : MergeState) (resource : O)
    : outcome Empty_set MergeState :=
  let '(result, k8sTrimmed, k9eTrimmed) := st in
  let '(idx, found) := BinarySearchFunc result resource cmpResource in
  if found then
    Ok (alter (markFound fromK8s) idx result, k8sTrimmed, k9eTrimmed)
  else
    let resourceWithAvailability :=
      {| rwa_Resource := resource; rwa_InCluster := fromK8s; rwa_Archived := negb fromK8s |} in
    if (idx <? c)%nat then
      '(result, k8sTrimmed, k9eTrimmed) ←
        (if (length result =? c)%nat then
           last ← index result (Z.of_nat (length result) - 1);
           Ok (result, k8sTrimmed || rwa_InCluster last, k9eTrimmed || rwa_Archived last)
         else Ok (result ++ [resourceWithAvailability], k8sTrimmed, k9eTrimmed));
      result ← set_index (copy_within result (S idx) idx (length result)) (Z.of_nat idx)
                 resourceWithAvailability;
      Ok (result, k8sTrimmed, k9eTrimmed)
    else Ok (result, k8sTrimmed || fromK8s, k9eTrimmed || negb fromK8s).

Fixpoint insertAll (fromK8s : bool) (c : nat) (st : MergeState) (resources : list O)
    : outcome Empty_set MergeState :=
  match resources with
  | [] => Ok st
  | resource :: resources =>
      st ← insertResource fromK8s c st resource;
      insertAll fromK8s c st resources
  end.

(** [make] panics when the capacity is below the length. *)
Definition insertSortedResourcesOptimized (limit : Z) (init : list ResourceWithAvailability)
    (resources : list O) (fromK8s : bool) : outcome Empty_set MergeState :=
  let c := Z.min (Z.of_nat (length resources + length init)) limit in
  if (c <? Z.of_nat (length init))%Z then Panic
  else insertAll fromK8s (Z.to_nat c) (init, false, false) resources.
End get.
Arguments ResourceWithAvailability O : clear implicits.
Arguments MergeState O : clear implicits.

(** ** The options *)

Section options.
  Context `{!CliText}.

Record GetOptions := {
  go_AllNamespaces : bool; go_APIPath : string; go_ResourceInfo : option ResourceInfo;
  go_Name : string; go_LabelSelector : string; go_OutputFormat : string;
  go_InCluster : bool; go_Archived : bool; go_Limit : Z; go_After : Time; go_Before : Time;
  go_kubearchiveQueryParams : gmap string (list string);
}.

Inductive GetError :=
| NameAndSelector | NoSource | BadLimit | BeforeNotAfter | GetRetrieverError (e : RetrieverError).

Definition IsZero (t : Time) : bool := (Instant t =? zeroTime)%Z.

Definition buildKubeArchiveQueryParams (now : Z) (o : GetOptions) : gmap string (list string) :=
  let params :=
    match (Cut "?" (go_APIPath o)).2 with
    | Some query => default ∅ (ParseQuery query)
    | None => ∅
    end in
  let params := <["limit" := [FormatInt (go_Limit o)]]> params in
  let params :=
    if negb (IsZero (go_After o))
    then <["creationTimestampAfter" := [Format (go_After o)]]> params else params in
  if (Instant (go_Before o) <? now)%Z
  then <["creationTimestampBefore" := [Format (go_Before o)]]> params else params.

(** The path of a resource, without its query. *)
Definition apiPath (info : ResourceInfo) (namespace : option string) (name : string) : string :=
  let path := ri_GroupVersion info +:+
    match namespace with
    | Some ns => "/namespaces/" +:+ ns +:+ "/" +:+ ri_Resource info
    | None => "/" +:+ ri_Resource info
    end in
  let path := if nonempty name then path +:+ "/" +:+ name else path in
  if String.eqb (ri_Group info) "" then "/api/" +:+ path else "/apis/" +:+ path.
End options.

Section complete.
  Context `{!CliText, !KubeConfig, !Discovery, !RESTMapper, !MapRange}.

(** [Complete] after [CompleteRetriever]; [archivedChanged] and [inClusterChanged] tell
    whether the flags were given.  A missing argument is out of range. *)
Definition Complete (now : Z) (archivedChanged inClusterChanged : bool) (args : list string)
    (opts : KARetrieverOptions) (o : GetOptions)
    : outcome GetError (KARetrieverOptions * GetOptions) :=
  let name := match args with _ :: n :: _ => n | _ => go_Name o end in
  if nonempty name && nonempty (go_LabelSelector o) then Err NameAndSelector
  else if negb (go_InCluster o) && negb (go_Archived o) then Err NoSource
  else
    let inCluster := if archivedChanged && go_Archived o then false else go_InCluster o in
    let archived := if inClusterChanged && inCluster then false else go_Archived o in
    if (go_Limit o <? 1)%Z || (1000 <? go_Limit o)%Z then Err BadLimit
    else if (Instant (go_Before o) <=? Instant (go_After o))%Z then Err BeforeNotAfter
    else
      match args with
      | [] => Panic
      | spec :: _ =>
          match ResolveResourceSpec spec with
          | Err e => Err (GetRetrieverError e)
          | Panic => Panic
          | Ok info =>
              '(namespace, opts) ←
                (if ri_Namespaced info && negb (go_AllNamespaces o) then
                   match GetNamespace opts with
                   | (Ok ns, opts) => Ok (Some ns, opts)
                   | (Err e, _) => Err (GetRetrieverError e)
                   | (Panic, _) => Panic
                   end
                 else Ok (None, opts));
              let path := apiPath info namespace name in
              let path := if nonempty (go_LabelSelector o)
                          then path +:+ "?labelSelector=" +:+ QueryEscape (go_LabelSelector o)
                          else path in
              let completed params :=
                {| go_AllNamespaces := go_AllNamespaces o; go_APIPath := path;
                   go_ResourceInfo := Some info; go_Name := name;
                   go_LabelSelector := go_LabelSelector o; go_OutputFormat := go_OutputFormat o;
                   go_InCluster := inCluster; go_Archived := archived; go_Limit := go_Limit o;
                   go_After := go_After o; go_Before := go_Before o;
                   go_kubearchiveQueryParams := params |} in
              Ok (opts, completed (buildKubeArchiveQueryParams now
                                     (completed (go_kubearchiveQueryParams o))))
          end
      end.
End complete.

(** ** [Run] *)

Section run.
  Context {O : Type} `{!Unstructured O, !CliJSON O, !CliText, !KubeConfig, !HTTPLib, !StatusJSON}.

Inductive RunError :=
| RunAPIError (e : APIError) | RunFails (message : string) | RunNamespaceFailed.

(** What a run prints: the resources, and the command for the next page. *)
Record RunOutput := {
  out_resources : list (ResourceWithAvailability O); out_next : option string;
}.

(** [parseResourcesFromBytes]; [None] is an error. *)
Definition parseResourcesFromBytes (o : GetOptions) (bodyBytes : string) : option (list O) :=
  if nonempty (go_Name o) then (λ resource, [resource]) <$> UnmarshalObject bodyBytes
  else UnmarshalList bodyBytes.

Definition getContinueToken (bodyBytes : string) : string :=
  default "" (UnmarshalContinue (O:=O) bodyBytes).

Definition parsingError (url body : string) : RunError :=
  RunAPIError {| err_StatusCode := 200; err_URL := url;
                 err_Message := "error parsing resources"; err_Body := body |}.

(** The resources of the cluster, whether some were trimmed, and whether the cluster
    has none to give. *)
Definition runCluster (opts : KARetrieverOptions) (o : GetOptions)
    : outcome RunError (list (ResourceWithAvailability O) * bool * bool) :=
  if go_InCluster o then
    match GetFromAPI opts Kubernetes (go_APIPath o) with
    | Panic => Panic
    | Err apiErr =>
        if negb (err_StatusCode apiErr =? StatusNotFound)%Z then Err (RunAPIError apiErr)
        else Ok ([], false, true)
    | Ok bodyBytes =>
        match parseResourcesFromBytes o bodyBytes with
        | None => Err (parsingError "Kubernetes API" bodyBytes)
        | Some resources =>
            match insertSortedResourcesOptimized (go_Limit o) [] resources true with
            | Ok (sortedResources, k8sTrimmed, _) => Ok (sortedResources, k8sTrimmed, false)
            | _ => Panic
            end
        end
    end
  else Ok ([], false, true).

Definition kubearchiveAPIPath (o : GetOptions) : string :=
  let basePath := (Cut "?" (go_APIPath o)).1 in
  let query := EncodeQuery (go_kubearchiveQueryParams o) in
  if nonempty query then basePath +:+ "?" +:+ query else basePath.

Definition isAuthenticationError (e : APIError) : bool :=
  (err_StatusCode e =? StatusUnauthorized)%Z ||
  Contains (err_Message e) "empty authorization bearer token given" ||
  Contains (err_Message e) "authentication failed".

(** What the archive adds: the list, the trimmed flags of the two sides, whether the
    archive has nothing to give, and its token. *)
Record ArchiveRun := {
  ar_sorted : list (ResourceWithAvailability O); ar_k8sTrimmed : bool; ar_k9eTrimmed : bool;
  ar_notFound : bool; ar_token : string;
}.

Definition runArchive (opts : KARetrieverOptions) (o : GetOptions)
    (sortedResources : list (ResourceWithAvailability O)) : outcome RunError ArchiveRun :=
  let nothing := {| ar_sorted := sortedResources; ar_k8sTrimmed := false; ar_k9eTrimmed := false;
                    ar_notFound := true; ar_token := "" |} in
  let have := (0 <? length sortedResources)%nat in
  if go_Archived o then
    match GetFromAPI opts KubeArchive (kubearchiveAPIPath o) with
    | Panic => Panic
    | Err apiErr =>
        if isAuthenticationError apiErr
        then Err (RunFails ("KubeArchive authentication required: " +:+ err_Message apiErr))
        else if have then Ok nothing
        else if negb (err_StatusCode apiErr =? StatusNotFound)%Z then Err (RunAPIError apiErr)
        else Ok nothing
    | Ok bodyBytes =>
        match parseResourcesFromBytes o bodyBytes with
        | None => if have then Ok nothing else Err (parsingError "KubeArchive API" bodyBytes)
        | Some resources =>
            match insertSortedResourcesOptimized (go_Limit o) sortedResources resources false with
            | Ok (sorted, k8sTrimmed, k9eTrimmed) =>
                Ok {| ar_sorted := sorted; ar_k8sTrimmed := k8sTrimmed; ar_k9eTrimmed := k9eTrimmed;
                      ar_notFound := false; ar_token := getContinueToken bodyBytes |}
            | _ => Panic
            end
        end
    end
  else Ok nothing.

(** The message of [prefix] resources not found, for the sources asked for; none when
    none was. *)
Definition notFoundIn (o : GetOptions) (prefix : string) : option string :=
  if go_InCluster o && go_Archived o then Some (prefix +:+ " in Kubernetes or KubeArchive")
  else if go_InCluster o then Some (prefix +:+ " in Kubernetes cluster")
  else if go_Archived o then Some (prefix +:+ " in KubeArchive")
  else None.

(** The error when neither source has anything, none when neither was asked. *)
Definition bothNotFoundError (o : GetOptions) : option string :=
  match (if nonempty (go_Name o) then notFoundIn o "resource not found" else None) with
  | Some m => Some m
  | None => notFoundIn o "no resources found"
  end.

(** The error of an empty list. *)
Definition emptyError (opts : KARetrieverOptions) (o : GetOptions) : RunError :=
  match (if nonempty (go_Name o) then notFoundIn o "resource not found" else None) with
  | Some m => RunFails m
  | None =>
      if go_AllNamespaces o then RunFails "no resources found"
      else
        match GetNamespace opts with
        | (Ok namespace, _) => RunFails ("no resources found in " +:+ namespace +:+ " namespace")
        | _ => RunNamespaceFailed
        end
  end.

(** The command for the next page. *)
Definition nextCommand (opts : KARetrieverOptions) (o : GetOptions) (info : ResourceInfo)
    (oldestTimestamp : Z) (moreInCluster moreArchived : bool) : string :=
  "kubectl ka get " +:+
  (if String.eqb (ri_Group info) "" then ri_Resource info
   else ri_Resource info +:+ "." +:+ ri_Version info +:+ "." +:+ ri_Group info) +:+
  (if ri_Namespaced info && negb (go_AllNamespaces o)
   then " --namespace " +:+ match GetNamespace opts with (Ok ns, _) => ns | _ => "" end
   else if go_AllNamespaces o then " --all-namespaces" else "") +:+
  (if nonempty (go_LabelSelector o) then " --selector '" +:+ go_LabelSelector o +:+ "'" else "") +:+
  " --limit " +:+ FormatInt (go_Limit o) +:+
  " --before " +:+ FormatNano (UTC (oldestTimestamp - 1)) +:+
  (if negb (IsZero (go_After o)) then " --after " +:+ Format (go_After o) else "") +:+
  (if moreArchived && negb moreInCluster then " --archived"
   else if moreInCluster && negb moreArchived then " --in-cluster" else "") +:+
  (if nonempty (go_OutputFormat o) then " --output " +:+ go_OutputFormat o else "").

(** [printPaginationMessage]; the last of no resources is out of range. *)
Definition printPaginationMessage (opts : KARetrieverOptions) (o : GetOptions)
    (resources : list (ResourceWithAvailability O)) (moreInCluster moreArchived : bool)
    : outcome RunError (option string) :=
  if negb moreInCluster && negb moreArchived then Ok None
  else
    match go_ResourceInfo o with
    | None => Err (RunFails "error generating command for getting the next page: no resource info")
    | Some info =>
        match last resources with
        | None => Panic
        | Some oldestResource =>
            let oldestTimestamp := GetCreationTimestamp (rwa_Resource oldestResource) in
            if (oldestTimestamp =? zeroTime)%Z then Ok None
            else Ok (Some (nextCommand opts o info oldestTimestamp moreInCluster moreArchived))
        end
    end.

Definition Run (opts : KARetrieverOptions) (o : GetOptions) : outcome RunError RunOutput :=
  '(sortedResources, k8sTrimmed, k8sNotFound) ← runCluster opts o;
  a ← runArchive opts o sortedResources;
  match (if k8sNotFound && ar_notFound a then bothNotFoundError o else None) with
  | Some m => Err (RunFails m)
  | None =>
      if (length (ar_sorted a) =? 0)%nat then Err (emptyError opts o)
      else
        next ← printPaginationMessage opts o (ar_sorted a) (k8sTrimmed || ar_k8sTrimmed a)
                 (nonempty (ar_token a) || ar_k9eTrimmed a);
        Ok {| out_resources := ar_sorted a; out_next := next |}
  end.
End run.
Arguments RunOutput O : clear implicits.
Arguments ArchiveRun O : clear implicits.
