(* ===== verification/CliLogs.v ===== *)
(** * [pkg/cmd/logs.go]: the command [logs]

    The resource and the name are taken from the argument, the names from the archive
    when a selector is given, and the log of each is asked for and printed. *)
From S2P Require Import Prelude GoLib GoStrings Api CliHttp CliConfig CliSetup Retriever CliGet.

(** [LogsOptions], the flags of the retriever left out. *)
Record LogsOptions := {
  lo_ContainerName : string; lo_Name : string; lo_ResourceInfo : option ResourceInfo;
  lo_LabelSelector : string;
}.

Inductive LogsError :=
| LogsNameAndSelector | LogsRetrieverError (e : RetrieverError) | LogsNamespaceFailed
| LogsAPIError (e : APIError) | NoResourcesFound (namespace : string).

Section complete.
  Context `{!Discovery, !RESTMapper, !MapRange}.

(** The resource and the name of an argument. *)
Definition splitArgument (o : LogsOptions) (arg : string) : string * string :=
  match Cut "/" arg with
  | (spec, Some name) => (spec, name)
  | (part, None) => if nonempty (lo_LabelSelector o) then (part, lo_Name o) else ("pods", part)
  end.

(** [Complete] after [CompleteRetriever]; a missing argument is out of range. *)
Definition CompleteLogs (args : list string) (o : LogsOptions) : outcome LogsError LogsOptions :=
  match args with
  | [] => Panic
  | arg :: _ =>
      let '(resourceSpec, name) := splitArgument o arg in
      if nonempty name && nonempty (lo_LabelSelector o) then Err LogsNameAndSelector
      else
        match ResolveResourceSpec resourceSpec with
        | Err e => Err (LogsRetrieverError e)
        | Panic => Panic
        | Ok info =>
            Ok {| lo_ContainerName := lo_ContainerName o; lo_Name := name;
                  lo_ResourceInfo := Some info; lo_LabelSelector := lo_LabelSelector o |}
        end
  end.
End complete.

(** The path of the resources of a namespace. *)
Definition resourcesPath (info : ResourceInfo) (ns : string) : string :=
  (if String.eqb (ri_Group info) "" then "/api" else "/apis") +:+ "/" +:+ ri_GroupVersion info +:+
  "/namespaces/" +:+ ns +:+ "/" +:+ ri_Resource info.

(** The path of a log; the container is put in the query as it is. *)
Definition logPath (info : ResourceInfo) (ns name containerName : string) : string :=
  let path := resourcesPath info ns +:+ "/" +:+ name +:+ "/log" in
  if nonempty containerName then path +:+ "?container=" +:+ containerName else path.

Section run.
  Context {O : Type} `{!Unstructured O, !CliJSON O, !CliText, !KubeConfig, !HTTPLib, !StatusJSON}.

(** The names the logs are asked of. *)
Definition logNames (opts : KARetrieverOptions) (o : LogsOptions) (info : ResourceInfo) (ns : string)
    : outcome LogsError (list string) :=
  if nonempty (lo_LabelSelector o) then
    match GetFromAPI opts KubeArchive
            (resourcesPath info ns +:+ "?labelSelector=" +:+ QueryEscape (lo_LabelSelector o)) with
    | Panic => Panic
    | Err apiErr => Err (LogsAPIError apiErr)
    | Ok bodyBytes =>
        match UnmarshalList (O:=O) bodyBytes with
        | None =>
            Err (LogsAPIError
                   {| err_StatusCode := 200; err_URL := "KubeArchive API";
                      err_Message := "error deserializing the body into unstructured.UnstructuredList";
                      err_Body := bodyBytes |})
        | Some [] => Err (NoResourcesFound ns)
        | Some items => Ok (GetName <$> items)
        end
    end
  else Ok [lo_Name o].

(** The logs printed, up to the first error. *)
Fixpoint printLogs (opts : KARetrieverOptions) (containerName : string) (info : ResourceInfo) (ns : string)
    (names : list string) : list string * outcome LogsError () :=
  match names with
  | [] => ([], Ok ())
  | name :: names =>
      match GetFromAPI opts KubeArchive (logPath info ns name containerName) with
      | Panic => ([], Panic)
      | Err apiErr => ([], Err (LogsAPIError apiErr))
      | Ok kubearchiveLog =>
          let '(logs, r) := printLogs opts containerName info ns names in
          (kubearchiveLog :: logs, r)
      end
  end.

(** [Run]: what it prints, a line for each, and its error. *)
Definition RunLogs (opts : KARetrieverOptions) (o : LogsOptions) : list string * outcome LogsError () :=
  match lo_ResourceInfo o with
  | None => ([], Panic)
  | Some info =>
      match GetNamespace opts with
      | (Panic, _) => ([], Panic)
      | (Err _, _) => ([], Err LogsNamespaceFailed)
      | (Ok ns, opts) =>
          match logNames opts o info ns with
          | Panic => ([], Panic)
          | Err e => ([], Err e)
          | Ok names => printLogs opts (lo_ContainerName o) info ns names
          end
      end
  end.

(** ** What is printed *)

(** The logs of the names, asked one after the other. *)
Lemma printLogs_spec opts containerName info ns names logs r :
  printLogs opts containerName info ns names = (logs, r) →
  ∃ printed rest, names = printed ++ rest ∧
    Forall2 (λ name log, GetFromAPI opts KubeArchive (logPath info ns name containerName) = Ok log) printed logs ∧
    match r with
    | Ok _ => rest = []
    | Err e => ∃ name rest' apiErr, rest = name :: rest' ∧ e = LogsAPIError apiErr ∧
        GetFromAPI opts KubeArchive (logPath info ns name containerName) = Err apiErr
    | Panic => ∃ name rest', rest = name :: rest' ∧
        GetFromAPI opts KubeArchive (logPath info ns name containerName) = Panic
    end.
Proof.
  revert logs r. induction names as [|name names IH]; intros logs r; cbn [printLogs].
  { intros [= <- <-]. by exists [], []. }
  destruct (GetFromAPI _ _ _) as [log|e|] eqn:Eg.
  - destruct (printLogs _ _ _ _ names) as [logs' r'] eqn:Ep. intros [= <- <-].
    destruct (IH logs' r' eq_refl) as (printed & rest & -> & Hall & Hr).
    exists (name :: printed), rest. split; [done|]. split; [by constructor|done].
  - intros [= <- <-]. exists [], (name :: names). split; [done|]. split; [constructor|]. by exists name, names, e.
  - intros [= <- <-]. exists [], (name :: names). split; [done|]. split; [constructor|]. by exists name, names.
Qed.
End run.
