(* ===== verification/CliMerge.v ===== *)
(** * The merge of [get]: a bounded insertion is the head of an unbounded one

    [insertSortedResourcesOptimized] never holds more than the limit.  It gives the
    first resources of a reference merge without limit, and its flags say what the
    rest of that merge holds. *)
From S2P Require Import Prelude GoLib GoStrings Api CliGet Samples.

Section merge.
  Context {O : Type} `{!Unstructured O}.
  Implicit Types (F : list (ResourceWithAvailability O)) (r o : O).

(** ** The order of the list: newest first, then by name, last name first *)

Definition sameKey (a b : O) : Prop :=
  GetCreationTimestamp a = GetCreationTimestamp b ∧ GetName a = GetName b.

Definition precedes (a b : O) : Prop :=
  (GetCreationTimestamp b < GetCreationTimestamp a)%Z ∨
  GetCreationTimestamp a = GetCreationTimestamp b ∧ (Compare (GetName b) (GetName a) < 0)%Z.

#[export] Instance sameKey_dec a b : Decision (sameKey a b).
Proof. unfold sameKey. apply _. Defined.

#[export] Instance precedes_dec a b : Decision (precedes a b).
Proof. unfold precedes. apply _. Defined.

(** An object keeps its creation time and its name. *)
Definition identified (l : list O) : Prop :=
  ∀ a b, a ∈ l → b ∈ l → GetUID a = GetUID b → sameKey a b.

Lemma Compare_lt_trans x y z :
  (Compare x y < 0)%Z → (Compare y z < 0)%Z → (Compare x z < 0)%Z.
Proof.
  intros H1 H2. destruct (Z.lt_trichotomy (Compare x z) 0) as [?|[H3|H3]]; [done|exfalso..].
  - apply Compare_eq in H3 as ->. rewrite (Compare_opp y z) in H1. lia.
  - assert (Compare z x <= 0)%Z as Hz by (rewrite (Compare_opp x z); lia).
    assert (Compare y x <= 0)%Z as Hy.
    { rewrite Compare_le in *. etrans; [|done]. apply Compare_le. lia. }
    rewrite (Compare_opp x y) in Hy. lia.
Qed.

Lemma precedes_trans a b c : precedes a b → precedes b c → precedes a c.
Proof.
  unfold precedes. intros [H1|[E1 H1]] [H2|[E2 H2]]; [left; lia..|right].
  split; [congruence|]. by eapply Compare_lt_trans.
Qed.

Lemma precedes_irrefl a b : sameKey a b → ¬ precedes a b.
Proof. intros [Ht Hn] [H|[_ H]]; [lia|]. rewrite Hn, Compare_refl in H. lia. Qed.

Lemma sameKey_sym a b : sameKey a b → sameKey b a.
Proof. by intros [Ht Hn]. Qed.

Lemma precedes_sameKey_l a b c : sameKey a b → precedes a c → precedes b c.
Proof. unfold precedes. intros [Ht Hn]. by rewrite Ht, Hn. Qed.

Lemma precedes_sameKey_r a b c : sameKey a b → precedes c a → precedes c b.
Proof. unfold precedes. intros [Ht Hn]. by rewrite Ht, Hn. Qed.

Lemma cmpResource_spec (e : ResourceWithAvailability O) r :
  (GetUID (rwa_Resource e) = GetUID r → sameKey (rwa_Resource e) r) →
  ((cmpResource e r < 0)%Z ↔ precedes (rwa_Resource e) r) ∧
  (cmpResource e r = 0%Z ↔ sameKey (rwa_Resource e) r) ∧
  ((0 < cmpResource e r)%Z ↔ precedes r (rwa_Resource e)).
Proof.
  intros Hid. unfold cmpResource, precedes, sameKey in *. set (x := rwa_Resource e) in *.
  destruct (Z.ltb_spec (GetCreationTimestamp x) (GetCreationTimestamp r)).
  { repeat split; intros; lia. }
  destruct (Z.ltb_spec (GetCreationTimestamp r) (GetCreationTimestamp x)).
  { repeat split; intros; lia. }
  assert (GetCreationTimestamp x = GetCreationTimestamp r) as Ht by lia.
  destruct (String.eqb_spec (GetUID r) (GetUID x)) as [Hu|Hu].
  - destruct (Hid (eq_sym Hu)) as [_ Hn]. rewrite Hn, Compare_refl. repeat split; intros; lia || done.
  - rewrite Compare_eq, (Compare_opp (GetName r) (GetName x)). repeat split; intros; lia || naive_solver.
Qed.

(** ** The reference: insertion without limit *)

Definition newAvailability (fromK8s : bool) r : ResourceWithAvailability O :=
  {| rwa_Resource := r; rwa_InCluster := fromK8s; rwa_Archived := negb fromK8s |}.

Fixpoint insertReference (fromK8s : bool) F r : list (ResourceWithAvailability O) :=
  match F with
  | [] => [newAvailability fromK8s r]
  | e :: F' =>
      if decide (sameKey (rwa_Resource e) r) then markFound fromK8s e :: F'
      else if decide (precedes (rwa_Resource e) r) then e :: insertReference fromK8s F' r
      else newAvailability fromK8s r :: F
  end.

Definition mergeReference (k8s k9e : list O) : list (ResourceWithAvailability O) :=
  foldl (insertReference false) (foldl (insertReference true) [] k8s) k9e.

Lemma precedes_total a b : ¬ sameKey a b → ¬ precedes a b → precedes b a.
Proof.
  unfold sameKey, precedes. intros Hs Hp.
  destruct (Z.lt_trichotomy (GetCreationTimestamp a) (GetCreationTimestamp b)) as [?|[Ht|?]];
    [by left|right|by destruct Hp; left].
  split; [done|]. rewrite (Compare_opp (GetName b) (GetName a)).
  destruct (Z.lt_trichotomy (Compare (GetName b) (GetName a)) 0) as [?|[E%Compare_eq|?]]; [|by destruct Hs|lia].
  destruct Hp. by right.
Qed.

Definition sorted F : Prop :=
  StronglySorted (λ e e', precedes (rwa_Resource e) (rwa_Resource e')) F.

Lemma markFound_Resource b (e : ResourceWithAvailability O) :
  rwa_Resource (markFound b e) = rwa_Resource e.
Proof. by destruct b. Qed.

(** Where a resource goes in a sorted list. *)
Lemma insertReference_split b F r :
  sorted F →
  ∃ l1 l2, F = l1 ++ l2 ∧
    Forall (λ e, precedes (rwa_Resource e) r) l1 ∧
    Forall (λ e, ¬ precedes (rwa_Resource e) r) l2 ∧
    ((∃ e l2', l2 = e :: l2' ∧ sameKey (rwa_Resource e) r ∧
        insertReference b F r = l1 ++ markFound b e :: l2') ∨
     (Forall (λ e, precedes r (rwa_Resource e)) l2 ∧
        insertReference b F r = l1 ++ newAvailability b r :: l2)).
Proof.
  induction F as [|e F IH]; intros Hs.
  { exists [], []. split; [done|]. split; [done|]. split; [done|]. by right. }
  apply StronglySorted_inv in Hs as [Hs Hall]. cbn [insertReference].
  destruct (decide (sameKey (rwa_Resource e) r)) as [Hk|Hk].
  - exists [], (e :: F). split; [done|]. split; [done|]. split; [|by left; exists e, F].
    constructor; [by apply precedes_irrefl|]. eapply Forall_impl; [done|].
    intros e' He' Hr. exact (precedes_irrefl _ _ Hk (precedes_trans _ _ _ He' Hr)).
  - destruct (decide (precedes (rwa_Resource e) r)) as [Hp|Hp].
    + destruct (IH Hs) as (l1 & l2 & -> & H1 & H2 & H3). exists (e :: l1), l2.
      split; [done|]. split; [by constructor|]. split; [done|].
      destruct H3 as [(e' & l2' & -> & Hk' & ->)|[H3 ->]]; [left; by exists e', l2'|by right].
    + pose proof (precedes_total _ _ Hk Hp) as Hr.
      assert (Forall (λ e', precedes r (rwa_Resource e')) (e :: F)) as Hrest.
      { constructor; [done|]. eapply Forall_impl; [done|]. intros e' He'. exact (precedes_trans _ _ _ Hr He'). }
      exists [], (e :: F). split; [done|]. split; [done|]. split; [|by right].
      eapply Forall_impl; [done|]. intros e' He' He''.
      exact (precedes_irrefl r r (conj eq_refl eq_refl) (precedes_trans _ _ _ He' He'')).
Qed.

Lemma sorted_insertReference b F r : sorted F → sorted (insertReference b F r).
Proof.
  induction F as [|e F IH]; intros Hs; [by repeat constructor|].
  apply StronglySorted_inv in Hs as [Hs Hall]. cbn [insertReference].
  destruct (decide (sameKey (rwa_Resource e) r)) as [Hk|Hk].
  { constructor; [done|]. by rewrite markFound_Resource. }
  destruct (decide (precedes (rwa_Resource e) r)) as [Hp|Hp].
  - constructor; [by apply IH|].
    assert (∀ x, x ∈ insertReference b F r →
      (∃ y, y ∈ F ∧ rwa_Resource x = rwa_Resource y) ∨ rwa_Resource x = r) as Hin.
    { clear. induction F as [|y F IH]; cbn [insertReference].
      - intros x ->%list_elem_of_singleton. by right.
      - intros x. case_decide; [|case_decide]; intros [->|Hx]%elem_of_cons.
        + left. exists y. split; [by left|apply markFound_Resource].
        + left. exists x. split; [by right|done].
        + left. exists y. split; [by left|done].
        + destruct (IH x Hx) as [(z & Hz & ?)|?]; [left; exists z; split; [by right|done]|by right].
        + by right.
        + left. by exists x. }
    apply Forall_forall. intros x [(y & Hy & ->)| ->]%Hin; [|done].
    by eapply Forall_forall in Hall.
  - constructor; [by constructor|]. pose proof (precedes_total _ _ Hk Hp) as Hr.
    constructor; [done|]. eapply Forall_impl; [done|]. intros e' He'. exact (precedes_trans _ _ _ Hr He').
Qed.

(** ** One round *)

Lemma copy_within_end {A} (x : list A) i :
  copy_within x (S i) i (length x) = copy_within x (S i) i (length x - 1).
Proof.
  unfold copy_within. assert (take (length x - S i) (take (length x - i) (drop i x)) =
    take (length x - S i) (take (length x - 1 - i) (drop i x))) as ->; [|done].
  rewrite !take_take. f_equal. lia.
Qed.

(** The copy and the store that make room at [i]. *)
Lemma store_shifted {A} (x : list A) i a :
  i < length x →
  set_index (E:=Empty_set) (copy_within x (S i) i (length x)) (Z.of_nat i) a =
  Ok (take i x ++ a :: take (length x - 1 - i) (drop i x)).
Proof.
  intros Hi. rewrite copy_within_end. pose proof (copy_within_shift x i a Hi) as Hc.
  rewrite set_index_Ok, Nat2Z.id, Hc; [done|].
  apply (f_equal length) in Hc. rewrite length_insert in Hc. rewrite Hc, length_app.
  cbn [length]. rewrite !length_take, length_drop. lia.
Qed.

(** Storing in a full slice, whose last element leaves, and in a slice with room. *)
Lemma store_full {A} (l1 l2 : list A) n e x :
  l2 !! n = Some e →
  let s := l1 ++ take (S n) l2 in
  length s = (length l1 + S n)%nat ∧
  index (E:=Empty_set) s (Z.of_nat (length l1 + S n) - 1) = Ok e ∧
  set_index (E:=Empty_set) (copy_within s (S (length l1)) (length l1) (length l1 + S n))
    (Z.of_nat (length l1)) x = Ok (l1 ++ x :: take n l2).
Proof.
  intros He s. pose proof (lookup_lt_Some _ _ _ He) as Hn.
  assert (length s = (length l1 + S n)%nat) as Hlen
    by (unfold s; rewrite length_app, length_take; lia).
  split_and!; [done| |].
  - apply index_Ok; [lia|]. replace (Z.to_nat _) with (length l1 + n)%nat by lia. unfold s.
    rewrite lookup_app_r by lia. replace (length l1 + n - length l1)%nat with n by lia.
    by rewrite lookup_take, decide_True by lia.
  - rewrite <-Hlen, store_shifted by (rewrite Hlen; lia). rewrite Hlen. unfold s.
    rewrite take_app_length, drop_app_length, take_take.
    by replace ((length l1 + S n - 1 - length l1) `min` S n)%nat with n by lia.
Qed.

Lemma store_room {A} (l1 l2 : list A) y x :
  let s := (l1 ++ l2) ++ [y] in
  set_index (E:=Empty_set) (copy_within s (S (length l1)) (length l1) (length s))
    (Z.of_nat (length l1)) x = Ok (l1 ++ x :: l2).
Proof.
  intros s. rewrite store_shifted by (unfold s; rewrite !length_app; cbn [length]; lia). unfold s.
  rewrite <-app_assoc, take_app_length, drop_app_length, !length_app. cbn [length].
  replace (length l1 + (length l2 + 1) - 1 - length l1)%nat with (length l2) by lia.
  by rewrite take_app_length.
Qed.

(** The flags a list of dropped elements raises. *)
Definition anyInCluster F : bool := existsb rwa_InCluster F.
Definition anyArchived F : bool := existsb rwa_Archived F.

(** What the search gives on the first [c] elements of a sorted list. *)
Lemma search_take c l1 l2 r :
  (∀ e, e ∈ l1 ++ l2 → GetUID (rwa_Resource e) = GetUID r → sameKey (rwa_Resource e) r) →
  Forall (λ e, precedes (rwa_Resource e) r) l1 → Forall (λ e, ¬ precedes (rwa_Resource e) r) l2 →
  BinarySearchFunc (take c (l1 ++ l2)) r cmpResource =
  ((c `min` length l1)%nat,
   match take (c - length l1) l2 with
   | e :: _ => bool_decide (sameKey (rwa_Resource e) r)
   | [] => false
   end).
Proof.
  intros Hid H1 H2. rewrite take_app.
  assert ((BinarySearchFunc (take c l1 ++ take (c - length l1) l2) r cmpResource).1 =
    length (take c l1)) as Hi.
  { apply (BinarySearchFunc_partition _ _ _ (take c l1) (take (c - length l1) l2)); [done| |].
    - apply Forall_forall. intros e He%elem_of_take. destruct He as (i & He & _).
      apply list_elem_of_lookup_2 in He. apply cmpResource_spec; [apply Hid; set_solver|].
      by eapply Forall_forall in H1.
    - apply Forall_forall. intros e He%elem_of_take. destruct He as (i & He & _).
      apply list_elem_of_lookup_2 in He. apply Z.nlt_ge.
      rewrite (proj1 (cmpResource_spec e r ltac:(apply Hid; set_solver))).
      by eapply Forall_forall in H2. }
  revert Hi. unfold BinarySearchFunc. cbn [fst]. intros Hi. rewrite Hi, length_take. f_equal.
  rewrite lookup_app_r by (rewrite length_take; lia). rewrite length_take.
  replace (c `min` length l1 - c `min` length l1)%nat with 0%nat by lia.
  destruct (take (c - length l1) l2) as [|e l] eqn:E; [done|]. cbn.
  assert (e ∈ l2) as He.
  { assert (e ∈ take (c - length l1) l2) as He by (rewrite E; by left).
    apply elem_of_take in He as (i & He & _). by eapply list_elem_of_lookup_2. }
  pose proof (cmpResource_spec e r ltac:(apply Hid; set_solver)) as (_ & Hz & _).
  rewrite Bool.eq_iff_eq_true, Z.eqb_eq, bool_decide_eq_true. done.
Qed.

Lemma existsb_app_comm (P : ResourceWithAvailability O → bool) l1 e l2 :
  existsb P (l1 ++ e :: l2) = existsb P (l1 ++ l2) || P e.
Proof. rewrite !existsb_app. cbn. destruct (P e), (existsb P l1); by rewrite ?orb_true_r, ?orb_false_r. Qed.

(** What a round gives, and the flags it raises, against the reference. *)
Definition follows (k : bool) (c : nat) (F : list (ResourceWithAvailability O)) (b1 b2 : bool) (r : O) : Prop :=
  ∃ d1 d2,
    insertResource k c (take c F, b1, b2) r =
      Ok (take c (insertReference k F r), b1 || d1, b2 || d2) ∧
    anyInCluster (drop c (insertReference k F r)) = anyInCluster (drop c F) || d1 ∧
    anyArchived (drop c (insertReference k F r)) = anyArchived (drop c F) || d2.

(** A resource that is not there yet, and belongs among the first [c]. *)
Lemma insertResource_new k l1 l2 n b1 b2 r :
  let c := (length l1 + S n)%nat in
  insertReference k (l1 ++ l2) r = l1 ++ newAvailability k r :: l2 →
  BinarySearchFunc (take c (l1 ++ l2)) r cmpResource = (length l1, false) →
  follows k c (l1 ++ l2) b1 b2 r.
Proof.
  intros c Href Hsearch. unfold follows, insertResource. rewrite Hsearch, Href.
  rewrite (proj2 (Nat.ltb_lt (length l1) c)) by lia. fold (newAvailability k r). unfold c.
  rewrite !take_app_add, !drop_app_add. cbn [take firstn drop skipn].
  destruct (le_lt_dec (S n) (length l2)) as [Hfull|Hroom].
  - (* the last element leaves *)
    destruct (lookup_lt_is_Some_2 l2 n ltac:(lia)) as [e He].
    destruct (store_full l1 l2 n e (newAvailability k r) He) as (Hlen & Hi & Hst).
    rewrite Hlen, Nat.eqb_refl, Hi. cbn [mbind outcome_bind]. rewrite Hlen, Hst. cbn [mbind outcome_bind].
    exists (rwa_InCluster e), (rwa_Archived e). split; [done|].
    rewrite (drop_S l2 e n He). unfold anyInCluster, anyArchived. cbn [existsb].
    by rewrite !(orb_comm (rwa_InCluster e)), !(orb_comm (rwa_Archived e)).
  - (* the list grows *)
    rewrite (take_ge l2 (S n)), (take_ge l2 n), (drop_ge l2 n), (drop_ge l2 (S n)) by lia.
    rewrite length_app, (proj2 (Nat.eqb_neq _ _)) by lia. cbn [mbind outcome_bind].
    rewrite store_room. cbn [mbind outcome_bind]. exists false, false. by rewrite !orb_false_r.
Qed.

(** A round on the first [c] elements: the list is the first [c] elements of the
    reference, and the flags grow by what the rest of the reference gains. *)
Lemma insertResource_reference k c F b1 b2 r :
  sorted F →
  (∀ e, e ∈ F → GetUID (rwa_Resource e) = GetUID r → sameKey (rwa_Resource e) r) →
  follows k c F b1 b2 r.
Proof.
  intros Hs Hid. destruct (insertReference_split k F r Hs) as (l1 & l2 & -> & H1 & H2 & H3).
  pose proof (search_take c l1 l2 r Hid H1 H2) as Hsearch.
  destruct (le_lt_dec c (length l1)) as [Hc|Hc].
  - (* beyond the limit *)
    replace (c - length l1)%nat with 0%nat in Hsearch by lia. rewrite take_0, Nat.min_l in Hsearch by done.
    unfold follows, insertResource. rewrite Hsearch, Nat.ltb_irrefl.
    exists k, (negb k). unfold anyInCluster, anyArchived.
    destruct H3 as [(e & l2' & -> & Hk & ->)|[H3 ->]];
      rewrite !take_app_le, !drop_app_le by done; (split; [done|]);
      rewrite !existsb_app; cbn [existsb]; destruct k; cbn;
      rewrite ?orb_true_r, ?orb_false_r; auto.
  - rewrite Nat.min_r in Hsearch by lia.
    destruct (c - length l1)%nat as [|n] eqn:En; [lia|].
    destruct H3 as [(e & l2' & -> & Hk & Href)|[H3 Href]].
    + (* found *)
      cbn [take firstn] in Hsearch. rewrite bool_decide_eq_true_2 in Hsearch by done.
      unfold follows, insertResource. rewrite Hsearch, Href.
      exists false, false. rewrite !orb_false_r.
      rewrite !take_app, !drop_app, En. cbn [take firstn drop skipn].
      rewrite !take_ge, !drop_ge by lia. split; [|done].
      do 3 f_equal. by rewrite alter_app_r_alt, Nat.sub_diag by done.
    + assert (c = length l1 + S n)%nat as -> by lia.
      apply insertResource_new; [done|]. rewrite Hsearch. f_equal.
      destruct l2 as [|e l2]; [done|]. cbn. apply bool_decide_eq_false_2. intros Hk.
      apply Forall_inv in H3. by apply (precedes_irrefl r (rwa_Resource e)); [apply sameKey_sym|].
Qed.

(** ** All rounds *)

Lemma elem_of_insertReference k F r x :
  x ∈ insertReference k F r →
  rwa_Resource x = r ∨ ∃ y, y ∈ F ∧ rwa_Resource x = rwa_Resource y.
Proof.
  induction F as [|y F IH]; cbn [insertReference].
  - intros ->%list_elem_of_singleton. by left.
  - case_decide; [|case_decide]; intros [->|Hx]%elem_of_cons.
    + right. exists y. split; [by left|apply markFound_Resource].
    + right. exists x. split; [by right|done].
    + right. exists y. split; [by left|done].
    + destruct (IH Hx) as [?|(z & Hz & ?)]; [by left|right; exists z; split; [by right|done]].
    + by left.
    + right. by exists x.
Qed.

Lemma length_insertReference k F r : (length (insertReference k F r) ≤ S (length F))%nat.
Proof.
  induction F as [|y F IH]; [done|]. cbn [insertReference].
  case_decide; [|case_decide]; cbn [length]; lia.
Qed.

Definition within (pool : list O) F : Prop := ∀ e, e ∈ F → rwa_Resource e ∈ pool.

Lemma within_insertReference pool k F r :
  within pool F → r ∈ pool → within pool (insertReference k F r).
Proof. intros Hw Hr e [->|(y & Hy & ->)]%elem_of_insertReference; [done|by apply Hw]. Qed.

Lemma insertAll_reference pool k c rs F b1 b2 :
  identified pool → within pool F → (∀ r, r ∈ rs → r ∈ pool) → sorted F →
  ∃ d1 d2,
    insertAll k c (take c F, b1, b2) rs =
      Ok (take c (foldl (insertReference k) F rs), b1 || d1, b2 || d2) ∧
    anyInCluster (drop c (foldl (insertReference k) F rs)) = anyInCluster (drop c F) || d1 ∧
    anyArchived (drop c (foldl (insertReference k) F rs)) = anyArchived (drop c F) || d2.
Proof.
  intros Hid. revert F b1 b2. induction rs as [|r rs IH]; intros F b1 b2 Hw Hrs Hs.
  - exists false, false. by rewrite !orb_false_r.
  - assert (r ∈ pool) as Hr by (apply Hrs; by left).
    destruct (insertResource_reference k c F b1 b2 r Hs) as (d1 & d2 & Hi & Hk & Ha).
    { intros e He. apply Hid; [by apply Hw|done]. }
    cbn [insertAll]. rewrite Hi. cbn [mbind outcome_bind foldl].
    destruct (IH (insertReference k F r) (b1 || d1) (b2 || d2)) as (d1' & d2' & -> & -> & ->).
    + by apply within_insertReference.
    + intros r' Hr'. apply Hrs. by right.
    + by apply sorted_insertReference.
    + exists (d1 || d1'), (d2 || d2'). by rewrite Hk, Ha, !orb_assoc.
Qed.

Lemma length_foldl_insert k rs F :
  (length (foldl (insertReference k) F rs) ≤ length rs + length F)%nat.
Proof.
  revert F. induction rs as [|r rs IH]; intros F; [done|]. cbn [foldl length].
  specialize (IH (insertReference k F r)). pose proof (length_insertReference k F r). lia.
Qed.

Lemma sorted_foldl k rs F : sorted F → sorted (foldl (insertReference k) F rs).
Proof. revert F. induction rs as [|r rs IH]; intros F Hs; [done|]. by apply IH, sorted_insertReference. Qed.

(** One call, on the head of a reference list. *)
Lemma insertSorted_reference pool limit k rs F :
  (0 <= limit)%Z → identified pool → within pool F → (∀ r, r ∈ rs → r ∈ pool) → sorted F →
  let n := Z.to_nat limit in
  let F' := foldl (insertReference k) F rs in
  ∃ d1 d2,
    insertSortedResourcesOptimized limit (take n F) rs k = Ok (take n F', d1, d2) ∧
    anyInCluster (drop n F') = anyInCluster (drop n F) || d1 ∧
    anyArchived (drop n F') = anyArchived (drop n F) || d2.
Proof.
  intros Hl Hid Hw Hrs Hs n F'. unfold insertSortedResourcesOptimized.
  assert (length (take n F) = n `min` length F) as Hlen by (by rewrite length_take).
  rewrite (proj2 (Z.ltb_ge _ _)) by lia.
  set (c := Z.to_nat (Z.min (Z.of_nat (length rs + length (take n F))) limit)).
  assert (c = (length rs + n `min` length F) `min` n)%nat as Hc by lia.
  pose proof (length_foldl_insert k rs F) as Hlen'. fold F' in Hlen'.
  assert (take n F = take c F) as ->.
  { destruct (le_lt_dec n (length F)); [by replace c with n by lia|].
    by rewrite !take_ge by lia. }
  destruct (insertAll_reference pool k c rs F false false Hid Hw Hrs Hs) as (d1 & d2 & -> & H1 & H2).
  fold F' in H1, H2 |- *. exists d1, d2. cbn [orb].
  destruct (le_lt_dec n c).
  - replace n with c by lia. done.
  - rewrite (take_ge F' c), (take_ge F' n) by lia. split; [done|].
    rewrite !drop_ge in H1, H2 by lia. rewrite !drop_ge by lia. done.
Qed.

(** ** What the reference holds *)

(** [F] merges the cluster's [K] and the archive's [A]. *)
Record merged (K A : list O) F : Prop := {
  merged_sorted : sorted F;
  merged_from e : e ∈ F → rwa_Resource e ∈ K ++ A;
  merged_all o : o ∈ K ++ A → ∃ e, e ∈ F ∧ sameKey (rwa_Resource e) o;
  merged_InCluster e : e ∈ F →
    rwa_InCluster e = true ↔ ∃ o, o ∈ K ∧ sameKey (rwa_Resource e) o;
  merged_Archived e : e ∈ F →
    rwa_Archived e = true ↔ ∃ o, o ∈ A ∧ sameKey (rwa_Resource e) o;
}.

Lemma sameKey_trans a b c : sameKey a b → sameKey b c → sameKey a c.
Proof. intros [Ht Hn] [Ht' Hn']. split; congruence. Qed.

Lemma sorted_lookup F i j e e' :
  sorted F → F !! i = Some e → F !! j = Some e' → i < j →
  precedes (rwa_Resource e) (rwa_Resource e').
Proof.
  intros Hs. revert i j. induction Hs as [|x F Hs IH Hall]; intros i j Hi Hj Hij; [done|].
  destruct j as [|j]; [lia|]. destruct i as [|i]; cbn in *.
  - injection Hi as ->. apply list_elem_of_lookup_2 in Hj. by eapply Forall_forall in Hall.
  - apply (IH i j); [done|done|lia].
Qed.

(** The element for a resource after its insertion, and the others. *)
Lemma insertReference_elements k F r :
  sorted F →
  (∃ e, e ∈ insertReference k F r ∧ sameKey (rwa_Resource e) r ∧
    (e = newAvailability k r ∧ (∀ y, y ∈ F → ¬ sameKey (rwa_Resource y) r) ∨
     ∃ y, y ∈ F ∧ e = markFound k y)) ∧
  (∀ e, e ∈ insertReference k F r → ¬ sameKey (rwa_Resource e) r → e ∈ F) ∧
  (∀ y, y ∈ F → ¬ sameKey (rwa_Resource y) r → y ∈ insertReference k F r) ∧
  (∀ e e', e ∈ insertReference k F r → e' ∈ insertReference k F r →
     sameKey (rwa_Resource e) r → sameKey (rwa_Resource e') r → e = e').
Proof.
  intros Hs. assert (∀ e e', e ∈ insertReference k F r → e' ∈ insertReference k F r →
     sameKey (rwa_Resource e) r → sameKey (rwa_Resource e') r → e = e') as Huniq.
  { intros e e' He He' Hk Hk'. pose proof (sorted_insertReference k F r Hs) as Hs'.
    apply list_elem_of_lookup in He as [i Hi], He' as [j Hj].
    destruct (lt_eq_lt_dec i j) as [[Hij| ->]|Hij]; [|congruence|].
    - destruct (precedes_irrefl (rwa_Resource e) (rwa_Resource e')).
      + eapply sameKey_trans; [done|by apply sameKey_sym].
      + by apply (sorted_lookup _ i j _ _ Hs').
    - destruct (precedes_irrefl (rwa_Resource e') (rwa_Resource e)).
      + eapply sameKey_trans; [done|by apply sameKey_sym].
      + by apply (sorted_lookup _ j i _ _ Hs'). }
  revert Huniq. destruct (insertReference_split k F r Hs) as (l1 & l2 & -> & H1 & H2 & H3).
  destruct H3 as [(e & l2' & -> & Hk & ->)|[H3 ->]]; intros Huniq; (split_and!; [| | |exact Huniq]).
  - exists (markFound k e). split; [set_solver|]. rewrite markFound_Resource. split; [done|].
    right. exists e. split; [set_solver|done].
  - intros x Hx Hn. apply elem_of_app in Hx as [?|[->|?]%elem_of_cons]; [set_solver| |set_solver].
    by rewrite markFound_Resource in Hn.
  - intros y Hy Hn. apply elem_of_app in Hy as [?|[->|?]%elem_of_cons]; [set_solver|done|set_solver].
  - exists (newAvailability k r). split; [set_solver|]. split; [done|]. left. split; [done|].
    intros y [Hy|Hy]%elem_of_app Hk.
    + eapply Forall_forall in H1; [|done]. by eapply precedes_irrefl.
    + eapply Forall_forall in H3; [|done]. apply sameKey_sym in Hk. by eapply precedes_irrefl.
  - intros x Hx Hn. apply elem_of_app in Hx as [?|[->|?]%elem_of_cons]; [set_solver|by destruct Hn|set_solver].
  - set_solver.
Qed.

(** The flag of one side after an insertion: [P] is the flag, [side] whether the
    insertion is on that side. *)
Lemma flag_insertReference (P : ResourceWithAvailability O → bool) (side : bool) (l : list O) k F r :
  sorted F →
  (∀ e, P (markFound k e) = P e || side) → P (newAvailability k r) = side →
  (∀ e, e ∈ F → P e = true ↔ ∃ o, o ∈ l ∧ sameKey (rwa_Resource e) o) →
  (∀ o, o ∈ l → ∃ e, e ∈ F ∧ sameKey (rwa_Resource e) o) →
  ∀ e, e ∈ insertReference k F r →
    P e = true ↔ ∃ o, o ∈ (if side then l ++ [r] else l) ∧ sameKey (rwa_Resource e) o.
Proof.
  intros Hs Hmark Hnew HP Hall e He.
  destruct (insertReference_elements k F r Hs) as ((x & Hx & Hxk & Hcase) & Hold & _ & Huniq).
  assert (∀ b, b ∈ (if side then l ++ [r] else l) ↔ b ∈ l ∨ side = true ∧ b = r) as Hin
    by (intros b; destruct side; set_solver).
  setoid_rewrite Hin. destruct (decide (sameKey (rwa_Resource e) r)) as [Hk|Hk].
  - assert (e = x) as -> by (by apply Huniq). destruct Hcase as [[-> Hnone]|(y & Hy & ->)].
    + rewrite Hnew. split; [intros Hside; exists r; by split_and!; auto|].
      intros (o & [Ho|[-> _]] & Hko); [|done]. exfalso. destruct (Hall o Ho) as (z & Hz & Hzk).
      exact (Hnone z Hz (sameKey_trans _ _ _ Hzk (sameKey_sym _ _ Hko))).
    + rewrite Hmark, orb_true_iff, (HP y Hy), markFound_Resource. rewrite markFound_Resource in Hk.
      split; [intros [(o & ? & ?)|Hside]; [exists o; by auto|exists r; by split_and!; auto]|].
      intros (o & [Ho|[-> _]] & Hko); [left; by exists o|by right].
  - rewrite (HP e (Hold e He Hk)). split; [intros (o & ? & ?); exists o; by auto|].
    intros (o & [Ho|[_ ->]] & Hko); [by exists o|done].
Qed.

Lemma merged_insert (k : bool) K A F r :
  merged K A F → (∀ o : O, o ∈ K ++ A → GetUID o = GetUID r → sameKey o r) →
  merged (if k then K ++ [r] else K) (if k then A else A ++ [r]) (insertReference k F r).
Proof.
  intros [Hs Hfrom Hall HK HA] Hid.
  destruct (insertReference_elements k F r Hs) as ((x & Hx & Hxk & Hcase) & Hold & Hnew & Huniq).
  assert (∀ o, o ∈ (if k then K ++ [r] else K) ++ (if k then A else A ++ [r]) ↔ o ∈ K ++ A ∨ o = r)
    as Hin by (intros o; destruct k; set_solver).
  split.
  - by apply sorted_insertReference.
  - intros e He. apply Hin. apply elem_of_insertReference in He as [->|(y & Hy & ->)]; [by right|].
    left. by apply Hfrom.
  - intros o [Ho| ->]%Hin; [|by exists x]. destruct (Hall o Ho) as (y & Hy & Hk).
    destruct (decide (sameKey (rwa_Resource y) r)) as [Hyr|Hyr]; [|by exists y; auto].
    exists x. split; [done|].
    exact (sameKey_trans _ _ _ Hxk (sameKey_trans _ _ _ (sameKey_sym _ _ Hyr) Hk)).
  - destruct k; cbn [negb].
    + apply (flag_insertReference rwa_InCluster true K true F r Hs); [|done|done|].
      * intros e. by rewrite orb_true_r.
      * intros o Ho. apply Hall. set_solver.
    + apply (flag_insertReference rwa_InCluster false K false F r Hs); [|done|done|].
      * intros e. by rewrite orb_false_r.
      * intros o Ho. apply Hall. set_solver.
  - destruct k.
    + apply (flag_insertReference rwa_Archived false A true F r Hs); [|done|done|].
      * intros e. by rewrite orb_false_r.
      * intros o Ho. apply Hall. set_solver.
    + apply (flag_insertReference rwa_Archived true A false F r Hs); [|done|done|].
      * intros e. by rewrite orb_true_r.
      * intros o Ho. apply Hall. set_solver.
Qed.

Lemma merged_foldl (k : bool) K A F rs :
  merged K A F → identified (K ++ A ++ rs) →
  merged (if k then K ++ rs else K) (if k then A else A ++ rs) (foldl (insertReference k) F rs).
Proof.
  revert K A F. induction rs as [|r rs IH]; intros K A F Hm Hid.
  - cbn. destruct k; by rewrite ?app_nil_r.
  - cbn [foldl]. assert (merged (if k then K ++ [r] else K) (if k then A else A ++ [r])
      (insertReference k F r)) as Hm'.
    { apply merged_insert; [done|]. intros o Ho. apply Hid; set_solver. }
    specialize (IH _ _ _ Hm'). destruct k; rewrite <-?app_assoc in IH; cbn [app] in IH; apply IH;
      intros a b Ha Hb; apply Hid; set_solver.
Qed.

Lemma mergeReference_merged K A : identified (K ++ A) → merged K A (mergeReference K A).
Proof.
  intros Hid. unfold mergeReference.
  apply (merged_foldl false K [] _ A); [|done].
  apply (merged_foldl true [] [] [] K).
  - split; [constructor|set_solver..].
  - intros a b Ha Hb. apply Hid; set_solver.
Qed.

(** The list [get] shows is the first resources, up to the limit, of the sorted
    union of the cluster's and the archive's, each marked with where it was found;
    the trimmed flags tell whether a resource of each side was left out. *)
Lemma merge_shows_first limit (k8s k9e : list O)
    (Hlimit : (0 <= limit)%Z) (Hid : identified (k8s ++ k9e)) :
  let full := mergeReference k8s k9e in
  let n := Z.to_nat limit in
  merged k8s k9e full ∧
  ∃ shown k8sTrimmed k8sTrimmedInMerge kubeArchiveTrimmed t,
    insertSortedResourcesOptimized limit [] k8s true = Ok (shown, k8sTrimmed, t) ∧
    insertSortedResourcesOptimized limit shown k9e false =
      Ok (take n full, k8sTrimmedInMerge, kubeArchiveTrimmed) ∧
    k8sTrimmed || k8sTrimmedInMerge = anyInCluster (drop n full) ∧
    kubeArchiveTrimmed = anyArchived (drop n full).
Proof.
  intros full n. split; [by apply mergeReference_merged|].
  destruct (insertSorted_reference (k8s ++ k9e) limit true k8s [] Hlimit Hid) as (d1 & d2 & H1 & Hd1 & Hd2).
  { intros e []%not_elem_of_nil. }
  { set_solver. }
  { constructor. }
  rewrite take_nil in H1. set (F1 := foldl (insertReference true) [] k8s) in *.
  assert (merged k8s [] F1) as Hm1.
  { apply (merged_foldl true [] [] [] k8s); [split; [constructor|set_solver..]|].
    intros a b Ha Hb. apply Hid; set_solver. }
  destruct (insertSorted_reference (k8s ++ k9e) limit false k9e F1 Hlimit Hid) as (d3 & d4 & H2 & Hd3 & Hd4).
  { intros e He. apply (merged_from _ _ _ Hm1) in He. set_solver. }
  { set_solver. }
  { apply (merged_sorted _ _ _ Hm1). }
  exists (take n F1), d1, d3, d4, d2. split; [done|]. split; [done|]. fold n in Hd1, Hd3, Hd4.
  rewrite drop_nil in Hd1. cbn in Hd1. split; [unfold full, mergeReference; fold F1; by rewrite Hd3, Hd1|].
  unfold full, mergeReference. fold F1. rewrite Hd4.
  assert (anyArchived (drop n F1) = false) as ->; [|done].
  apply not_true_iff_false. intros Ha. apply existsb_exists in Ha as (e & He & Ha).
  apply list_elem_of_In in He. assert (e ∈ F1) as He1
    by (rewrite <-(take_drop n F1); apply elem_of_app; by right). clear He; rename He1 into He.
  apply (merged_Archived _ _ _ Hm1 e He) in Ha as (o & Ho & _). set_solver.
Qed.
End merge.
