(* ===== verification/CliPrint.v ===== *)
(** * [pkg/cmd/get.go]: what the command [get] prints

    The options of the command and their defaults, the table, whose columns tell the
    sources of each resource, and the documents of the other formats.  A page that is
    printed is the one of [CliMerge]: the table is read back as the sources. *)
From S2P Require Import Prelude GoLib GoStrings Api CliHttp CliConfig CliSetup Retriever CliGet CliMerge.

(** The printers of [cli-runtime]: whether a format is known, and the document of a list
    or an error; [duration.HumanDuration] of nanoseconds. *)
Class PrintLib (O : Type) := {
  ToPrinter : string → bool;
  PrintObj : string → list O → string + string;
  HumanDuration : Z → string;
}.

Section print.
  Context {O : Type} `{!Unstructured O, !PrintLib O}.

(** [NewGetOptions] and the defaults of the flags of [NewGetCmd]; [now] is when the
    command is made. *)
Definition NewGetOptions `{!CliText} (now : Z) : GetOptions :=
  {| go_AllNamespaces := false; go_APIPath := ""; go_ResourceInfo := None; go_Name := "";
     go_LabelSelector := ""; go_OutputFormat := ""; go_InCluster := true; go_Archived := true;
     go_Limit := 100; go_After := UTC zeroTime; go_Before := UTC (now + 3600000000000);
     go_kubearchiveQueryParams := ∅ |}.

(** What is written to the standard output: rows of columns, or a document. *)
Inductive Printed :=
| Table (rows : list (list string))
| Document (text : string).

Definition yesNo (b : bool) : string := if b then "yes" else "no".

Definition tableHeader : list string := ["NAME"; "IN-CLUSTER"; "ARCHIVED"; "AGE"].

Definition tableRow (now : Z) (r : ResourceWithAvailability O) : list string :=
  let obj := rwa_Resource r in
  let age :=
    if (GetCreationTimestamp obj =? zeroTime)%Z then "<unknown>"
    else HumanDuration (now - GetCreationTimestamp obj) in
  [GetName obj; yesNo (rwa_InCluster r); yesNo (rwa_Archived r); age].

Definition printCustomTable (now : Z) (resources : list (ResourceWithAvailability O)) : Printed :=
  Table (tableHeader :: (tableRow now <$> resources)).

(** [printResources]: an error, or what is printed. *)
Definition printResources (now : Z) (outputFormat : string) (resources : list (ResourceWithAvailability O))
    : string + Printed :=
  if nonempty outputFormat then
    if ToPrinter outputFormat then
      match PrintObj outputFormat (rwa_Resource <$> resources) with
      | inl e => inl e
      | inr text => inr (Document text)
      end
    else inl "no printer"
  else inr (printCustomTable now resources).

(** ** The table of a page *)

(** The row of a resource among those of a merge says where it is: a source that is
    asked for a resource with its time and name has it exactly when the column says so. *)
Lemma table_tells_sources (now : Z) (K A : list O) full n i e :
  merged K A full → take n full !! i = Some e →
  ∃ age rest, printResources now "" (take n full) = inr (Table (tableHeader :: rest)) ∧
    rest !! i = Some [GetName (rwa_Resource e); yesNo (rwa_InCluster e); yesNo (rwa_Archived e); age] ∧
    length rest = length (take n full) ∧
    (yesNo (rwa_InCluster e) = "yes" ↔ ∃ o, o ∈ K ∧ sameKey (rwa_Resource e) o) ∧
    (yesNo (rwa_Archived e) = "yes" ↔ ∃ o, o ∈ A ∧ sameKey (rwa_Resource e) o).
Proof.
  intros Hm Hi.
  assert (e ∈ full) as He.
  { apply (list_elem_of_lookup_2 _ i). apply lookup_take_Some in Hi. tauto. }
  assert (∀ b, yesNo b = "yes" ↔ b = true) as Hy by (by intros []).
  eexists _, (tableRow now <$> take n full). split; [done|]. split_and!.
  - by rewrite list_lookup_fmap, Hi.
  - by rewrite length_fmap.
  - rewrite Hy. by apply (merged_InCluster _ _ _ Hm).
  - rewrite Hy. by apply (merged_Archived _ _ _ Hm).
Qed.

(** An unknown format prints nothing. *)
Lemma unknown_format now format resources :
  format ≠ "" → ToPrinter format = false → ∃ e, printResources now format resources = inl e.
Proof.
  intros Hf Ht. unfold printResources, nonempty. apply String.eqb_neq in Hf. rewrite Hf, Ht. by eexists.
Qed.
End print.
