(* ===== verification/ApiServerFacts.v ===== *)
(** * The API server: what a request needs to be served, and where the command line's go *)
From S2P Require Import Prelude GoLib GoStrings LabelSql Pagination ApiRouter Auth Owned Database LogBackend LogRetrieval LogQuery ApiServer.
From S2P Require Import CliHttp Retriever CliGet CliLogs.
From S2P Require Import Samples LogFacts.

(** ** The table *)

Lemma matchSegments_length p segs ps : matchSegments p segs = Some ps → length p = length segs.
Proof.
  revert segs ps. induction p as [|[s|name] p IH]; intros [|t segs] ps; cbn [matchSegments]; try done.
  - case_eqb; [|done]. cbn [length]. by intros ->%IH.
  - destruct (matchSegments p segs) as [ps'|] eqn:E; [|done]. cbn [length]. by rewrite (IH _ _ E).
Qed.

Lemma matchSegments_last p s segs ps :
  matchSegments (p ++ [Static s]) segs = Some ps → last segs = Some s.
Proof.
  revert segs ps. induction p as [|[x|name] p IH]; intros [|t segs] ps; cbn [matchSegments app]; try done.
  - destruct (String.eqb_spec s t) as [->|]; [by destruct segs|done].
  - case_eqb; [|done]. intros Hm%IH. by rewrite last_cons, Hm.
  - destruct (matchSegments _ segs) as [ps'|] eqn:E; [|done]. intros _. apply IH in E.
    by rewrite last_cons, E.
Qed.

(** The routes of logs end in [log], and have other segments. *)
Lemma table_logs p : (p, RetrieveLogs) ∈ table → last p = Some (Static "log") ∧ (1 < length p)%nat.
Proof.
  assert (Forall (λ x : list Segment * Handler, x.2 = RetrieveLogs →
    last x.1 = Some (Static "log") ∧ (1 < length x.1)%nat) table) as Hall.
  { vm_compute. repeat constructor; try done; intros; lia. }
  rewrite Forall_forall in Hall. intros Hin. by apply (Hall _ Hin).
Qed.

Lemma table_logs_path p path ps :
  (p, RetrieveLogs) ∈ table → matchSegments p (Split "/" path) = Some ps → HasSuffix path "/log" = true.
Proof.
  intros [Hl Hn]%table_logs Hm. apply (last_segment "/" path "log").
  - by rewrite <-(matchSegments_length _ _ _ Hm).
  - apply last_Some in Hl as [q ->]. by apply matchSegments_last in Hm.
Qed.

(** ** Who is served *)

Section server.
  Context `{!URLLib, !RequestLib, !LogJSON, !Backend, !MapRange, !GoText, !LabelEngine, !Collation,
            !ResourceEngine, !ApiLib, !OwnerEngine, !LogEngine, !Sha256, !KubeAPI, !GinLib}.
  Context (fuel : nat) (enabled : bool) (e : Expirations).

(** A handler was reached, other than a probe. *)
Definition handled (a : Served) : Prop :=
  match a with ListServed _ | ResourceServed _ | LogServed _ => True | _ => False end.

(** The access to the resource a route names. *)
Definition resourceAccess (ps : gmap string string) : ResourceAttributes :=
  {| ra_Namespace := param ps "namespace";
     ra_Verb := if nonempty (param ps "name") then "get" else "list";
     ra_Group := param ps "group"; ra_Version := param ps "version";
     ra_Resource := param ps "resourceType"; ra_Subresource := ""; ra_Name := param ps "name" |}.

Definition logAccess (ps : gmap string string) : ResourceAttributes :=
  {| ra_Namespace := param ps "namespace"; ra_Verb := "get"; ra_Group := ""; ra_Version := "v1";
     ra_Resource := "pods/log"; ra_Subresource := ""; ra_Name := "" |}.

(** The user a request acts for, as the API server of the cluster answered. *)
Definition actsFor (times : list Z) (r : HttpRequest) (ps : gmap string string) (u' : UserInfo) : Prop :=
  ∃ token u, extractBearerToken (header (apiRequest r ps) "Authorization") = Some token ∧
    authenticated e times (hr_now r) token u ∧ effective e enabled times (apiRequest r ps) u u'.

Lemma serveRequest_sound times sv r c a c' :
  hr_now r ∈ times → sound e times c → (0 <= Authorized e)%Z →
  serveRequest fuel enabled e sv r c = (a, c') →
  sound e times c' ∧
  (handled a → ∃ h ps kind page u', FindRoute table (hr_path r) = Some (h, ps) ∧
     a = runHandler fuel sv r h ps kind page ∧ actsFor times r ps u' ∧
     Forall (allowed e times (hr_now r) u') (accessAttributes (apiRequest r ps))).
Proof.
  intros Hn Hs He. unfold serveRequest.
  destruct (FindRoute table (hr_path r)) as [[h ps]|]; [|by intros [= <- <-]].
  assert ((let '(cx, c) := chain enabled e (apiRequest r ps) c in
      match cx_aborted cx with
      | Some status => (Refused status, c)
      | None =>
          match Middleware (getQuery r "limit") (query r "continue") with
          | Ok page => (runHandler fuel sv r h ps (GetAPIResourceKind cx) page, c)
          | Err err => (BadPage err, c)
          | Panic => (Refused 500, c)
          end
      end) = (a, c') →
    sound e times c' ∧ (handled a → ∃ h' ps' kind page u', Some (h, ps) = Some (h', ps') ∧
      a = runHandler fuel sv r h' ps' kind page ∧ actsFor times r ps' u' ∧
      Forall (allowed e times (hr_now r) u') (accessAttributes (apiRequest r ps')))) as Hmain.
  { destruct (chain enabled e (apiRequest r ps) c) as [cx c1] eqn:Ec.
    destruct (chain_sound e He enabled times (apiRequest r ps) c cx c1 Hn Hs Ec) as [Hs1 Hok].
    destruct (cx_aborted cx); [by intros [= <- <-]|].
    destruct (Middleware _ _) as [page|err|]; intros [= <- <-]; try done.
    split; [done|]. intros _. destruct (Hok eq_refl) as (token & u & u' & Ht & Hu & Heff & Hall).
    exists h, ps, (GetAPIResourceKind cx), page, u'. split_and!; try done. by exists token, u. }
  destruct h; try exact Hmain; by intros [= <- <-].
Qed.

Lemma serveAll_sound rs :
  (0 <= Authorized e)%Z → sound e (hr_now <$> rs.*2) (serveAll fuel enabled e rs ∅).
Proof.
  intros He. induction rs as [|[sv r] rs IH] using rev_ind; [apply map_Forall_empty|].
  unfold serveAll. rewrite foldl_snoc. fold (serveAll fuel enabled e rs ∅).
  destruct (serveRequest fuel enabled e sv r _) as [a c] eqn:Ec. cbn [snd].
  refine (proj1 (serveRequest_sound _ sv r _ a c _ _ He Ec)).
  - rewrite !fmap_app. set_solver.
  - apply (sound_mono e (hr_now <$> rs.*2)); [rewrite !fmap_app; set_solver|done].
Qed.

Lemma GetResourceByUID_found k t u data :
  (GetResourceByUID k t u).2 = Some data →
  ∃ resource kind, ur_kind u = Some kind ∧ resource ∈ ar_resources t ∧ Data resource = data ∧
    Forall (satisfiesWhere resource)
      [KindApiVersionFilter kind (apiVersionOf u); NamespaceFilter (ur_namespace u);
       UuidFilter (LogQuery.ur_uid u)].
Proof.
  unfold GetResourceByUID. destruct (ur_kind u) as [kind|]; [|done]. destruct (wrongGroup u); [done|].
  unfold QueryResourceByUID. destruct (runAll _ _) as [err|rows] eqn:Er; [done|].
  apply runAll_rows in Er as [Hrows _]; [|done].
  destruct rows as [|resource rows]; [done|]. cbn [head snd fmap option_fmap option_map].
  assert (Data (ResourceSelector k resource) = Data resource) as -> by (by destruct k). intros [= <-].
  destruct (proj1 (Hrows resource)) as [Hin Hall]; [by left|]. by exists resource, kind.
Qed.

(** C9: whatever requests were served before, a request a handler is reached by acts for a
    user of the cluster who may read the resource its route names, and the logs of the
    namespace when a log is asked for; the resource that is returned for a uid is of that
    namespace and that version. *)
Theorem served_authorized sv rs r a c
    (Hauth : (0 <= Authorized e)%Z)
    (Hserve : serveRequest fuel enabled e sv r (serveAll fuel enabled e rs ∅) = (a, c))
    (Hhandled : handled a) :
  let times := (hr_now <$> rs.*2) ++ [hr_now r] in
  ∃ h ps u', FindRoute table (hr_path r) = Some (h, ps) ∧ actsFor times r ps u' ∧
    allowed e times (hr_now r) u' (resourceAccess ps) ∧
    match a with
    | LogServed _ => allowed e times (hr_now r) u' (logAccess ps)
    | ResourceServed (_, Some data) =>
        ∃ resource kind, resource ∈ ar_resources (sv_archive sv) ∧ Data resource = data ∧
          Forall (satisfiesWhere resource)
            [KindApiVersionFilter kind (apiVersionOf (uidRequest r ps (Some kind)));
             NamespaceFilter (param ps "namespace"); UuidFilter (param ps "uid")]
    | _ => True
    end.
Proof.
  intros times. edestruct (serveRequest_sound times) as [_ Hok]; [| |exact Hauth|exact Hserve|].
  - unfold times. set_solver.
  - apply (sound_mono e (hr_now <$> rs.*2)); [unfold times; set_solver|by apply serveAll_sound].
  - destruct (Hok Hhandled) as (h & ps & kind & page & u' & Hr & -> & Ha & Hall).
    apply Forall_cons in Hall as [Hres Hlog]. exists h, ps, u'. split_and!; try done.
    destruct h; cbn [runHandler handled] in *; try done.
    + destruct (GetResourceByUID _ _ _) as [status [data|]] eqn:Eg; [|done].
      apply (f_equal snd) in Eg as Hg. apply GetResourceByUID_found in Hg as (resource & kind' & Hk & Hin & Hd & Hs).
      exists resource, kind'. split_and!; done.
    + apply FindRoute_matches in Hr as (p & Hin & Hm & _).
      assert (HasSuffix (ar_path (apiRequest r ps)) "/log" = true) as Hsuf by (by apply (table_logs_path p _ ps)).
      rewrite Hsuf in Hlog. by apply Forall_cons in Hlog as [Hlog _].
Qed.
End server.

(** ** Where the paths of the command line go *)

(** A text that is one segment of a path. *)
Definition plain (s : string) : Prop := s ≠ "" ∧ free_of "/" s.

(** A resource as the discovery of the cluster describes it. *)
Record discovered (info : ResourceInfo) : Prop := {
  discovered_resource : plain (ri_Resource info);
  discovered_version : plain (ri_Version info);
  discovered_group : ri_Group info = "" ∨ plain (ri_Group info);
  discovered_groupVersion : ri_GroupVersion info =
    if String.eqb (ri_Group info) "" then ri_Version info
    else ri_Group info +:+ "/" +:+ ri_Version info;
}.

(** The segments before the resource. *)
Definition prefixSegments (info : ResourceInfo) : list string :=
  if String.eqb (ri_Group info) "" then [""; "api"; ri_Version info]
  else [""; "apis"; ri_Group info; ri_Version info].

Definition namespaceSegments (namespace : option string) : list string :=
  match namespace with Some ns => ["namespaces"; ns] | None => [] end.

Lemma prefixSegments_join info l :
  discovered info → l ≠ [] →
  Join "/" (prefixSegments info ++ l) =
  (if String.eqb (ri_Group info) "" then "/api/" else "/apis/") +:+ ri_GroupVersion info +:+ "/" +:+ Join "/" l.
Proof.
  intros Hd Hl. rewrite (discovered_groupVersion info Hd). unfold prefixSegments.
  destruct l as [|x l]; [done|]. destruct (String.eqb _ _); cbn [app]; rewrite !Join_cons;
    rewrite ?string_app_assoc; done.
Qed.

Lemma prefixSegments_free info : discovered info → Forall (free_of "/") (prefixSegments info).
Proof.
  intros Hd. pose proof (discovered_version info Hd) as [_ Hv]. pose proof (discovered_group info Hd) as Hg.
  unfold prefixSegments. case_eqb; repeat constructor; try done. by destruct Hg as [Hg|[_ Hg]].
Qed.

(** The segments of a path built from [l]. *)
Lemma Split_path info l :
  discovered info → l ≠ [] → Forall (free_of "/") l →
  Split "/" ((if String.eqb (ri_Group info) "" then "/api/" else "/apis/") +:+ ri_GroupVersion info +:+ "/" +:+
             Join "/" l) = prefixSegments info ++ l.
Proof.
  intros Hd Hl Hf. rewrite <-(prefixSegments_join info l Hd Hl). apply Split_Join.
  - unfold prefixSegments. by destruct (String.eqb _ _).
  - apply Forall_app. split; [by apply prefixSegments_free|done].
Qed.

(** The segments of the paths of [get] and [logs]. *)
Definition nameSegments (name : string) : list string := if nonempty name then [name] else [].

Lemma apiPath_segments info namespace name :
  discovered info → match namespace with Some ns => plain ns | None => True end → free_of "/" name →
  Split "/" (apiPath info namespace name) =
  prefixSegments info ++ namespaceSegments namespace ++ ri_Resource info :: nameSegments name.
Proof.
  intros Hd Hns Hname. pose proof (discovered_resource info Hd) as [_ Hr].
  rewrite <-Split_path; [|done|by destruct namespace|].
  - f_equal. unfold apiPath, namespaceSegments, nameSegments.
    destruct namespace as [ns|], (nonempty name), (String.eqb _ _); cbn [app];
      rewrite ?Join_cons, ?string_app_assoc; done.
  - apply Forall_app. split; [destruct namespace; repeat constructor; by destruct Hns|].
    constructor; [done|]. unfold nameSegments. destruct (nonempty name); by repeat constructor.
Qed.

Lemma logPath_segments info ns name :
  discovered info → plain ns → plain name →
  Split "/" (logPath info ns name "") =
  prefixSegments info ++ ["namespaces"; ns; ri_Resource info; name; "log"].
Proof.
  intros Hd [_ Hns] [_ Hname]. pose proof (discovered_resource info Hd) as [_ Hr].
  rewrite <-Split_path; [|done|done|by repeat constructor].
  f_equal. unfold logPath, resourcesPath. cbn [nonempty String.eqb negb].
  destruct (String.eqb _ _); rewrite !Join_cons, ?string_app_assoc; done.
Qed.

Section routes.
  Context `{!GinLib}.

(** A route that matches is found when the others that match are less exact. *)
Lemma FindRoute_best path p h ps :
  (p, h) ∈ table → matchSegments p (Split "/" path) = Some ps → map_Forall (λ _ v, v ≠ "") ps →
  (∀ q h' ps', (q, h') ∈ table → matchSegments q (Split "/" path) = Some ps' →
     (q, h') = (p, h) ∨ moreStatic p q = true) →
  FindRoute table path = Some (h, ps).
Proof.
  intros Hin Hm Hne Hbest. destruct (FindRoute_found table path p h ps Hin Hm Hne) as [[h' ps'] Hf].
  rewrite Hf. apply FindRoute_matches in Hf as (q & Hq & Hmq & Hstatic).
  destruct (Hbest q h' ps' Hq Hmq) as [[= -> ->]|Hs]; [congruence|].
  rewrite (Hstatic p h ps Hin Hm Hne) in Hs. done.
Qed.

Lemma FindRoute_none path :
  (∀ q h', (q, h') ∈ table → matchSegments q (Split "/" path) = None) → FindRoute table path = None.
Proof.
  intros Hall. destruct (FindRoute table path) as [[h ps]|] eqn:Hf; [|done].
  apply FindRoute_matches in Hf as (q & Hq & Hm & _). by rewrite (Hall q h Hq) in Hm.
Qed.

(** The route of a path and its parameters. *)
Definition routed (path : string) (h : Handler) (info : ResourceInfo) (ns name uid : string) : Prop :=
  ∃ ps, FindRoute table path = Some (h, ps) ∧ param ps "group" = ri_Group info ∧
    param ps "version" = ri_Version info ∧ param ps "namespace" = ns ∧
    param ps "resourceType" = ri_Resource info ∧ param ps "name" = name ∧ param ps "uid" = uid.
End routes.

(** The routes one by one. *)
Ltac table_cases Hin :=
  vm_compute in Hin;
  repeat (apply elem_of_cons in Hin as [[= -> ->]|Hin]); [..|by apply not_elem_of_nil in Hin].

(** Comparisons of texts that are known. *)
Ltac eval_eqb H :=
  repeat match type of H with
  | context [String.eqb ?a ?b] =>
      let v := eval vm_compute in (String.eqb a b) in
      match v with true => idtac | false => idtac end;
      change (String.eqb a b) with v in H
  end.

(** The route of the segments in [Hs], among those of the same length. *)
Ltac find_route Hs route :=
  let p := eval vm_compute in (pattern route) in
  eapply (FindRoute_best _ p);
  [ apply (bool_decide_unpack _); vm_compute; exact I
  | rewrite Hs; reflexivity
  | repeat (apply map_Forall_insert_2; [done|]); apply map_Forall_empty
  | let q := fresh "q" in let h' := fresh "h" in let Hin := fresh "Hin" in let Hm := fresh "Hm" in
    intros q h' ? Hin Hm; rewrite Hs in Hm;
    table_cases Hin; try (apply matchSegments_length in Hm; discriminate Hm);
    cbn [matchSegments] in Hm; eval_eqb Hm; try discriminate Hm;
    try (rewrite (proj2 (String.eqb_neq _ _)) in Hm by done; discriminate Hm);
    first [by left | by right] ].

(** That route, and its parameters; [Eg] says whether there is a group. *)
Ltac route_to Hs Eg route :=
  eexists; split; [find_route Hs route|];
  split_and!; first [reflexivity | rewrite Eg; reflexivity].

(** No route has the segments in [Hs]. *)
Ltac no_route Hs :=
  let q := fresh "q" in let h' := fresh "h" in let Hin := fresh "Hin" in let Hm := fresh "Hm" in
  apply FindRoute_none; intros q h' Hin; rewrite Hs;
  match goal with |- ?m = None => destruct m eqn:Hm end; [exfalso|done];
  table_cases Hin; try (apply matchSegments_length in Hm; discriminate Hm);
  cbn [matchSegments] in Hm; eval_eqb Hm; discriminate Hm.

Section commands.
  Context `{!GinLib}.

(** The list of a namespace. *)
Lemma apiPath_list_routed info ns :
  discovered info → plain ns → routed (apiPath info (Some ns) "") HGetResources info ns "" "".
Proof.
  intros Hd [Hns Hf]. assert (free_of "/" "") as Hname by done.
  pose proof (apiPath_segments info (Some ns) "" Hd (conj Hns Hf) Hname) as Hs.
  destruct (discovered_version info Hd) as [Hv _]. destruct (discovered_resource info Hd) as [Hr _].
  unfold prefixSegments in Hs. unfold routed. revert Hs.
  destruct (String.eqb_spec (ri_Group info) "") as [Eg|Eg]; cbn [namespaceSegments nameSegments app]; intros Hs.
  - route_to Hs Eg "/api/:version/namespaces/:namespace/:resourceType".
  - route_to Hs Eg "/apis/:group/:version/namespaces/:namespace/:resourceType".
Qed.

(** C34: a resource or a list that [get] asks the archive for is routed to the handler of
    resources, with the group, the version, the namespace, the resource and the name the
    path was made of; there is no route for one resource without a namespace. *)
Theorem apiPath_routed info namespace name
    (Hd : discovered info) (Hns : match namespace with Some ns => plain ns | None => True end)
    (Hname : free_of "/" name) :
  if bool_decide (namespace = None ∧ name ≠ "") then FindRoute table (apiPath info namespace name) = None
  else routed (apiPath info namespace name) HGetResources info (default "" namespace) name "".
Proof.
  pose proof (apiPath_segments info namespace name Hd Hns Hname) as Hs.
  destruct (discovered_version info Hd) as [Hv _]. destruct (discovered_resource info Hd) as [Hr _].
  unfold prefixSegments, nameSegments, nonempty in Hs.
  destruct namespace as [ns|]; cbn [namespaceSegments app default from_option] in Hs |- *.
  - rewrite bool_decide_false by (by intros [? _]). revert Hs.
    destruct (String.eqb_spec name "") as [->|Hn]; [intros _; by apply apiPath_list_routed|].
    destruct Hns as [Hns _], (String.eqb_spec (ri_Group info) "") as [Eg|Eg]; cbn [negb app]; intros Hs.
    + route_to Hs Eg "/api/:version/namespaces/:namespace/:resourceType/:name".
    + route_to Hs Eg "/apis/:group/:version/namespaces/:namespace/:resourceType/:name".
  - revert Hs. unfold routed.
    destruct (String.eqb_spec name "") as [->|Hn], (String.eqb_spec (ri_Group info) "") as [Eg|Eg];
      cbn [negb app]; intros Hs.
    + rewrite bool_decide_false by (by intros [_ []]). route_to Hs Eg "/api/:version/:resourceType".
    + rewrite bool_decide_false by (by intros [_ []]). route_to Hs Eg "/apis/:group/:version/:resourceType".
    + rewrite bool_decide_true by done. no_route Hs.
    + rewrite bool_decide_true by done. no_route Hs.
Qed.

(** The log [logs] asks for is routed to the handlers of logs, with the group, the
    version, the namespace, the resource and the name of the path, but for the name [uid]:
    that one is answered by the handler of uids, as the resource whose uid is [log]. *)
Theorem logPath_routed info ns name containerName
    (Hd : discovered info) (Hns : plain ns) (Hname : plain name)
    (Hq : free_of "?" (logPath info ns name "")) :
  let path := (Cut "?" (logPath info ns name containerName)).1 in
  if bool_decide (name = "uid") then routed path HGetResourceByUID info ns "" "log"
  else routed path RetrieveLogs info ns name "".
Proof.
  intros path.
  assert (Split "/" path = prefixSegments info ++ ["namespaces"; ns; ri_Resource info; name; "log"]) as Hs.
  { rewrite <-(logPath_segments info ns name Hd Hns Hname). unfold path. f_equal.
    unfold logPath in Hq |- *. cbn [nonempty String.eqb negb] in Hq |- *.
    destruct (nonempty containerName); [|by rewrite Cut_free].
    by rewrite (Cut_first "?" _ ("container=" +:+ containerName)). }
  clearbody path.
  destruct (discovered_version info Hd) as [Hv _]. destruct (discovered_resource info Hd) as [Hr _].
  destruct Hns as [Hns _], Hname as [Hname _]. unfold prefixSegments in Hs. unfold routed. revert Hs.
  case_bool_decide as Hu; [subst name|];
    destruct (String.eqb_spec (ri_Group info) "") as [Eg|Eg]; cbn [app]; intros Hs.
  - route_to Hs Eg "/api/:version/namespaces/:namespace/:resourceType/uid/:uid".
  - route_to Hs Eg "/apis/:group/:version/namespaces/:namespace/:resourceType/uid/:uid".
  - route_to Hs Eg "/api/:version/namespaces/:namespace/:resourceType/:name/log".
  - route_to Hs Eg "/apis/:group/:version/namespaces/:namespace/:resourceType/:name/log".
Qed.
End commands.

(** ** A router *)

Lemma moreStatic_irrefl p : moreStatic p p = false.
Proof. induction p as [|[s|n] p IH]; cbn; [done| |done]. by rewrite IH, andb_false_r. Qed.

Lemma moreStatic_trans x y z : moreStatic x y = true → moreStatic y z = true → moreStatic x z = true.
Proof.
  revert y z. induction x as [|[s|n] x IH]; intros [|[t|m] y] [|[u|k] z]; cbn [moreStatic]; try done.
  - intros [->%String.eqb_eq Hxy]%andb_prop [->%String.eqb_eq Hyz]%andb_prop.
    rewrite String.eqb_refl. by apply (IH y).
  - apply IH.
Qed.

Lemma unbeaten (l : list (list Segment * Handler * gmap string string)) :
  l ≠ [] → ∃ x, x ∈ l ∧ Forall (λ y, moreStatic y.1.1 x.1.1 = false) l.
Proof.
  induction l as [|a l IH]; [done|]. intros _. destruct l as [|b l].
  { exists a. split; [by left|]. repeat constructor. apply moreStatic_irrefl. }
  destruct IH as (x & Hx & Hall); [done|].
  destruct (moreStatic a.1.1 x.1.1) eqn:E.
  - exists a. split; [by left|]. constructor; [apply moreStatic_irrefl|].
    apply (Forall_impl _ _ _ Hall). intros y Hy. apply not_true_is_false. intros Hya.
    by rewrite (moreStatic_trans _ _ _ Hya E) in Hy.
  - exists x. split; [by right|]. by constructor.
Qed.

Definition candidates (rs : list (list Segment * Handler)) (path : string)
    : list (list Segment * Handler * gmap string string) :=
  omap (λ '(p, h), ps ← matchSegments p (Split "/" path);
                   if bool_decide (map_Forall (λ _ v, v ≠ "") ps) then Some (p, h, ps) else None) rs.

Lemma elem_of_candidates rs path p h ps :
  (p, h, ps) ∈ candidates rs path ↔
  (p, h) ∈ rs ∧ matchSegments p (Split "/" path) = Some ps ∧ map_Forall (λ _ v, v ≠ "") ps.
Proof.
  unfold candidates. rewrite list_elem_of_omap. split.
  - intros ([q k] & Hin & Hq). destruct (matchSegments q _) as [ps'|] eqn:E; [|done]. cbn in Hq.
    case_bool_decide; [|done]. by injection Hq as <- <- <-.
  - intros (Hin & Hm & Hne). exists (p, h). split; [done|]. rewrite Hm. cbn. by rewrite bool_decide_true.
Qed.

#[local] Instance sample_gin : GinLib.
Proof.
  refine {| FindRoute rs path :=
    let l := candidates rs path in
    (λ x, (x.1.2, x.2)) <$> head (filter (λ x, Forall (λ y, moreStatic y.1.1 x.1.1 = false) l) l) |}.
  - intros rs path h ps. set (l := candidates rs path). cbn zeta.
    destruct (filter _ l) as [|[[p k] ps'] rest] eqn:E; [done|]. cbn. intros [= -> ->].
    assert ((p, h, ps) ∈ filter (λ x, Forall (λ y, moreStatic y.1.1 x.1.1 = false) l) l) as Hin
      by (rewrite E; by left).
    apply list_elem_of_filter in Hin as [Hall Hin]. apply elem_of_candidates in Hin as (Hin & Hm & _).
    exists p. split_and!; [done|done|]. intros q h' ps' Hq Hmq Hne. rewrite Forall_forall in Hall.
    apply (Hall (q, h', ps')). by apply elem_of_candidates.
  - intros rs path p h ps Hin Hm Hne. set (l := candidates rs path). cbn zeta.
    destruct (unbeaten l) as (x & Hx & Hall).
    { intros Hl. assert ((p, h, ps) ∈ l) as Hl' by (by apply elem_of_candidates).
      rewrite Hl in Hl'. by apply not_elem_of_nil in Hl'. }
    assert (x ∈ filter (λ x, Forall (λ y, moreStatic y.1.1 x.1.1 = false) l) l) as Hf
      by (by apply list_elem_of_filter).
    destruct (filter _ l) as [|y rest]; [by apply not_elem_of_nil in Hf|]. by eexists.
Defined.

(** ** Samples *)

Definition sample_deployments : ResourceInfo :=
  {| ri_Resource := "deployments"; ri_Version := "v1"; ri_Group := "apps"; ri_GroupVersion := "apps/v1";
     ri_Kind := "Deployment"; ri_Namespaced := true |}.

Lemma sample_discovered : discovered sample_deployments.
Proof. split; repeat constructor; discriminate. Qed.

Lemma apiPath_routed_witness :
  routed "/apis/apps/v1/namespaces/shop/deployments/web" HGetResources sample_deployments "shop" "web" "".
Proof.
  refine (apiPath_routed sample_deployments (Some "shop") "web" sample_discovered _ _); by repeat constructor.
Defined.

Lemma logPath_routed_witness :
  routed "/apis/apps/v1/namespaces/shop/deployments/web/log" RetrieveLogs sample_deployments "shop" "web" "".
Proof.
  refine (logPath_routed sample_deployments "shop" "web" "nginx" sample_discovered _ _ _); by repeat constructor.
Defined.

#[local] Existing Instance sample_range.
#[local] Existing Instance LogFacts.sample_url.
#[local] Existing Instance LogFacts.sample_request.
#[local] Existing Instance LogFacts.sample_logjson.
#[local] Existing Instance LogFacts.sample_backend.
#[local] Existing Instance sample_apilib.
#[local] Existing Instance sample_owners.
#[local] Existing Instance sample_log_engine.
#[local] Existing Instance sample_sha.
#[local] Existing Instance sample_kube.

(** A Pod asked for by its uid, twice. *)
Definition sample_http : HttpRequest :=
  {| hr_now := 1000000000; hr_headers := Auth.sample_headers "good";
     hr_path := "/api/v1/namespaces/ns/pods/uid/p"; hr_query := ∅ |}.

Definition sample_server : Server :=
  {| sv_kind := PostgreSQL; sv_labels := sample_tables; sv_archive := sample_archive; sv_headers := ∅; sv_providers := ∅;
     sv_conn := None; sv_ping := None |}.

Definition sample_serve : Served * Cache :=
  serveRequest 3 false sample_expirations sample_server sample_http
    (serveAll 3 false sample_expirations [(sample_server, sample_http)] ∅).

Lemma served_authorized_witness :
  sample_serve.1 = ResourceServed (200%Z, Some "pod") ∧
  ∃ h ps u', FindRoute table (hr_path sample_http) = Some (h, ps) ∧
    actsFor false sample_expirations [1000000000; 1000000000]%Z sample_http ps u' ∧
    allowed sample_expirations [1000000000; 1000000000]%Z 1000000000 u' (resourceAccess ps) ∧
    ∃ resource kind, resource ∈ ar_resources sample_archive ∧ Data resource = "pod" ∧
      Forall (satisfiesWhere resource)
        [KindApiVersionFilter kind (apiVersionOf (uidRequest sample_http ps (Some kind)));
         NamespaceFilter (param ps "namespace"); UuidFilter (param ps "uid")].
Proof.
  destruct sample_serve as [a c] eqn:Es.
  assert (a = ResourceServed (200%Z, Some "pod")) as ->.
  { apply (f_equal fst) in Es. vm_compute in Es. by rewrite <-Es. }
  split; [done|].
  apply (served_authorized 3 false sample_expirations sample_server [(sample_server, sample_http)] sample_http
    (ResourceServed (200%Z, Some "pod")) c).
  - done.
  - exact Es.
  - exact I.
Defined.
