(* ===== verification/CliGetFacts.v ===== *)
(** * The command [get]: what a page shows, and what the next one misses *)
From S2P Require Import Prelude GoLib GoStrings Api CliHttp CliConfig CliSetup Retriever CliGet CliMerge Samples.

(** ** Bounds *)

Section bounds.
  Context {O : Type} `{!Unstructured O}.
  Implicit Types (l : list (ResourceWithAvailability O)) (r : O).

Lemma length_copy_within {A} (x : list A) i :
  (i < length x)%nat → length (copy_within x (S i) i (length x)) = length x.
Proof.
  intros Hi. destruct (lookup_lt_is_Some_2 x i Hi) as [a _].
  rewrite copy_within_end. pose proof (copy_within_shift x i a Hi) as Hc.
  apply (f_equal length) in Hc. rewrite length_insert in Hc. rewrite Hc, length_app.
  cbn [length]. rewrite !length_take, length_drop. lia.
Qed.

Lemma insertResource_bounds k c l b1 b2 r :
  (length l ≤ c)%nat →
  ∃ l' b1' b2', insertResource k c (l, b1, b2) r = Ok (l', b1', b2') ∧
    (length l ≤ length l')%nat ∧ (length l' ≤ c)%nat ∧
    (length l' ≤ S (length l))%nat ∧ (b1 = true → b1' = true) ∧ (b2 = true → b2' = true).
Proof.
  intros Hl. unfold insertResource.
  destruct (BinarySearchFunc l r cmpResource) as [idx found] eqn:E.
  assert (idx ≤ length l)%nat as Hidx.
  { pose proof (BinarySearchFunc_spec l r cmpResource) as [H _]. by rewrite E in H. }
  destruct found.
  { eexists _, _, _. split; [done|]. rewrite length_alter. by split_and!; auto. }
  destruct (Nat.ltb_spec idx c) as [Hc|Hc].
  - destruct (Nat.eqb_spec (length l) c) as [Hf|Hf].
    + destruct (lookup_lt_is_Some_2 l (length l - 1) ltac:(lia)) as [e He].
      rewrite (index_Ok _ _ e) by (lia || (replace (Z.to_nat _) with (length l - 1)%nat by lia; done)).
      cbn [mbind outcome_bind]. rewrite set_index_Ok by (rewrite length_copy_within by lia; lia).
      eexists _, _, _. split; [done|]. rewrite length_insert, length_copy_within by lia.
      split_and!; try lia; by intros ->.
    + cbn [mbind outcome_bind]. rewrite set_index_Ok.
      2: { rewrite length_copy_within; rewrite length_app; cbn [length]; lia. }
      eexists _, _, _. split; [done|]. rewrite length_insert, length_copy_within.
      2: { rewrite length_app. cbn [length]. lia. }
      rewrite length_app. cbn [length]. split_and!; auto; lia.
  - eexists _, _, _. split; [done|]. split_and!; auto; try lia; by intros ->.
Qed.

Lemma insertAll_bounds k c l b1 b2 rs :
  (length l ≤ c)%nat →
  ∃ l' b1' b2', insertAll k c (l, b1, b2) rs = Ok (l', b1', b2') ∧
    (length l ≤ length l')%nat ∧ (length l' ≤ c)%nat ∧ (length l' ≤ length l + length rs)%nat.
Proof.
  revert l b1 b2. induction rs as [|r rs IH]; intros l b1 b2 Hl; cbn [insertAll length].
  - eexists _, _, _. split; [done|]. lia.
  - destruct (insertResource_bounds k c l b1 b2 r Hl) as (l1 & b3 & b4 & -> & ? & ? & ? & _ & _).
    cbn [mbind outcome_bind].
    destruct (IH l1 b3 b4) as (l2 & b5 & b6 & -> & ? & ? & ?); [done|].
    eexists _, _, _. split; [done|]. lia.
Qed.

(** C29: whatever the objects, in any order and with any repetition, a merge indexes no
    slice out of range and shows at most the limit, never fewer resources than before;
    it panics exactly when the list it starts from is already above the limit. *)
Theorem insertSorted_bounds limit init (rs : list O) k :
  if (limit <? Z.of_nat (length init))%Z
  then insertSortedResourcesOptimized limit init rs k = Panic
  else ∃ l t1 t2, insertSortedResourcesOptimized limit init rs k = Ok (l, t1, t2) ∧
    (Z.of_nat (length init) <= Z.of_nat (length l) <= limit)%Z ∧
    (length l ≤ length init + length rs)%nat.
Proof.
  unfold insertSortedResourcesOptimized. destruct (Z.ltb_spec limit (Z.of_nat (length init))).
  - by rewrite (proj2 (Z.ltb_lt _ _)) by lia.
  - rewrite (proj2 (Z.ltb_ge _ _)) by lia.
    destruct (insertAll_bounds k (Z.to_nat (Z.min (Z.of_nat (length rs + length init)) limit))
      init false false rs) as (l & t1 & t2 & -> & ? & ? & ?); [lia|].
    exists l, t1, t2. split; [done|]. lia.
Qed.
End bounds.

(** ** Pages *)

Section pages.
  Context {O : Type} `{!Unstructured O, !CliJSON O, !CliText, !KubeConfig, !HTTPLib, !StatusJSON}.

(** What a run prints of two answers. *)
Lemma Run_page opts (o : GetOptions) (K A : list O) body1 body2 :
  go_InCluster o = true → go_Archived o = true → go_Name o = "" → (1 <= go_Limit o)%Z →
  GetFromAPI opts Kubernetes (go_APIPath o) = Ok body1 → UnmarshalList body1 = Some K →
  GetFromAPI opts KubeArchive (kubearchiveAPIPath o) = Ok body2 → UnmarshalList body2 = Some A →
  identified (K ++ A) → K ++ A ≠ [] →
  let n := Z.to_nat (go_Limit o) in
  let full := mergeReference K A in
  take n full ≠ [] ∧
  Run (O:=O) opts o =
    (next ← printPaginationMessage opts o (take n full) (anyInCluster (drop n full))
              (nonempty (getContinueToken (O:=O) body2) || anyArchived (drop n full));
     Ok {| out_resources := take n full; out_next := next |}).
Proof.
  intros Hin Har Hname Hlimit HK HK' HA HA' Hid Hsome n full.
  destruct (merge_shows_first (go_Limit o) K A ltac:(lia) Hid)
    as (Hm & shown & t1 & t2 & t3 & t & Hs1 & Hs2 & Ht & Ht3).
  assert (take n full ≠ []) as Hne.
  { destruct K as [|r K'] eqn:EK; [destruct A as [|r A']; [done|]|];
      destruct (merged_all _ _ _ Hm r) as (e & He & _); try (cbn; by left); subst full;
      destruct (mergeReference _ _) as [|x l] eqn:Ex; try (by apply not_elem_of_nil in He);
      subst n; destruct (Z.to_nat (go_Limit o)) eqn:En; (lia || done). }
  split; [done|]. unfold Run, runCluster, runArchive, parseResourcesFromBytes.
  rewrite Hin, Har, Hname, HK. cbn [nonempty String.eqb negb]. rewrite HK', Hs1.
  cbn [mbind outcome_bind]. rewrite HA, HA', Hs2.
  cbn [mbind outcome_bind ar_notFound ar_sorted ar_k8sTrimmed ar_k9eTrimmed ar_token andb].
  fold n. fold full. destruct (take n full) as [|x l] eqn:Et; [done|].
  cbn [length Nat.eqb]. subst n full. by rewrite Ht, Ht3.
Qed.

(** The union of two answers by the uid of their objects. *)
Record unionByUID (K A : list O) (full : list (ResourceWithAvailability O)) : Prop := {
  un_sorted : sorted full;
  un_once : NoDup ((λ e, GetUID (rwa_Resource e)) <$> full);
  un_all u : u ∈ (λ e, GetUID (rwa_Resource e)) <$> full ↔ u ∈ GetUID <$> K ++ A;
  un_from e : e ∈ full → rwa_Resource e ∈ K ++ A;
  un_InCluster e : e ∈ full → rwa_InCluster e = true ↔ GetUID (rwa_Resource e) ∈ GetUID <$> K;
  un_Archived e : e ∈ full → rwa_Archived e = true ↔ GetUID (rwa_Resource e) ∈ GetUID <$> A;
}.

(** Two objects have the same uid exactly when they have the same name and creation time. *)
Definition uidByKey (l : list O) : Prop :=
  ∀ a b, a ∈ l → b ∈ l → GetUID a = GetUID b ↔ sameKey a b.

Lemma merged_union (K A : list O) full :
  uidByKey (K ++ A) → merged K A full → unionByUID K A full.
Proof.
  intros Hu [Hs Hfrom Hall HK HA]. split.
  - done.
  - apply NoDup_alt. intros i j u Hi Hj.
    apply list_lookup_fmap_Some in Hi as (x & -> & Hi), Hj as (y & Huid & Hj).
    assert (sameKey (rwa_Resource x) (rwa_Resource y)) as Hkey.
    { apply Hu; [apply Hfrom; by eapply list_elem_of_lookup_2..|done]. }
    destruct (lt_eq_lt_dec i j) as [[Hij| ->]|Hij]; [|done|].
    + by destruct (precedes_irrefl _ _ Hkey (sorted_lookup _ i j _ _ Hs Hi Hj Hij)).
    + by destruct (precedes_irrefl _ _ (sameKey_sym _ _ Hkey) (sorted_lookup _ j i _ _ Hs Hj Hi Hij)).
  - intros u. rewrite !list_elem_of_fmap. split.
    + intros (e & -> & He). exists (rwa_Resource e). split; [done|by apply Hfrom].
    + intros (o & -> & Ho). destruct (Hall o Ho) as (e & He & Hkey). exists e. split; [|done].
      symmetry. by apply Hu; [apply Hfrom|..].
  - done.
  - intros e He. rewrite (HK e He), list_elem_of_fmap. split.
    + intros (o & Ho & Hkey). exists o. split; [|done].
      apply Hu; [by apply Hfrom|apply elem_of_app; by left|done].
    + intros (o & Huid & Ho). exists o. split; [done|].
      apply Hu; [by apply Hfrom|apply elem_of_app; by left|done].
  - intros e He. rewrite (HA e He), list_elem_of_fmap. split.
    + intros (o & Ho & Hkey). exists o. split; [|done].
      apply Hu; [by apply Hfrom|apply elem_of_app; by right|done].
    + intros (o & Huid & Ho). exists o. split; [done|].
      apply Hu; [by apply Hfrom|apply elem_of_app; by right|done].
Qed.

(** Every entry of a union is in one of the sources. *)
Lemma union_left_out (K A : list O) full n :
  unionByUID K A full →
  negb (anyInCluster (drop n full)) && negb (anyArchived (drop n full)) = bool_decide (length full ≤ n)%nat.
Proof.
  intros Hu. destruct (bool_decide_reflect (length full ≤ n)%nat) as [Hl|Hl].
  { by rewrite drop_ge. }
  destruct (drop n full) as [|e l] eqn:Ed.
  { apply (f_equal length) in Ed. rewrite length_drop in Ed. cbn in Ed. lia. }
  assert (e ∈ full) as He by (apply (subseteq_drop n full); rewrite Ed; by left).
  pose proof (un_from _ _ _ Hu e He) as [Hin|Hin]%elem_of_app.
  - assert (rwa_InCluster e = true) as Hsrc by (apply (un_InCluster _ _ _ Hu e He), list_elem_of_fmap; eauto).
    cbn. by rewrite Hsrc.
  - assert (rwa_Archived e = true) as Hsrc by (apply (un_Archived _ _ _ Hu e He), list_elem_of_fmap; eauto).
    cbn. rewrite Hsrc. apply andb_false_r.
Qed.

(** C28: asked for both sources, of objects that have the same uid exactly when they have
    the same name and creation time, a run shows the first resources, up to the limit, of
    the union of the two answers by uid, newest first, each marked with the sources it is
    in.  It proposes a next command exactly when a resource of the union is left out or the
    archive gave a token, unless the last one shown has no creation time; the command asks
    for what is older than the last one shown, of the sources that have more. *)
Theorem Run_shows_page opts (o : GetOptions) info (K A : list O) body1 body2
    (Hin : go_InCluster o = true) (Har : go_Archived o = true) (Hname : go_Name o = "")
    (Hlimit : (1 <= go_Limit o)%Z) (Hinfo : go_ResourceInfo o = Some info)
    (HK : GetFromAPI opts Kubernetes (go_APIPath o) = Ok body1)
    (HK' : UnmarshalList body1 = Some K)
    (HA : GetFromAPI opts KubeArchive (kubearchiveAPIPath o) = Ok body2)
    (HA' : UnmarshalList body2 = Some A)
    (Hid : uidByKey (K ++ A)) (Hsome : K ++ A ≠ []) :
  let n := Z.to_nat (go_Limit o) in
  let token := nonempty (getContinueToken (O:=O) body2) in
  ∃ (full : list (ResourceWithAvailability O)) oldest,
    unionByUID K A full ∧ last (take n full) = Some oldest ∧
    let created := GetCreationTimestamp (rwa_Resource oldest) in
    Run (O:=O) opts o = Ok {|
      out_resources := take n full;
      out_next :=
        if bool_decide (length full ≤ n)%nat && negb token || (created =? zeroTime)%Z then None
        else Some (nextCommand opts o info created (anyInCluster (drop n full))
                     (token || anyArchived (drop n full))) |}.
Proof.
  intros n token. set (full := mergeReference K A).
  assert (identified (K ++ A)) as Hid' by (intros a b Ha Hb Hu; by apply Hid).
  pose proof (merged_union K A full Hid (mergeReference_merged K A Hid')) as Hu.
  destruct (Run_page opts o K A body1 body2 Hin Har Hname Hlimit HK HK' HA HA' Hid' Hsome) as [Hne Hrun].
  fold n full in Hne, Hrun. destruct (last (take n full)) as [oldest|] eqn:Hlast.
  2: { by apply last_None in Hlast. }
  exists full, oldest. split; [done|]. split; [done|]. cbv zeta. rewrite Hrun. fold token.
  pose proof (union_left_out K A full n Hu) as Hleft. rewrite <-Hleft.
  unfold printPaginationMessage. rewrite Hinfo, Hlast.
  destruct (anyInCluster (drop n full)), token, (anyArchived (drop n full)); cbn [negb andb orb];
    try reflexivity; by destruct (_ =? _)%Z.
Qed.

(** Of two objects of the same name created in the same second, as two namespaces may
    hold them, no page shows both. *)
Theorem same_second_lost (K A : list O) full a b
    (Hm : merged K A full) (Huid : GetUID a ≠ GetUID b) (Hkey : sameKey a b) :
  ¬ (a ∈ rwa_Resource <$> full ∧ b ∈ rwa_Resource <$> full).
Proof.
  intros [(x & -> & Hx)%list_elem_of_fmap (y & -> & Hy)%list_elem_of_fmap].
  apply list_elem_of_lookup in Hx as [i Hi], Hy as [j Hj].
  pose proof (merged_sorted _ _ _ Hm) as Hs.
  destruct (lt_eq_lt_dec i j) as [[Hij| ->]|Hij]; [|congruence|].
  - exact (precedes_irrefl _ _ Hkey (sorted_lookup _ i j _ _ Hs Hi Hj Hij)).
  - exact (precedes_irrefl _ _ (sameKey_sym _ _ Hkey) (sorted_lookup _ j i _ _ Hs Hj Hi Hij)).
Qed.

(** The command a page proposes asks for what was created before its oldest resource,
    less a nanosecond; the query keeps whole seconds only, so the archive leaves out, of
    the resources created at a whole second, those of the oldest one's second and those of
    the second before, and the cluster, which is asked without any time, answers as for the
    first page. *)
Theorem next_page_gap opts now T (o o' : GetOptions) t
    (Hsecond : (T mod 1000000000 = 0)%Z) (Hnow : (T - 1 < now)%Z)
    (Hparse : ParseTime (FormatNano (UTC (T - 1))) = Some t)
    (Hbefore : go_Before o' = t)
    (Hsame : go_InCluster o' = go_InCluster o ∧ go_APIPath o' = go_APIPath o ∧
             go_Name o' = go_Name o ∧ go_Limit o' = go_Limit o) :
  (∃ txt b, buildKubeArchiveQueryParams now o' !! "creationTimestampBefore" = Some [txt] ∧
     ParseTime txt = Some b ∧
     ∀ c, (c mod 1000000000 = 0)%Z → (c < Instant b)%Z ↔ (c < T - 1000000000)%Z) ∧
  runCluster (O:=O) opts o' = runCluster opts o.
Proof.
  destruct (Parse_FormatNano (UTC (T - 1))) as (t' & Ht' & Hi). rewrite Hparse in Ht'.
  injection Ht' as <-. rewrite Instant_UTC in Hi. split.
  - destruct (Parse_Format t) as (b & Hb & Hib). exists (Format t), b. split; [|split; [done|]].
    + unfold buildKubeArchiveQueryParams. rewrite Hbefore, Hi.
      rewrite (proj2 (Z.ltb_lt _ _)) by done. apply lookup_insert_eq.
    + assert (Instant b = T - 1000000000)%Z as ->; [|done].
      rewrite Hib, Hi. apply Z.div_exact in Hsecond; [|done].
      replace (T - 1)%Z with (999999999 + (T / 1000000000 - 1) * 1000000000)%Z by lia.
      rewrite Z.div_add by done. rewrite (Z.div_small 999999999) by lia. lia.
  - destruct Hsame as (Hin & Hpath & Hname & Hlimit). unfold runCluster, parseResourcesFromBytes.
    by rewrite Hin, Hpath, Hname, Hlimit.
Qed.
End pages.

(** ** Witnesses *)

#[local] Instance sample_text : CliText.
Proof.
  refine {| Time := Z; Instant := id; UTC := id;
            Format := λ t, FormatInt (t / 1000000000 * 1000000000);
            FormatNano := FormatInt; ParseTime := parseDigits;
            ParseQuery := λ _, Some ∅; EncodeQuery := λ _, ""; QueryEscape := id |}.
  - done.
  - intros t. eexists. split; [apply parseDigits_FormatInt|done].
  - intros t. eexists. split; [apply parseDigits_FormatInt|done].
Defined.

Definition sample_pod (uid name ns : string) (created : Z) : sample :=
  {| s_uid := uid; s_name := name; s_namespace := ns; s_created := created; s_deleted := None;
     s_version := "1"; s_flags := []; s_fields := [] |}.

(** Three pods in the cluster, of which one is archived with an older one. *)
Definition sample_K : list sample :=
  [sample_pod "1" "a" "x" 1000000000; sample_pod "2" "b" "x" 2000000000;
   sample_pod "3" "c" "x" 3000000000].
Definition sample_A : list sample := [sample_pod "2" "b" "x" 2000000000; sample_pod "0" "z" "x" 500].

#[local] Instance sample_json : CliJSON sample := {|
  UnmarshalObject := λ _, None;
  UnmarshalList := λ b, if String.eqb b "cluster" then Some sample_K
                        else if String.eqb b "archive" then Some sample_A else None;
  UnmarshalContinue := λ _, None;
|}.

#[local] Instance sample_http : HTTPLib := {|
  HTTPClientFor := λ _, None; NewRequest := λ _, None;
  ClientDo := λ c _ _, HTTPResponse 200 (rest_Host c) None;
|}.
#[local] Instance sample_status : StatusJSON := {| StatusMessage := λ _, None |}.
#[local] Instance sample_kubeconfig : KubeConfig := {|
  ToRESTConfig := None; ToDiscoveryClient := true; RawNamespace := None; SetupClients := true |}.

Definition sample_rest (host : string) : RESTConfig :=
  {| rest_Host := host; rest_Insecure := false; rest_BearerToken := ""; rest_CAData := None |}.

Definition sample_opts : KARetrieverOptions :=
  {| ro_host := ""; ro_tlsInsecure := false; ro_certificatePath := ""; ro_token := "";
     ro_certData := None; ro_Namespace := Some "x"; ro_BearerToken := None;
     ro_k8sRESTConfig := Some (sample_rest "cluster");
     ro_k9eRESTConfig := Some (sample_rest "archive") |}.

Definition sample_get (before : Z) : GetOptions :=
  {| go_AllNamespaces := false; go_APIPath := "/api/v1/namespaces/x/pods";
     go_ResourceInfo := Some {| ri_Resource := "pods"; ri_Version := "v1"; ri_Group := "";
       ri_GroupVersion := "v1"; ri_Kind := "Pod"; ri_Namespaced := true |};
     go_Name := ""; go_LabelSelector := ""; go_OutputFormat := ""; go_InCluster := true;
     go_Archived := true; go_Limit := 2; go_After := zeroTime; go_Before := before;
     go_kubearchiveQueryParams := ∅ |}.

Lemma sample_uids : uidByKey (sample_K ++ sample_A).
Proof.
  assert (Forall (λ a, Forall (λ b, GetUID a = GetUID b ↔ sameKey a b) (sample_K ++ sample_A))
    (sample_K ++ sample_A)) as H.
  { apply (bool_decide_unpack _). vm_compute. exact I. }
  intros a b Ha Hb. rewrite Forall_forall in H. specialize (H a Ha). rewrite Forall_forall in H.
  by apply H.
Qed.

Lemma Run_shows_page_witness :
  (∃ out, Run (O:=sample) sample_opts (sample_get 10) = Ok out ∧
     (GetName ∘ rwa_Resource) <$> out_resources out = ["c"; "b"]) ∧
  ∃ full : list (ResourceWithAvailability sample), unionByUID sample_K sample_A full.
Proof.
  assert (GetFromAPI sample_opts Kubernetes (go_APIPath (sample_get 10)) = Ok "cluster") as H1
    by reflexivity.
  assert (GetFromAPI sample_opts KubeArchive (kubearchiveAPIPath (sample_get 10)) = Ok "archive")
    as H2 by reflexivity.
  assert (1 <= go_Limit (sample_get 10))%Z as Hl by (cbn; lia).
  assert (UnmarshalList (O:=sample) "cluster" = Some sample_K) as HK by reflexivity.
  assert (UnmarshalList (O:=sample) "archive" = Some sample_A) as HA by reflexivity.
  assert (sample_K ++ sample_A ≠ []) as Hne by discriminate.
  destruct (Run_shows_page sample_opts (sample_get 10) _ sample_K sample_A "cluster" "archive"
    eq_refl eq_refl eq_refl Hl eq_refl H1 HK H2 HA sample_uids Hne) as (full & oldest & Hu & _).
  split; [|exists full; exact Hu]. eexists. split; [vm_compute; reflexivity|reflexivity].
Defined.

(** Two pods of one name, in two namespaces, created in the same second. *)
Definition sample_twins : list sample :=
  [sample_pod "1" "web" "x" 1000000000; sample_pod "2" "web" "y" 1000000000].

Lemma same_second_lost_witness :
  (length (mergeReference sample_twins []) = 1)%nat ∧
  ¬ (sample_pod "1" "web" "x" 1000000000 ∈ rwa_Resource <$> mergeReference sample_twins [] ∧
     sample_pod "2" "web" "y" 1000000000 ∈ rwa_Resource <$> mergeReference sample_twins []).
Proof.
  split; [vm_compute; reflexivity|].
  assert (merged sample_twins [] (mergeReference sample_twins [])) as Hm.
  { apply mergeReference_merged. intros a b Ha Hb Hu.
    assert (∀ x, x ∈ sample_twins ++ [] → x = sample_pod "1" "web" "x" 1000000000 ∨
      x = sample_pod "2" "web" "y" 1000000000) as Hx by (cbn; set_solver).
    destruct (Hx a Ha) as [-> | ->], (Hx b Hb) as [-> | ->]; done. }
  refine (same_second_lost sample_twins [] _ _ _ Hm _ _); [discriminate|split; reflexivity].
Defined.

Lemma next_page_gap_witness :
  (∃ txt b, buildKubeArchiveQueryParams 9000000000 (sample_get 1999999999)
      !! "creationTimestampBefore" = Some [txt] ∧ ParseTime txt = Some b ∧ Instant b = 1000000000%Z) ∧
  runCluster (O:=sample) sample_opts (sample_get 1999999999) = runCluster sample_opts (sample_get 10).
Proof.
  assert (ParseTime (FormatNano (UTC (2000000000 - 1))) = Some 1999999999%Z) as Hp
    by (vm_compute; reflexivity).
  assert ((2000000000 mod 1000000000 = 0)%Z) as Hs by reflexivity.
  assert ((2000000000 - 1 < 9000000000)%Z) as Hn by lia.
  destruct (next_page_gap (O:=sample) sample_opts 9000000000 2000000000 (sample_get 10)
    (sample_get 1999999999) 1999999999%Z Hs Hn Hp eq_refl
    (conj eq_refl (conj eq_refl (conj eq_refl eq_refl)))) as [_ H2].
  split; [|exact H2]. eexists _, _. split; [vm_compute; reflexivity|].
  split; vm_compute; reflexivity.
Defined.
