(* ===== verification/RetrieverFacts.v ===== *)
(** * The resource a specification names, and the server a command talks to *)
From S2P Require Import Prelude GoLib GoStrings Api CliHttp CliConfig CliConfigFacts CliSetup Retriever Samples.

(** ** Specifications *)

Section specifications.
  Context `{!Discovery, !RESTMapper, !MapRange}.

(** The specification the message of [get] prints. *)
Definition fullSpec (resource version group : string) : string :=
  resource +:+ "." +:+ version +:+ "." +:+ group.

(** The specification of a resource in that message: its name alone in the core group. *)
Definition nextSpec (info : ResourceInfo) : string :=
  if String.eqb (ri_Group info) "" then ri_Resource info
  else fullSpec (ri_Resource info) (ri_Version info) (ri_Group info).

Lemma parseResourceSpec_full resource version group :
  resource ≠ "" → free_of "." resource → free_of "." version → isVersion version = true →
  parseResourceSpec (fullSpec resource version group) = Ok (resource, version, group).
Proof.
  intros Hne Hr Hv Hver. unfold parseResourceSpec, fullSpec.
  change (resource +:+ "." +:+ version +:+ "." +:+ group)
    with (resource +:+ String "." (version +:+ String "." group)).
  rewrite Split_app by done. rewrite Split_app by done.
  rewrite (proj2 (String.eqb_neq resource "")) by done.
  rewrite Hver. by rewrite Join_Split.
Qed.

Lemma candidatesOf_full name version group l c :
  version ≠ "" → group ≠ "" → c ∈ candidatesOf name version group l →
  ri_Group c = group ∧ ri_Version c = version.
Proof.
  intros Hv Hg. unfold candidatesOf, nonempty.
  destruct (ParseGroupVersion (arl_GroupVersion l)) as [[g v]|]; [|by intros ?%not_elem_of_nil].
  rewrite (proj2 (String.eqb_neq group "")), (proj2 (String.eqb_neq version "")) by done.
  cbn [negb andb]. case_eqb; [|by intros ?%not_elem_of_nil]. cbn [negb].
  case_eqb; [|by intros ?%not_elem_of_nil]. cbn [negb]. subst.
  by intros (r & -> & _)%list_elem_of_fmap.
Qed.

Lemma groupCandidates_one g l :
  l ≠ [] → (∀ c, c ∈ l → ri_Group c = g) → groupCandidates l = {[g := l]}.
Proof.
  assert (∀ l acc, (∀ c, c ∈ l → ri_Group c = g) →
    foldl (λ (groupMap : gmap string (list ResourceInfo)) candidate,
      <[ri_Group candidate := default [] (groupMap !! ri_Group candidate) ++ [candidate]]> groupMap)
      {[g := acc]} l = {[g := acc ++ l]}) as Hf.
  { clear l. induction l as [|c l IH]; intros acc Hg; cbn [foldl].
    - by rewrite app_nil_r.
    - rewrite (Hg c) by (by left). rewrite lookup_singleton_eq. cbn [default].
      rewrite insert_singleton_eq, IH by (intros; apply Hg; by right). by rewrite <-app_assoc. }
  destruct l as [|c l]; [done|]. intros _ Hg. unfold groupCandidates. cbn [foldl].
  rewrite (Hg c) by (by left). rewrite lookup_empty. cbn [default app].
  rewrite insert_empty, Hf; [done|]. intros; apply Hg; by right.
Qed.

(** Candidates of one group and one version: the first of them. *)
Lemma selectPreferredResource_one g v c l :
  (∀ x, x ∈ c :: l → ri_Group x = g ∧ ri_Version x = v) →
  selectPreferredResource (c :: l) = Some c.
Proof.
  intros Hall. unfold selectPreferredResource.
  rewrite (groupCandidates_one g (c :: l)) by (done || (intros x Hx; by apply Hall)).
  rewrite map_to_list_singleton.
  assert (range [(g, c :: l)] = [(g, c :: l)]) as -> by (apply Permutation_singleton_r, range_perm).
  cbn [omap list_omap fst snd]. destruct (Hall c ltac:(by left)) as [Hg Hv].
  destruct l as [|d l]; [done|]. unfold preferredOf.
  destruct (getPreferredVersion g) as [p|]; [|done].
  destruct (decide (v = p)) as [->|Hne].
  - rewrite filter_cons, decide_True by done. done.
  - rewrite filter_none; [done|]. intros x Hx. destruct (Hall x Hx) as [_ ->]. done.
Qed.

Lemma groupCandidates_elem l g cs c : groupCandidates l !! g = Some cs → c ∈ cs → c ∈ l.
Proof.
  revert cs; induction l as [|x l IH] using rev_ind; intros cs; [done|].
  unfold groupCandidates. rewrite foldl_snoc, elem_of_app. fold (groupCandidates l).
  intros [[<- <-]|[_ Hl]]%lookup_insert_Some; [|left; by eapply IH].
  rewrite elem_of_app. intros [Hc|Hc]; [left|by right].
  destruct (groupCandidates l !! ri_Group x) as [old|] eqn:E; [by eapply IH|by apply elem_of_nil in Hc].
Qed.

Lemma preferredOf_elem g l c : preferredOf g l = Some c → c ∈ l.
Proof.
  assert (∀ l : list ResourceInfo, head l = Some c → c ∈ l) as Hh by (intros []; [done|intros [= ->]; by left]).
  unfold preferredOf. destruct l as [|d [|d' l]]; [|intros [= ->]; by left|].
  all: destruct (getPreferredVersion g); [intros Hf%Hh; by apply list_elem_of_filter in Hf as [_ ?]|apply Hh].
Qed.

(** One of the candidates is selected. *)
Lemma selectPreferredResource_elem c l :
  ∃ x, selectPreferredResource (c :: l) = Some x ∧ x ∈ c :: l.
Proof.
  unfold selectPreferredResource. destruct (omap _ _) as [|x xs] eqn:E.
  { exists c. split; [done|by left]. }
  exists x. split; [done|].
  assert (x ∈ omap (λ e, preferredOf e.1 e.2) (range (map_to_list (groupCandidates (c :: l))))) as Hx
    by (rewrite E; by left).
  apply list_elem_of_omap in Hx as ([g cs] & Hin & Hp%preferredOf_elem).
  rewrite range_perm, elem_of_map_to_list in Hin. by eapply groupCandidates_elem.
Qed.

(** The candidates of the printed specification: the resources of any group that answer to
    the name, for the core group, and those of the version of the group for another. *)
Definition printedCandidates (info : ResourceInfo) (lists : list APIResourceList) : list ResourceInfo :=
  lists ≫= candidatesOf (ri_Resource info)
    (if String.eqb (ri_Group info) "" then "" else ri_Version info) (ri_Group info).

(** A resource as discovery lists it: a name without dots, and a version. *)
Record printable (info : ResourceInfo) : Prop := {
  pr_name : ri_Resource info ≠ "";
  pr_free : free_of "." (ri_Resource info);
  pr_version : free_of "." (ri_Version info) ∧ isVersion (ri_Version info) = true;
}.

End specifications.

(** Without a group, a name two groups share resolves to either, as the map goes. *)
Section ambiguous.
Definition sample_resource : APIResource :=
  {| apires_Name := "events"; apires_SingularName := "event"; apires_ShortNames := ["ev"];
     apires_Kind := "Event"; apires_Namespaced := true |}.

#[local] Instance sample_discovery : Discovery := {|
  ServerGroups := Some [];
  ServerGroupsAndResources := Some
    [{| arl_GroupVersion := "v1"; arl_APIResources := [sample_resource] |};
     {| arl_GroupVersion := "events.k8s.io/v1"; arl_APIResources := [sample_resource] |}];
|}.

Lemma ambiguous_name_by_order :
  ∃ (o1 o2 : MapRange) r1 r2,
    @ResolveResourceSpec _ _ o1 "events" = Ok r1 ∧ @ResolveResourceSpec _ _ o2 "events" = Ok r2 ∧
    ri_Group r1 ≠ ri_Group r2.
Proof.
  exists sample_range,
    {| range := λ A l, reverse l; range_perm := λ A l, reverse_Permutation l |}.
  eexists _, _. split; [vm_compute; reflexivity|]. split; [vm_compute; reflexivity|]. done.
Qed.

Definition sample_event_info : ResourceInfo :=
  {| ri_Resource := "events"; ri_Version := "v1"; ri_Group := "events.k8s.io";
     ri_GroupVersion := "events.k8s.io/v1"; ri_Kind := "Event"; ri_Namespaced := true |}.

End ambiguous.

(** ** Completion *)

Section completion.
  Context `{!KubeConfig, !ConnectivityTester, !CertFiles, !ConfigYaml, !URLParser, !MapRange,
            !ClusterClients}.

Lemma loadPersistentConfig_k8s opts cm file r opts' cm' :
  loadPersistentConfig opts cm file = (r, opts', cm') →
  ro_k8sRESTConfig opts' = ro_k8sRESTConfig opts.
Proof.
  unfold loadPersistentConfig. destruct (LoadConfig _ _ _) as [[[[]|e0|] cm1] f1]; try by intros [= _ <- _].
  destruct (GetCurrentClusterConfig cm1) as [cc|e1|]; try by intros [= _ <- _].
  destruct (nonempty _); [|by intros [= _ <- _]].
  destruct (LoadCertData _) as [[p d]|e2|]; by intros [= _ <- _].
Qed.

Lemma GetNamespace_k8s opts r opts' :
  GetNamespace opts = (r, opts') → ro_k8sRESTConfig opts' = ro_k8sRESTConfig opts.
Proof.
  unfold GetNamespace. destruct (ro_Namespace opts) as [[|a s]|]; [..|];
    try (by intros [= _ <-]); destruct RawNamespace as [[ns|]|]; by intros [= _ <-].
Qed.

Lemma reconfigure_k8s fault ls opts file opts' file' :
  reconfigure fault ls opts file = (Ok opts', file') →
  ro_k8sRESTConfig opts' = ro_k8sRESTConfig opts ∧
  (file' = file ∨ IsConfirmed DefaultYes (default "" (head ls)) = true).
Proof.
  unfold reconfigure. destruct (loadPersistentConfig opts _ file) as [[r o1] cm1] eqn:E1.
  apply loadPersistentConfig_k8s in E1.
  assert (match testConnectivity o1 with
    | None => (Ok o1, file)
    | Some _ =>
        let '(ns, opts) := GetNamespace o1 in
        let ns := match ns with Ok ns => ns | _ => "default" end in
        match PromptForConfirmation DefaultYes ls with
        | (Ok true, ls) =>
            match runSetup SetupClients fault (k8sOf opts).2 (Some ns) ls cm1 file with
            | (Ok _, configManager, file) =>
                match loadPersistentConfig opts configManager file with
                | (Ok _, opts, _) => (Ok opts, file)
                | (Err e, _, _) => (Err (PersistentFailed e), file)
                | (Panic, _, _) => (Panic, file)
                end
            | (Err e, _, file) => (Err (SetupFailed e), file)
            | (Panic, _, file) => (Panic, file)
            end
        | (Panic, _) => (Panic, file)
        | _ => (Err SetupStopped, file)
        end
    end = (Ok opts', file') →
    ro_k8sRESTConfig opts' = ro_k8sRESTConfig opts ∧
    (file' = file ∨ IsConfirmed DefaultYes (default "" (head ls)) = true)) as Hmain.
  { destruct (testConnectivity o1); [|intros [= <- <-]; auto].
    destruct (GetNamespace o1) as [ns o2] eqn:E2. apply GetNamespace_k8s in E2. cbv zeta.
    destruct (PromptForConfirmation DefaultYes ls) as [[b|e|] ls'] eqn:Ep; [destruct b| |]; try done.
    assert (IsConfirmed DefaultYes (default "" (head ls)) = true) as Hc.
    { unfold PromptForConfirmation, Scanln in Ep. apply (f_equal fst) in Ep. destruct ls; [reflexivity|]. injection Ep as Hb. exact Hb. }
    destruct (runSetup _ _ _ _ _ _ _) as [[[[]|e|] cm2] file2]; try done.
    destruct (loadPersistentConfig o2 cm2 file2) as [[[[]|e|] o3] cm3] eqn:E3; try done.
    apply loadPersistentConfig_k8s in E3. intros [= <- <-]. split; [congruence|by right]. }
  by destruct r.
Qed.

Lemma testConnectivity_None opts :
  testConnectivity opts = None →
  ro_host opts ≠ "" ∧ ro_token opts ≠ "" ∧
  TestKubeArchiveConnectivity (ro_host opts) (ro_tlsInsecure opts) (ro_token opts)
    (ro_certData opts) = None.
Proof.
  unfold testConnectivity. case_eqb; [done|]. case_eqb; [done|].
  destruct (TestKubeArchiveConnectivity _ _ _ _); done.
Qed.

(** Options that are completed without an error talk to a server that answered a test
    with the same host, token and certificate, never without the verification of a
    certificate that was given, and with the kubeconfig's server for the cluster; the
    configuration file changes only after the user accepts a setup. *)
Theorem CompleteRetriever_tested fault ls opts file opts' file'
    (Hrun : CompleteRetriever fault ls opts file = (Ok opts', file')) :
  ∃ k8s cfg,
    ToRESTConfig = Some k8s ∧ ro_k8sRESTConfig opts' = Some k8s ∧
    ro_k9eRESTConfig opts' = Some cfg ∧
    rest_Host cfg ≠ "" ∧ rest_BearerToken cfg ≠ "" ∧
    TestKubeArchiveConnectivity (rest_Host cfg) (ro_tlsInsecure opts') (rest_BearerToken cfg)
      (rest_CAData cfg) = None ∧
    (rest_Insecure cfg = true ↔ ro_tlsInsecure opts' = true ∧ rest_CAData cfg = None) ∧
    (file' = file ∨ IsConfirmed DefaultYes (default "" (head ls)) = true).
Proof.
  unfold CompleteRetriever in Hrun. destruct ToRESTConfig as [k8s|] eqn:Ek; [|done].
  destruct ToDiscoveryClient; cbn [negb] in Hrun; [|done].
  set (o1 := setRESTConfigs (Some k8s) _ opts) in *.
  destruct (o2 ← completeToken k8s file o1; completeCert o2) as [o3|e|] eqn:Ec; try done.
  assert (ro_k8sRESTConfig o3 = Some k8s) as Hk3.
  { revert Ec. unfold completeToken, completeCert.
    destruct (storedToken (rest_Host k8s) file) as [t|e|];
      repeat (match goal with |- context [if ?b then _ else _] => destruct b end ||
              match goal with |- context [match ro_BearerToken ?o with _ => _ end] =>
                destruct (ro_BearerToken o) as [[|? ?]|] end ||
              match goal with |- context [LoadCertData ?p] =>
                destruct (LoadCertData p) as [[? ?]|?|] end;
              cbn [mbind outcome_bind]);
      by intros [= <-]. }
  assert (∃ o4 file4, (match testConnectivity o3 with
      | None => (Ok o3, file) | Some _ => reconfigure fault ls o3 file end) = (Ok o4, file4) ∧
    testConnectivity o4 = None ∧ opts' = setK9eRESTConfig o4 ∧ file' = file4) as (o4 & file4 & E4 & Ht & -> & ->).
  { destruct (match testConnectivity o3 with None => _ | Some _ => _ end) as [[o4|e|] file4]; try done.
    exists o4, file4. destruct (testConnectivity o4); [done|]. injection Hrun as <- <-. done. }
  assert (ro_k8sRESTConfig o4 = Some k8s ∧
    (file4 = file ∨ IsConfirmed DefaultYes (default "" (head ls)) = true)) as [Hk4 Hfile].
  { destruct (testConnectivity o3); [|injection E4 as <- <-; auto].
    apply reconfigure_k8s in E4 as [-> ?]. auto. }
  apply testConnectivity_None in Ht as (Hh & Htok & Hconn).
  eexists k8s, _. split; [done|]. split; [done|]. split; [reflexivity|]. cbn.
  split_and!; try done. destruct (ro_certData o4); naive_solver.
Qed.
End completion.

(** *** A witness: the options of the environment work, the file is not touched *)

#[local] Instance sample_kubeconfig : KubeConfig := {|
  ToRESTConfig := Some {| rest_Host := "https://dev"; rest_Insecure := false;
                          rest_BearerToken := "kube"; rest_CAData := None |};
  ToDiscoveryClient := true; RawNamespace := Some (Some "ns"); SetupClients := true |}.
#[local] Instance sample_clients : ClusterClients := {|
  ListNamespaces := None; GetConfigMapData := λ _, None; GetService := λ _, (None, true);
  ListRoutes := λ _, None; CreateToken := λ _ _, None |}.

Definition sample_retriever : KARetrieverOptions :=
  {| ro_host := "https://ka"; ro_tlsInsecure := false; ro_certificatePath := "~/ca.crt";
     ro_token := ""; ro_certData := None; ro_Namespace := None; ro_BearerToken := None;
     ro_k8sRESTConfig := None; ro_k9eRESTConfig := None |}.

Lemma CompleteRetriever_tested_witness :
  let run := @CompleteRetriever sample_kubeconfig CliConfigFacts.sample_tester
    CliConfigFacts.sample_cert_files CliConfigFacts.sample_yaml CliConfigFacts.sample_urls
    sample_range sample_clients NoSaveFault [] sample_retriever Missing in
  ∃ opts' k8s, run = (Ok opts', Missing) ∧ ro_token opts' = "kube" ∧
    ro_certificatePath opts' = "/home/ca.crt" ∧ ro_k8sRESTConfig opts' = Some k8s.
Proof.
  cbv zeta. eexists _, _. split; [vm_compute; reflexivity|].
  split; [reflexivity|]. split; [reflexivity|].
  destruct (@CompleteRetriever_tested sample_kubeconfig CliConfigFacts.sample_tester
    CliConfigFacts.sample_cert_files CliConfigFacts.sample_yaml CliConfigFacts.sample_urls
    sample_range sample_clients NoSaveFault [] sample_retriever Missing _ Missing
    ltac:(vm_compute; reflexivity)) as (k8s & cfg & _ & Hk & _).
  reflexivity.
Defined.
