(* ===== verification/CliSetupFacts.v ===== *)
(** * The interactive setup stores only what it tried *)
From S2P Require Import Prelude GoLib GoStrings CliHttp CliConfig CliConfigFacts CliSetup.

Section setup.
  Context `{!ClusterClients, !ConnectivityTester, !CertFiles, !ConfigYaml, !URLParser, !MapRange}.

Lemma setup_bind_Ok {A B} (m : Setup A) (f : A → Setup B) ls b ls' :
  (m ≫= f) ls = (Ok b, ls') → ∃ a ls1, m ls = (Ok a, ls1) ∧ f a ls1 = (Ok b, ls').
Proof.
  unfold mbind, setup_bind. destruct (m ls) as [[a|e|] ls1]; [|done|done]. by exists a, ls1.
Qed.

(** How a host was reached with the TLS settings of an entry. *)
Inductive reached (host : string) : bool → string → Prop :=
| ReachedVerified : TestKubeArchiveLivezEndpoint host false None = None → reached host false ""
| ReachedCertificate path data :
    path ≠ "" → ReadCertFile path = Some data →
    TestKubeArchiveLivezEndpoint host false (Some data) = None → reached host false path
| ReachedInsecure : TestKubeArchiveLivezEndpoint host true None = None → reached host true "".

Lemma LoadCertData_path path expanded data :
  LoadCertData path = Ok (expanded, data) → ReadCertFile expanded = Some data ∧ expanded ≠ "".
Proof.
  unfold LoadCertData. destruct path as [|c rest]; [done|].
  destruct (if Ascii.eqb c "~" then _ else _) as [p|]; [|done].
  destruct (ReadCertFile p) as [d|] eqn:Er; [|done]. intros [= <- <-]. split; [done|].
  intros ->. by rewrite ReadCertFile_empty in Er.
Qed.

Lemma TLS_reached host ls a b ls1 u ls2 :
  getTLSSetup host ls = (Ok (a, b), ls1) → checkTLS host a b ls1 = (Ok u, ls2) → reached host a b.
Proof.
  unfold getTLSSetup. destruct (TestKubeArchiveLivezEndpoint host false None) eqn:Et.
  2: { intros [= <- <- <-] _. by constructor. }
  intros (choice & ls3 & _ & Hc)%setup_bind_Ok. revert Hc. cbv zeta.
  destruct (String.eqb (TrimSpace choice) "1").
  - intros (path & ls4 & _ & Hc)%setup_bind_Ok. revert Hc. cbv zeta.
    destruct (String.eqb (TrimSpace path) ""); [done|].
    destruct (LoadCertData (TrimSpace path)) as [[expanded d]|e|] eqn:El; [|done|done].
    apply LoadCertData_path in El as [Er Hne]. intros [= <- <- <-]. unfold checkTLS, nonempty.
    rewrite (proj2 (String.eqb_neq _ _) Hne), Er. cbn [negb].
    destruct (TestKubeArchiveLivezEndpoint host false (Some d)) eqn:Et'; [done|].
    intros _. by eapply ReachedCertificate.
  - destruct (String.eqb (TrimSpace choice) "2"); [|done].
    intros (confirm & ls4 & _ & Hc)%setup_bind_Ok. revert Hc. destruct confirm; [|done].
    intros [= <- <- <-]. unfold checkTLS. cbn.
    destruct (TestKubeArchiveLivezEndpoint host true None) eqn:Et'; [done|].
    intros _. by constructor.
Qed.

Lemma getTokenForKubeArchive_token host k8sToken namespace ls token ls' :
  getTokenForKubeArchive host k8sToken namespace ls = (Ok token, ls') →
  (token = "" ∧ TestKubeArchiveConnectivity host true k8sToken None = None) ∨
  ∃ serviceAccount ns, CreateToken serviceAccount ns = Some token.
Proof.
  unfold getTokenForKubeArchive.
  destruct (TestKubeArchiveConnectivity host true k8sToken None); [|intros [= <- <-]; by left].
  intros (use & ls1 & _ & Hc)%setup_bind_Ok. destruct use; [|done].
  apply setup_bind_Ok in Hc as (sa & ls2 & _ & (ns & ls3 & _ & Hc)%setup_bind_Ok).
  unfold liftSetup, getTokenForSA in Hc. destruct (CreateToken _ _) as [t|] eqn:E; [|done].
  injection Hc as <- <-. right. by eexists _, _.
Qed.

(** What the answers lead to: the host that was discovered, reached with the settings of
    the entry, and a token that was accepted or issued. *)
Lemma askEntry_tried k8sToken namespace cm ls cm' c ls' :
  askEntry k8sToken namespace cm ls = (Ok (cm', c), ls') →
  getKubeArchiveHost = Ok (Host c) ∧ reached (Host c) (TLSInsecure c) (CertPath c) ∧
  ((Token c = "" ∧ TestKubeArchiveConnectivity (Host c) true k8sToken None = None) ∨
   ∃ serviceAccount ns, CreateToken serviceAccount ns = Some (Token c)) ∧
  ServerURL c = k8sHost cm' ∧ ∃ ls1, dropCurrent cm ls = (Ok cm', ls1).
Proof.
  unfold askEntry. intros (cm1 & ls1 & Hd & Hc)%setup_bind_Ok.
  destruct (GenerateClusterName cm1) as [name|e|]; [|done|done].
  apply setup_bind_Ok in Hc as (confirmed & ls2 & _ & Hc). destruct confirmed; cbn [negb] in Hc; [|done].
  apply setup_bind_Ok in Hc as (response & ls3 & _ & Hc).
  destruct getKubeArchiveHost as [host|e|] eqn:Eh; [|done|done].
  apply setup_bind_Ok in Hc as ([a b] & ls4 & Ht & (u & ls5 & Hk & Hc)%setup_bind_Ok).
  apply setup_bind_Ok in Hc as (token & ls6 & Htok & (ok & ls7 & _ & Hc)%setup_bind_Ok).
  destruct ok; cbn [negb] in Hc; [|done]. injection Hc as <- <- <-. cbn.
  split; [done|]. split; [by eapply TLS_reached|].
  split; [by eapply getTokenForKubeArchive_token|]. split; [done|]. by exists ls1.
Qed.

(** A setup that succeeds has stored the entry, at the name the user gave: an entry of
    another cluster of that name is replaced. *)
Lemma RunSetup_stores k8sToken namespace ls cm file cm' file' :
  RunSetup NoSaveFault k8sToken namespace ls cm file = (Ok (), cm', file') →
  ∃ cm1 m c, Clusters cm1 = Some m ∧ (∃ ls1, dropCurrent cm ls = (Ok cm1, ls1)) ∧
    reached (Host c) (TLSInsecure c) (CertPath c) ∧ ServerURL c = k8sHost cm1 ∧
    stored file' (persisted <$> <[ClusterName c := c]> m).
Proof.
  unfold RunSetup. destruct (askEntry k8sToken namespace cm ls) as [[[cm1 c]|e|] ls'] eqn:Ea; [|done|done].
  apply askEntry_tried in Ea as (_ & Hr & _ & Hs & Hd). cbn [fst].
  unfold AddCluster. destruct (Clusters cm1) as [m|] eqn:Em; [|done].
  set (cm2 := setClusters _ cm1).
  destruct (SaveConfig NoSaveFault cm2 file) as [[[[]|e|] cm3] file3] eqn:Es; [|done|done].
  intros [= <- <-]. exists cm1, m, c. split; [done|]. split; [done|]. split; [done|]. split; [done|].
  eapply SaveConfig_stored; [|done]. done.
Qed.
End setup.
