(* ===== verification/CommandLine.v ===== *)
(** * [cmd/kubectl-ka], [pkg/cmd]: the commands of [kubectl ka]

    The commands, their flags and the arguments they take, what each runs, and the exit
    status.  Finding the command of a command line, and its flags and arguments in it, is
    the work of cobra and pflag, which are parameters. *)
From S2P Require Import Prelude GoLib GoStrings Api CliHttp CliConfig CliSetup Retriever CliGet CliLogs CliPrint.

(** ** Flags *)

Inductive FlagType := StringFlag | BoolFlag | IntFlag | TimeFlag.

Record Flag := { fl_Name : string; fl_Short : string; fl_Type : FlagType }.

(** The flag of a name. *)
Definition flagNamed (name : string) (fs : list Flag) : option Flag :=
  List.find (λ f, String.eqb (fl_Name f) name) fs.

(** The flags [cli-runtime] adds, which have one for the namespace and none for the
    output. *)
Class LibraryFlags := {
  kubeFlags : list Flag;
  jsonYamlFlags : list Flag;
  namespace_flag : flagNamed "namespace" kubeFlags =
    Some {| fl_Name := "namespace"; fl_Short := "n"; fl_Type := StringFlag |};
  output_flag : flagNamed "output" (kubeFlags ++ jsonYamlFlags) = None;
}.

Section flags.
  Context `{!LibraryFlags}.

Definition AddK8sFlags : list Flag := kubeFlags.

Definition AddRetrieverFlags : list Flag :=
  AddK8sFlags ++
  [ {| fl_Name := "host"; fl_Short := ""; fl_Type := StringFlag |};
    {| fl_Name := "kubearchive-insecure-skip-tls-verify"; fl_Short := ""; fl_Type := BoolFlag |};
    {| fl_Name := "kubearchive-certificate-authority"; fl_Short := ""; fl_Type := StringFlag |} ].

Definition getFlags : list Flag :=
  [ {| fl_Name := "all-namespaces"; fl_Short := "A"; fl_Type := BoolFlag |};
    {| fl_Name := "selector"; fl_Short := "l"; fl_Type := StringFlag |};
    {| fl_Name := "in-cluster"; fl_Short := ""; fl_Type := BoolFlag |};
    {| fl_Name := "archived"; fl_Short := ""; fl_Type := BoolFlag |};
    {| fl_Name := "limit"; fl_Short := ""; fl_Type := IntFlag |};
    {| fl_Name := "after"; fl_Short := ""; fl_Type := TimeFlag |};
    {| fl_Name := "before"; fl_Short := ""; fl_Type := TimeFlag |} ] ++
  AddRetrieverFlags ++ jsonYamlFlags ++
  [ {| fl_Name := "output"; fl_Short := "o"; fl_Type := StringFlag |} ].

Definition logsFlags : list Flag :=
  AddRetrieverFlags ++
  [ {| fl_Name := "container"; fl_Short := "c"; fl_Type := StringFlag |};
    {| fl_Name := "selector"; fl_Short := "l"; fl_Type := StringFlag |} ].
End flags.

(** ** Commands *)

Inductive Command :=
| RootCmd | VersionCmd | GetCmd | LogsCmd | ConfigCmd | ListCmd | SetCmd | UnsetCmd | RemoveCmd | SetupCmd.

(** The validators of positional arguments of cobra; a command without one takes any,
    but for the root, whose arguments are the names of its commands. *)
Inductive PositionalArgs := ArbitraryArgs | NoArgs | ExactArgs (n : nat) | MinimumNArgs (n : nat)
| MaximumNArgs (n : nat) | RangeArgs (min max : nat).

Definition validArgs (p : PositionalArgs) (args : list string) : bool :=
  let n := length args in
  match p with
  | ArbitraryArgs => true
  | NoArgs => n =? 0
  | ExactArgs k => n =? k
  | MinimumNArgs k => k <=? n
  | MaximumNArgs k => n <=? k
  | RangeArgs lo hi => (lo <=? n) && (n <=? hi)
  end%nat.

Definition argsOf (c : Command) : PositionalArgs :=
  match c with
  | RootCmd => NoArgs
  | VersionCmd | ConfigCmd | ListCmd | SetupCmd => ArbitraryArgs
  | GetCmd => RangeArgs 1 2
  | LogsCmd => ExactArgs 1
  | SetCmd => MinimumNArgs 1
  | UnsetCmd => ExactArgs 1
  | RemoveCmd => MaximumNArgs 1
  end.

(** The name of each command below the root, as the commands are added. *)
Definition commandPath (c : Command) : list string :=
  match c with
  | RootCmd => []
  | VersionCmd => ["version"] | GetCmd => ["get"] | LogsCmd => ["logs"] | ConfigCmd => ["config"]
  | ListCmd => ["config"; "list"] | SetCmd => ["config"; "set"] | UnsetCmd => ["config"; "unset"]
  | RemoveCmd => ["config"; "remove"] | SetupCmd => ["config"; "setup"]
  end.

Definition flagsOf `{!LibraryFlags} (c : Command) : list Flag :=
  match c with
  | RootCmd | VersionCmd => []
  | GetCmd => getFlags
  | LogsCmd => logsFlags
  | ConfigCmd | ListCmd | SetCmd | UnsetCmd | RemoveCmd | SetupCmd => AddK8sFlags
  end.

(** cobra and pflag.  [Find] is the command of a command line and the words after its
    name; [ParseFlags] finds the settings of flags, in order, and the arguments, or fails;
    [ParseLimit] is the value of a flag that is a number.  A flag takes the next word as
    its value unless it is a switch, and words that do not begin with a dash are
    arguments wherever they are. *)
Class CobraLib `{!LibraryFlags} := {
  Find : list string → option (Command * list string);
  ParseFlags : list Flag → list string → option (list (string * string) * list string);
  ParseLimit : string → option Z;
  Parse_nil fs : ParseFlags fs [] = Some ([], []);
  Parse_value fs name f v ws : flagNamed name fs = Some f → fl_Type f ≠ BoolFlag →
    ParseFlags fs (("--" +:+ name) :: v :: ws) =
    (λ '(vals, args), ((name, v) :: vals, args)) <$> ParseFlags fs ws;
  Parse_switch fs name f ws : flagNamed name fs = Some f → fl_Type f = BoolFlag →
    ParseFlags fs (("--" +:+ name) :: ws) =
    (λ '(vals, args), ((name, "true") :: vals, args)) <$> ParseFlags fs ws;
  Parse_argument fs w ws : HasPrefix w "-" = false →
    ParseFlags fs (w :: ws) = (λ '(vals, args), (vals, w :: args)) <$> ParseFlags fs ws;
  ParseLimit_FormatInt z : int64_ok z → ParseLimit (FormatInt z) = Some z;
}.

(** [Flags().Changed]. *)
Definition Changed (name : string) (vals : list (string * string)) : bool :=
  bool_decide (name ∈ vals.*1).

(** ** The settings of flags *)

(** [strconv.ParseBool]. *)
Definition ParseBool (s : string) : option bool :=
  if ParseBoolOrFalse s then Some true
  else if bool_decide (s ∈ ["0"; "f"; "F"; "FALSE"; "false"; "False"]) then Some false
  else None.

(** The flags of the retriever, and those of the kubeconfig that the options hold. *)
Definition setRetrieverFlag (opts : KARetrieverOptions) (name v : string) : option KARetrieverOptions :=
  let set host insecure cert ns token :=
    {| ro_host := host; ro_tlsInsecure := insecure; ro_certificatePath := cert; ro_token := ro_token opts;
       ro_certData := ro_certData opts; ro_Namespace := ns; ro_BearerToken := token;
       ro_k8sRESTConfig := ro_k8sRESTConfig opts; ro_k9eRESTConfig := ro_k9eRESTConfig opts |} in
  let host := ro_host opts in
  let insecure := ro_tlsInsecure opts in
  let cert := ro_certificatePath opts in
  let ns := ro_Namespace opts in
  let token := ro_BearerToken opts in
  if String.eqb name "host" then Some (set v insecure cert ns token)
  else if String.eqb name "kubearchive-insecure-skip-tls-verify" then
    b ← ParseBool v; Some (set host b cert ns token)
  else if String.eqb name "kubearchive-certificate-authority" then Some (set host insecure v ns token)
  else if String.eqb name "namespace" then Some (set host insecure cert (Some v) token)
  else if String.eqb name "token" then Some (set host insecure cert ns (Some v))
  else Some opts.

Section getFlag.
  Context `{!LibraryFlags, !CobraLib, !CliText}.

(** The options with the fields of the flags of [get]. *)
Definition setGet (o : GetOptions) (all : bool) (selector : string) (inCluster archived : bool)
    (limit : Z) (after before : Time) (output : string) : GetOptions :=
  {| go_AllNamespaces := all; go_APIPath := go_APIPath o; go_ResourceInfo := go_ResourceInfo o;
     go_Name := go_Name o; go_LabelSelector := selector; go_OutputFormat := output;
     go_InCluster := inCluster; go_Archived := archived; go_Limit := limit; go_After := after;
     go_Before := before; go_kubearchiveQueryParams := go_kubearchiveQueryParams o |}.

(** One flag of [get]; [None] is a value of the wrong form. *)
Definition setGetFlag (st : KARetrieverOptions * GetOptions) (setting : string * string)
    : option (KARetrieverOptions * GetOptions) :=
  let '(opts, o) := st in
  let '(name, v) := setting in
  let all := go_AllNamespaces o in
  let selector := go_LabelSelector o in
  let inCluster := go_InCluster o in
  let archived := go_Archived o in
  let limit := go_Limit o in
  let after := go_After o in
  let before := go_Before o in
  let output := go_OutputFormat o in
  if String.eqb name "all-namespaces" then
    b ← ParseBool v; Some (opts, setGet o b selector inCluster archived limit after before output)
  else if String.eqb name "selector" then
    Some (opts, setGet o all v inCluster archived limit after before output)
  else if String.eqb name "in-cluster" then
    b ← ParseBool v; Some (opts, setGet o all selector b archived limit after before output)
  else if String.eqb name "archived" then
    b ← ParseBool v; Some (opts, setGet o all selector inCluster b limit after before output)
  else if String.eqb name "limit" then
    n ← ParseLimit v; Some (opts, setGet o all selector inCluster archived n after before output)
  else if String.eqb name "after" then
    t ← ParseTime v; Some (opts, setGet o all selector inCluster archived limit t before output)
  else if String.eqb name "before" then
    t ← ParseTime v; Some (opts, setGet o all selector inCluster archived limit after t output)
  else if String.eqb name "output" then
    Some (opts, setGet o all selector inCluster archived limit after before v)
  else opts ← setRetrieverFlag opts name v; Some (opts, o).

Fixpoint setGetFlags (st : KARetrieverOptions * GetOptions) (settings : list (string * string))
    : option (KARetrieverOptions * GetOptions) :=
  match settings with
  | [] => Some st
  | s :: settings => st ← setGetFlag st s; setGetFlags st settings
  end.
End getFlag.

(** One flag of [logs]. *)
Definition setLogsFlag (st : KARetrieverOptions * LogsOptions) (setting : string * string)
    : option (KARetrieverOptions * LogsOptions) :=
  let '(opts, o) := st in
  let '(name, v) := setting in
  let set container selector :=
    {| lo_ContainerName := container; lo_Name := lo_Name o; lo_ResourceInfo := lo_ResourceInfo o;
       lo_LabelSelector := selector |} in
  if String.eqb name "container" then Some (opts, set v (lo_LabelSelector o))
  else if String.eqb name "selector" then Some (opts, set (lo_ContainerName o) v)
  else opts ← setRetrieverFlag opts name v; Some (opts, o).

Fixpoint setLogsFlags (st : KARetrieverOptions * LogsOptions) (settings : list (string * string))
    : option (KARetrieverOptions * LogsOptions) :=
  match settings with
  | [] => Some st
  | s :: settings => st ← setLogsFlag st s; setLogsFlags st settings
  end.

(** The options of the config commands come without the environment; those of a command
    of [logs] are empty. *)
Definition NewKARetrieverOptionsNoEnv : KARetrieverOptions :=
  {| ro_host := ""; ro_tlsInsecure := false; ro_certificatePath := ""; ro_token := "";
     ro_certData := None; ro_Namespace := None; ro_BearerToken := None;
     ro_k8sRESTConfig := None; ro_k9eRESTConfig := None |}.

Definition NewLogsOptions : LogsOptions :=
  {| lo_ContainerName := ""; lo_Name := ""; lo_ResourceInfo := None; lo_LabelSelector := "" |}.

(** ** What the commands run *)

(** The errors [main] prints; a command line can name no command, or be of a form cobra
    refuses. *)
Inductive CliError :=
| UsageError | GetFails (e : GetError) | GetRunFails (e : RunError) | PrintFails (e : string)
| RetrieverFails (e : RetrieverError) | LogsFail (e : LogsError)
| NoKubeConfig | ConfigFails (e : ConfigError) | SetupFails (e : SetupError).

(** What is written: lines, a page with the message of the next one, the help.  The
    prompts, and what a setup says of its course, are left out. *)
Inductive Output :=
| Line (text : string)
| Page (p : Printed) (next : option string)
| Help (c : Command).

(** The result of a command: its output, its error, the file of the configuration. *)
Definition Result : Type := list Output * outcome CliError () * ConfigFile.

Definition withError {E A} (f : E → CliError) (m : outcome E A) : outcome CliError A :=
  match m with Ok a => Ok a | Err e => Err (f e) | Panic => Panic end.

(** The variables the build sets. *)
Class BuildInfo := { version : string; buildDate : string; gitCommit : string }.

Definition versionLines `{!BuildInfo} : list Output :=
  [ Line ("kubectl-archive version " +:+ version);
    Line ("Build date: " +:+ buildDate);
    Line ("Git commit: " +:+ gitCommit) ].

(** [persistent.go]. *)
Definition securityInfo (c : ClusterConfig) : list string :=
  [if TLSInsecure c then "TLS: Insecure" else "TLS: Secure"] ++
  (if nonempty (CertPath c) then ["Cert: Custom"] else []) ++
  [if nonempty (Token c) then "Token: Stored" else "Token: kubectl"].

Fixpoint joinWith (sep : string) (parts : list string) : string :=
  match parts with
  | [] => ""
  | [p] => p
  | p :: parts => p +:+ sep +:+ joinWith sep parts
  end.

Definition DisplaySummary (c : ClusterConfig) : list string :=
  [ "📋 " +:+ ClusterName c +:+ (if Current c then " * (current)" else "");
    "   Server:  " +:+ ServerURL c;
    "   Host:    " +:+ Host c;
    "   Config:  " +:+ joinWith " • " (securityInfo c) ].

Definition listLines (clusters : list ClusterConfig) : list string :=
  match clusters with
  | [] => ["No clusters configured."; "";
           "💡 Tip: Run 'kubectl-ka config setup' to automatically configure the current cluster"]
  | _ => c ← clusters; DisplaySummary c ++ [""]
  end.

(** The words the shell is given to complete a command line. *)
Definition completeSetArgs (args : list string) : list string :=
  match args with
  | [] => ["host	KubeArchive API server URL"; "ca	Path to certificate authority file";
           "insecure	Boolean (true/false) to skip TLS verification";
           "token	Bearer token for authentication"]
  | [key] =>
      if String.eqb key "insecure" || String.eqb key "insecure-skip-tls-verify" then ["true"; "false"]
      else if String.eqb key "host" then ["https://"] else []
  | _ => []
  end.

Definition completeUnsetArgs (args : list string) : list string :=
  match args with
  | [] => ["ca	Clear certificate authority file path"; "token	Clear bearer token for authentication"]
  | _ => []
  end.

Section run.
  Context {O : Type} `{!Unstructured O, !CliJSON O, !CliText, !PrintLib O, !StatusJSON, !HTTPLib}.
  Context `{!KubeConfig, !ConnectivityTester, !CertFiles, !ConfigYaml, !URLParser, !MapRange,
            !ClusterClients, !Discovery, !RESTMapper, !LibraryFlags, !CobraLib, !BuildInfo, !Environment}.

(** [CompleteRetriever] before the rest of a command. *)
Definition withRetriever (fault : SaveFault) (ls : list string) (opts : KARetrieverOptions)
    (file : ConfigFile) (rest : KARetrieverOptions → list Output * outcome CliError ()) : Result :=
  match CompleteRetriever fault ls opts file with
  | (Ok opts, file) => let '(out, r) := rest opts in (out, r, file)
  | (Err e, file) => ([], Err (RetrieverFails e), file)
  | (Panic, file) => ([], Panic, file)
  end.

(** The end of [Run] of [get]: the page, then the message. *)
Definition printPage (now : Z) (format : string) (out : RunOutput O)
    : list Output * outcome CliError () :=
  match printResources now format (out_resources out) with
  | inl e => ([], Err (PrintFails e))
  | inr page => ([Page page (out_next out)], Ok ())
  end.

Definition getRest (now printed : Z) (settings : list (string * string)) (args : list string) (o : GetOptions)
    (opts : KARetrieverOptions) : list Output * outcome CliError () :=
  match Complete now (Changed "archived" settings) (Changed "in-cluster" settings) args opts o with
  | Err e => ([], Err (GetFails e))
  | Panic => ([], Panic)
  | Ok (opts, o) =>
      match Run opts o with
      | Err e => ([], Err (GetRunFails e))
      | Panic => ([], Panic)
      | Ok out => printPage printed (go_OutputFormat o) out
      end
  end.

Definition logsRest (args : list string) (o : LogsOptions) (opts : KARetrieverOptions)
    : list Output * outcome CliError () :=
  match CompleteLogs args o with
  | Err e => ([], Err (LogsFail e))
  | Panic => ([], Panic)
  | Ok o => let '(logs, r) := RunLogs (O:=O) opts o in (Line <$> logs, withError LogsFail r)
  end.

(** [ConfigOptions.Complete] before a config command. *)
Definition withConfigOptions (file : ConfigFile) (command : RESTConfig → FileConfigManager → ConfigFile → Result)
    : Result :=
  match ToRESTConfig with
  | None => ([], Err NoKubeConfig, file)
  | Some k8s =>
      match runProcess (rest_Host k8s) (λ cm file, (Ok (), cm, file)) file with
      | (Ok _, cm, file) => command k8s cm file
      | (Err e, _, file) => ([], Err (ConfigFails e), file)
      | (Panic, _, file) => ([], Panic, file)
      end
  end.

Definition listCommand (cm : FileConfigManager) (file : ConfigFile) : Result :=
  (Line <$> listLines (runList cm), Ok (), file).

(** What the setters of [config_set.go] write at their end. *)
Definition setMessage (key value : string) (cm : FileConfigManager) : string :=
  if String.eqb key "host" then "✓ Host set to " +:+ value
  else if String.eqb key "ca" || String.eqb key "certificate-authority"
  then "✓ Certificate authority set to " +:+
       match GetCurrentClusterConfig cm with Ok c => CertPath c | _ => "" end +:+
       " (TLS verification enabled)"
  else if String.eqb key "token" then "✓ Token set successfully"
  else if default false (parseInsecure value) then "✓ TLS verification disabled (insecure)"
  else "✓ TLS verification enabled (secure)".

Definition setCommand (fault : SaveFault) (args : list string) (cm : FileConfigManager) (file : ConfigFile)
    : Result :=
  match completeSet args with
  | Err e => ([], Err (ConfigFails e), file)
  | Panic => ([], Panic, file)
  | Ok (key, value) =>
      let generated :=
        match GetCurrentClusterConfig cm with
        | Err _ => if String.eqb key "host" then [Line "Current cluster not found, generating a new one"] else []
        | _ => []
        end in
      match runSet fault key value cm file with
      | (Ok _, cm, file) => (generated ++ [Line (setMessage key value cm)], Ok (), file)
      | (Err e, _, file) => (generated, Err (ConfigFails e), file)
      | (Panic, _, file) => (generated, Panic, file)
      end
  end.

(** [args[0]] is out of range without arguments; the message comes before the file is
    written. *)
Definition unsetCommand (fault : SaveFault) (args : list string) (cm : FileConfigManager) (file : ConfigFile)
    : Result :=
  match args with
  | [] => ([], Panic, file)
  | key :: _ =>
      let cleared :=
        match GetCurrentClusterConfig cm with
        | Ok _ =>
            if String.eqb key "ca" || String.eqb key "certificate-authority"
            then [Line "✓ Certificate authority cleared"]
            else if String.eqb key "token" then [Line "✓ Token cleared"] else []
        | _ => []
        end in
      let '(r, _, file) := runUnset fault key cm file in (cleared, withError ConfigFails r, file)
  end.

(** The name is the first argument; the answer is asked for once there is an entry. *)
Definition removeCommand (fault : SaveFault) (ls : list string) (args : list string)
    (cm : FileConfigManager) (file : ConfigFile) : Result :=
  let clusterName := match args with name :: _ => name | [] => "" end in
  let confirmed := match PromptForConfirmation DefaultNo ls with (Ok b, _) => b | _ => false end in
  let '(r, _, file) := runRemove fault clusterName confirmed cm file in
  match entryToRemove clusterName cm with
  | Ok cluster =>
      ((Line <$> DisplaySummary cluster) ++
       match confirmed, r with
       | false, _ => [Line "Configuration removal cancelled"]
       | true, Ok _ => [Line ("✓ Configuration for cluster '" +:+ ClusterName cluster +:+ "' removed")]
       | true, _ => []
       end, withError ConfigFails r, file)
  | _ => ([], withError ConfigFails r, file)
  end.

Definition setupCommand (fault : SaveFault) (ls : list string) (opts : KARetrieverOptions) (k8s : RESTConfig)
    (cm : FileConfigManager) (file : ConfigFile) : Result :=
  let ns := match GetNamespace opts with (Ok ns, _) => Some ns | _ => None end in
  let '(r, _, file) := runSetup SetupClients fault (rest_BearerToken k8s) ns ls cm file in
  ([], withError SetupFails r, file).

(** ** The program *)

(** Where a command runs: the clock when it is made, when it asks and when it prints,
    what happens to the files it writes, and the lines of its input. *)
Record Invocation := {
  pr_made : Z; pr_asks : Z; pr_prints : Z; pr_fault : SaveFault; pr_input : list string;
}.

(** The options of [get] and of [logs] before their flags. *)
Definition retrieverOptions : KARetrieverOptions := NewKARetrieverOptions None None.

Fixpoint setRetrieverFlags (opts : KARetrieverOptions) (settings : list (string * string))
    : option KARetrieverOptions :=
  match settings with
  | [] => Some opts
  | (name, v) :: settings => opts ← setRetrieverFlag opts name v; setRetrieverFlags opts settings
  end.

(** The command of a config subcommand, once its flags are set. *)
Definition configCommand (p : Invocation) (c : Command) (args : list string) (opts : KARetrieverOptions)
    (file : ConfigFile) : Result :=
  withConfigOptions file (λ k8s cm file,
    match c with
    | ListCmd => listCommand cm file
    | SetCmd => setCommand (pr_fault p) args cm file
    | UnsetCmd => unsetCommand (pr_fault p) args cm file
    | RemoveCmd => removeCommand (pr_fault p) (pr_input p) args cm file
    | SetupCmd => setupCommand (pr_fault p) (pr_input p) opts k8s cm file
    | _ => ([Help ConfigCmd], Ok (), file)
    end).

(** What a command does with the settings of its flags and its arguments. *)
Definition runCommand (p : Invocation) (c : Command) (settings : list (string * string)) (args : list string)
    (file : ConfigFile) : Result :=
  match c with
  | RootCmd => ([Line "Hello from the root cmd"], Ok (), file)
  | VersionCmd => (versionLines, Ok (), file)
  | GetCmd =>
      match setGetFlags (retrieverOptions, NewGetOptions (pr_made p)) settings with
      | None => ([], Err UsageError, file)
      | Some (opts, o) =>
          withRetriever (pr_fault p) (pr_input p) opts file (getRest (pr_asks p) (pr_prints p) settings args o)
      end
  | LogsCmd =>
      match setLogsFlags (retrieverOptions, NewLogsOptions) settings with
      | None => ([], Err UsageError, file)
      | Some (opts, o) => withRetriever (pr_fault p) (pr_input p) opts file (logsRest args o)
      end
  | _ =>
      match setRetrieverFlags NewKARetrieverOptionsNoEnv settings with
      | None => ([], Err UsageError, file)
      | Some opts => configCommand p c args opts file
      end
  end.

(** [Execute] of cobra: the command, its flags, its arguments, and the command runs. *)
Definition Execute (p : Invocation) (words : list string) (file : ConfigFile) : Result :=
  match Find words with
  | None => ([], Err UsageError, file)
  | Some (c, words) =>
      match ParseFlags (flagsOf c) words with
      | None => ([], Err UsageError, file)
      | Some (settings, args) =>
          if validArgs (argsOf c) args then runCommand p c settings args file else ([], Err UsageError, file)
      end
  end.

(** [main]: the error is printed and the status is 1; the runtime's for a panic is 2. *)
Definition main (p : Invocation) (words : list string) (file : ConfigFile)
    : list Output * option CliError * Z * ConfigFile :=
  match Execute p words file with
  | (out, Ok _, file) => (out, None, 0, file)
  | (out, Err e, file) => (out, Some e, 1, file)
  | (out, Panic, file) => (out, None, 2, file)
  end%Z.
End run.
