(* ===== verification/CommandFacts.v ===== *)
(** * The commands of [kubectl ka] never panic *)
From S2P Require Import Prelude GoLib GoStrings Api CliHttp CliConfig CliConfigFacts CliSetup CliSetupFacts Retriever RetrieverFacts CliGet CliGetFacts CliLogs CliPrint CommandLine Samples.

(** A setup that never panics, whatever it reads. *)
Definition safe {A} (m : Setup A) : Prop := ∀ ls, (m ls).1 ≠ Panic.

Lemma safe_ret {A} (a : A) : safe (mret a).
Proof. by intros ls. Qed.
Lemma safe_stop {A} e : safe (stop (A:=A) e).
Proof. by intros ls. Qed.
Lemma safe_bind {A B} (m : Setup A) (f : A → Setup B) : safe m → (∀ a, safe (f a)) → safe (m ≫= f).
Proof.
  intros Hm Hf ls. unfold mbind, setup_bind. specialize (Hm ls).
  destruct (m ls) as [[a|e|] ls']; [apply Hf|done|done].
Qed.
Lemma safe_Scanln : safe Scanln.
Proof. by intros []. Qed.
Lemma safe_PromptForInput : safe PromptForInput.
Proof. apply safe_bind; [apply safe_Scanln|intros; apply safe_ret]. Qed.
Lemma safe_PromptForConfirmation d : safe (PromptForConfirmation d).
Proof. apply safe_bind; [apply safe_Scanln|intros; apply safe_ret]. Qed.

Create HintDb safe.
#[export] Hint Resolve safe_ret safe_stop safe_PromptForInput safe_PromptForConfirmation : safe.

(** Goes through the choices of a setup. *)
Ltac safe_tac :=
  repeat (intros; cbv zeta;
    match goal with
    | |- safe (_ ≫= _) => apply safe_bind
    | |- safe (if ?b then _ else _) => destruct b
    | |- safe (match ?x with _ => _ end) => destruct x
    | _ => solve [auto with safe]
    end).

Section setup.
  Context `{!ConfigYaml, !URLParser, !MapRange, !ConnectivityTester, !CertFiles, !ClusterClients}.

(** *** The configuration *)

(** A file whose clusters are not null, nor any of them. *)
Definition noNulls (file : ConfigFile) : Prop :=
  match file with
  | Contents s =>
      ∀ y, Unmarshal s = Some y →
        match y with
        | NoClusters => True
        | NullClusters => False
        | SomeClusters m => ∀ k, m !! k ≠ Some None
        end
  | _ => True
  end.

Definition allocated (cm : FileConfigManager) : Prop := is_Some (Clusters cm).

Lemma loadEntry_safe host l m cur :
  Forall (λ e, e.2 ≠ None) l → ∃ m' cur', foldl (loadEntry host) (Ok (m, cur)) l = Ok (m', cur').
Proof.
  intros Hl. revert m cur. induction Hl as [|[k [c|]] l Hc _ IH]; intros m cur; [by eauto| |done].
  cbn [foldl]. unfold loadEntry at 2. cbn. destruct (String.eqb _ _); apply IH.
Qed.

Lemma LoadConfig_safe host cm file :
  noNulls file → allocated cm →
  ∃ r cm', LoadConfig host cm file = (r, cm', file) ∧ r ≠ Panic ∧ allocated cm'.
Proof.
  intros Hf [m Hm]. unfold LoadConfig. destruct file as [| |s]; [eexists _, _..|].
  1-2: by split; [reflexivity|split; [done|by exists m]].
  destruct (Unmarshal s) as [y|] eqn:Ey; [|eexists _, _; split; [reflexivity|split; [done|by exists m]]].
  cbn [Clusters current]. specialize (Hf y Ey). rewrite Hm.
  assert (∃ m', unmarshalInto y (Some m) = Some m' ∧ ∀ k, m' !! k ≠ Some None) as (m' & -> & Hm').
  { assert (∀ k, present m !! k ≠ Some None) as Hp.
    { intros k. unfold present. rewrite lookup_fmap. by destruct (m !! k). }
    destruct y as [| |p]; [by exists (present m)|done|]. exists (p ∪ present m). split; [done|].
    intros k [Hk|[_ Hk]]%lookup_union_Some_raw; [by apply (Hf k)|by apply (Hp k)]. }
  destruct (loadEntry_safe host (range (map_to_list m')) ∅ (current cm)) as (m1 & cur1 & ->).
  { apply Forall_forall. intros [k c] Hin. rewrite range_perm, elem_of_map_to_list in Hin. intros Hc.
    cbn in Hc. subst. by apply (Hm' k). }
  eexists _, _. split; [reflexivity|]. split; [done|by exists m1].
Qed.

Lemma allocated_setClusters cm (f : gmap string ClusterConfig → gmap string ClusterConfig) :
  allocated cm → allocated (setClusters (f <$> Clusters cm) cm).
Proof. intros [m Hm]. exists (f m). cbn. by rewrite Hm. Qed.

Lemma GetCurrentClusterConfig_safe cm : GetCurrentClusterConfig cm ≠ Panic.
Proof. unfold GetCurrentClusterConfig. by destruct (_ !! _). Qed.

Lemma LoadCertData_safe path : LoadCertData path ≠ Panic.
Proof.
  unfold LoadCertData. destruct path as [|c s]; [done|]. destruct (Ascii.eqb c "~"), UserHomeDir; cbn;
    try done; by destruct (ReadCertFile _).
Qed.

Lemma SaveConfig_safe fault cm file : (SaveConfig fault cm file).1.1 ≠ Panic.
Proof. unfold SaveConfig. by destruct (Marshal (Clusters cm)), fault. Qed.

Lemma GenerateClusterName_safe cm : GenerateClusterName cm ≠ Panic.
Proof.
  unfold GenerateClusterName. case_eqb; [done|]. destruct (URLParse _) as [u|]; [|done]. case_eqb; [done|].
  destruct (freshName_total (length (clusterNames cm)) (clusterNames cm) (suggestedName (u_Hostname u)))
    as (n & -> & _); [apply filter_length_le|done].
Qed.

Lemma RemoveClusterConfigByName_safe name cm cm' :
  allocated cm → RemoveClusterConfigByName name cm ≠ Panic ∧
  (RemoveClusterConfigByName name cm = Ok cm' → allocated cm').
Proof.
  intros Ha. unfold RemoveClusterConfigByName. case_eqb; [done|]. destruct (_ !! _); [|done].
  split; [done|]. intros [= <-]. by apply allocated_setClusters.
Qed.

Lemma AddCluster_safe c cm : allocated cm → AddCluster c cm ≠ Panic.
Proof. intros [m Hm]. unfold AddCluster. by rewrite Hm. Qed.

(** *** The commands of a configuration *)

Lemma setKey_safe fault key value entry c cm file : (setKey fault key value entry c cm file).1.1 ≠ Panic.
Proof.
  unfold setKey, setHost, setCertificateAuthority, setInsecure, setToken, storeEntry.
  pose proof (LoadCertData_safe value) as Hl. pose proof (λ cm, SaveConfig_safe fault cm file) as Hs.
  repeat match goal with
  | |- context [if ?b then _ else _] => destruct b
  | |- context [match ?x with _ => _ end] =>
      lazymatch x with
      | context [match _ with _ => _ end] => fail
      | _ => destruct x
      end
  end; first [apply Hs | done].
Qed.

Lemma runSet_safe fault key value cm file : allocated cm → (runSet fault key value cm file).1.1 ≠ Panic.
Proof.
  intros Ha. unfold runSet. assert (currentOrNew key cm ≠ Panic) as Hc.
  { unfold currentOrNew. pose proof (GetCurrentClusterConfig_safe cm). pose proof (GenerateClusterName_safe cm).
    destruct (GetCurrentClusterConfig cm); [done| |done]. destruct (negb _); [done|].
    destruct (GenerateClusterName cm); [|done|done]. cbn [mbind outcome_bind].
    match goal with |- context [AddCluster ?c cm] => pose proof (AddCluster_safe c cm Ha); by destruct (AddCluster c cm) end. }
  destruct (currentOrNew key cm) as [[[entry c] cm']|e|]; [apply setKey_safe|done|done].
Qed.

Lemma runUnset_safe fault key cm file : (runUnset fault key cm file).1.1 ≠ Panic.
Proof.
  unfold runUnset, storeEntry. pose proof (GetCurrentClusterConfig_safe cm).
  destruct (GetCurrentClusterConfig cm); [|done|done].
  repeat match goal with |- context [if ?b then _ else _] => destruct b end; try done; apply SaveConfig_safe.
Qed.

Lemma runRemove_safe fault name confirmed cm file :
  allocated cm → (runRemove fault name confirmed cm file).1.1 ≠ Panic.
Proof.
  intros Ha. unfold runRemove. assert (entryToRemove name cm ≠ Panic) as He.
  { unfold entryToRemove. destruct (String.eqb _ _); [apply GetCurrentClusterConfig_safe|by destruct (_ !! _)]. }
  destruct (entryToRemove name cm) as [c|e|]; [|done|done]. destruct confirmed; cbn [negb]; [|done].
  destruct (RemoveClusterConfigByName_safe (ClusterName c) cm cm Ha) as [Hr _].
  destruct (RemoveClusterConfigByName _ _); [apply SaveConfig_safe|done|done].
Qed.

(** *** The setup *)

Lemma dropCurrent_safe cm : safe (dropCurrent cm).
Proof.
  unfold dropCurrent. pose proof (GetCurrentClusterConfig_safe cm).
  destruct (GetCurrentClusterConfig cm); safe_tac.
Qed.

Lemma dropCurrent_allocated cm ls cm' ls' :
  allocated cm → dropCurrent cm ls = (Ok cm', ls') → allocated cm'.
Proof.
  intros Ha. unfold dropCurrent. destruct (GetCurrentClusterConfig cm) as [c| |]; [|by intros [= <- _]..].
  intros (b & ls1 & _ & Hb)%setup_bind_Ok. destruct b; cbn [negb] in Hb; [|done].
  destruct (RemoveClusterConfigByName _ _) as [cm1| |] eqn:Er; [|done|done]. injection Hb as <- _.
  by apply (RemoveClusterConfigByName_safe (ClusterName c) cm cm1).
Qed.

Lemma askEntry_safe k8sToken namespace cm : safe (askEntry k8sToken namespace cm).
Proof.
  unfold askEntry. apply safe_bind; [apply dropCurrent_safe|]. intros cm'.
  pose proof (GenerateClusterName_safe cm').
  destruct (GenerateClusterName cm'); [|auto with safe|done].
  unfold getTLSSetup, checkTLS, getTokenForKubeArchive, getTokenForSA, liftSetup. safe_tac.
  intros ns ls. cbn. by destruct (CreateToken _ _).
Qed.

Lemma RunSetup_safe fault k8sToken namespace ls cm file :
  allocated cm →
  let '(r, cm', file') := RunSetup fault k8sToken namespace ls cm file in
  r ≠ Panic ∧ (r = Ok () → allocated cm' ∧ noNulls file').
Proof.
  intros Ha. unfold RunSetup. pose proof (askEntry_safe k8sToken namespace cm ls) as Hs.
  destruct (askEntry k8sToken namespace cm ls) as [[[cm1 c]|e|] ls'] eqn:Ea; [|done|done].
  apply askEntry_tried in Ea as (_ & _ & _ & _ & ls1 & Hd). cbn [fst].
  destruct (dropCurrent_allocated cm ls cm1 ls1 Ha Hd) as [m Hm]. unfold AddCluster. rewrite Hm.
  set (cm2 := setClusters _ cm1). pose proof (SaveConfig_safe fault cm2 file) as Hsave.
  destruct (SaveConfig fault cm2 file) as [[[[]|e|] cm3] file3] eqn:Es; [|done|done].
  split; [done|]. intros _. unfold SaveConfig in Es. cbn [cm2 setClusters Clusters] in Es.
  destruct fault; [|done|by destruct (Marshal _)]. destruct (Marshal _) as [data|] eqn:Em; [|done].
  injection Es as <- <-. split; [by eexists|]. cbn. rewrite (Unmarshal_Marshal _ _ Em).
  intros y [= <-] k. rewrite lookup_fmap. by destruct (_ !! k).
Qed.

(** *** The completion of the options *)
Context `{!KubeConfig}.

Lemma loadPersistentConfig_safe opts cm file :
  noNulls file → allocated cm →
  let '(r, _, cm') := loadPersistentConfig opts cm file in r ≠ Panic ∧ allocated cm'.
Proof.
  intros Hf Ha. unfold loadPersistentConfig.
  destruct (LoadConfig_safe (k8sOf opts).1 cm file Hf Ha) as (r & cm' & -> & Hr & Ha').
  destruct r as [[]|e|]; [|done|done]. pose proof (GetCurrentClusterConfig_safe cm').
  destruct (GetCurrentClusterConfig cm'); [|done|done]. destruct (nonempty _); [|done].
  pose proof (LoadCertData_safe (ro_certificatePath (setFromEntry a (k8sOf opts).2 opts))).
  by destruct (LoadCertData _) as [[? ?]|?|].
Qed.

Lemma reconfigure_safe fault ls opts file :
  noNulls file → SetupClients = true → (reconfigure fault ls opts file).1 ≠ Panic.
Proof.
  intros Hf Hc. unfold reconfigure.
  pose proof (loadPersistentConfig_safe opts NewFileConfigManager file Hf ltac:(by eexists)) as Hl.
  destruct (loadPersistentConfig opts _ file) as [[r o1] cm1]. destruct Hl as [Hr Ha].
  assert (∀ A (x y : A), r ≠ Panic → match r with Panic => x | _ => y end = y) as Hskip
    by (intros; by destruct r).
  rewrite Hskip by done. destruct (testConnectivity o1); [|done].
  destruct (GetNamespace o1) as [ns o2]. cbv zeta.
  pose proof (safe_PromptForConfirmation DefaultYes ls).
  destruct (PromptForConfirmation DefaultYes ls) as [[[]|?|] ls']; try done.
  unfold runSetup. rewrite Hc. match goal with |- context [RunSetup ?f ?t ?n ?l ?c ?fl] =>
    pose proof (RunSetup_safe f t n l c fl Ha) as Hs; destruct (RunSetup f t n l c fl) as [[r2 cm2] file2] end.
  destruct Hs as [Hr2 Hok]. destruct r2 as [[]|e|]; [|done|done].
  destruct (Hok eq_refl) as [Ha2 Hf2]. pose proof (loadPersistentConfig_safe o2 cm2 file2 Hf2 Ha2) as Hl2.
  destruct (loadPersistentConfig o2 cm2 file2) as [[[[]|e|] o3] cm3]; try done. by destruct Hl2.
Qed.

Lemma completeToken_safe k8s opts file : noNulls file → completeToken k8s file opts ≠ Panic.
Proof.
  intros Hf. unfold completeToken. set (o1 := match ro_BearerToken opts with Some _ => _ | _ => _ end).
  assert (storedToken (rest_Host k8s) file ≠ Panic) as Hs.
  { unfold storedToken.
    destruct (LoadConfig_safe (rest_Host k8s) NewFileConfigManager file Hf ltac:(by eexists))
      as ([[]|e|] & cm & -> & Hr & _); [|done|done]. by destruct (GetCurrentClusterConfig cm). }
  destruct (String.eqb (ro_token o1) ""); [|done]. by destruct (storedToken _ _).
Qed.

Lemma CompleteRetriever_safe fault ls opts file :
  noNulls file → SetupClients = true → (CompleteRetriever fault ls opts file).1 ≠ Panic.
Proof.
  intros Hf Hc. unfold CompleteRetriever. destruct ToRESTConfig as [k8s|]; [|done].
  destruct (negb _); [done|]. set (o1 := setRESTConfigs _ _ opts).
  assert ((o ← completeToken k8s file o1; completeCert o) ≠ Panic) as Ht.
  { pose proof (completeToken_safe k8s o1 file Hf). destruct (completeToken k8s file o1) as [o2|e|]; [|done|done].
    cbn [mbind outcome_bind]. unfold completeCert. destruct (nonempty _); [|done].
    pose proof (LoadCertData_safe (ro_certificatePath o2)). by destruct (LoadCertData _) as [[? ?]|?|]. }
  destruct (completeToken k8s file o1 ≫= _) as [o2|e|]; [|done|done].
  assert ((match testConnectivity o2 with None => (Ok o2, file) | Some _ => reconfigure fault ls o2 file end).1 ≠ Panic) as Hr.
  { destruct (testConnectivity o2); [by apply reconfigure_safe|done]. }
  destruct (match testConnectivity o2 with None => _ | Some _ => _ end) as [[o3|e|] file3]; try done.
  by destruct (testConnectivity o3).
Qed.
End setup.

(** *** [get] and [logs] *)

Section retrievers.
  Context {O : Type} `{!Unstructured O, !CliJSON O, !CliText, !KubeConfig, !HTTPLib, !StatusJSON,
                       !Discovery, !RESTMapper, !MapRange}.

(** The clients of the two servers are there. *)
Definition configured (opts : KARetrieverOptions) : Prop :=
  is_Some (ro_k8sRESTConfig opts) ∧ is_Some (ro_k9eRESTConfig opts).

Lemma GetFromAPI_safe opts api path : configured opts → GetFromAPI opts api path ≠ Panic.
Proof.
  intros [[k Hk] [a Ha]]. unfold GetFromAPI. rewrite Hk, Ha.
  destruct api; (destruct (HTTPClientFor _); [done|]); destruct (ClientDo _ _ _) as [e|st body [e|]];
    try done; by destruct (st =? StatusOK)%Z.
Qed.

Lemma GetNamespace_safe opts :
  (GetNamespace opts).1 ≠ Panic ∧ (configured opts → configured (GetNamespace opts).2).
Proof.
  unfold GetNamespace. destruct (ro_Namespace opts) as [[|c s]|]; try done;
    destruct RawNamespace as [[ns|]|]; done.
Qed.

Lemma ResolveResourceSpec_safe spec : ResolveResourceSpec spec ≠ Panic.
Proof.
  unfold ResolveResourceSpec. assert (parseResourceSpec spec ≠ Panic) as Hp.
  { unfold parseResourceSpec. destruct (Split "." spec) as [|r rest]; [done|]. case_eqb; [done|].
    destruct rest as [|v gs]; [done|]. by destruct (isVersion v). }
  destruct (parseResourceSpec spec) as [[[r v] g]|e|]; [|done|done]. cbn [mbind outcome_bind].
  unfold findResourceInfo. destruct ServerGroupsAndResources as [lists|]; [|done].
  destruct (lists ≫= candidatesOf r v g) as [|c [|d l]]; [done..|].
  unfold selectPreferredResource. destruct (omap _ _); [|done]. by cbn [head].
Qed.

Lemma Complete_safe now b1 b2 args opts (o : GetOptions) :
  validArgs (RangeArgs 1 2) args = true → configured opts →
  match Complete now b1 b2 args opts o with
  | Ok (opts', o') => configured opts' ∧ (1 <= go_Limit o')%Z ∧ is_Some (go_ResourceInfo o')
  | Err _ => True
  | Panic => False
  end.
Proof.
  intros Hv Hc. unfold Complete. destruct args as [|spec args]; [done|].
  destruct (_ && _); [done|]. destruct (_ && _); [done|]. cbv zeta.
  destruct ((go_Limit o <? 1)%Z || (1000 <? go_Limit o)%Z) eqn:El; [done|].
  destruct (_ <=? _)%Z; [done|]. pose proof (ResolveResourceSpec_safe spec).
  destruct (ResolveResourceSpec spec) as [info|e|]; [|done|done].
  assert (1 <= go_Limit o)%Z by (apply orb_false_iff in El as [El%Z.ltb_ge _]; lia).
  destruct (GetNamespace_safe opts) as [Hn Hn'].
  destruct (ri_Namespaced info && negb (go_AllNamespaces o)).
  - destruct (GetNamespace opts) as [[ns|e|] opts']; [|done|done]. cbn. auto.
  - cbn. auto.
Qed.

Lemma insertSorted_fits limit init (rs : list O) k :
  (Z.of_nat (length init) <= limit)%Z →
  ∃ l t1 t2, insertSortedResourcesOptimized limit init rs k = Ok (l, t1, t2) ∧
    (Z.of_nat (length l) <= limit)%Z.
Proof.
  intros Hl. unfold insertSortedResourcesOptimized. rewrite (proj2 (Z.ltb_ge _ _)) by lia.
  destruct (insertAll_bounds k (Z.to_nat (Z.min (Z.of_nat (length rs + length init)) limit))
    init false false rs) as (l & t1 & t2 & -> & ? & ? & ?); [lia|]. exists l, t1, t2. split; [done|lia].
Qed.

Lemma printPaginationMessage_safe opts (o : GetOptions) (resources : list (ResourceWithAvailability O)) b1 b2 :
  resources ≠ [] → printPaginationMessage opts o resources b1 b2 ≠ Panic.
Proof.
  intros Hne. unfold printPaginationMessage. destruct (_ && _); [done|]. destruct (go_ResourceInfo o); [|done].
  destruct (last resources) eqn:El; [|by apply last_None in El]. by destruct (_ =? _)%Z.
Qed.

Lemma runCluster_safe opts (o : GetOptions) :
  configured opts → (1 <= go_Limit o)%Z →
  match runCluster (O:=O) opts o with
  | Ok (l, _, _) => (Z.of_nat (length l) <= go_Limit o)%Z
  | Err _ => True
  | Panic => False
  end.
Proof.
  intros Hc Hl. unfold runCluster. destruct (go_InCluster o); [|cbn; lia].
  pose proof (GetFromAPI_safe opts Kubernetes (go_APIPath o) Hc).
  destruct (GetFromAPI _ _ _) as [body|e|]; [|by destruct (negb _); cbn; try lia|done].
  destruct (parseResourcesFromBytes o body) as [rs|]; [|done].
  destruct (insertSorted_fits (go_Limit o) [] rs true) as (l & t1 & t2 & -> & ?); [cbn; lia|done].
Qed.

Lemma runArchive_safe opts (o : GetOptions) (l : list (ResourceWithAvailability O)) :
  configured opts → (Z.of_nat (length l) <= go_Limit o)%Z → runArchive opts o l ≠ Panic.
Proof.
  intros Hc Hl. unfold runArchive. destruct (go_Archived o); [|done].
  pose proof (GetFromAPI_safe opts KubeArchive (kubearchiveAPIPath o) Hc).
  destruct (GetFromAPI _ _ _) as [body|e|]; [| |done].
  - destruct (parseResourcesFromBytes o body) as [rs|]; [|by destruct (_ <? _)%nat].
    by destruct (insertSorted_fits (go_Limit o) l rs false) as (l' & t1 & t2 & -> & _).
  - destruct (isAuthenticationError e); [done|]. destruct (_ <? _)%nat; [done|]. by destruct (negb _).
Qed.

Lemma Run_safe opts (o : GetOptions) :
  configured opts → (1 <= go_Limit o)%Z → Run (O:=O) opts o ≠ Panic.
Proof.
  intros Hc Hl. unfold Run. pose proof (runCluster_safe opts o Hc Hl) as Hk.
  destruct (runCluster opts o) as [[[l t1] n1]|e|]; [|done|done]. cbn [mbind outcome_bind].
  pose proof (runArchive_safe opts o l Hc Hk) as Ha.
  destruct (runArchive opts o l) as [a|e|]; [|done|done]. cbn [mbind outcome_bind].
  destruct (if n1 && ar_notFound a then _ else _) as [m|]; [done|].
  destruct (ar_sorted a) as [|x xs] eqn:Es; [done|]. cbn [length Nat.eqb].
  match goal with |- context [printPaginationMessage ?p ?q ?r ?b1 ?b2] =>
    pose proof (printPaginationMessage_safe p q r b1 b2 ltac:(done)); by destruct (printPaginationMessage p q r b1 b2) end.
Qed.

Lemma CompleteLogs_safe args o :
  validArgs (ExactArgs 1) args = true →
  match CompleteLogs args o with
  | Ok o' => is_Some (lo_ResourceInfo o')
  | Err _ => True
  | Panic => False
  end.
Proof.
  intros Hv. unfold CompleteLogs. destruct args as [|arg args]; [done|].
  destruct (splitArgument o arg) as [spec name]. destruct (_ && _); [done|].
  pose proof (ResolveResourceSpec_safe spec). by destruct (ResolveResourceSpec spec).
Qed.

Lemma RunLogs_safe opts o :
  configured opts → is_Some (lo_ResourceInfo o) → (RunLogs (O:=O) opts o).2 ≠ Panic.
Proof.
  intros Hc [info Hi]. unfold RunLogs. rewrite Hi. destruct (GetNamespace_safe opts) as [Hn Hn'].
  destruct (GetNamespace opts) as [[ns|e|] opts']; [|done|done]. specialize (Hn' Hc). cbn [snd] in Hn'.
  assert (logNames (O:=O) opts' o info ns ≠ Panic) as Hl.
  { unfold logNames. destruct (nonempty _); [|done]. match goal with |- context [GetFromAPI ?p ?q ?r] =>
      pose proof (GetFromAPI_safe p q r Hn'); destruct (GetFromAPI p q r) end; [|done|done].
    by destruct (UnmarshalList _) as [[]|]. }
  destruct (logNames opts' o info ns) as [names|e|]; [|done|done].
  clear Hl. induction names as [|name names IH]; [done|]. cbn [printLogs].
  match goal with |- context [GetFromAPI ?p ?q ?r] =>
    pose proof (GetFromAPI_safe p q r Hn'); destruct (GetFromAPI p q r) end; [|done|done].
  by destruct (printLogs _ _ _ _ names).
Qed.
End retrievers.

(** *** The program *)

Section program.
  Context {O : Type} `{!Unstructured O, !CliJSON O, !CliText, !PrintLib O, !StatusJSON, !HTTPLib}.
  Context `{!KubeConfig, !ConnectivityTester, !CertFiles, !ConfigYaml, !URLParser, !MapRange,
            !ClusterClients, !Discovery, !RESTMapper, !LibraryFlags, !CobraLib, !BuildInfo, !Environment}.

Lemma withRetriever_safe fault ls opts file rest :
  noNulls file → SetupClients = true → (∀ o, configured o → (rest o).2 ≠ Panic) →
  (withRetriever fault ls opts file rest).1.2 ≠ Panic.
Proof.
  intros Hf Hc Hr. unfold withRetriever. pose proof (CompleteRetriever_safe fault ls opts file Hf Hc) as Hs.
  destruct (CompleteRetriever fault ls opts file) as [[o|e|] file'] eqn:E; [|done|done].
  destruct (CompleteRetriever_tested _ _ _ _ _ _ E) as (k8s & cfg & _ & Hk & Ha & _).
  specialize (Hr o ltac:(split; [by exists k8s|by exists cfg])). by destruct (rest o).
Qed.

Lemma withConfigOptions_safe file command :
  noNulls file → (∀ k8s cm, allocated cm → (command k8s cm file).1.2 ≠ Panic) →
  (withConfigOptions file command).1.2 ≠ Panic.
Proof.
  intros Hf Hc. unfold withConfigOptions. destruct ToRESTConfig as [k8s|]; [|done].
  unfold runProcess, withConfig.
  destruct (LoadConfig_safe (rest_Host k8s) NewFileConfigManager file Hf ltac:(by eexists))
    as ([[]|e|] & cm & -> & Hr & Ha); [|done|done]. by apply Hc.
Qed.

Lemma withError_safe {E A} (f : E → CliError) (m : outcome E A) : m ≠ Panic → withError f m ≠ Panic.
Proof. by destruct m. Qed.

Lemma configCommand_safe p c args opts file :
  noNulls file → SetupClients = true → validArgs (argsOf c) args = true →
  (configCommand p c args opts file).1.2 ≠ Panic.
Proof.
  intros Hf Hc Hv. unfold configCommand. apply withConfigOptions_safe; [done|]. intros k8s cm Ha.
  destruct c; try done.
  - unfold setCommand. destruct (completeSet args) as [[key value]|e|] eqn:E; [|done|].
    + pose proof (runSet_safe (pr_fault p) key value cm file Ha).
      by destruct (runSet _ _ _ _ _) as [[[[]|e|] cm'] file'].
    + destruct args as [|k [|v [|]]]; try done. cbn in E. by destruct (_ || _).
  - unfold unsetCommand. destruct args as [|key args]; [done|].
    pose proof (runUnset_safe (pr_fault p) key cm file) as Hr.
    destruct (runUnset _ _ _ _) as [[r cm'] file']. by apply withError_safe.
  - unfold removeCommand. cbv zeta. match goal with |- context [runRemove ?f ?n ?b cm file] =>
      pose proof (runRemove_safe f n b cm file Ha) as Hr; destruct (runRemove f n b cm file) as [[r cm'] file'] end.
    destruct (entryToRemove _ _); by apply withError_safe.
  - unfold setupCommand, runSetup. rewrite Hc. cbv zeta. match goal with |- context [RunSetup ?f ?t ?n ?l cm file] =>
      pose proof (RunSetup_safe f t n l cm file Ha) as Hr; destruct (RunSetup f t n l cm file) as [[r cm'] file'] end.
    destruct Hr as [Hr _]. by apply withError_safe.
Qed.

Lemma getRest_safe now printed settings args (o : GetOptions) opts :
  validArgs (argsOf GetCmd) args = true → configured opts →
  (getRest (O:=O) now printed settings args o opts).2 ≠ Panic.
Proof.
  intros Hv Hc. unfold getRest. match goal with |- context [Complete now ?b1 ?b2 args opts o] =>
    pose proof (Complete_safe now b1 b2 args opts o Hv Hc) as H1'; destruct (Complete now b1 b2 args opts o) as [[opts' o']|e|] end;
    [|done|done].
  destruct H1' as (Hc' & Hl & _). pose proof (Run_safe (O:=O) opts' o' Hc' Hl) as Hr.
  destruct (Run opts' o') as [out|e|]; [|done|done]. unfold printPage. by destruct (printResources _ _ _).
Qed.

Lemma logsRest_safe args o opts :
  validArgs (argsOf LogsCmd) args = true → configured opts → (logsRest (O:=O) args o opts).2 ≠ Panic.
Proof.
  intros Hv Hc. unfold logsRest. pose proof (CompleteLogs_safe args o Hv) as Hl.
  destruct (CompleteLogs args o) as [o'|e|]; [|done|done]. pose proof (RunLogs_safe (O:=O) opts o' Hc Hl) as Hr.
  destruct (RunLogs opts o') as [logs r]. by apply withError_safe.
Qed.

(** C11: whatever the command line, the environment, the files, the answers of the servers
    and the lines typed, the program ends with the status 0 and no error, or with 1 and an
    error it prints, never with a panic, when the configuration file holds no null entry
    and the clients of the setup can be made: the validators of the arguments keep every
    index in range, and the completion sets every configuration a request dereferences. *)
Theorem main_never_panics (p : Invocation) (words : list string) (file : ConfigFile)
    (Hfile : noNulls file) (Hclients : SetupClients = true) :
  let '(out, err, status, file') := main (O:=O) p words file in
  (status = 0%Z ∧ err = None) ∨ (status = 1%Z ∧ is_Some err).
Proof.
  assert ((Execute (O:=O) p words file).1.2 ≠ Panic) as He.
  { unfold Execute. destruct (Find words) as [[c ws]|]; [|done].
    destruct (ParseFlags (flagsOf c) ws) as [[settings args]|]; [|done].
    destruct (validArgs (argsOf c) args) eqn:Hv; [|done]. unfold runCommand.
    destruct c; try done.
    1: { destruct (setGetFlags _ _) as [[opts o]|]; [|done]. apply withRetriever_safe; [done..|].
         intros o' Ho'. by apply getRest_safe. }
    1: { destruct (setLogsFlags _ _) as [[opts o]|]; [|done]. apply withRetriever_safe; [done..|].
         intros o' Ho'. by apply logsRest_safe. }
    all: destruct (setRetrieverFlags _ _) as [opts|]; [|done]; by apply configCommand_safe. }
  unfold main. destruct (Execute p words file) as [[out r] file']. destruct r as [[]|e|]; [by left|right|done].
  by split; [|exists e].
Qed.
End program.

(** ** Witness *)
Module CommandSamples.

(** A parser of the flags as pflag has it. *)
Fixpoint parseFlags (fs : list Flag) (words : list string) : option (list (string * string) * list string) :=
  match words with
  | [] => Some ([], [])
  | w :: words =>
      if HasPrefix w "-" then
        match flagNamed (String.substring 2 (String.length w - 2) w) fs with
        | None => None
        | Some f =>
            let name := String.substring 2 (String.length w - 2) w in
            match fl_Type f, words with
            | BoolFlag, _ => (λ '(vals, args), ((name, "true") :: vals, args)) <$> parseFlags fs words
            | _, [] => None
            | _, v :: words => (λ '(vals, args), ((name, v) :: vals, args)) <$> parseFlags fs words
            end
        end
      else (λ '(vals, args), (vals, w :: args)) <$> parseFlags fs words
  end.

Lemma substring_dashes name : String.substring 2 (String.length ("--" +:+ name) - 2) ("--" +:+ name) = name.
Proof.
  change (String.substring 0 (String.length name - 0) name = name). rewrite Nat.sub_0_r.
  induction name as [|c name IH]; [done|].
  change (String c (String.substring 0 (String.length name) name) = String c name). by rewrite IH.
Qed.

#[export] Instance libraryFlags : LibraryFlags := {|
  kubeFlags := [{| fl_Name := "namespace"; fl_Short := "n"; fl_Type := StringFlag |}];
  jsonYamlFlags := []; namespace_flag := eq_refl; output_flag := eq_refl |}.

#[export] Instance cobra : CobraLib.
Proof.
  refine {| Find := λ words, match words with
      | "get" :: words => Some (GetCmd, words)
      | "logs" :: words => Some (LogsCmd, words)
      | "config" :: "unset" :: words => Some (UnsetCmd, words)
      | _ => None
      end;
    ParseFlags := parseFlags; ParseLimit := ParseInt |}.
  - done.
  - intros fs name f v ws Hf Ht. cbn [parseFlags]. change (HasPrefix ("--" +:+ name) "-") with true.
    rewrite substring_dashes, Hf. by destruct (fl_Type f).
  - intros fs name f ws Hf Ht. cbn [parseFlags]. change (HasPrefix ("--" +:+ name) "-") with true.
    rewrite substring_dashes, Hf, Ht. done.
  - intros fs w ws Hw. cbn [parseFlags]. by rewrite Hw.
  - apply ParseInt_FormatInt.
Defined.

#[export] Instance discovery : Discovery := {|
  ServerGroups := Some [];
  ServerGroupsAndResources :=
    Some [{| arl_GroupVersion := "v1";
             arl_APIResources := [{| apires_Name := "pods"; apires_SingularName := "pod";
               apires_ShortNames := []; apires_Kind := "Pod"; apires_Namespaced := true |}] |}] |}.

Definition pods : ResourceInfo :=
  {| ri_Resource := "pods"; ri_Version := "v1"; ri_Group := ""; ri_GroupVersion := "v1";
     ri_Kind := "Pod"; ri_Namespaced := true |}.

#[export] Instance build : BuildInfo :=
  {| CommandLine.version := "dev"; buildDate := "unknown"; gitCommit := "unknown" |}.

#[export] Instance printers : PrintLib sample := {|
  ToPrinter := λ _, false; PrintObj := λ _ _, inl "no printer"; HumanDuration := FormatInt |}.

#[export] Instance environment : Environment := {| Getenv := λ _, "" |}.

Definition process : Invocation :=
  {| pr_made := 0; pr_asks := 1; pr_prints := 2; pr_fault := NoSaveFault; pr_input := ["n"] |}.
End CommandSamples.
Import CommandSamples.
#[local] Existing Instance CliGetFacts.sample_text.
#[local] Existing Instance CliGetFacts.sample_json.
#[local] Existing Instance CliGetFacts.sample_http.
#[local] Existing Instance CliGetFacts.sample_status.
#[local] Existing Instance CliConfigFacts.sample_tester.
#[local] Existing Instance CliConfigFacts.sample_cert_files.
#[local] Existing Instance CliConfigFacts.sample_yaml.
#[local] Existing Instance CliConfigFacts.sample_urls.
#[local] Existing Instance RetrieverFacts.sample_clients.

(** Without a host, the user declines the setup. *)
Lemma main_never_panics_witness :
  ∃ out err file', @main sample _ _ _ _ _ _ RetrieverFacts.sample_kubeconfig _ _ _ _ _ _ _ _ _ _ _ _
    process ["get"; "pods"] Missing = (out, Some err, 1%Z, file').
Proof.
  pose proof (@main_never_panics sample _ _ _ _ _ _ RetrieverFacts.sample_kubeconfig _ _ _ _ _ _ _ _ _ _ _ _
    process ["get"; "pods"] Missing I eq_refl) as Hm.
  destruct (main process ["get"; "pods"] Missing) as [[[out err] status] file'] eqn:E.
  assert (status = 1%Z) as -> by (apply (f_equal (λ r, r.1.2)) in E; vm_compute in E; done).
  destruct Hm as [[? _]|[_ [e ->]]]; [done|]. by eexists _, _, _.
Defined.
