(* ===== verification/NextCommand.v ===== *)
(** * The command a page of [get] proposes

    The text of the message, the flags cobra reads in it, and the page they ask for. *)
From S2P Require Import Prelude GoLib GoStrings Api CliHttp CliConfig CliSetup Retriever RetrieverFacts CliGet CliGetFacts CliPrint CommandLine CommandFacts Samples.

(** ** The message *)

(** The text of a setting as the message prints it, where the shell takes the quotes of a
    selector away, and the words cobra gets. *)
Definition isSwitch (name : string) : bool :=
  bool_decide (name ∈ ["all-namespaces"; "archived"; "in-cluster"]).

Definition settingText (s : string * string) : string :=
  let '(name, v) := s in
  if isSwitch name then " --" +:+ name
  else if String.eqb name "selector" then " --" +:+ name +:+ " '" +:+ v +:+ "'"
  else " --" +:+ name +:+ " " +:+ v.

Definition settingWords (s : string * string) : list string :=
  let '(name, v) := s in
  if isSwitch name then ["--" +:+ name] else ["--" +:+ name; v].

Section next.
  Context {O : Type} `{!Unstructured O, !CliText, !KubeConfig, !Discovery, !RESTMapper, !MapRange}.
  Context `{!LibraryFlags, !CobraLib}.

Definition optional {A} (b : bool) (l : list A) : list A := if b then l else [].

(** The settings of the next command, for the resources of a namespace or of all. *)
Definition nextSettings (o : GetOptions) (info : ResourceInfo) (ns : string) (oldest : Z)
    (moreInCluster moreArchived : bool) : list (string * string) :=
  (if ri_Namespaced info && negb (go_AllNamespaces o) then [("namespace", ns)]
   else optional (go_AllNamespaces o) [("all-namespaces", "true")]) ++
  optional (nonempty (go_LabelSelector o)) [("selector", go_LabelSelector o)] ++
  [("limit", FormatInt (go_Limit o)); ("before", FormatNano (UTC (oldest - 1)))] ++
  optional (negb (IsZero (go_After o))) [("after", Format (go_After o))] ++
  (if moreArchived && negb moreInCluster then [("archived", "true")]
   else optional (moreInCluster && negb moreArchived) [("in-cluster", "true")]) ++
  optional (nonempty (go_OutputFormat o)) [("output", go_OutputFormat o)].

Definition textOf (settings : list (string * string)) : string :=
  foldr (λ s acc, settingText s +:+ acc) "" settings.

Lemma textOf_app a b : textOf (a ++ b) = textOf a +:+ textOf b.
Proof.
  unfold textOf. induction a as [|s a IH]; [done|]. cbn [app foldr]. by rewrite IH, string_app_assoc.
Qed.

(** What the message prints is those settings. *)
Lemma nextCommand_settings opts opts' (o : GetOptions) info ns oldest b1 b2 :
  (ri_Namespaced info && negb (go_AllNamespaces o) = true → GetNamespace opts = (Ok ns, opts')) →
  nextCommand opts o info oldest b1 b2 =
  "kubectl ka get " +:+ nextSpec info +:+ textOf (nextSettings o info ns oldest b1 b2).
Proof.
  intros Hns. unfold nextCommand, nextSettings. rewrite !textOf_app.
  assert (∀ s, textOf [s] = settingText s) as Hone by (intros s; apply string_app_nil_r).
  assert (textOf [("limit", FormatInt (go_Limit o)); ("before", FormatNano (UTC (oldest - 1)))] =
    " --limit " +:+ FormatInt (go_Limit o) +:+ " --before " +:+ FormatNano (UTC (oldest - 1))) as ->.
  { change (textOf (?a :: ?b :: [])) with (settingText a +:+ settingText b +:+ "").
    rewrite string_app_nil_r. reflexivity. }
  rewrite !string_app_assoc. unfold nextSpec, optional. repeat f_equal.
  - destruct (ri_Namespaced info && negb _) eqn:E; [by rewrite (Hns eq_refl), Hone|].
    destruct (go_AllNamespaces o); [by rewrite Hone|done].
  - destruct (nonempty _); [by rewrite Hone|done].
  - destruct (negb (IsZero _)); [by rewrite Hone|done].
  - destruct (b2 && negb b1); [by rewrite Hone|]. destruct (b1 && negb b2); [by rewrite Hone|done].
  - destruct (nonempty _); [by rewrite Hone|done].
Qed.

(** *** What cobra makes of it *)

Lemma flagNamed_app name a b :
  flagNamed name (a ++ b) = match flagNamed name a with Some f => Some f | None => flagNamed name b end.
Proof. unfold flagNamed. induction a as [|f a IH]; [done|]. cbn. by destruct (String.eqb _ _). Qed.

Definition nextNames : list string :=
  ["namespace"; "all-namespaces"; "selector"; "limit"; "before"; "after"; "archived"; "in-cluster"; "output"].

Lemma next_flags name :
  name ∈ nextNames → ∃ f, flagNamed name getFlags = Some f ∧ (fl_Type f = BoolFlag ↔ isSwitch name = true).
Proof.
  intros Hin. unfold getFlags, AddRetrieverFlags, AddK8sFlags. rewrite !flagNamed_app.
  pose proof output_flag as Ho. rewrite flagNamed_app in Ho.
  repeat (apply elem_of_cons in Hin as [->|Hin]); [..|by apply not_elem_of_nil in Hin].
  1: { cbn [flagNamed List.find fl_Name String.eqb Ascii.eqb Bool.eqb]. rewrite namespace_flag. by eexists. }
  8: { destruct (flagNamed "output" kubeFlags); [done|]. rewrite Ho. by eexists. }
  all: by eexists.
Qed.

Lemma Parse_settings settings :
  Forall (λ s, s.1 ∈ nextNames ∧ (isSwitch s.1 = true → s.2 = "true")) settings →
  ParseFlags getFlags (settings ≫= settingWords) = Some (settings, []).
Proof.
  induction 1 as [|[name v] settings [Hname Hv] _ IH]; [apply Parse_nil|].
  destruct (next_flags name Hname) as (f & Hf & Hb). cbn [mbind list_bind settingWords].
  cbn [fst snd] in Hv. destruct (isSwitch name).
  - cbn [app]. rewrite (Parse_switch _ _ f) by (done || tauto). rewrite IH. cbn. by rewrite Hv.
  - cbn [app]. rewrite (Parse_value _ _ f) by (done || naive_solver). by rewrite IH.
Qed.

Lemma nextSettings_known (o : GetOptions) info ns oldest b1 b2 :
  Forall (λ s, s.1 ∈ nextNames ∧ (isSwitch s.1 = true → s.2 = "true")) (nextSettings o info ns oldest b1 b2).
Proof.
  unfold nextSettings, optional. repeat (apply Forall_app; split);
    repeat match goal with |- Forall _ (if ?b then _ else _) => destruct b end;
    repeat constructor; cbn; set_solver.
Qed.

(** The sources the settings ask for. *)
Lemma nextSettings_changed (o : GetOptions) info ns oldest b1 b2 :
  Changed "archived" (nextSettings o info ns oldest b1 b2) = b2 && negb b1 ∧
  Changed "in-cluster" (nextSettings o info ns oldest b1 b2) = b1 && negb b2.
Proof.
  unfold Changed, nextSettings, optional.
  destruct (ri_Namespaced info && _), (go_AllNamespaces o), (nonempty (go_LabelSelector o)), (negb (IsZero _)), b1, b2,
    (nonempty (go_OutputFormat o)); split; reflexivity.
Qed.

(** *** The options *)

(** The options of the retriever with the namespace of the settings. *)
Definition inNamespace (o : GetOptions) (info : ResourceInfo) (ns : string) (opts : KARetrieverOptions)
    : KARetrieverOptions :=
  if ri_Namespaced info && negb (go_AllNamespaces o) then setNamespace (Some ns) opts else opts.

(** What [get] lists when no name is given. *)
Definition listPath (info : ResourceInfo) (namespace : option string) (selector : string) : string :=
  let path := apiPath info namespace "" in
  if nonempty selector then path +:+ "?labelSelector=" +:+ QueryEscape selector else path.

Lemma setGetFlags_app st a b :
  setGetFlags st (a ++ b) = st ← setGetFlags st a; setGetFlags st b.
Proof.
  revert st. induction a as [|s a IH]; intros st; [done|]. cbn [app setGetFlags].
  destruct (setGetFlag st s); [apply IH|done].
Qed.

Lemma set_text (name v : string) st (f : string → KARetrieverOptions * GetOptions) :
  f "" = st → (∀ v, setGetFlag st (name, v) = Some (f v)) →
  setGetFlags st (optional (nonempty v) [(name, v)]) = Some (f v).
Proof. intros <- Hf. destruct v as [|c v]; [done|]. cbn. by rewrite Hf. Qed.

Lemma set_switch (name : string) (b : bool) st st' :
  setGetFlag st (name, "true") = Some st' → (b = false → st' = st) →
  setGetFlags st (optional b [(name, "true")]) = Some st'.
Proof. intros Hs Hb. destruct b; cbn; [by rewrite Hs|by rewrite Hb]. Qed.

Lemma set_nextSettings opts (o : GetOptions) info ns oldest b1 b2 made before after :
  int64_ok (go_Limit o) →
  ParseTime (FormatNano (UTC (oldest - 1))) = Some before →
  (if IsZero (go_After o) then after = UTC zeroTime else ParseTime (Format (go_After o)) = Some after) →
  setGetFlags (opts, NewGetOptions made) (nextSettings o info ns oldest b1 b2) =
  Some (inNamespace o info ns opts,
        setGet (NewGetOptions made) (go_AllNamespaces o) (go_LabelSelector o) true true (go_Limit o)
          after before (go_OutputFormat o)).
Proof.
  intros Hl Hb Ha. set (B := NewGetOptions made). set (op := inNamespace o info ns opts).
  set (all := go_AllNamespaces o). set (sel := go_LabelSelector o). set (lim := go_Limit o).
  set (t0 := UTC zeroTime). set (t1 := UTC (made + 3600000000000)).
  unfold nextSettings. rewrite setGetFlags_app.
  assert (setGetFlags (opts, B)
    (if ri_Namespaced info && negb (go_AllNamespaces o) then [("namespace", ns)]
     else optional (go_AllNamespaces o) [("all-namespaces", "true")]) =
    Some (op, setGet B all "" true true 100 t0 t1 "")) as ->.
  { unfold op, all, inNamespace. destruct (ri_Namespaced info), (go_AllNamespaces o); reflexivity. }
  cbn [mbind option_bind]. rewrite ?setGetFlags_app.
  rewrite (set_text "selector" _ _ (λ v, (op, setGet B all v true true 100 t0 t1 ""))) by done.
  cbn [mbind option_bind]. rewrite setGetFlags_app. fold sel lim.
  assert (setGetFlags (op, setGet B all sel true true 100 t0 t1 "")
    [("limit", FormatInt lim); ("before", FormatNano (UTC (oldest - 1)))] =
    Some (op, setGet B all sel true true lim t0 before "")) as ->.
  { cbn [setGetFlags setGetFlag String.eqb Ascii.eqb Bool.eqb mbind option_bind].
    rewrite ParseLimit_FormatInt by done. cbn. by rewrite Hb. }
  cbn [mbind option_bind]. rewrite ?setGetFlags_app.
  assert (setGetFlags (op, setGet B all sel true true lim t0 before "")
    (optional (negb (IsZero (go_After o))) [("after", Format (go_After o))]) =
    Some (op, setGet B all sel true true lim after before "")) as ->.
  { destruct (IsZero (go_After o)); cbn [negb optional]; [by rewrite Ha|]. cbn. by rewrite Ha. }
  cbn [mbind option_bind]. rewrite ?setGetFlags_app.
  assert (setGetFlags (op, setGet B all sel true true lim after before "")
    (if b2 && negb b1 then [("archived", "true")] else optional (b1 && negb b2) [("in-cluster", "true")]) =
    Some (op, setGet B all sel true true lim after before "")) as ->.
  { destruct (b2 && negb b1); [done|]. by apply set_switch. }
  cbn [mbind option_bind]. rewrite ?setGetFlags_app.
  by rewrite (set_text "output" _ _ (λ v, (op, setGet B all sel true true lim after before v))) by done.
Qed.

Lemma GetNamespace_kept opts ns : ns ≠ "" → ro_Namespace opts = Some ns → GetNamespace opts = (Ok ns, opts).
Proof. intros Hne Ho. unfold GetNamespace. rewrite Ho. by destruct ns. Qed.

Lemma GetNamespace_again opts ns opts' :
  GetNamespace opts = (Ok ns, opts') → ns ≠ "" → GetNamespace opts' = (Ok ns, opts').
Proof.
  intros Hg Hne. apply GetNamespace_kept; [done|]. revert Hg. unfold GetNamespace.
  destruct (ro_Namespace opts) as [[|c s]|] eqn:E; try (by intros [= <- <-]);
    destruct RawNamespace as [[n|]|]; try done; by intros [= <- <-].
Qed.

(** Whether the resources are those of one namespace. *)
Definition inOne (o : GetOptions) (info : ResourceInfo) : bool := ri_Namespaced info && negb (go_AllNamespaces o).

(** Options of a list once complete. *)
Record completed (opts : KARetrieverOptions) (o : GetOptions) (info : ResourceInfo) (ns : string) : Prop := {
  cp_info : go_ResourceInfo o = Some info;
  cp_limit : (1 <= go_Limit o <= 1000)%Z;
  cp_namespace : inOne o info = true → GetNamespace opts = (Ok ns, opts);
  cp_path : go_APIPath o = listPath info (if inOne o info then Some ns else None) (go_LabelSelector o);
}.

Lemma Complete_completed now b1 b2 args opts0 o0 opts o :
  Complete now b1 b2 args opts0 o0 = Ok (opts, o) → go_Name o = "" → RawNamespace ≠ Some (Some "") →
  ∃ info ns, completed opts o info ns ∧ (inOne o info = true → ns ≠ "").
Proof.
  intros Hc Hname Hraw. unfold Complete in Hc. revert Hc.
  destruct (_ && _); [done|]. destruct (_ && _); [done|]. cbv zeta.
  destruct ((go_Limit o0 <? 1)%Z || (1000 <? go_Limit o0)%Z) eqn:El; [done|].
  apply orb_false_iff in El as [El1%Z.ltb_ge El2%Z.ltb_ge].
  destruct (_ <=? _)%Z; [done|]. destruct args as [|spec args]; [done|].
  destruct (ResolveResourceSpec spec) as [info|e|]; [|done|done].
  destruct (ri_Namespaced info && negb (go_AllNamespaces o0)) eqn:Ens.
  - destruct (GetNamespace opts0) as [[ns|e|] opts'] eqn:Eg; [|done|done]. cbn [mbind outcome_bind].
    intros [= <- <-]. cbn [go_Name] in Hname. exists info, ns.
    assert (ns ≠ "") as Hne.
    { intros ->. revert Eg. unfold GetNamespace. destruct (ro_Namespace opts0) as [[|c s]|]; try done;
        destruct RawNamespace as [[n|]|]; try done; by intros [= -> _]. }
    split; [|done]. split; cbn; [done|lia| |]; unfold inOne; cbn.
    + intros _. by eapply GetNamespace_again.
    + rewrite Ens. unfold listPath. by rewrite Hname.
  - cbn [mbind outcome_bind]. intros [= <- <-]. cbn [go_Name] in Hname. exists info, "".
    split; [|unfold inOne; cbn; by rewrite Ens].
    split; cbn; [done|lia| |]; unfold inOne; cbn; rewrite Ens; [done|]. unfold listPath. by rewrite Hname.
Qed.

(** The options the flags of the next command give: refused when the oldest resource is
    not after the time they ask from, and otherwise completed with the resource that the
    specification resolves to. *)
Lemma Complete_next now (b1 b2 : bool) info opts ns (o1 : GetOptions) :
  b1 && b2 = false → go_Name o1 = "" → go_InCluster o1 = true → go_Archived o1 = true →
  (1 <= go_Limit o1 <= 1000)%Z → (inOne o1 info = true → ns ≠ "") →
  let next := Complete now b1 b2 [nextSpec info] (inNamespace o1 info ns opts) o1 in
  if (Instant (go_Before o1) <=? Instant (go_After o1))%Z then next = Err BeforeNotAfter
  else match ResolveResourceSpec (nextSpec info) with
  | Err e => next = Err (GetRetrieverError e)
  | Panic => next = Panic
  | Ok found =>
      (∀ opts2 o2, next = Ok (opts2, o2) →
        go_ResourceInfo o2 = Some found ∧ go_Limit o2 = go_Limit o1 ∧ go_OutputFormat o2 = go_OutputFormat o1 ∧
        go_Before o2 = go_Before o1 ∧ go_After o2 = go_After o1 ∧ go_InCluster o2 = negb b1 ∧
        go_Archived o2 = negb b2) ∧
      (found = info → ∃ o2, next = Ok (inNamespace o1 info ns opts, o2) ∧
        go_APIPath o2 = listPath info (if inOne o1 info then Some ns else None) (go_LabelSelector o1))
  end.
Proof.
  intros Hb Hname Hin Har Hl Hns next. subst next. unfold Complete. rewrite Hname, Hin, Har.
  cbn [nonempty String.eqb negb andb].
  assert ((go_Limit o1 <? 1)%Z || (1000 <? go_Limit o1)%Z = false) as ->
    by (rewrite (proj2 (Z.ltb_ge _ _)), (proj2 (Z.ltb_ge 1000 _)); [done|lia..]).
  destruct (_ <=? _)%Z; [done|].
  destruct (ResolveResourceSpec (nextSpec info)) as [found|e|]; [|done..]. split.
  - intros opts2 o2.
    destruct (if ri_Namespaced found && negb (go_AllNamespaces o1) then _ else _) as [[p' op']|e|]; [|done..].
    cbn [mbind outcome_bind]. intros [= _ <-]. cbn. by destruct b1, b2.
  - intros ->. unfold inNamespace. unfold inOne in *.
    destruct (ri_Namespaced info && negb (go_AllNamespaces o1)) eqn:Ens.
    + rewrite (GetNamespace_kept _ ns) by (by try apply Hns). cbn [mbind outcome_bind].
      eexists. split; [reflexivity|done].
    + cbn [mbind outcome_bind]. eexists. split; [reflexivity|done].
Qed.

End next.

(** ** Witness *)
#[local] Existing Instance CliGetFacts.sample_text.
Import CommandSamples.

(** The second page of the pods of a namespace with a label. *)
Definition firstPage : GetOptions :=
  setGet (NewGetOptions 0) false "app=x" true true 2 (UTC 1500000000) (UTC 9000000000) "".

Definition asked : GetOptions :=
  match @Complete _ CliGetFacts.sample_kubeconfig _ _ _ 10000000000 false false ["pods"] CliGetFacts.sample_opts firstPage with
  | Ok (_, o) => o
  | _ => firstPage
  end.

Lemma asked_complete :
  @Complete _ CliGetFacts.sample_kubeconfig _ _ _ 10000000000 false false ["pods"] CliGetFacts.sample_opts firstPage =
  Ok (CliGetFacts.sample_opts, asked).
Proof. vm_cast_no_check (eq_refl (Ok (E:=GetError) (CliGetFacts.sample_opts, asked))). Qed.
Lemma asked_name : go_Name asked = "".
Proof. vm_cast_no_check (eq_refl (go_Name asked)). Qed.
Lemma asked_info : go_ResourceInfo asked = Some pods.
Proof. vm_cast_no_check (eq_refl (Some pods)). Qed.
Lemma asked_after : go_After asked = UTC 1500000000.
Proof. vm_cast_no_check (eq_refl (UTC 1500000000)). Qed.
Lemma pods_resolve : ResolveResourceSpec (nextSpec pods) = Ok pods.
Proof. vm_compute. reflexivity. Qed.

