(* ===== verification/GetArchived.v ===== *)
(** * [kubectl ka get] of what the sink has received

    The whole way of an object: the sink stores it, the API server lists it, the
    command line asks for the list, merges it with the cluster's and prints a table. *)
From S2P Require Import Prelude GoLib GoStrings Api Cel CloudEvents Samples Filters Keepers WatchManager Writer LogUrls SinkRouter Pipeline LabelSql Pagination Auth ApiRouter Owned Database LogBackend LogRetrieval LogQuery ReadBack ApiServer ApiServerFacts CliHttp CliConfig CliSetup Retriever CliGet CliMerge CliGetFacts CliPrint.

(** ** [get RESOURCE], without flags *)
Section command.
  Context `{!CliText, !KubeConfig, !Discovery, !RESTMapper, !MapRange}.

(** The options once they are complete. *)
Definition plainGet (now : Z) (info : ResourceInfo) (ns : string) : GetOptions :=
  {| go_AllNamespaces := false; go_APIPath := apiPath info (Some ns) ""; go_ResourceInfo := Some info;
     go_Name := ""; go_LabelSelector := ""; go_OutputFormat := ""; go_InCluster := true;
     go_Archived := true; go_Limit := 100; go_After := UTC zeroTime; go_Before := UTC (now + 3600000000000);
     go_kubearchiveQueryParams := <["limit" := ["100"]]> ∅ |}.

(** They are complete within the hour after the command is made. *)
Lemma Complete_plain (now now' : Z) spec info ns opts opts' :
  (zeroTime <= now)%Z → (now' <= now + 3600000000000)%Z →
  ResolveResourceSpec spec = Ok info → ri_Namespaced info = true →
  GetNamespace opts = (Ok ns, opts') → free_of "?" (apiPath info (Some ns) "") →
  Complete now' false false [spec] opts (NewGetOptions now) = Ok (opts', plainGet now info ns).
Proof.
  intros Hz Hnow Hr Hns Hg Hq. unfold Complete, NewGetOptions.
  cbn [go_Name go_LabelSelector go_InCluster go_Archived go_Limit go_Before go_After go_AllNamespaces
       go_OutputFormat nonempty String.eqb negb andb].
  rewrite !Instant_UTC, (proj2 (Z.leb_gt _ _)) by lia. cbn [Z.ltb Z.compare Pos.compare Pos.compare_cont orb].
  rewrite Hr, Hns. cbn [andb negb]. rewrite Hg. cbn [mbind outcome_bind]. unfold plainGet. do 3 f_equal.
  unfold buildKubeArchiveQueryParams.
  cbn [go_APIPath go_Limit go_After go_Before]. rewrite Cut_free by done. cbn [snd].
  unfold IsZero. rewrite !Instant_UTC, Z.eqb_refl. cbn [negb].
  by rewrite (proj2 (Z.ltb_ge _ _)) by lia.
Qed.
End command.

(** ** What the API server answers *)
Section server.
  Context `{!URLLib, !RequestLib, !LogJSON, !Backend, !MapRange, !GoText, !LabelEngine, !Collation,
            !ResourceEngine, !ApiLib, !OwnerEngine, !LogEngine, !Sha256, !KubeAPI, !GinLib}.

(** The request the command makes, as the server receives it: the path of the list and
    the query of the options.  The middlewares let it pass and find the kind. *)
Record admitted (enabled : bool) (ex : Expirations) (info : ResourceInfo) (kind ns : string)
    (hr : HttpRequest) (c : Cache) : Prop := {
  ad_path : hr_path hr = apiPath info (Some ns) "";
  ad_query : hr_query hr = <["limit" := ["100"]]> ∅;
  ad_chain ps : FindRoute table (hr_path hr) = Some (HGetResources, ps) →
    cx_aborted (chain enabled ex (apiRequest hr ps) c).1 = None ∧
    GetAPIResourceKind (chain enabled ex (apiRequest hr ps) c).1 = Some kind;
}.

(** The arguments of the database call. *)
Definition listArgs (kind apiVersion ns : string) : QueryArgs :=
  {| qa_kind := kind; qa_apiVersion := apiVersion; qa_namespace := ns; qa_name := "";
     qa_continueId := ""; qa_continueDate := ""; qa_labelFilters := Some noFilters;
     qa_after := None; qa_before := None; qa_limit := 101 |}.

(** The path of a list in the core group is not one of the named groups. *)
Lemma core_path info ns :
  ri_Group info = "" → HasPrefix (apiPath info (Some ns) "") "/apis/" = false.
Proof. intros Hg. unfold apiPath. by rewrite Hg. Qed.

Lemma list_served fuel enabled ex sv hr c info kind ns :
  discovered info → plain ns → admitted enabled ex info kind ns hr c → ParseSelector "" = inr [] →
  ∃ c', serveRequest fuel enabled ex sv hr c =
    (ListServed (streamList (sv_labels sv) (ar_resources (sv_archive sv)) 100
       (listArgs kind (ri_GroupVersion info) ns) emptyReply), c').
Proof.
  intros Hd Hns [Hp Hq Hc] Hsel. destruct (apiPath_list_routed info ns Hd Hns) as
    (ps & Hf & Hg & Hv & Hn & _ & Hname & _). rewrite <-Hp in Hf. destruct (Hc ps Hf) as [Ha Hk].
  unfold serveRequest. rewrite Hf. destruct (chain _ _ _ _) as [cx c'] eqn:Ec. cbn [fst] in Ha, Hk.
  rewrite Ha, Hk. exists c'.
  assert (∀ k, k ≠ "limit" → query hr k = "") as Hquery.
  { intros k Hne. unfold query, getQuery. rewrite Hq. by rewrite lookup_insert_ne, lookup_empty. }
  assert (getQuery hr "limit" = Some "100") as -> by (unfold getQuery; by rewrite Hq).
  rewrite (Hquery "continue") by done.
  change (Middleware (Some "100") "") with (Ok (E:=PaginationError) {| pv_limit := 100; pv_id := ""; pv_date := "" |}).
  cbn [runHandler]. do 2 f_equal. unfold GetResources, listRequest.
  cbn [lr_kind lr_name lr_queryName lr_labelSelector]. rewrite Hname, !Hquery by done.
  cbn [String.eqb negb andb]. rewrite Hsel. cbn [NewLabelFilters addRequirements].
  unfold afterSelector. cbn [lr_path lr_group lr_after lr_before lr_limit].
  rewrite Hp, Hg.
  assert (HasPrefix (apiPath info (Some ns) "") "/apis/" && String.eqb (ri_Group info) "" = false) as ->.
  { destruct (String.eqb_spec (ri_Group info) "") as [E|E]; [by rewrite core_path|apply andb_false_r]. }
  cbn [parseTimestampQuery String.eqb negb andb]. unfold queryArgs, listArgs.
  cbn [lr_group lr_version lr_namespace lr_id lr_date].
  rewrite Hv, Hn, (discovered_groupVersion info Hd). by destruct (String.eqb _ _).
Qed.

(** The body of the answer when all the resources fit in a page. *)
Lemma list_body (lt : LabelTables) (t all : list Resource) kind apiVersion ns :
  listable t →
  (∀ r, r ∈ all ↔ r ∈ t ∧ Forall (satisfiesWhere r) (otherFilters (listArgs kind apiVersion ns) [])) →
  StronglySorted before all → (length all ≤ 100)%nat →
  streamList lt t 100 (listArgs kind apiVersion ns) emptyReply =
    Ok {| rp_status := Some 200%Z; rp_body := listHeader +:+ itemsText all +:+ listFooter "" |}.
Proof.
  intros [Hids Hdates Hruns] Hall Hs Hlen. set (a := listArgs kind apiVersion ns).
  pose proof (build_page lt a 100 noFilters [] eq_refl eq_refl eq_refl "" "") as Hq.
  change (withPage a "" "" (100 + 1)) with a in Hq.
  set (q := {| sel_where := _; sel_sorted := _; sel_limit := _ |}) in Hq.
  destruct (runSelect t q) as [rows err] eqn:Er. pose proof (Hruns q) as He. rewrite Er in He. cbn in He. subst err.
  destruct (runSelect_sorted t q 101 rows Hids eq_refl eq_refl Er) as (all' & Hall' & Hs' & ->).
  assert (all' = all) as ->.
  { apply sorted_same; [done|done|]. intros r. rewrite Hall', Hall. unfold q. cbn [sel_where].
    rewrite Forall_otherFilters. cbn [nonempty String.eqb negb andb]. rewrite Forall_nil. tauto. }
  rewrite take_ge in Er by (change (Z.to_nat 101) with 101%nat; lia).
  rewrite (streamList_answers lt t 100 a q all) by (done || lia).
  unfold pageOf. change (Z.to_nat 100) with 100%nat. rewrite take_ge by lia. cbn [fst snd].
  rewrite (proj2 (Z.ltb_ge _ _)) by lia. by destruct (last all).
Qed.
End server.

(** ** The whole way *)
Section whole.
  Context {O : Type} `{!Unstructured O, !CelEnv O, !LogValues O, !MapRange}.
  Context `{!EventEncoding O, !SinkLib O, !EventJSON O, !Postgres, !DeletionStamp (O:=O)}.
  Context `{!URLLib, !RequestLib, !LogJSON, !Backend, !GoText, !LabelEngine, !Collation,
            !ResourceEngine, !ApiLib, !OwnerEngine, !LogEngine, !StoredJSON O, !Sha256, !KubeAPI, !GinLib}.
  Context `{!CliText, !CliJSON O, !KubeConfig, !Discovery, !RESTMapper, !HTTPLib, !StatusJSON, !PrintLib O}.

(** The documents of a table decode, and [encoding/json] reads a list of them as the
    objects they decode to. *)
Record decodable (rows : list Resource) : Prop := {
  de_rows r : r ∈ rows → is_Some (UnmarshalJSON (O:=O) (Data r));
  de_list page token : NoDup page → page ⊆ rows →
    UnmarshalList (listHeader +:+ itemsText page +:+ listFooter token) =
    mapM UnmarshalJSON (Data <$> page);
}.

(** The client of the command is connected to the server: it gets the answer to [hr]
    when it asks for what the options say. *)
Record connected (opts : KARetrieverOptions) (o : GetOptions) (answer : Served) : Prop := {
  co_config : ∃ cfg, ro_k9eRESTConfig opts = Some cfg ∧ HTTPClientFor cfg = None ∧
    ∀ reply, answer = ListServed (Ok reply) →
      ClientDo cfg (TrimRightByte "/" (rest_Host cfg) +:+ kubearchiveAPIPath o) "" =
      HTTPResponse (default 200%Z (rp_status reply)) (rp_body reply) None;
}.

Lemma connected_body opts o body :
  connected opts o (ListServed (Ok {| rp_status := Some 200%Z; rp_body := body |})) →
  GetFromAPI opts KubeArchive (kubearchiveAPIPath o) = Ok body.
Proof.
  intros [(cfg & Hcfg & Hc & Hdo)]. unfold GetFromAPI. rewrite Hcfg, Hc.
  by rewrite (Hdo _ eq_refl).
Qed.

(** A page that decodes, and one of its objects. *)
Lemma mapM_decoded (rows page : list Resource) :
  decodable rows → page ⊆ rows →
  ∃ A, mapM (UnmarshalJSON (O:=O)) (Data <$> page) = Some A ∧ length A = length page ∧
    (∀ r a, r ∈ page → UnmarshalJSON (Data r) = Some a → a ∈ A) ∧
    ∀ a, a ∈ A → ∃ r, r ∈ rows ∧ UnmarshalJSON (Data r) = Some a.
Proof.
  intros [Hrows _] Hsub. destruct (mapM UnmarshalJSON (Data <$> page)) as [A|] eqn:E.
  2: { apply mapM_None in E. apply Exists_exists in E as (d & (r & -> & Hr)%list_elem_of_fmap & Hd).
       destruct (Hrows r (Hsub r Hr)) as [a Ha]. congruence. }
  apply mapM_Some in E. exists A. split; [done|]. split; [by rewrite <-(Forall2_length _ _ _ E), length_fmap|].
  split.
  - intros r a Hr Ha. apply list_elem_of_lookup in Hr as [i Hi].
    destruct (Forall2_lookup_l _ _ _ i (Data r) E) as (a' & Hi' & Ha'); [by rewrite list_lookup_fmap, Hi|].
    assert (a' = a) as -> by congruence. by apply (list_elem_of_lookup_2 _ i).
  - intros a [i Hi]%list_elem_of_lookup. destruct (Forall2_lookup_r _ _ _ i a E Hi) as (d & Hd & Ha).
    apply list_lookup_fmap_Some in Hd as (r & -> & Hr). exists r. split; [|done].
    by apply Hsub, (list_elem_of_lookup_2 _ i).
Qed.

(** What the command gets of the archive: the objects of the list, and the one the sink
    has answered for among them. *)
Lemma archive_answers fuel ctl (e : CloudEvent O) db enabled ex sv hr c now info opts :
  let obj := ce_Data e in
  let o := plainGet now info (Api.GetNamespace obj) in
  let rows := ar_resources (sv_archive sv) in
  SetData obj = true → archived fuel ctl obj db → readsFrom db (sv_archive sv) → listable rows →
  decodable rows → (length rows ≤ 100)%nat →
  admitted enabled ex info (GetKind obj) (Api.GetNamespace obj) hr c → ParseSelector "" = inr [] →
  discovered info → ri_GroupVersion info = GetAPIVersion obj → plain (Api.GetNamespace obj) →
  connected opts o (serveRequest fuel enabled ex sv hr c).1 →
  ∃ A body, GetFromAPI opts KubeArchive (kubearchiveAPIPath o) = Ok body ∧ UnmarshalList body = Some A ∧
    obj ∈ A ∧ (length A ≤ length rows)%nat ∧
    ∀ a, a ∈ A → ∃ r, r ∈ rows ∧ UnmarshalJSON (Data r) = Some a.
Proof.
  intros obj o rows Henc Har Hdb Hl Hd Hlen Had Hsel Hi Hgv Hns Hco.
  destruct (archived_satisfies _ _ _ _ _ Har Hdb) as (r & Hr & _ & Hdata & Hf).
  destruct (rf_answers _ _ Hdb {| sel_where := otherFilters (listOf obj) []; sel_sorted := true; sel_limit := None |})
    as [all Hrun]. destruct ((λ H, runAll_rows _ _ _ H Hrun) eq_refl) as [Hall Hs]. cbn [sel_where] in Hall.
  specialize (Hs (li_ids _ Hl) eq_refl).
  assert (all ⊆ rows) as Hsub by (intros x Hx; by apply Hall in Hx as [? _]).
  assert (length all ≤ length rows)%nat as Hle
    by (apply submseteq_length, NoDup_submseteq; [by apply StronglySorted_NoDup|done]).
  destruct (list_served fuel enabled ex sv hr c info _ _ Hi Hns Had Hsel) as [c' Hserve].
  rewrite Hserve in Hco. cbn [fst] in Hco.
  rewrite (list_body _ _ all) in Hco; [|done| |done|by rewrite Hle].
  2: { intros x. rewrite Hgv. apply Hall. }
  destruct (mapM_decoded rows all Hd Hsub) as (A & HA & HlenA & Hin & Hfrom).
  exists A, (listHeader +:+ itemsText all +:+ listFooter ""). split_and!.
  - by apply connected_body.
  - rewrite (de_list _ Hd); [done|by apply StronglySorted_NoDup|done].
  - apply (Hin r); [by apply Hall|]. rewrite Hdata. by apply UnmarshalJSON_Jsonb.
  - by rewrite HlenA.
  - done.
Qed.

Lemma message_printed opts (o : GetOptions) (resources : list (ResourceWithAvailability O)) b1 b2 :
  resources ≠ [] → is_Some (go_ResourceInfo o) → ∃ next, printPaginationMessage opts o resources b1 b2 = Ok next.
Proof.
  intros Hne [info Hi]. unfold printPaginationMessage. rewrite Hi.
  destruct (negb b1 && negb b2); [by eexists|]. destruct (last resources) eqn:El; [|by apply last_None in El].
  destruct (_ =? _)%Z; by eexists.
Qed.

(** What it prints of two answers that fit in its limit: a row with [yes] for each object
    of the archive. *)
Lemma archive_printed opts now now'' info ns (K A : list O) body1 body2 obj :
  let o := plainGet now info ns in
  GetFromAPI opts Kubernetes (go_APIPath o) = Ok body1 → UnmarshalList body1 = Some K →
  GetFromAPI opts KubeArchive (kubearchiveAPIPath o) = Ok body2 → UnmarshalList body2 = Some A →
  identified (K ++ A) → (length K + length A ≤ 100)%nat → obj ∈ A →
  ∃ out table inCluster age,
    Run opts o = Ok out ∧
    printResources now'' (go_OutputFormat o) (out_resources out) = inr (Table (tableHeader :: table)) ∧
    [GetName obj; inCluster; "yes"; age] ∈ table.
Proof.
  intros o HK HK' HA HA' Hid Hlen Hobj. set (full := mergeReference K A).
  assert (merged K A full) as Hm by (by apply mergeReference_merged).
  destruct (Run_page opts o K A body1 body2) as [Hne Hrun]; try done.
  { intros [-> ->]%app_nil. by apply not_elem_of_nil in Hobj. }
  fold full in Hne, Hrun. change (Z.to_nat (go_Limit o)) with 100%nat in Hne, Hrun.
  assert (length full ≤ 100)%nat as Hfull.
  { pose proof (length_foldl_insert true K []) as Hlen1.
    pose proof (length_foldl_insert false A (foldl (insertReference true) [] K)) as Hlen2.
    unfold full, mergeReference. cbn [length] in Hlen1. lia. }
  destruct (merged_all _ _ _ Hm obj) as (en & Hen & Hkey); [apply elem_of_app; by right|].
  assert (∃ i, take 100 full !! i = Some en) as [i Hi].
  { rewrite take_ge by done. by apply list_elem_of_lookup. }
  destruct (table_tells_sources now'' K A full 100 i en Hm Hi) as (age & rest & Hp & Hrow & _ & _ & Hyes).
  destruct (message_printed opts o (take 100 full) (anyInCluster (drop 100 full))
    (nonempty (getContinueToken (O:=O) body2) || anyArchived (drop 100 full))) as [next Hnext]; [done..|].
  eexists _, rest, (yesNo (rwa_InCluster en)), age. split_and!.
  - rewrite Hrun, Hnext. reflexivity.
  - exact Hp.
  - assert (GetName obj = GetName (rwa_Resource en)) as -> by (symmetry; apply Hkey).
    rewrite <-(proj2 Hyes) by (by exists obj). by apply (list_elem_of_lookup_2 _ i).
Qed.

End whole.

(** ** Witness: the pod of [ReadBackSamples], and another one of the cluster *)
Module GetArchivedSamples.
Import PipelineSamples ReadBackSamples.

#[local] Existing Instance LogFacts.sample_url.
#[local] Existing Instance LogFacts.sample_request.
#[local] Existing Instance LogFacts.sample_logjson.
#[local] Existing Instance LogFacts.sample_backend.
#[local] Existing Instance ApiRouter.sample_apilib.
#[local] Existing Instance Auth.sample_sha.
#[local] Existing Instance Auth.sample_kube.
#[local] Existing Instance ApiServerFacts.sample_gin.
#[local] Existing Instance CliGetFacts.sample_text.
#[local] Existing Instance CliGetFacts.sample_status.
#[local] Existing Instance CliGetFacts.sample_kubeconfig.

Definition pods : ResourceInfo :=
  {| ri_Resource := "pods"; ri_Version := "v1"; ri_Group := ""; ri_GroupVersion := "v1";
     ri_Kind := "Pod"; ri_Namespaced := true |}.

#[export] Instance discovery : Discovery := {|
  ServerGroups := Some [];
  ServerGroupsAndResources :=
    Some [{| arl_GroupVersion := "v1";
             arl_APIResources := [{| apires_Name := "pods"; apires_SingularName := "pod";
               apires_ShortNames := []; apires_Kind := "Pod"; apires_Namespaced := true |}] |}] |}.

(** What the cluster has. *)
Definition running : sample := sample_at "b" 2 [].

#[export] Instance listJSON : CliJSON sample := {|
  UnmarshalObject := λ _, None;
  UnmarshalList := λ s,
    if String.eqb s "cluster" then Some [running]
    else if HasPrefix s (listHeader +:+ "a ") then Some [sample_at "a" 1 ["done"]]
    else Some [];
  UnmarshalContinue := λ _, None |}.

#[export] Instance printers : PrintLib sample := {|
  ToPrinter := λ _, false; PrintObj := λ _ _, inl "no printer"; HumanDuration := FormatInt |}.

Definition server : Server :=
  {| sv_kind := PostgreSQL; sv_labels := sample_tables; sv_archive := archive; sv_headers := ∅;
     sv_providers := ∅; sv_conn := None; sv_ping := None |}.

Definition getRequest : HttpRequest :=
  {| hr_now := 1000000000; hr_headers := Auth.sample_headers "good";
     hr_path := "/api/v1/namespaces/ns/pods"; hr_query := <["limit" := ["100"]]> ∅ |}.

Definition served : Served :=
  (serveRequest 3 false sample_expirations server getRequest ∅).1.

(** The body the server answers with. *)
Definition servedBody : string := listHeader +:+ "a " +:+ listFooter "".

#[export] Instance http : HTTPLib := {|
  HTTPClientFor := λ _, None; NewRequest := λ _, None;
  ClientDo := λ cfg _ _,
    HTTPResponse 200 (if String.eqb (rest_Host cfg) "archive" then servedBody else "cluster") None |}.

Definition options : KARetrieverOptions :=
  {| ro_host := "archive"; ro_tlsInsecure := false; ro_certificatePath := ""; ro_token := "";
     ro_certData := None; ro_Namespace := Some "ns"; ro_BearerToken := None;
     ro_k8sRESTConfig := Some (CliGetFacts.sample_rest "cluster");
     ro_k9eRESTConfig := Some (CliGetFacts.sample_rest "archive") |}.

Lemma admits : admitted false sample_expirations pods "Pod" "ns" getRequest ∅.
Proof.
  split; [reflexivity|reflexivity|].
  intros ps Hf. vm_compute in Hf. injection Hf as <-. split; vm_compute; reflexivity.
Qed.

Lemma served_list : served = ListServed (Ok {| rp_status := Some 200%Z; rp_body := servedBody |}).
Proof. vm_compute. reflexivity. Qed.

Lemma connects : connected options (plainGet 0 pods "ns") served.
Proof.
  split. eexists. split; [reflexivity|]. split; [reflexivity|].
  intros reply Hr. rewrite served_list in Hr. injection Hr as <-. reflexivity.
Qed.

Lemma decodes : decodable (O:=sample) (ar_resources archive).
Proof.
  split.
  - intros r ->%list_elem_of_singleton. by eexists.
  - intros page token Hnd Hsub. destruct page as [|r page]; [done|].
    assert (r = {| Date := "2025"; Id := 1; Uuid := "a"; Data := "a " |}) as ->
      by (apply list_elem_of_singleton, Hsub; by left).
    destruct page as [|r' page]; [done|]. exfalso.
    assert (r' = {| Date := "2025"; Id := 1; Uuid := "a"; Data := "a " |}) as ->
      by (apply list_elem_of_singleton, Hsub; right; by left).
    apply NoDup_cons in Hnd as [Hnd _]. apply Hnd. by left.
Qed.

Lemma found_pods : discovered pods.
Proof. split; repeat constructor; discriminate. Qed.
End GetArchivedSamples.
Import PipelineSamples.
Import ReadBackSamples.
Import GetArchivedSamples.
#[local] Existing Instance LogFacts.sample_url.
#[local] Existing Instance LogFacts.sample_request.
#[local] Existing Instance LogFacts.sample_logjson.
#[local] Existing Instance LogFacts.sample_backend.
#[local] Existing Instance ApiRouter.sample_apilib.
#[local] Existing Instance Auth.sample_sha.
#[local] Existing Instance Auth.sample_kube.
#[local] Existing Instance ApiServerFacts.sample_gin.
#[local] Existing Instance CliGetFacts.sample_text.
#[local] Existing Instance CliGetFacts.sample_status.
#[local] Existing Instance CliGetFacts.sample_kubeconfig.

