(* ===== verification/NextVersion.v ===== *)
(** * [hack/get-next-version.go]: the version of the next release

    The labels of the pull requests of a release decide which number of the version
    increases.  The notes are a JSON object, visited in the order of a Go map. *)
From S2P Require Import Prelude GoLib GoStrings.

(** A value of [encoding/json], the entries of an object by key. *)
#[warnings="-register-all"]
Inductive Json :=
| JString (s : string)
| JList (l : list Json)
| JObject (entries : list (string * Json))
| JOther.

(** [semver]: the texts of a version and of the versions that follow it. *)
Class SemVer := {
  Version : Type;
  NewVersion : string → option Version;
  VersionString : Version → string;
  IncMajor : Version → Version;
  IncMinor : Version → Version;
  IncPatch : Version → Version;
}.

(** A map index. *)
Definition jsonKey (key : string) (entries : list (string * Json)) : option Json :=
  (list_to_map entries : gmap string Json) !! key.

(** [kind.(string)] of each kind, and a space after it. *)
Fixpoint kindTexts (kinds : list Json) : outcome unit string :=
  match kinds with
  | [] => Ok ""
  | JString kind :: kinds => texts ← kindTexts kinds; Ok (kind +:+ " " +:+ texts)
  | _ :: _ => Panic
  end.

(** The loop over the pull requests: whether one has no kinds, and the kinds. *)
Fixpoint collectKinds (prs : list Json) (missing : bool) (collected : string) : outcome unit (bool * string) :=
  match prs with
  | [] => Ok (missing, collected)
  | JObject pr :: prs =>
      match jsonKey "kinds" pr with
      | None => collectKinds prs true collected
      | Some (JList kinds) => texts ← kindTexts kinds; collectKinds prs missing (collected +:+ texts)
      | Some _ => Panic
      end
  | _ :: _ => Panic
  end.

(** What is printed. *)
Definition nextVersion `{!SemVer, !MapRange} (currentVersion : string) (releaseNotes : list (string * Json))
    : outcome unit string :=
  '(missing, collectedKinds) ← collectKinds (range releaseNotes).*2 false "";
  if (missing : bool) then Panic
  else
    match NewVersion currentVersion with
    | None => Panic
    | Some version =>
        if Contains collectedKinds "breaking" then Ok ("v" +:+ VersionString (IncMajor version))
        else if Contains collectedKinds "feature" then Ok ("v" +:+ VersionString (IncMinor version))
        else if Contains collectedKinds "documentation" || Contains collectedKinds "bug"
        then Ok ("v" +:+ VersionString (IncPatch version))
        else Panic
    end.

(** ** The kinds of a release *)

Definition prKinds (pr : Json) : option (list string) :=
  match pr with
  | JObject entries =>
      match jsonKey "kinds" entries with
      | Some (JList kinds) => mapM (λ k, match k with JString s => Some s | _ => None end) kinds
      | _ => None
      end
  | _ => None
  end.

(** Every pull request has kinds, which are texts. *)
Definition labelled (prs : list Json) : Prop := Forall (λ pr, is_Some (prKinds pr)) prs.

Definition releaseKinds (prs : list Json) : list string := prs ≫= λ pr, default [] (prKinds pr).

Definition anyKind (word : string) (prs : list Json) : bool := existsb (λ k, Contains k word) (releaseKinds prs).

Definition spaced (kinds : list string) : string := foldr (λ k s, k +:+ " " +:+ s) "" kinds.

Lemma kindTexts_spaced l ks :
  mapM (λ k, match k with JString s => Some s | _ => None end) l = Some ks → kindTexts l = Ok (spaced ks).
Proof.
  revert ks; induction l as [|k l IH]; intros ks; cbn; [by intros [= <-]|].
  destruct k; try done. cbn. destruct (mapM _ l) as [ks'|]; [|done]. cbn. intros [= <-].
  by rewrite (IH ks' eq_refl).
Qed.

Lemma spaced_app l l' : spaced (l ++ l') = spaced l +:+ spaced l'.
Proof.
  induction l as [|k l IH]; [done|]. cbn [app spaced foldr]. fold (spaced (l ++ l')) (spaced l).
  by rewrite IH, !string_app_assoc.
Qed.

Lemma collectKinds_labelled prs missing collected :
  labelled prs → collectKinds prs missing collected = Ok (missing, collected +:+ spaced (releaseKinds prs)).
Proof.
  intros Hl. revert collected; induction Hl as [|pr prs [ks Hk] _ IH]; intros collected.
  { cbn. by rewrite string_app_nil_r. }
  unfold releaseKinds. cbn [mbind list_bind collectKinds]. fold (releaseKinds prs). rewrite Hk. cbn [default].
  rewrite spaced_app. unfold prKinds in Hk. destruct pr as [| |entries|]; try done.
  destruct (jsonKey "kinds" entries) as [[| kinds| |]|]; try done.
  rewrite (kindTexts_spaced _ _ Hk). cbn. rewrite IH. by rewrite string_app_assoc.
Qed.

(** A word without spaces is found in the texts when one of them has it. *)
Lemma HasPrefix_cut s t word :
  free_of " " word → HasPrefix (s +:+ " " +:+ t) word = true → HasPrefix s word = true.
Proof.
  intros Hw [r Hr]%HasPrefix_spec. apply HasPrefix_spec.
  revert word Hw Hr; induction s as [|c s IH]; intros [|d word] Hw Hr; [by exists ""| |by exists (String c s)|].
  - exfalso. change (String " " t = String d (word +:+ r)) in Hr. injection Hr as Hd _. apply free_of_cons in Hw as [Hc _]. congruence.
  - change (String c (s +:+ " " +:+ t) = String d (word +:+ r)) in Hr. injection Hr as -> Hr.
    apply free_of_cons in Hw as [_ Hw]. destruct (IH word Hw Hr) as [r' ->]. by exists r'.
Qed.

Lemma Contains_empty word : word ≠ "" → Contains "" word = false.
Proof.
  intros Hn. cbn [Contains]. rewrite orb_false_r. destruct (HasPrefix "" word) eqn:E; [|done].
  apply HasPrefix_spec in E as [r Hr]. by destruct word.
Qed.

Lemma Contains_spaced s t word :
  word ≠ "" → free_of " " word → Contains (s +:+ " " +:+ t) word = Contains s word || Contains t word.
Proof.
  intros Hn Hw. induction s as [|c s IH].
  - change ("" +:+ " " +:+ t) with (String " " t). cbn [Contains].
    assert (HasPrefix (String " " t) word = false) as ->.
    { destruct (HasPrefix _ _) eqn:E; [|done]. apply (HasPrefix_cut "" t word Hw) in E.
      apply HasPrefix_spec in E as [r Hr]. by destruct word. }
    change (HasPrefix "" word || false) with (Contains "" word). by rewrite Contains_empty.
  - rewrite string_app_cons. cbn [Contains]. rewrite IH, orb_assoc. f_equal. f_equal.
    rewrite <-string_app_cons. apply eq_true_iff_eq. split; [by apply HasPrefix_cut|].
    intros [r Hr]%HasPrefix_spec. apply HasPrefix_spec. exists (r +:+ " " +:+ t). by rewrite Hr, string_app_assoc.
Qed.

Lemma Contains_kinds kinds word :
  word ≠ "" → free_of " " word → Contains (spaced kinds) word = existsb (λ k, Contains k word) kinds.
Proof.
  intros Hn Hw. induction kinds as [|k kinds IH].
  - by apply Contains_empty.
  - cbn [spaced foldr existsb]. fold (spaced kinds). by rewrite Contains_spaced, IH.
Qed.

Lemma anyKind_perm word prs prs' : prs ≡ₚ prs' → anyKind word prs = anyKind word prs'.
Proof.
  intros Hp. unfold anyKind, releaseKinds. apply eq_true_iff_eq. rewrite !existsb_exists.
  split; intros (k & Hk & Hc); exists k; (split; [|done]);
    apply list_elem_of_In; apply list_elem_of_In in Hk; [by rewrite <-Hp|by rewrite Hp].
Qed.

(** When every pull request has kinds and the current version is one, the next one
    increases the major number if a kind has [breaking] in it, otherwise the minor one if a
    kind has [feature], otherwise the patch for [documentation] and [bug]; the order in which Go
    visits the notes does not matter. *)
Lemma nextVersion_spec `{!SemVer, !MapRange} currentVersion releaseNotes version :
  labelled releaseNotes.*2 → NewVersion currentVersion = Some version →
  nextVersion currentVersion releaseNotes =
  (let prs := releaseNotes.*2 in
   let printed v := Ok ("v" +:+ VersionString v) in
   if anyKind "breaking" prs then printed (IncMajor version)
   else if anyKind "feature" prs then printed (IncMinor version)
   else if anyKind "documentation" prs || anyKind "bug" prs then printed (IncPatch version)
   else Panic).
Proof.
  intros Hl Hv. unfold nextVersion.
  assert ((range releaseNotes).*2 ≡ₚ releaseNotes.*2) as Hp by by rewrite range_perm.
  assert (labelled (range releaseNotes).*2) as Hl' by (unfold labelled; by rewrite Hp).
  rewrite collectKinds_labelled by done. cbn [mbind outcome_bind]. rewrite Hv.
  change ("" +:+ spaced (releaseKinds (range releaseNotes).*2)) with (spaced (releaseKinds (range releaseNotes).*2)).
  rewrite !Contains_kinds by done.
  cbv zeta. rewrite <-!(anyKind_perm _ _ _ Hp). done.
Qed.

(** A pull request without kinds refuses the release, whatever the others have. *)
Lemma unlabelled_panics `{!SemVer, !MapRange} currentVersion releaseNotes entries key :
  (key, JObject entries) ∈ releaseNotes → jsonKey "kinds" entries = None →
  nextVersion currentVersion releaseNotes = Panic.
Proof.
  intros Hin Hk. unfold nextVersion.
  assert (JObject entries ∈ (range releaseNotes).*2) as Hin'.
  { apply list_elem_of_fmap. exists (key, JObject entries). by rewrite range_perm. }
  assert (∀ prs c, match collectKinds prs true c with Ok (m, _) => m = true | Err _ => False | Panic => True end) as Hmono.
  { induction prs as [|[| |pr|] prs IH]; intros c; cbn; try done.
    destruct (jsonKey "kinds" pr) as [[| kinds| |]|]; try done; [|apply IH].
    destruct (kindTexts kinds) eqn:Ek; cbn; [apply IH| |done].
    clear -Ek. revert e Ek. induction kinds as [|[] kinds IH]; cbn; try done. destruct (kindTexts kinds); naive_solver. }
  assert (∀ prs m c, JObject entries ∈ prs →
    match collectKinds prs m c with Ok (m, _) => m = true | Err _ => False | Panic => True end) as Hall.
  { intros prs; induction prs as [|pr prs IH]; intros m c; [by intros ?%elem_of_nil|].
    intros [<-|Hr]%elem_of_cons; [cbn; rewrite Hk; apply Hmono|]. destruct pr as [| |pr|]; cbn; try done.
    destruct (jsonKey "kinds" pr) as [[| kinds| |]|]; try done; [|by apply IH].
    destruct (kindTexts kinds) eqn:Ek; cbn; [by apply IH| |done].
    clear -Ek. revert e Ek. induction kinds as [|[] kinds IH]; cbn; try done. destruct (kindTexts kinds); naive_solver. }
  specialize (Hall _ false "" Hin'). destruct (collectKinds _ _ _) as [[m k]|e|]; cbn; [by rewrite Hall|done|done].
Qed.
