(* ===== verification/Performance.v ===== *)
(** * [test/performance]: the tools that measure

    The statistics of a CSV file, the merge of those of the runs of a workflow, the paths
    of the archives it unpacks, and the tables made of Prometheus' answers.  Downloads and
    the text of the tables are left out. *)
From S2P Require Import Prelude GoLib GoStrings.

(** ** Libraries *)

(** Numbers of [float64]: [slices.Sort] orders them totally, NaN first; [finite] tells
    those JSON has a text for.  [%.nf] is [FormatFloat n]. *)
Class Float64 := {
  F : Type;
  ParseFloat64 : string → option F;
  ofInt : Z → F;
  fmin : F → F → F; fmax : F → F → F; fadd : F → F → F; fdiv : F → F → F;
  finite : F → bool;
  FormatFloat : nat → F → string;
  fle : relation F;
  fle_dec :: RelDecision fle;
  fle_total :: Total fle;
  fle_trans :: Transitive fle;
}.

(** [encoding/csv]: what the calls of [Read] give up to the end of the file.  A record of
    another length than the first comes with an error, which wraps [ErrFieldCount] and is
    not equal to it. *)
Inductive CsvRead :=
| Row (record : list string)
| WrongFieldCount (record : list string)
| Malformed.

Class CsvLib := { ReadAll : string → list CsvRead }.

(** The record [Read] returns beside its error. *)
Definition recordOf (r : CsvRead) : list string :=
  match r with Row record | WrongFieldCount record => record | Malformed => [] end.

(** ** [pkg/performance.go] *)

Inductive StatsError := NotExist | NotANumber (text : string) | NotJSON.

Section statistics.
  Context `{!Float64, !CsvLib, !MapRange}.

Record Summary := { sm_min : F; sm_mean : F; sm_median : F; sm_max : F }.

(** One value of a row, of the column [ix]; the first column is the time. *)
Definition addValue (header : list string) (ix : nat) (rawData : gmap string (list F)) (valueString : string)
    : outcome StatsError (gmap string (list F)) :=
  if (ix =? 0)%nat then Ok rawData
  else
    match ParseFloat64 valueString with
    | None => Err (NotANumber valueString)
    | Some value =>
        key ← index header (Z.of_nat ix);
        Ok (<[key := default [] (rawData !! key) ++ [value]]> rawData)
    end.

Fixpoint addRecord (header : list string) (ix : nat) (rawData : gmap string (list F)) (record : list string)
    : outcome StatsError (gmap string (list F)) :=
  match record with
  | [] => Ok rawData
  | v :: record => rawData ← addValue header ix rawData v; addRecord header (S ix) rawData record
  end.

Fixpoint addRecords (header : list string) (rawData : gmap string (list F)) (records : list (list string))
    : outcome StatsError (gmap string (list F)) :=
  match records with
  | [] => Ok rawData
  | r :: records => rawData ← addRecord header 0 rawData r; addRecords header rawData records
  end.

(** The middle of the sorted values, as it is computed: the length is halved, and the mean
    of two values is taken when its half is even, [math.Mod(length/2, 2) == 0]. *)
Definition median (values : list F) : outcome StatsError F :=
  let len := Z.of_nat (length values) in
  let ixMiddleValue := (len / 2 - 1)%Z in
  m ← index values ixMiddleValue;
  if (len mod 4 =? 0)%Z then
    m' ← index values (ixMiddleValue + 1);
    Ok (fdiv (fadd m m') (ofInt 2))
  else Ok m.

(** [slices.Min] of no values panics; the key of a map has some. *)
Definition summarize (values : list F) : outcome StatsError Summary :=
  match values with
  | [] => Panic
  | v :: rest =>
      let meanSum := foldl fadd (ofInt 0) values in
      m ← median (merge_sort fle values);
      Ok {| sm_min := foldl fmin v rest; sm_mean := fdiv meanSum (ofInt (Z.of_nat (length values)));
            sm_median := m; sm_max := foldl fmax v rest |}
  end.

Definition summarizeAll (rawData : gmap string (list F)) : outcome StatsError (list (string * Summary)) :=
  foldr (λ '(key, values) acc, s ← summarize values; l ← acc; Ok ((key, s) :: l)) (Ok [])
    (range (map_to_list rawData)).

(** The statistics of the columns of a file. *)
Definition columnStats (contents : option string) : outcome StatsError (list (string * Summary)) :=
  match contents with
  | None => Err NotExist
  | Some text =>
      let records := recordOf <$> ReadAll text in
      header ← index records 0;
      rawData ← addRecords header ∅ (drop 1 records);
      summarizeAll rawData
  end.

Inductive StatsOutput := TextLines (lines : list string) | JsonObject (data : list (string * Summary)) | NoOutput.

Definition row (cells : list string) : string :=
  "|" +:+ foldr (λ c acc, " " +:+ c +:+ " |" +:+ acc) "" cells.

Definition textLine (metricType : string) (e : string * Summary) : list string :=
  let '(key, s) := e in
  if String.eqb metricType "cpu" then
    [row (key :: (FormatFloat 5 <$> [sm_min s; sm_mean s; sm_median s; sm_max s]))]
  else if String.eqb metricType "memory" then
    [row (key :: ((λ v, FormatFloat 0 (fdiv v (ofInt 1000000))) <$> [sm_min s; sm_mean s; sm_median s; sm_max s]))]
  else [].

Definition summaryFinite (s : Summary) : bool :=
  finite (sm_min s) && finite (sm_mean s) && finite (sm_median s) && finite (sm_max s).

Definition ExtractStats (contents : option string) (metricType outputType : string)
    : outcome StatsError StatsOutput :=
  data ← columnStats contents;
  if String.eqb outputType "text" then
    Ok (TextLines ([row ["Component"; "Min"; "Mean"; "Median"; "Max"]; row ["---"; "---"; "---"; "---"; "---"]] ++
                   (data ≫= textLine metricType)))
  else if String.eqb outputType "json" then
    if forallb (λ e, summaryFinite e.2) data then Ok (JsonObject data) else Err NotJSON
  else Ok NoOutput.

(** [stats/main.go]: the flags, and what is printed; an error of the texts exits with 1. *)
Definition statsMain (open : string → option string) (file metricType outputType : string)
    : outcome string StatsOutput :=
  if String.eqb file "" then Err "'--file' parameter is required"
  else if String.eqb metricType "" then Err "'--type' parameter is required"
  else if negb (String.eqb metricType "cpu") && negb (String.eqb metricType "memory")
  then Err ("'--type' '" +:+ metricType +:+ "' is not valid, should be 'cpu' or 'memory'")
  else if negb (String.eqb outputType "text") && negb (String.eqb outputType "json")
  then Err ("'--output' '" +:+ outputType +:+ "' is not valid, should be 'text' or 'json'")
  else
    match ExtractStats (open file) metricType outputType with
    | Ok out => Ok out
    | Err _ => Err "There was an error extracing statistics"
    | Panic => Panic
    end.

(** ** [merge/main.go] *)

Record WorkflowRun := { wr_Id : Z; wr_HeadSha : string; wr_Event : string; wr_CreatedAt : string }.

Record Stat := { st_Min : F; st_Max : F; st_Median : F; st_Mean : F; st_RequestsPerSecond : F }.

Record Stats := {
  ss_CreatedAt : string; ss_HeadSha : string; ss_Id : Z; ss_Api : Stat; ss_Sink : Stat; ss_Operator : Stat;
}.

Definition zeroStat : Stat :=
  {| st_Min := ofInt 0; st_Max := ofInt 0; st_Median := ofInt 0; st_Mean := ofInt 0;
     st_RequestsPerSecond := ofInt 0 |}.

(** The statistics of a component, read back from the JSON object. *)
Definition statOf (data : list (string * Summary)) (component : string) : Stat :=
  match List.find (λ e, String.eqb e.1 component) data with
  | Some (_, s) =>
      {| st_Min := sm_min s; st_Max := sm_max s; st_Median := sm_median s; st_Mean := sm_mean s;
         st_RequestsPerSecond := ofInt 0 |}
  | None => zeroStat
  end.

(** The loop over the scheduled runs: a run without the file is skipped, any other error
    panics. *)
Fixpoint collectRuns {A} (statsOf : WorkflowRun → outcome StatsError A) (runs : list WorkflowRun)
    : outcome StatsError (list A) :=
  match runs with
  | [] => Ok []
  | run :: runs =>
      if negb (String.eqb (wr_Event run) "schedule") then collectRuns statsOf runs
      else
        match statsOf run with
        | Err NotExist => collectRuns statsOf runs
        | Err _ | Panic => Panic
        | Ok s => rest ← collectRuns statsOf runs; Ok (s :: rest)
        end
  end.

Definition createdBefore (a b : Stats) : Prop := String.le (ss_CreatedAt a) (ss_CreatedAt b).

#[export] Instance createdBefore_dec : RelDecision createdBefore.
Proof. intros a b. unfold createdBefore. apply _. Defined.

(** The statistics of a run, from the contents of its file. *)
Definition runStats (run : WorkflowRun) (contents : option string) (metricType : string)
    : outcome StatsError Stats :=
  out ← ExtractStats contents metricType "json";
  match out with
  | JsonObject data =>
      Ok {| ss_CreatedAt := wr_CreatedAt run; ss_HeadSha := wr_HeadSha run; ss_Id := wr_Id run;
            ss_Api := statOf data "kubearchive.api"; ss_Sink := statOf data "kubearchive.sink";
            ss_Operator := statOf data "kubearchive.operator" |}
  | _ => Panic
  end.

(** [getStats]; [open] is the file of a run.  The order of runs created at one time is
    unspecified. *)
Definition getStats (open : WorkflowRun → option string) (metricType : string) (runs : list WorkflowRun)
    : outcome StatsError (list Stats) :=
  stats ← collectRuns (λ run, runStats run (open run) metricType) runs;
  Ok (merge_sort createdBefore stats).

(** The aggregated row of locust, from its third column on; any error panics. *)
Fixpoint locustValues (header : list string) (ix : nat) (rawData : gmap string F) (record : list string)
    : outcome StatsError (gmap string F) :=
  match record with
  | [] => Ok rawData
  | valueString :: record =>
      if (ix <? 2)%nat then locustValues header (S ix) rawData record
      else
        match ParseFloat64 valueString with
        | None => Panic
        | Some value =>
            key ← index header (Z.of_nat ix);
            locustValues header (S ix) (<[key := value]> rawData) record
        end
  end.

Definition locustOf (run : WorkflowRun) (contents : option string) : outcome StatsError Stats :=
  match contents with
  | None => Err NotExist
  | Some text =>
      let records := recordOf <$> ReadAll text in
      header ← index records 0;
      record ← index records 2;
      rawData ← locustValues header 0 ∅ record;
      let value key := default (ofInt 0) (rawData !! key) in
      Ok {| ss_CreatedAt := wr_CreatedAt run; ss_HeadSha := wr_HeadSha run; ss_Id := wr_Id run;
            ss_Api := zeroStat; ss_Operator := zeroStat;
            ss_Sink := {| st_Min := value "Min Response Time"; st_Max := value "Max Response Time";
                          st_Median := value "Median Response Time"; st_Mean := value "Mean Response Time";
                          st_RequestsPerSecond := value "Requests/s" |} |}
  end.

Definition getLocustStats (open : WorkflowRun → option string) (runs : list WorkflowRun)
    : outcome StatsError (list Stats) :=
  collectRuns (λ run, locustOf run (open run)) runs.

(** The lines of the merged tables; [%f] has six decimals. *)
Definition statCells (digits : nat) (st : Stat) : list string :=
  FormatFloat digits <$> [st_Max st; st_Min st; st_Mean st; st_Median st].

Definition statsLine (digits : nat) (s : Stats) : string :=
  Join "," (ss_CreatedAt s :: statCells digits (ss_Api s) ++ statCells digits (ss_Sink s) ++
            statCells digits (ss_Operator s)).

Definition requestsLine (s : Stats) : string :=
  Join "," (ss_CreatedAt s :: statCells 0 (ss_Sink s) ++ [FormatFloat 0 (st_RequestsPerSecond (ss_Sink s))]).

Definition statsHeader : string :=
  "created.at,api.max,api.min,api.mean,api.median,sink.max,sink.min,sink.mean,sink.median,operator.max,operator.min,operator.mean,operator.median".

Definition requestsHeader : string := "created.at,max,min,mean,median,req/s".

(** The files [main] writes, in order, once the archives are unpacked; [open] is the file
    of a run and a name. *)
Definition mergedTables (open : string → WorkflowRun → option string) (runs : list WorkflowRun)
    : outcome StatsError (list (string * list string)) :=
  let usage name metricType digits :=
    l ← getStats (open name) metricType runs; Ok (name, statsHeader :: (statsLine digits <$> l)) in
  let requests name file :=
    l ← getLocustStats (open file) runs; Ok (name, requestsHeader :: (requestsLine <$> l)) in
  t1 ← usage "get-cpu.csv" "cpu" 6%nat;
  t2 ← usage "create-cpu.csv" "cpu" 6%nat;
  t3 ← usage "get-memory.csv" "memory" 0%nat;
  t4 ← usage "create-memory.csv" "memory" 0%nat;
  t5 ← requests "create-req.csv" "create_stats.csv";
  t6 ← requests "get-req.csv" "get_stats.csv";
  Ok [t1; t2; t3; t4; t5; t6].
End statistics.

(** [path/filepath], on paths with slashes: the components of a clean path. *)
Definition cleanStep (rooted : bool) (parts : list string) (p : string) : list string :=
  if String.eqb p "" || String.eqb p "." then parts
  else if String.eqb p ".." then
    match last parts with
    | Some l => if String.eqb l ".." then parts ++ [p] else removelast parts
    | None => if rooted then [] else [p]
    end
  else parts ++ [p].

Definition cleanParts (rooted : bool) (parts : list string) : list string := foldl (cleanStep rooted) [] parts.

Definition Clean (path : string) : string :=
  let rooted := HasPrefix path "/" in
  let cleaned := Join "/" (cleanParts rooted (Split "/" path)) in
  if rooted then "/" +:+ cleaned else if nonempty cleaned then cleaned else ".".

Definition JoinPath (d t : string) : string :=
  if nonempty d then Clean (if nonempty t then d +:+ "/" +:+ t else d)
  else if nonempty t then Clean t else "".

(** [None] is the error of a path that is tainted. *)
Definition SanitizeArchivePath (d t : string) : option string :=
  let v := JoinPath d t in
  if HasPrefix v (Clean d) then Some v else None.

(** ** [metrics/main.go]

    The answer of Prometheus: for each job, its values with their times, as texts. *)
Definition addSample (data : gmap string (list string)) (sample : string * string) : gmap string (list string) :=
  <[sample.1 := default [] (data !! sample.1) ++ [sample.2]]> data.

(** The header of the table and its rows, which are written in the order of the map. *)
Definition tabulate `{!MapRange} (results : list (string * list (string * string)))
    : list (list string) :=
  let data := foldl (λ data result, foldl addSample data result.2) ∅ results in
  ("timestamp" :: results.*1) :: ((λ e, e.1 :: e.2) <$> range (map_to_list data)).

(** ** The statistics *)

Section facts.
  Context `{!Float64, !CsvLib, !MapRange}.

(** What the median is of sorted values: the middle only for a multiple of four.  A
    single value panics; of an odd number the value before the middle is taken, of the
    other even numbers the lower of the two. *)
Lemma median_spec (values : list F) :
  let n := length values in
  match median values with
  | Panic => n = 0%nat ∨ n = 1%nat
  | Err _ => False
  | Ok m =>
      if (n mod 4 =? 0)%nat
      then ∃ a b, values !! (n / 2 - 1)%nat = Some a ∧ values !! (n / 2)%nat = Some b ∧
             m = fdiv (fadd a b) (ofInt 2)
      else values !! (n / 2 - 1)%nat = Some m
  end.
Proof.
  intros n. unfold median. fold n. assert (length values = n) as Hlen by done. clearbody n.
  replace (Z.of_nat n mod 4 =? 0)%Z with (n mod 4 =? 0)%nat.
  2: { change 4%Z with (Z.of_nat 4). rewrite <-Nat2Z.inj_mod. destruct (Nat.eqb_spec (n mod 4) 0) as [E|E].
       - by rewrite E.
       - symmetry. apply Z.eqb_neq. lia. }
  replace (Z.of_nat n / 2 - 1)%Z with (Z.of_nat (n / 2) - 1)%Z by (by rewrite Nat2Z.inj_div).
  destruct (decide (n < 2)%nat) as [Hn|Hn].
  { assert (n = 0 ∨ n = 1)%nat as [Hz|Hz] by lia; rewrite Hz; [by left|by right]. }
  assert (1 <= n / 2)%nat as Hlo by (apply Nat.div_le_lower_bound; lia).
  assert (n / 2 < n)%nat as Hhi by (apply Nat.div_lt; lia).
  destruct (lookup_lt_is_Some_2 values (n / 2 - 1)) as [a Ha]; [lia|].
  destruct (lookup_lt_is_Some_2 values (n / 2)) as [b Hb]; [lia|].
  rewrite (index_Ok _ (Z.of_nat (n / 2) - 1) a); [|lia|replace (Z.to_nat _) with (n / 2 - 1)%nat by lia; done].
  cbn [mbind outcome_bind]. destruct (n mod 4 =? 0)%nat; [|done].
  rewrite (index_Ok _ (Z.of_nat (n / 2) - 1 + 1) b); [|lia|replace (Z.to_nat _) with (n / 2)%nat by lia; done].
  cbn [mbind outcome_bind]. eauto.
Qed.

(** A file with one row of values panics. *)
Lemma one_row_panics v : summarize [v] = Panic.
Proof. reflexivity. Qed.

Lemma addRecord_columns header ix rawData record values :
  NoDup header → (1 <= ix)%nat → (ix + length record <= length header)%nat →
  mapM ParseFloat64 record = Some values →
  ∃ rawData', addRecord header ix rawData record = Ok rawData' ∧
    ∀ i key, header !! i = Some key →
      rawData' !! key = match (if (ix <=? i)%nat then values !! (i - ix)%nat else None) with
                        | Some v => Some (default [] (rawData !! key) ++ [v])
                        | None => rawData !! key
                        end.
Proof.
  intros Hnd. revert ix rawData values. induction record as [|text record IH]; intros ix rawData values Hix Hlen Hv.
  { injection Hv as <-. exists rawData. split; [done|]. intros i key _. by destruct (ix <=? i)%nat. }
  apply mapM_Some in Hv. apply Forall2_cons_inv_l in Hv as (v & vs & Hp & Hv%mapM_Some & ->). cbn [length] in Hlen.
  destruct (lookup_lt_is_Some_2 header ix) as [k Hk]; [lia|]. cbn [addRecord]. unfold addValue.
  rewrite (proj2 (Nat.eqb_neq ix 0)) by lia. rewrite Hp.
  rewrite (index_Ok _ _ k); [|lia|by rewrite Nat2Z.id]. cbn [mbind outcome_bind].
  destruct (IH (S ix) (<[k := default [] (rawData !! k) ++ [v]]> rawData) vs) as (m & Hm & Hc); [lia|lia|done|].
  exists m. split; [done|]. intros i key Hi. rewrite (Hc i key Hi).
  destruct (decide (i = ix)) as [->|Hne].
  - assert (key = k) as -> by congruence. rewrite (proj2 (Nat.leb_gt (S ix) ix)) by lia.
    rewrite Nat.leb_refl, Nat.sub_diag, lookup_insert_eq. done.
  - rewrite lookup_insert_ne by (intros ->; apply Hne; by eapply NoDup_lookup).
    destruct (Nat.leb_spec ix i) as [Hle|Hle].
    + rewrite (proj2 (Nat.leb_le (S ix) i)) by lia. by replace (i - ix)%nat with (S (i - S ix)) by lia.
    + by rewrite (proj2 (Nat.leb_gt (S ix) i)) by lia.
Qed.

(** The columns of a table whose rows are as long as its header: under the name of each
    but the first, the values of the rows, in order. *)
Lemma addRecords_columns header rawData records rows :
  NoDup header → Forall2 (λ r values, length r = length header ∧ mapM ParseFloat64 (drop 1 r) = Some values) records rows →
  ∃ rawData', addRecords header rawData records = Ok rawData' ∧
    ∀ i key, header !! S i = Some key →
      rawData' !! key = match omap (λ values, values !! i) rows with
                        | [] => rawData !! key
                        | column => Some (default [] (rawData !! key) ++ column)
                        end.
Proof.
  intros Hnd Hrows. revert rawData.
  induction Hrows as [|r values records rows [Hlen Hv] _ IH]; intros rawData; [by exists rawData|].
  cbn [addRecords]. destruct r as [|t r].
  { destruct header; [|done]. injection Hv as <-. destruct (IH rawData) as (m & Hm & _). by exists m. }
  cbn [addRecord addValue Nat.eqb mbind outcome_bind]. cbn [length] in Hlen. cbn [drop] in Hv.
  destruct (addRecord_columns header 1 rawData r values) as (m & -> & Hc); [done|lia|lia|done|].
  destruct (IH m) as (m' & Hm' & Hc'). exists m'. split; [done|]. intros i key Hi.
  rewrite (Hc' i key Hi), (Hc (S i) key Hi). cbn [Nat.leb]. rewrite Nat.sub_succ, Nat.sub_0_r.
  cbn [omap list_omap]. destruct (values !! i) as [v|]; [|done].
  destruct (omap _ rows) as [|x xs]; cbn [from_option id]; [done|]. by rewrite <-app_assoc.
Qed.

(** *** The merge *)

Lemma collectRuns_Ok {A} (statsOf : WorkflowRun → outcome StatsError A) runs l :
  collectRuns statsOf runs = Ok l →
  l = omap (λ run, match statsOf run with Ok s => Some s | _ => None end)
        (filter (λ run, wr_Event run = "schedule") runs) ∧
  ∀ run, run ∈ runs → wr_Event run = "schedule" → statsOf run = Err NotExist ∨ ∃ s, statsOf run = Ok s.
Proof.
  revert l. induction runs as [|run runs IH]; intros l; cbn [collectRuns].
  { intros [= <-]. split; [done|]. by intros ? ?%not_elem_of_nil. }
  rewrite filter_cons. destruct (String.eqb_spec (wr_Event run) "schedule") as [E|E]; cbn [negb].
  - rewrite decide_True by done. cbn [omap list_omap]. destruct (statsOf run) as [s|[]|] eqn:Es; try done.
    + destruct (collectRuns statsOf runs) as [rest| |]; try done. intros [= <-].
      destruct (IH rest eq_refl) as [-> Hall]. split; [done|].
      intros r [->|Hr]%elem_of_cons Hs; [right; by exists s|by apply Hall].
    + intros Hl. destruct (IH l Hl) as [-> Hall]. split; [done|].
      intros r [->|Hr]%elem_of_cons Hs; [by left|by apply Hall].
  - rewrite decide_False by done. intros Hl. destruct (IH l Hl) as [-> Hall]. split; [done|].
    intros r [->|Hr]%elem_of_cons Hs; [done|by apply Hall].
Qed.

#[local] Instance createdBefore_total : Total createdBefore.
Proof. intros a b. unfold createdBefore. apply (total String.le). Qed.
#[local] Instance createdBefore_trans : Transitive createdBefore.
Proof. intros a b c. unfold createdBefore. apply (transitivity (R := String.le)). Qed.

(** The statistics of the scheduled runs that have the file, oldest first. *)
Lemma getStats_sorted open metricType runs l :
  getStats open metricType runs = Ok l →
  StronglySorted createdBefore l ∧
  l ≡ₚ omap (λ run, match runStats run (open run) metricType with Ok s => Some s | _ => None end)
          (filter (λ run, wr_Event run = "schedule") runs).
Proof.
  unfold getStats. destruct (collectRuns _ runs) as [stats| |] eqn:E; try done. intros [= <-].
  apply collectRuns_Ok in E as [<- _]. split; [apply StronglySorted_merge_sort; apply _|].
  apply merge_sort_Permutation.
Qed.
End facts.

(** *** The table of Prometheus *)

Lemma addSamples_lookup (samples : list (string * string)) data t :
  NoDup samples.*1 →
  foldl addSample data samples !! t =
  match List.find (λ s, String.eqb s.1 t) samples with
  | Some s => Some (default [] (data !! t) ++ [s.2])
  | None => data !! t
  end.
Proof.
  revert data. induction samples as [|[t' v] samples IH]; intros data Hnd; [done|].
  cbn [fmap list_fmap foldl List.find fst] in *. apply NoDup_cons in Hnd as [Hn Hnd].
  rewrite IH by done. unfold addSample at 1 2. cbn [fst snd].
  destruct (String.eqb_spec t' t) as [->|Hne].
  - destruct (List.find _ samples) as [s|] eqn:E.
    + apply find_some in E as [Hin Heq%String.eqb_eq]. exfalso. apply Hn, list_elem_of_fmap.
      exists s. split; [done|]. by apply list_elem_of_In.
    + by rewrite lookup_insert_eq.
  - by rewrite lookup_insert_ne.
Qed.

(** A row has a value for each job that has one at its time, and no gap for the others:
    the columns are right when every job has a value. *)
Lemma tabulate_row (results : list (string * list (string * string))) data t :
  Forall (λ r, NoDup r.2.*1) results →
  default [] (foldl (λ data result, foldl addSample data result.2) data results !! t) =
  default [] (data !! t) ++ omap (λ r, snd <$> List.find (λ s, String.eqb s.1 t) r.2) results.
Proof.
  intros Hr. revert data. induction Hr as [|r results Hnd _ IH]; intros data; cbn [foldl omap list_omap].
  { by rewrite app_nil_r. }
  rewrite IH, addSamples_lookup by done. destruct (List.find _ r.2) as [s|]; [|done].
  cbn [from_option id fmap option_fmap option_map snd]. by rewrite <-app_assoc.
Qed.

(** *** The paths of an archive *)

Lemma Split_between sep a b : Split sep (a +:+ String sep b) = Split sep a ++ Split sep b.
Proof.
  induction a as [|c a IH]; [by rewrite string_app_nil; cbn; rewrite Ascii.eqb_refl|].
  rewrite string_app_cons. cbn [Split]. destruct (Ascii.eqb c sep); [by rewrite IH|].
  rewrite IH. pose proof (Split_nonempty sep a). by destruct (Split sep a).
Qed.

Lemma Join_app sep a b : a ≠ [] → b ≠ [] → Join sep (a ++ b) = Join sep a +:+ String sep (Join sep b).
Proof.
  intros Ha Hb. induction a as [|p [|q a] IH]; [done| |].
  - destruct b as [|r b]; [done|]. cbn [app]. by rewrite Join_cons.
  - cbn [app] in *. rewrite !Join_cons, IH by done. by rewrite string_app_assoc, string_app_cons.
Qed.

(** The components that name something. *)
Definition names (parts : list string) : list string := filter (λ p, p ≠ "" ∧ p ≠ ".") parts.

Lemma cleanStep_names rooted acc parts :
  ".." ∉ parts → foldl (cleanStep rooted) acc parts = acc ++ names parts.
Proof.
  revert acc. induction parts as [|p parts IH]; intros acc Hp; cbn [foldl]; [by rewrite app_nil_r|].
  apply not_elem_of_cons in Hp as [Hp Hps]. rewrite IH by done. unfold names. rewrite filter_cons.
  unfold cleanStep. destruct (String.eqb_spec p "") as [->|H1]; [by rewrite decide_False by naive_solver|].
  destruct (String.eqb_spec p ".") as [->|H2]; [by rewrite decide_False by naive_solver|]. cbn [orb].
  rewrite (proj2 (String.eqb_neq p "..")) by done. rewrite decide_True by done. by rewrite <-app_assoc.
Qed.

(** An entry whose name does not go up is unpacked under the directory of its run. *)
Lemma SanitizeArchivePath_inside d t :
  HasPrefix d "/" = false → ".." ∉ Split "/" t → names (Split "/" t) ≠ [] →
  nonempty (Join "/" (cleanParts false (Split "/" d))) = true →
  SanitizeArchivePath d t = Some (Clean d +:+ "/" +:+ Join "/" (names (Split "/" t))).
Proof.
  intros Hroot Ht Hn Hd. unfold SanitizeArchivePath, JoinPath.
  assert (nonempty d = true) as -> by (destruct d; [by cbn in Hd|done]).
  assert (nonempty t = true) as -> by (destruct t; [by cbn in Hn|done]).
  assert (Clean (d +:+ "/" +:+ t) = Clean d +:+ "/" +:+ Join "/" (names (Split "/" t))) as ->.
  { unfold Clean. assert (HasPrefix (d +:+ "/" +:+ t) "/" = false) as ->.
    { destruct d as [|c d]; [by cbn in Hd|]. rewrite string_app_cons. revert Hroot. unfold HasPrefix.
      cbn [String.prefix]. destruct (ascii_dec "/" c); [by destruct d|done]. }
    rewrite Hroot, Hd. change (d +:+ "/" +:+ t) with (d +:+ String "/" t).
    rewrite Split_between. unfold cleanParts at 1 2. rewrite foldl_app, cleanStep_names by done.
    fold (cleanParts false (Split "/" d)). rewrite Join_app; [|intros E; by rewrite E in Hd|done].
    destruct (Join "/" (cleanParts false (Split "/" d))); [by cbn in Hd|done]. }
  by rewrite HasPrefix_app.
Qed.

(** One that goes up is accepted when the name of the sibling continues the name of the
    directory. *)
Lemma sibling_accepted : SanitizeArchivePath "merge/1" "../12/get-cpu.csv" = Some "merge/12/get-cpu.csv".
Proof. reflexivity. Qed.

(** *** Examples *)

(** The first job has no value at the second time: the value of the other one is in its
    column. *)
Lemma columns_shift :
  foldl (λ data result, foldl addSample data result.2) ∅
    [("api", [("1", "a1")]); ("sink", [("1", "s1"); ("2", "s2")])] =
  <["1" := ["a1"; "s1"]]> (<["2" := ["s2"]]> ∅).
Proof. reflexivity. Qed.

(** Whole numbers, as they are written. *)
#[local] Instance whole : Float64 := {|
  F := Z; ParseFloat64 := parseDigits; ofInt := id; fmin := Z.min; fmax := Z.max; fadd := Z.add; fdiv := Z.div;
  finite := λ _, true; FormatFloat := λ _, FormatInt; fle := Z.le |}.

(** The median of 1, 5 and 9 is 1, and of 1 and 9 it is 1. *)
Lemma medians : median [1; 5; 9]%Z = Ok 1%Z ∧ median [1; 9]%Z = Ok 1%Z ∧ median [1; 5; 7; 9]%Z = Ok 6%Z.
Proof. split_and!; reflexivity. Qed.
